(** * Advanced Mouth De-Click: a shallow embedding of [content.js]

    The development follows the class [AdvancedMouthDeClicker]: the
    configuration setters, the loudness tracker, the LPC analyser, the
    spectral analysers, the confidence fusion of [detectMouthClick], the
    rate limiter [shouldProcessClick] and the gain scheduler
    [handleMouthClickDetected].  It continues with
    [interpolateAudioSegment], the settings the constructor loads from
    the store, the switches [toggleProcessing] and [toggleDebug], the loop
    of [analyzeAudio], the message listener, and the detector of the
    earlier class [ClickRemover].

    Numbers.  A JavaScript number is modelled by [jsnum]: a real, one of
    the two infinities, or NaN.  Arithmetic on finite values is exact real
    arithmetic: rounding, overflow of finite results and the sign of zero
    are not modelled.  The special values follow ECMAScript: NaN
    propagates, comparisons with NaN are false, [x / 0] is an infinity or
    NaN.  The configuration, the loudness tracker, the rate limiter and the
    gain scheduler (the places where the source guards with [isFinite]) are
    written over [jsnum]; the signal analysis of one frame is written over
    [R], for frames of finite samples and spectra of finite decibel
    values.  Two places where the source leaves the finite numbers are
    written over [jsnum] beside it: the autocorrelation of the empty
    window ([autocorrelationAt]) and the flux of spectra with bins at
    -Infinity ([spectralFluxOfBins]). *)

From Stdlib Require Import Reals Lra Lia String ZArith Bool List.
Import ListNotations.

Local Open Scope R_scope.

(** ** JavaScript numbers *)

Module JS.

Inductive jsnum : Type :=
| Fin (r : R)
| PInf
| NInf
| NaN.

Definition Rltb (x y : R) : bool := if Rlt_dec x y then true else false.
Definition Rleb (x y : R) : bool := if Rle_dec x y then true else false.
Definition Reqb (x y : R) : bool := if Req_dec_T x y then true else false.

Definition isFinite (x : jsnum) : bool :=
  match x with Fin _ => true | _ => false end.

(** [x < y] of the language: false as soon as one side is NaN. *)
Definition lt (x y : jsnum) : bool :=
  match x, y with
  | NaN, _ | _, NaN => false
  | Fin a, Fin b => Rltb a b
  | NInf, NInf => false
  | NInf, _ => true
  | _, NInf => false
  | PInf, _ => false
  | Fin _, PInf => true
  end.

Definition le (x y : jsnum) : bool :=
  match x, y with
  | NaN, _ | _, NaN => false
  | Fin a, Fin b => Rleb a b
  | NInf, _ => true
  | Fin _, NInf | PInf, NInf => false
  | PInf, PInf => true
  | PInf, Fin _ => false
  | Fin _, PInf => true
  end.

Definition gt (x y : jsnum) : bool := lt y x.
Definition ge (x y : jsnum) : bool := le y x.

Definition neg (x : jsnum) : jsnum :=
  match x with
  | Fin a => Fin (- a)
  | PInf => NInf
  | NInf => PInf
  | NaN => NaN
  end.

Definition add (x y : jsnum) : jsnum :=
  match x, y with
  | NaN, _ | _, NaN => NaN
  | Fin a, Fin b => Fin (a + b)
  | PInf, NInf | NInf, PInf => NaN
  | PInf, _ | _, PInf => PInf
  | NInf, _ | _, NInf => NInf
  end.

Definition sub (x y : jsnum) : jsnum := add x (neg y).

(** The infinity carrying the sign of [a * b], for [a] an infinity of sign
    [pos] and [b] finite; NaN when [b] is zero. *)
Definition signedInf (pos : bool) (b : R) : jsnum :=
  if Reqb b 0 then NaN
  else if Bool.eqb pos (Rltb 0 b) then PInf else NInf.

Definition mul (x y : jsnum) : jsnum :=
  match x, y with
  | NaN, _ | _, NaN => NaN
  | Fin a, Fin b => Fin (a * b)
  | PInf, Fin b | Fin b, PInf => signedInf true b
  | NInf, Fin b | Fin b, NInf => signedInf false b
  | PInf, PInf | NInf, NInf => PInf
  | PInf, NInf | NInf, PInf => NInf
  end.

Definition div (x y : jsnum) : jsnum :=
  match x, y with
  | NaN, _ | _, NaN => NaN
  | Fin a, Fin b =>
      if Reqb b 0 then signedInf true a else Fin (a / b)
  | Fin _, PInf | Fin _, NInf => Fin 0
  | PInf, Fin b => if Rltb b 0 then NInf else PInf
  | NInf, Fin b => if Rltb b 0 then PInf else NInf
  | _, _ => NaN
  end.

(** [Math.max] and [Math.min] of two arguments. *)
Definition Math_max (x y : jsnum) : jsnum :=
  match x, y with
  | NaN, _ | _, NaN => NaN
  | _, _ => if lt x y then y else x
  end.

Definition Math_min (x y : jsnum) : jsnum :=
  match x, y with
  | NaN, _ | _, NaN => NaN
  | _, _ => if lt y x then y else x
  end.

Definition Math_sqrt (x : jsnum) : jsnum :=
  match x with
  | Fin a => if Rltb a 0 then NaN else Fin (sqrt a)
  | PInf => PInf
  | _ => NaN
  end.

Definition log10 (a : R) : R := ln a / ln 10.

Definition Math_log10 (x : jsnum) : jsnum :=
  match x with
  | Fin a =>
      if Rltb a 0 then NaN else if Reqb a 0 then NInf else Fin (log10 a)
  | PInf => PInf
  | _ => NaN
  end.

Definition isInteger (a : R) : bool := Reqb (IZR (Int_part a)) a.
Definition isOddInteger (a : R) : bool :=
  isInteger a && Z.odd (Int_part a).

(** [Math.pow base exponent], after Number::exponentiate. *)
Definition Math_pow (base exponent : jsnum) : jsnum :=
  match exponent with
  | NaN => NaN
  | Fin e =>
      if Reqb e 0 then Fin 1 else
      match base with
      | NaN => NaN
      | PInf => if Rltb 0 e then PInf else Fin 0
      | NInf =>
          if Rltb 0 e then (if isOddInteger e then NInf else PInf)
          else Fin 0
      | Fin b =>
          if Rltb 0 b then Fin (Rpower b e)
          else if Reqb b 0 then (if Rltb 0 e then Fin 0 else PInf)
          else if isInteger e
               then Fin ((if Z.odd (Int_part e) then -1 else 1)
                         * Rpower (- b) e)
               else NaN
      end
  | PInf =>
      match base with
      | NaN => NaN
      | Fin b =>
          if Rltb 1 (Rabs b) then PInf
          else if Reqb (Rabs b) 1 then NaN else Fin 0
      | _ => PInf
      end
  | NInf =>
      match base with
      | NaN => NaN
      | Fin b =>
          if Rltb 1 (Rabs b) then Fin 0
          else if Reqb (Rabs b) 1 then NaN else PInf
      | _ => Fin 0
      end
  end.

End JS.

Import JS.

Declare Scope js_scope.
Delimit Scope js_scope with js.
Bind Scope js_scope with jsnum.
Infix "+" := JS.add : js_scope.
Infix "-" := JS.sub : js_scope.
Infix "*" := JS.mul : js_scope.
Infix "/" := JS.div : js_scope.
Infix "<?" := JS.lt : js_scope.
Infix "<=?" := JS.le : js_scope.
Infix ">?" := JS.gt : js_scope.
Infix ">=?" := JS.ge : js_scope.

Coercion Fin : R >-> jsnum.

(** ** Data model *)

(** [this.params]: the five tunables.  The nested [thresholds] and
    [freqWeights] objects are never written after construction and are
    the constants of [Thresholds] and [FreqWeights] below. *)
Record DetectionParameters : Type := mkParams {
  sensitivity : jsnum;
  frequencySkew : jsnum;
  clickWidening : jsnum;
  reductionAmount : jsnum;
  mode : string
}.

Module Thresholds.
Definition lpcError : R := 0.018.
Definition spectralFlux : R := 0.16.
Definition transientRatio : R := 2.8.
Definition mouthBandEnergy : R := 0.012.
Definition confidenceThreshold : R := 0.65.
End Thresholds.

Module FreqWeights.
Definition low : R := 0.2.
Definition mid : R := 0.6.
Definition high : R := 1.0.
Definition mouth : R := 1.5.
End FreqWeights.

(** One call on the automation timeline of [clickGain.gain]. *)
Inductive GainEvent : Type :=
| cancelScheduledValues (time : jsnum)
| setValueAtTime (value time : jsnum)
| linearRampToValueAtTime (value time : jsnum).

(** The gain value an event places on the curve, if it places one. *)
Definition gainValue (e : GainEvent) : option jsnum :=
  match e with
  | cancelScheduledValues _ => None
  | setValueAtTime v _ | linearRampToValueAtTime v _ => Some v
  end.

Record BinRange : Type := mkBins { minBin : Z; maxBin : Z }.

(** The fields of an [AdvancedMouthDeClicker] that the analysis reads or
    writes, grouped by the component that owns them: the buffers of the
    signal analysis, the loudness tracker, the rate limiter.
    [gainTimeline] records the calls made on [clickGain.gain], the latest
    last. *)
Record Analyser : Type := mkAnalyser {
  sampleRate : Z;
  bufferSize : nat;
  circularBuffer : list R;
  bufferIndex : nat;
  freqBinCache : option (list (string * BinRange));
  cacheSampleRate : Z;
  previousSpectrum : list R
}.

Record LoudnessState : Type := mkLoudnessState {
  loudnessHistory : list jsnum;
  adaptiveThreshold : jsnum;
  backgroundNoiseLevel : jsnum;
  signalToNoiseRatio : jsnum
}.

Record RateLimiterState : Type := mkLimiter {
  clickHistory : list R;
  maxClicksPerSecond : nat;
  minClickInterval : R;
  lastClickTime : R;
  clickSuppressionTime : R
}.

Record State : Type := mkState {
  analyser : Analyser;
  loudnessState : LoudnessState;
  limiter : RateLimiterState;
  params : DetectionParameters;
  processingEnabled : bool;
  clickCount : nat;
  gainTimeline : list GainEvent
}.

Definition lpcOrder : nat := 16.

(** [analyser.fftSize = 8192], so [analyser.frequencyBinCount] is 4096; the
    frame buffers [timeData], [freqData] and [previousSpectrum] have that
    length. *)
Definition frequencyBinCount : nat := 4096.

(** [delayNode.delayTime.value], in seconds. *)
Definition lookAheadDelay : R := 0.12.

Definition defaultParams : DetectionParameters :=
  {| sensitivity := Fin 1.0;
     frequencySkew := Fin 0.0;
     clickWidening := Fin 5.0;
     reductionAmount := Fin (-60);
     mode := "click" |}.

(** The state the constructor builds, for a context of the given whole
    sample rate, once the stored settings have been read; the circular
    buffer holds [Math.floor(sampleRate * 0.12)] samples. *)
Definition initialState (rate : Z) (enabled : bool) : State :=
  {| analyser :=
       {| sampleRate := rate;
          bufferSize := Z.to_nat (rate * 12 / 100);
          circularBuffer := repeat 0 (Z.to_nat (rate * 12 / 100));
          bufferIndex := 0;
          freqBinCache := None;
          cacheSampleRate := 0;
          previousSpectrum := repeat 0 frequencyBinCount |};
     loudnessState :=
       {| loudnessHistory := repeat (Fin (-60)) 30;
          adaptiveThreshold := Fin 0.35;
          backgroundNoiseLevel := Fin (-40);
          signalToNoiseRatio := Fin 1.0 |};
     limiter :=
       {| clickHistory := [];
          maxClicksPerSecond := 8;
          minClickInterval := 125;
          lastClickTime := 0;
          clickSuppressionTime := 0 |};
     params := defaultParams;
     processingEnabled := enabled;
     clickCount := 0;
     gainTimeline := [] |}.

(** Functional updates of one component. *)
Definition withParams (st : State) (p : DetectionParameters) : State :=
  {| analyser := analyser st; loudnessState := loudnessState st;
     limiter := limiter st; params := p;
     processingEnabled := processingEnabled st;
     clickCount := clickCount st; gainTimeline := gainTimeline st |}.

Definition withAnalyser (st : State) (a : Analyser) : State :=
  {| analyser := a; loudnessState := loudnessState st;
     limiter := limiter st; params := params st;
     processingEnabled := processingEnabled st;
     clickCount := clickCount st; gainTimeline := gainTimeline st |}.

Definition withLoudnessState (st : State) (l : LoudnessState) : State :=
  {| analyser := analyser st; loudnessState := l;
     limiter := limiter st; params := params st;
     processingEnabled := processingEnabled st;
     clickCount := clickCount st; gainTimeline := gainTimeline st |}.

Definition withLimiter (st : State) (l : RateLimiterState) : State :=
  {| analyser := analyser st; loudnessState := loudnessState st;
     limiter := l; params := params st;
     processingEnabled := processingEnabled st;
     clickCount := clickCount st; gainTimeline := gainTimeline st |}.

(** ** Configuration interface *)

Definition withSensitivity (p : DetectionParameters) (v : jsnum) :=
  {| sensitivity := v; frequencySkew := frequencySkew p;
     clickWidening := clickWidening p;
     reductionAmount := reductionAmount p; mode := mode p |}.

Definition withFrequencySkew (p : DetectionParameters) (v : jsnum) :=
  {| sensitivity := sensitivity p; frequencySkew := v;
     clickWidening := clickWidening p;
     reductionAmount := reductionAmount p; mode := mode p |}.

Definition withClickWidening (p : DetectionParameters) (v : jsnum) :=
  {| sensitivity := sensitivity p; frequencySkew := frequencySkew p;
     clickWidening := v;
     reductionAmount := reductionAmount p; mode := mode p |}.

Definition withReductionAmount (p : DetectionParameters) (v : jsnum) :=
  {| sensitivity := sensitivity p; frequencySkew := frequencySkew p;
     clickWidening := clickWidening p;
     reductionAmount := v; mode := mode p |}.

Definition withMode (p : DetectionParameters) (m : string) :=
  {| sensitivity := sensitivity p; frequencySkew := frequencySkew p;
     clickWidening := clickWidening p;
     reductionAmount := reductionAmount p; mode := m |}.

(** [Math.max(lo, Math.min(hi, v))], the clamp of the four setters. *)
Definition clamp (lo hi : R) (v : jsnum) : jsnum :=
  Math_max (Fin lo) (Math_min (Fin hi) v).

Definition setSensitivity (p : DetectionParameters) (v : jsnum) :=
  withSensitivity p (clamp 0.1 2.0 v).

Definition setFrequencySkew (p : DetectionParameters) (v : jsnum) :=
  withFrequencySkew p (clamp (-1.0) 1.0 v).

Definition setClickWidening (p : DetectionParameters) (v : jsnum) :=
  withClickWidening p (clamp 1 20 v).

Definition setReductionAmount (p : DetectionParameters) (v : jsnum) :=
  withReductionAmount p (clamp (-60) 0 v).

(** [setMode]: an unknown mode is ignored; ['smack'] also raises the stored
    widening to at least 8 and lowers the stored skew by 0.2, not below
    -0.3. *)
Definition setMode (p : DetectionParameters) (m : string) :=
  if (String.eqb m "click" || String.eqb m "smack")%bool then
    let p1 := withMode p m in
    if String.eqb m "smack" then
      let p2 := withClickWidening p1
                  (Math_max (clickWidening p1) (Fin 8)) in
      withFrequencySkew p2
        (Math_max (Fin (-0.3)) (frequencySkew p2 - Fin 0.2)%js)
    else p1
  else p.

(** The argument of [updateParameters]: any subset of the tunables. *)
Record PartialParameters : Type := mkPartial {
  newSensitivity : option jsnum;
  newFrequencySkew : option jsnum;
  newClickWidening : option jsnum;
  newReductionAmount : option jsnum;
  newMode : option string
}.

Definition assignField {A : Type} (old : A) (new : option A) : A :=
  match new with Some v => v | None => old end.

(** [updateParameters]: [Object.assign(this.params, newParams)]. *)
Definition updateParameters (p : DetectionParameters)
    (newParams : PartialParameters) : DetectionParameters :=
  {| sensitivity := assignField (sensitivity p) (newSensitivity newParams);
     frequencySkew :=
       assignField (frequencySkew p) (newFrequencySkew newParams);
     clickWidening :=
       assignField (clickWidening p) (newClickWidening newParams);
     reductionAmount :=
       assignField (reductionAmount p) (newReductionAmount newParams);
     mode := assignField (mode p) (newMode newParams) |}.

(** The parameter messages of the [chrome.runtime.onMessage] listener. *)
Inductive Message : Type :=
| updateSensitivity (value : jsnum)
| updateFrequencySkew (value : jsnum)
| updateClickWidening (value : jsnum)
| updateReductionAmount (value : jsnum)
| updateMode (value : string).

Definition onMessage (p : DetectionParameters) (message : Message)
    : DetectionParameters :=
  match message with
  | updateSensitivity v => setSensitivity p v
  | updateFrequencySkew v => setFrequencySkew p v
  | updateClickWidening v => setClickWidening p v
  | updateReductionAmount v => setReductionAmount p v
  | updateMode m => setMode p m
  end.

(** ** Gain repair scheduler *)

(** What a method call leaves behind: a value, or an exception, with the
    object as the call left it. *)
Inductive Outcome (A : Type) : Type :=
| Returned (a : A)
| Thrown (st : State).
Arguments Returned {A} a.
Arguments Thrown {A} st.

Definition withGain (st : State) (calls : list GainEvent) (count : nat)
    : State :=
  {| analyser := analyser st; loudnessState := loudnessState st;
     limiter := limiter st; params := params st;
     processingEnabled := processingEnabled st;
     clickCount := count; gainTimeline := gainTimeline st ++ calls |}.

(** The reduction factor the scheduler resolves from [reductionAmount],
    with its safety check. *)
Definition resolveReductionFactor (reductionAmount : jsnum) : jsnum :=
  let reductionFactor :=
    if (reductionAmount <=? Fin (-60))%js
    then Fin 0.0001
    else Math_pow (Fin 10) (reductionAmount / Fin 20)%js in
  if (negb (isFinite reductionFactor) || (reductionFactor <=? Fin 0)%js)%bool
  then Fin 0.0001
  else reductionFactor.

Definition wideningDuration (p : DetectionParameters) : jsnum :=
  let baseWidening := (clickWidening p / Fin 1000)%js in
  let modeMultiplier := if String.eqb (mode p) "smack" then 1.5 else 1.0 in
  (baseWidening * Fin modeMultiplier)%js.

(** The automation calls of the [try] block, in order. *)
Definition smoothGainRamp (lookAheadTime wideningDuration reductionFactor
    : jsnum) : list GainEvent :=
  let fadeInTime := Math_max (Fin 0.01) (wideningDuration * Fin 0.5)%js in
  let fadeOutTime := Math_max (Fin 0.02) (wideningDuration * Fin 1.5)%js in
  [ cancelScheduledValues (lookAheadTime - wideningDuration * Fin 2)%js;
    setValueAtTime (Fin 1.0) (lookAheadTime - fadeInTime)%js;
    linearRampToValueAtTime (Math_max (Fin 0.1) reductionFactor)
      lookAheadTime;
    setValueAtTime (Math_max (Fin 0.1) reductionFactor)
      (lookAheadTime + wideningDuration)%js;
    linearRampToValueAtTime (Fin 0.6)
      (lookAheadTime + wideningDuration + fadeOutTime * Fin 0.3)%js;
    linearRampToValueAtTime (Fin 0.85)
      (lookAheadTime + wideningDuration + fadeOutTime * Fin 0.7)%js;
    linearRampToValueAtTime (Fin 1.0)
      (lookAheadTime + wideningDuration + fadeOutTime)%js ].

(** The automation calls of the [catch] block. *)
Definition fallbackGainRamp (lookAheadTime : jsnum) : list GainEvent :=
  [ cancelScheduledValues lookAheadTime;
    setValueAtTime (Fin 0.3) lookAheadTime;
    linearRampToValueAtTime (Fin 1.0) (lookAheadTime + Fin 0.05)%js ].

(** The audio graph is a collaborator: whether one of its automation calls
    throws is not decided by this code.  [fault = Some k] says that call
    number [k] of a sequence throws; the calls before it took effect. *)
Definition performCalls (calls : list GainEvent) (fault : option nat)
    : list GainEvent * bool :=
  match fault with
  | Some k => if (k <? length calls)%nat then (firstn k calls, true)
              else (calls, false)
  | None => (calls, false)
  end.

(** [handleMouthClickDetected(confidence)] at audio time [currentTime].
    [wideningDuration] is declared [const] in the source, so its safety
    check, when it fires, throws a TypeError instead of assigning 5ms. *)
Definition handleMouthClickDetected (st : State) (currentTime : R)
    (confidence : jsnum) (fault fallbackFault : option nat)
    : Outcome State :=
  let lookAheadTime := (Fin currentTime + Fin lookAheadDelay)%js in
  let wideningDuration := wideningDuration (params st) in
  let reductionFactor :=
    resolveReductionFactor (reductionAmount (params st)) in
  let confidence :=
    if (negb (isFinite confidence) || (confidence <? Fin 0)%js)%bool
    then Fin 0.5 else confidence in
  if (negb (isFinite wideningDuration)
      || (wideningDuration <=? Fin 0)%js)%bool
  then Thrown st
  else
    let (done, threw) :=
      performCalls
        (smoothGainRamp lookAheadTime wideningDuration reductionFactor)
        fault in
    if threw then
      let (done', threw') :=
        performCalls (fallbackGainRamp lookAheadTime) fallbackFault in
      if threw'
      then Thrown (withGain st (done ++ done') (clickCount st))
      else Returned (withGain st (done ++ done') (S (clickCount st)))
    else Returned (withGain st done (S (clickCount st))).

(** The state a call leaves behind, however it ended. *)
Definition stateAfter (o : Outcome State) : State :=
  match o with Returned st => st | Thrown st => st end.

(** ** Rate limiter *)

Definition withRateLimiter (st : State) (history : list R)
    (last suppression : R) : State :=
  withLimiter st
    {| clickHistory := history;
       maxClicksPerSecond := maxClicksPerSecond (limiter st);
       minClickInterval := minClickInterval (limiter st);
       lastClickTime := last;
       clickSuppressionTime := suppression |}.

(** The confidence an event must reach to be admitted while the window
    holds [held] events out of [maxClicks]. *)
Definition requiredConfidence (sensitivity : jsnum) (held maxClicks : nat)
    : jsnum :=
  let clickRatio := (Fin (INR held) / Fin (INR maxClicks))%js in
  let sensitivityBoost := Math_pow sensitivity (Fin 0.8) in
  let baseRequiredConfidence := (Fin 0.5 / sensitivityBoost)%js in
  (baseRequiredConfidence + clickRatio * Fin 0.3 / sensitivityBoost)%js.

(** [history.filter(time => currentTime - time < 1000)]: the timestamps
    younger than one second. *)
Definition recent (currentTime : R) (history : list R) : list R :=
  filter (fun time => Rltb (currentTime - time) 1000) history.

(** [shouldProcessClick(isDetected, confidence)], where [currentTime] is
    the value [performance.now()] returns inside the call. *)
Definition shouldProcessClick (st : State) (currentTime : R)
    (isDetected : bool) (confidence : jsnum) : bool * State :=
  if negb isDetected then (false, st) else
  let l := limiter st in
  let history := recent currentTime (clickHistory l) in
  let st1 :=
    withRateLimiter st history (lastClickTime l) (clickSuppressionTime l) in
  if Rltb currentTime (clickSuppressionTime l) then (false, st1) else
  if (maxClicksPerSecond l <=? length history)%nat then (false, st1) else
  if Rltb (currentTime - lastClickTime l) (minClickInterval l)
  then (false, st1) else
  if (confidence <?
        requiredConfidence (sensitivity (params st)) (length history)
          (maxClicksPerSecond l))%js
  then (false, st1)
  else (true,
        withRateLimiter st (history ++ [currentTime]) currentTime
          (currentTime + 50)).

(** A detection call as the rate limiter sees it. *)
Record Detection : Type := mkDetection {
  atTime : R;
  detected : bool;
  withConfidence : jsnum
}.

(** The limiter run over a stream of calls; the second component collects
    the timestamps of the admitted events, oldest first. *)
Fixpoint runLimiter (st : State) (calls : list Detection) : State * list R :=
  match calls with
  | [] => (st, [])
  | c :: rest =>
      let (ok, st') :=
        shouldProcessClick st (atTime c) (detected c) (withConfidence c) in
      let (final, admitted) := runLimiter st' rest in
      (final, if ok then atTime c :: admitted else admitted)
  end.

(** [performance.now()] never goes back. *)
Fixpoint clockFrom (t : R) (calls : list Detection) : Prop :=
  match calls with
  | [] => True
  | c :: rest => t <= atTime c /\ clockFrom (atTime c) rest
  end.

(** The admitted events inside the 1-second window that trails [t]. *)
Definition inTrailingWindow (t : R) (admitted : list R) : list R :=
  filter (fun time => Rleb time t && Rltb (t - time) 1000) admitted.

(** ** Loudness and threshold tracker *)

(** The sum of squares of the finite samples. *)
Definition sumFiniteSquares (timeData : list jsnum) : jsnum :=
  fold_left
    (fun rms x => if isFinite x then (rms + x * x)%js else rms)
    timeData (Fin 0).

Definition loudnessOf (timeData : list jsnum) : jsnum :=
  let rms :=
    Math_sqrt (sumFiniteSquares timeData / Fin (INR (length timeData)))%js in
  if (isFinite rms && (rms >? Fin 0)%js)%bool
  then (Fin 20 * Math_log10 (Math_max rms (Fin 1e-10)))%js
  else Fin (-60).

(** [sort((a, b) => a - b)].  The comparator is consistent on finite
    numbers, where every sorting method returns the list below; with NaN or
    two infinities of one sign the language leaves the order to the
    implementation, and this is one admissible outcome. *)
Fixpoint insertSorted (x : jsnum) (l : list jsnum) : list jsnum :=
  match l with
  | [] => [x]
  | y :: l' =>
      if ((x - y) >? Fin 0)%js then y :: insertSorted x l' else x :: l
  end.

Definition sortAscending (l : list jsnum) : list jsnum :=
  fold_right insertSorted [] l.

Record LoudnessInfo : Type := mkLoudness {
  loudnessDb : jsnum;
  snr : jsnum;
  infoAdaptiveThreshold : jsnum
}.

(** [history.push(loudnessDb)], then [shift()] past 30 entries. *)
Definition pushLoudness (history : list jsnum) (loudnessDb : jsnum)
    : list jsnum :=
  let pushed := history ++ [loudnessDb] in
  if (30 <? length pushed)%nat then tl pushed else pushed.

(** The 10th percentile of the sorted history.  An index past the end
    reads [undefined], which [isFinite] rejects like NaN. *)
Definition backgroundNoiseOf (history : list jsnum) : jsnum :=
  let sortedLoudness := sortAscending history in
  nth (length sortedLoudness / 10) sortedLoudness NaN.

Definition signalToNoiseOf (loudnessDb backgroundNoiseLevel : jsnum)
    : jsnum :=
  let currentSignal :=
    if isFinite loudnessDb then loudnessDb else Fin (-60) in
  let backgroundNoise :=
    if isFinite backgroundNoiseLevel then backgroundNoiseLevel
    else Fin (-40) in
  Math_max (Fin 0.1)
    (Math_min (Fin 60) (currentSignal - backgroundNoise)%js).

Definition adaptiveThresholdOf (signalToNoiseRatio : jsnum) : jsnum :=
  let loudnessBoost :=
    Math_max (Fin 1.0)
      (Math_min (Fin 5.0) (Fin 3.0 - signalToNoiseRatio / Fin 20)%js) in
  Math_max (Fin 0.1)
    (Math_min (Fin 1.0)
       (Fin Thresholds.confidenceThreshold / loudnessBoost)%js).

(** [updateDynamicLoudness(timeData, freqData)]; [freqData] is not read. *)
Definition updateDynamicLoudness (l : LoudnessState) (timeData : list jsnum)
    : LoudnessInfo * LoudnessState :=
  let loudnessDb := loudnessOf timeData in
  let history := pushLoudness (loudnessHistory l) loudnessDb in
  let backgroundNoiseLevel := backgroundNoiseOf history in
  let signalToNoiseRatio :=
    signalToNoiseOf loudnessDb backgroundNoiseLevel in
  let adaptiveThreshold := adaptiveThresholdOf signalToNoiseRatio in
  ({| loudnessDb := loudnessDb; snr := signalToNoiseRatio;
      infoAdaptiveThreshold := adaptiveThreshold |},
   {| loudnessHistory := history;
      adaptiveThreshold := adaptiveThreshold;
      backgroundNoiseLevel := backgroundNoiseLevel;
      signalToNoiseRatio := signalToNoiseRatio |}).

(** ** Linear-prediction analyser *)

(** [acc += f(i)] for [i] running through [indices]. *)
Definition sumOver (indices : list nat) (f : nat -> R) : R :=
  fold_left (fun acc i => acc + f i) indices 0.

(** [l[i] = v] on an array that already has index [i]. *)
Fixpoint setNth (i : nat) (v : R) (l : list R) : list R :=
  match l, i with
  | [], _ => []
  | _ :: l', O => v :: l'
  | x :: l', S i' => x :: setNth i' v l'
  end.

(** What [computeLPCCoefficients] returns; the error is the one number of
    the analyser that can come out as NaN. *)
Record LPCModel : Type := mkLPC {
  coefficients : list R;
  error : jsnum
}.

(** The sum [r[k]] holds before its division: the products of the samples
    [k] apart. *)
Definition laggedProducts (signal : list R) (k : nat) : R :=
  sumOver (seq 0 (length signal - k))
    (fun i => nth i signal 0 * nth (i + k) signal 0).

(** [r[k]]: the biased autocorrelation at lag [k].  With no pair of
    samples left the division is [0 / 0], which is NaN. *)
Definition autocorrelationAt (signal : list R) (k : nat) : jsnum :=
  let limit := (length signal - k)%nat in
  (Fin (laggedProducts signal k) / Fin (INR limit))%js.

(** The values of a list of numbers that are all finite. *)
Fixpoint finiteValues (l : list jsnum) : option (list R) :=
  match l with
  | [] => Some []
  | Fin x :: rest =>
      match finiteValues rest with
      | Some values => Some (x :: values)
      | None => None
      end
  | _ :: _ => None
  end.

(** The Levinson-Durbin loop from index [i], for [steps] more rounds.  The
    coefficient update runs in place, as in the source. *)
Fixpoint levinsonDurbin (steps i : nat) (r a : list R) (e : R)
    : list R * R :=
  match steps with
  | O => (a, e)
  | S steps' =>
      let lambda :=
        sumOver (seq 1 (i - 1)) (fun j => nth j a 0 * nth (i - j) r 0) in
      if Rltb (Rabs e) 1e-10 then (a, e) else
      let lambda := (nth i r 0 - lambda) / e in
      if Rleb 1.0 (Rabs lambda) then (a, e) else
      let a :=
        fold_left
          (fun a j => setNth j (nth j a 0 - lambda * nth (i - j) a 0) a)
          (seq 1 (i - 1)) a in
      let a := setNth i lambda a in
      levinsonDurbin steps' (S i) r a (e * (1 - lambda * lambda))
  end.

(** [computeLPCCoefficients(signal, order)].  Past the length test every
    lag from 1 on leaves pairs of samples, so the one autocorrelation that
    can fail to be finite is [r[0] = 0 / 0] of the empty window, which
    passes the length test at order 0 only: there the test
    [r[0] < 1e-10] is false, the loop has no round, and the error is
    [Math.max(NaN, 1e-10)]. *)
Definition computeLPCCoefficients (signal : list R) (order : nat)
    : LPCModel :=
  let n := length signal in
  if (n <? order * 2)%nat
  then {| coefficients := repeat 0 (order + 1); error := Fin 1.0 |}
  else
    match finiteValues (map (autocorrelationAt signal) (seq 0 (order + 1)))
    with
    | Some r =>
        if Rltb (nth 0 r 0) 1e-10
        then {| coefficients := repeat 0 (order + 1); error := Fin 1.0 |}
        else
          let a := setNth 0 1 (repeat 0 (order + 1)) in
          let (a, e) := levinsonDurbin order 1 r a (nth 0 r 0) in
          {| coefficients := a; error := Fin (Rmax e 1e-10) |}
    | None =>
        {| coefficients := setNth 0 1 (repeat 0 (order + 1));
           error := NaN |}
    end.

Definition computePredictionError (signal lpcCoeffs : list R) : list R :=
  let order := (length lpcCoeffs - 1)%nat in
  map (fun i =>
         if (i <? order)%nat then 0
         else
           nth i signal 0
           - sumOver (seq 1 order)
               (fun j => nth j lpcCoeffs 0 * nth (i - j) signal 0))
      (seq 0 (length signal)).

(** ** Multi-band spectral analyser *)

Record Band : Type := mkBand { bandMin : Z; bandMax : Z }.

Module FreqBands.
Definition low : Band := mkBand 100 800.
Definition mid : Band := mkBand 800 2500.
Definition high : Band := mkBand 2500 8000.
Definition mouth : Band := mkBand 2000 5000.
End FreqBands.

Definition freqBands : list (string * Band) :=
  [ ("low"%string, FreqBands.low); ("mid"%string, FreqBands.mid);
    ("high"%string, FreqBands.high); ("mouth"%string, FreqBands.mouth) ].

Definition withCache (a : Analyser) (cache : list (string * BinRange))
    : Analyser :=
  {| sampleRate := sampleRate a; bufferSize := bufferSize a;
     circularBuffer := circularBuffer a; bufferIndex := bufferIndex a;
     freqBinCache := Some cache; cacheSampleRate := sampleRate a;
     previousSpectrum := previousSpectrum a |}.

(** [Math.floor(hz * binCount / sampleRate)] for whole numbers. *)
Definition binOf (a : Analyser) (hz : Z) : Z :=
  (hz * Z.of_nat frequencyBinCount / sampleRate a)%Z.

(** The loop over [freqBands] that fills the cache. *)
Definition computeBinCache (a : Analyser) : list (string * BinRange) :=
  map (fun nb => (fst nb,
                  mkBins (binOf a (bandMin (snd nb)))
                         (binOf a (bandMax (snd nb)))))
      freqBands.

Definition initFreqBinCache (a : Analyser) : Analyser :=
  match freqBinCache a with
  | Some _ =>
      if (cacheSampleRate a =? sampleRate a)%Z then a
      else withCache a (computeBinCache a)
  | None => withCache a (computeBinCache a)
  end.

(** The band whose bounds a cache entry was computed from. *)
Definition bandNamed (name : string) : option Band :=
  option_map snd (find (fun nb => String.eqb (fst nb) name) freqBands).

Definition cachedBins (cache : list (string * BinRange)) (minFreq maxFreq : Z)
    : option BinRange :=
  option_map snd
    (find (fun entry =>
             match bandNamed (fst entry) with
             | Some band =>
                 ((bandMin band =? minFreq) && (bandMax band =? maxFreq))%Z
             | None => false
             end) cache).

Definition calculateBandEnergy (st : Analyser) (freqData : list R)
    (minFreq maxFreq : Z) (weight : R) : R * Analyser :=
  let st' := initFreqBinCache st in
  let bins :=
    match cachedBins (match freqBinCache st' with
                      | Some c => c | None => [] end) minFreq maxFreq with
    | Some b => b
    | None => mkBins (binOf st' minFreq) (binOf st' maxFreq)
    end in
  let binRange := (maxBin bins - minBin bins)%Z in
  let energy :=
    sumOver (seq (Z.to_nat (minBin bins)) (Z.to_nat binRange))
      (fun i => Rpower 10 (nth i freqData 0 / 20)) in
  (if (0 <? binRange)%Z then energy / IZR binRange * weight else 0, st').

Definition getFrequencyWeight (skew freq : R) : R :=
  let centerFreq := 3500 in
  let freqRatio := freq / centerFreq in
  if Rltb skew 0 then exp (- Rabs skew * Rmax 0 (freqRatio - 1))
  else if Rltb 0 skew then exp (- skew * Rmax 0 (1 - freqRatio))
  else
    let distance := Rabs (freq - centerFreq) / centerFreq in
    exp (- 2 * distance).

(** The centre frequency of bin [i]. *)
Definition binFrequency (st : Analyser) (freqData : list R) (i : nat) : R :=
  INR i * IZR (sampleRate st) / (2 * INR (length freqData)).

Definition magnitudeOf (db : R) : R := Rpower 10 (db / 20).

Definition calculateSpectralCentroid (st : Analyser) (freqData : list R) : R :=
  let indices := seq 0 (length freqData) in
  let numerator :=
    sumOver indices
      (fun i => binFrequency st freqData i
                * magnitudeOf (nth i freqData 0)) in
  let denominator :=
    sumOver indices (fun i => magnitudeOf (nth i freqData 0)) in
  if Rltb 0 denominator then numerator / denominator else 0.

Definition calculateSpectralSpread (st : Analyser) (freqData : list R)
    (centroid : R) : R :=
  let indices := seq 0 (length freqData) in
  let numerator :=
    sumOver indices
      (fun i => (binFrequency st freqData i - centroid) ^ 2
                * magnitudeOf (nth i freqData 0)) in
  let denominator :=
    sumOver indices (fun i => magnitudeOf (nth i freqData 0)) in
  if Rltb 0 denominator then sqrt (numerator / denominator) else 0.

(** ** Speech and formant protector *)

Definition calculateAutocorrelation (signal : list R) (maxLag : nat)
    : list R :=
  map (fun lag =>
         if (lag <? length signal)%nat
         then sumOver (seq 0 (length signal - lag))
                (fun i => nth i signal 0 * nth (i + lag) signal 0)
              / INR (length signal - lag)
         else 0)
      (seq 0 maxLag).

(** The scan of [detectFormantStructure]: previous value, rising flag and
    number of peaks so far. *)
Definition formantStep (acc : R * bool * nat) (x : R) : R * bool * nat :=
  let '(prevValue, isRising, peakCount) := acc in
  if (Rltb prevValue x && negb isRising)%bool then (x, true, peakCount)
  else if (Rltb x prevValue && isRising)%bool then (x, false, S peakCount)
  else (x, isRising, peakCount).

Definition detectFormantStructure (st : Analyser) (freqData : list R) : R :=
  let formantStart :=
    Z.to_nat (500 * Z.of_nat (length freqData) * 2 / sampleRate st)%Z in
  let formantEnd :=
    Z.to_nat (3000 * Z.of_nat (length freqData) * 2 / sampleRate st)%Z in
  let scanned :=
    map (fun i => nth i freqData 0)
        (seq (formantStart + 1) (formantEnd - (formantStart + 1))) in
  let '(_, _, peakCount) :=
    fold_left formantStep scanned (nth formantStart freqData 0, false, O) in
  Rmin 1.0 (INR peakCount / 4).

Record BandEnergies : Type := mkEnergies {
  lowEnergy : R;
  midEnergy : R;
  highEnergy : R;
  mouthEnergy : R
}.

(** [Math.max(...values)]: minus infinity for no argument. *)
Definition maxOfList (values : list R) : jsnum :=
  match values with
  | [] => NInf
  | x :: rest => Fin (fold_left Rmax rest x)
  end.

Definition checkSpeechProtection (st : Analyser) (timeData freqData : list R)
    (bandEnergies : BandEnergies) : R :=
  let autocorr := calculateAutocorrelation timeData 50 in
  let periodicity := maxOfList (skipn 10 autocorr) in
  let formantStrength := detectFormantStructure st freqData in
  let sustainedEnergy :=
    Rltb (highEnergy bandEnergies)
         (lowEnergy bandEnergies + midEnergy bandEnergies) in
  let protectionFactors :=
    [ if (periodicity >? Fin 0.3)%js then 0.8 else 0;
      if Rltb 0.4 formantStrength then 0.6 else 0;
      if sustainedEnergy then 0.3 else 0 ] in
  match protectionFactors with
  | [] => 0
  | x :: rest => fold_left Rmax rest x
  end.

(** ** Confidence fusion and decision *)

(** What one frame measures before the sensitivity enters: the values of
    the locals [errorRMS], [errorPeak], [spectralFlux], [bandEnergies],
    [spectralCentroid], [spectralSpread], [maxAmplitude],
    [speechProtection], and of [loudnessInfo.snr] and
    [this.adaptiveThreshold]. *)
Record FrameAnalysis : Type := mkAnalysis {
  residualRMS : R;
  residualPeak : R;
  flux : R;
  energies : BandEnergies;
  centroid : R;
  spread : R;
  peakAmplitude : R;
  protection : R;
  loudness : LoudnessInfo;
  signalToNoise : R;
  adaptive : R
}.

Record Method : Type := mkMethod {
  methodConfidence : R;
  weight : R;
  methodDetected : bool
}.

Definition adaptiveErrorThreshold (s snr : R) : R :=
  let sensitivityMultiplier := Rpower s 2.5 in
  let baseErrorThreshold := Thresholds.lpcError / sensitivityMultiplier in
  baseErrorThreshold / Rmax 1.0 (snr / 10).

Definition lpcConfidenceOf (s snr errorRMS errorPeak : R) : R :=
  let lpcRmsConfidence :=
    Rmin 2.0 (errorRMS / adaptiveErrorThreshold s snr) in
  let lpcPeakConfidence :=
    Rmin 2.0 (errorPeak / (adaptiveErrorThreshold s snr * 3)) in
  Rmax lpcRmsConfidence lpcPeakConfidence.

Definition adaptiveTransientThresholdOf (s snr : R) : R :=
  let transientSensitivity := Rpower s 2.0 in
  Thresholds.transientRatio / transientSensitivity / Rmax 1.0 (snr / 15).

Definition burstThresholdOf (s snr : R) : R :=
  let burstSensitivity := Rpower s 1.8 in
  2.0 / burstSensitivity / Rmax 1.0 (snr / 10).

Definition amplitudeThresholdOf (s snr : R) : R :=
  let amplitudeSensitivity := Rpower s 2.3 in
  0.1 / amplitudeSensitivity / Rmax 1.0 (snr / 20).

Definition adaptiveSpectralThresholdOf (s snr : R) : R :=
  let spectralSensitivity := Rpower s 2.2 in
  Thresholds.spectralFlux / spectralSensitivity / Rmax 1.0 (snr / 8).

Definition mouthBandRatioOf (e : BandEnergies) : R :=
  let totalEnergy := lowEnergy e + midEnergy e + highEnergy e + 0.0001 in
  mouthEnergy e / totalEnergy.

Definition highFreqBurstOf (e : BandEnergies) : R :=
  highEnergy e / (lowEnergy e + midEnergy e + 0.0001).

Definition amplitudeSpikeOf (s : R) (fa : FrameAnalysis) : bool :=
  Rltb (amplitudeThresholdOf s (signalToNoise fa)) (peakAmplitude fa).

(** The five entries of [detectionMethods], in the order of the object. *)
Definition lpcOutlier (s : R) (fa : FrameAnalysis) : Method :=
  let lpcConfidence :=
    lpcConfidenceOf s (signalToNoise fa) (residualRMS fa) (residualPeak fa) in
  {| methodConfidence := lpcConfidence;
     weight := 0.35;
     methodDetected := Rltb 0.4 lpcConfidence |}.

Definition spectralFluxMethod (s : R) (fa : FrameAnalysis) : Method :=
  let threshold := adaptiveSpectralThresholdOf s (signalToNoise fa) in
  {| methodConfidence := Rmin 2.0 (flux fa / threshold);
     weight := 0.25;
     methodDetected := Rltb threshold (flux fa) |}.

Definition mouthBandTransient (s : R) (fa : FrameAnalysis) : Method :=
  let threshold := adaptiveTransientThresholdOf s (signalToNoise fa) in
  {| methodConfidence :=
       Rmin 2.0 (mouthBandRatioOf (energies fa) / threshold);
     weight := 0.2;
     methodDetected := Rltb threshold (mouthBandRatioOf (energies fa)) |}.

Definition highFreqBurstMethod (s : R) (fa : FrameAnalysis) : Method :=
  {| methodConfidence := Rmin 2.0 (highFreqBurstOf (energies fa) / 2.0);
     weight := 0.15;
     methodDetected :=
       Rltb (burstThresholdOf s (signalToNoise fa))
            (highFreqBurstOf (energies fa)) |}.

Definition amplitudeSpikeMethod (s : R) (fa : FrameAnalysis) : Method :=
  {| methodConfidence := if amplitudeSpikeOf s fa then 1.5 else 0;
     weight := 0.05;
     methodDetected := amplitudeSpikeOf s fa |}.

Definition detectionMethods (s : R) (fa : FrameAnalysis) : list Method :=
  [ lpcOutlier s fa; spectralFluxMethod s fa; mouthBandTransient s fa;
    highFreqBurstMethod s fa; amplitudeSpikeMethod s fa ].

(** The [forEach] over the methods: total weight and weighted confidence. *)
Definition accumulate (skewWeight : R) (methods : list Method) : R * R :=
  fold_left
    (fun acc method =>
       let adjustedWeight := weight method * skewWeight in
       (fst acc + adjustedWeight,
        snd acc + methodConfidence method * adjustedWeight))
    methods (0, 0).

Definition finalConfidenceOf (s skew : R) (fa : FrameAnalysis) : R :=
  let skewWeight := getFrequencyWeight skew (centroid fa) in
  let (totalWeight, weightedConfidence) :=
    accumulate skewWeight (detectionMethods s fa) in
  if Rltb 0 totalWeight then weightedConfidence / totalWeight else 0.

Definition adjustedConfidenceOf (s skew : R) (fa : FrameAnalysis) : R :=
  let speechProtection := protection fa * 0.6 in
  finalConfidenceOf s skew fa * (1 - speechProtection).

Definition dynamicThresholdOf (s : R) (fa : FrameAnalysis) : R :=
  let confidenceSensitivity := Rpower s 1.5 in
  let scaledConfidenceThreshold :=
    Thresholds.confidenceThreshold / confidenceSensitivity in
  Rmin (adaptive fa) scaledConfidenceThreshold.

Definition isClickDetectedOf (s skew : R) (fa : FrameAnalysis) : bool :=
  let confidenceSensitivity := Rpower s 1.5 in
  let lpcConfidence := methodConfidence (lpcOutlier s fa) in
  (Rltb (dynamicThresholdOf s fa) (adjustedConfidenceOf s skew fa)
   || (Rltb (1.5 / confidenceSensitivity) lpcConfidence
       && Rltb (adaptiveSpectralThresholdOf s (signalToNoise fa)) (flux fa))
   || (amplitudeSpikeOf s fa
       && Rltb (0.5 / sqrt confidenceSensitivity)
               (mouthBandRatioOf (energies fa))
       && Rltb (1.0 / confidenceSensitivity) lpcConfidence))%bool.

Record Details : Type := mkDetails {
  errorRMS : R;
  errorPeak : R;
  spectralFlux : R;
  mouthBandRatio : R;
  spectralCentroid : R;
  broadbandRatio : R;
  highFreqBurst : R;
  amplitudeSpike : bool;
  maxAmplitude : R;
  skewWeight : R;
  speechProtection : R;
  bandEnergies : BandEnergies;
  loudnessInfo : LoudnessInfo;
  dynamicThreshold : R;
  adaptiveSpectralThreshold : R;
  adaptiveTransientThreshold : R
}.

(** The object [detectMouthClick] returns; [details] is [None] for the
    empty object of the disabled path. *)
Record DetectionResult : Type := mkResult {
  isClick : bool;
  confidence : R;
  lpcConfidence : R;
  spectralConfidence : R;
  details : option Details
}.

Definition disabledResult : DetectionResult :=
  {| isClick := false; confidence := 0; lpcConfidence := 0;
     spectralConfidence := 0; details := None |}.

(** ** One analysis tick *)

(** What the environment supplies to one call: [performance.now()],
    [audioContext.currentTime], and the automation calls that throw. *)
Record Env : Type := mkEnv {
  now : R;
  audioTime : R;
  gainFault : option nat;
  fallbackFault : option nat
}.

Definition withBuffers (a : Analyser) (buffer : list R) (index : nat)
    (spectrum : list R) : Analyser :=
  {| sampleRate := sampleRate a; bufferSize := bufferSize a;
     circularBuffer := buffer; bufferIndex := index;
     freqBinCache := freqBinCache a; cacheSampleRate := cacheSampleRate a;
     previousSpectrum := spectrum |}.

(** The loop that copies the frame into the circular buffer. *)
Definition writeCircular (st : Analyser) (timeData : list R) : Analyser :=
  let written :=
    fold_left
      (fun acc x =>
         (setNth (snd acc) x (fst acc),
          ((snd acc + 1) mod bufferSize st)%nat))
      timeData (circularBuffer st, bufferIndex st) in
  withBuffers st (fst written) (snd written) (previousSpectrum st).

(** [previousSpectrum.set(freqData)]. *)
Definition storeSpectrum (st : Analyser) (freqData : list R) : Analyser :=
  withBuffers st (circularBuffer st) (bufferIndex st)
    (freqData ++ skipn (length freqData) (previousSpectrum st)).

(** The frames and buffers have the analyser's size, the sample rate keeps
    every band inside the spectrum, and the circular buffer is not empty.
    This is what the constructor and [analyzeAudio] establish. *)
Definition frameFits (st : Analyser) (timeData freqData : list R) : bool :=
  ((length timeData =? frequencyBinCount)%nat
   && (length freqData =? frequencyBinCount)%nat
   && (length (previousSpectrum st) =? frequencyBinCount)%nat
   && (8000 <=? sampleRate st)%Z
   && (0 <? bufferSize st)%nat)%bool.

Definition analysisWindowOf (timeData : list R) : list R :=
  let windowSize := Nat.min 1024 (length timeData) in
  skipn (length timeData - windowSize) timeData.

(** The spectral flux of a frame of finite bins against the stored
    spectrum.  A bin at -Infinity, which the analyser node delivers for a
    bin without energy, is outside these lists of reals; the same loop
    over such values is [spectralFluxOfBins]. *)
Definition spectralFluxOf (st : Analyser) (freqData : list R) : R :=
  if (0 <? length (previousSpectrum st))%nat
  then
    sumOver (seq 0 (length freqData))
      (fun i => Rmax 0 (nth i freqData 0 - nth i (previousSpectrum st) 0))
    / INR (length freqData)
  else 0.

(** The prediction error of the analysis window under its own LPC fit. *)
Definition predictionErrorOf (timeData : list R) : list R :=
  let analysisWindow := analysisWindowOf timeData in
  let lpcResult := computeLPCCoefficients analysisWindow lpcOrder in
  computePredictionError analysisWindow (coefficients lpcResult).

Definition errorRMSOf (predictionError : list R) : R :=
  sqrt (sumOver (seq lpcOrder (length predictionError - lpcOrder))
          (fun i => nth i predictionError 0 * nth i predictionError 0)
        / (INR (length predictionError) - INR lpcOrder)).

Definition errorPeakOf (predictionError : list R) : R :=
  fold_left (fun peak i => Rmax peak (Rabs (nth i predictionError 0)))
    (seq lpcOrder (length predictionError - lpcOrder)) 0.

Definition maxAmplitudeOf (timeData : list R) : R :=
  fold_left (fun m x => Rmax m (Rabs x)) timeData 0.

(** The four calls of [calculateBandEnergy], in order. *)
Definition bandEnergiesOf (st : Analyser) (freqData : list R)
    : BandEnergies * Analyser :=
  let low :=
    calculateBandEnergy st freqData (bandMin FreqBands.low)
      (bandMax FreqBands.low) FreqWeights.low in
  let mid :=
    calculateBandEnergy (snd low) freqData (bandMin FreqBands.mid)
      (bandMax FreqBands.mid) FreqWeights.mid in
  let high :=
    calculateBandEnergy (snd mid) freqData (bandMin FreqBands.high)
      (bandMax FreqBands.high) FreqWeights.high in
  let mouth :=
    calculateBandEnergy (snd high) freqData (bandMin FreqBands.mouth)
      (bandMax FreqBands.mouth) FreqWeights.mouth in
  ({| lowEnergy := fst low; midEnergy := fst mid; highEnergy := fst high;
      mouthEnergy := fst mouth |},
   snd mouth).

(** Steps 1 to 7 of [detectMouthClick] that do not read the sensitivity,
    after the loudness update; [snr] and [adaptive] are the finite values
    of [loudnessInfo.snr] and [this.adaptiveThreshold]. *)
Definition analyseFrame (st : Analyser) (info : LoudnessInfo) (snr adaptive : R)
    (timeData freqData : list R) : FrameAnalysis * Analyser :=
  let st := writeCircular st timeData in
  let predictionError := predictionErrorOf timeData in
  let bands := bandEnergiesOf st freqData in
  let bandEnergies := fst bands in
  let st := snd bands in
  let spectralFlux := spectralFluxOf st freqData in
  let st := storeSpectrum st freqData in
  let spectralCentroid := calculateSpectralCentroid st freqData in
  ({| residualRMS := errorRMSOf predictionError;
      residualPeak := errorPeakOf predictionError;
      flux := spectralFlux; energies := bandEnergies;
      centroid := spectralCentroid;
      spread := calculateSpectralSpread st freqData spectralCentroid;
      peakAmplitude := maxAmplitudeOf timeData;
      protection := checkSpeechProtection st timeData freqData bandEnergies;
      loudness := info; signalToNoise := snr; adaptive := adaptive |},
   st).

Definition detailsOf (s skew : R) (fa : FrameAnalysis) : Details :=
  {| errorRMS := residualRMS fa;
     errorPeak := residualPeak fa;
     spectralFlux := flux fa;
     mouthBandRatio := mouthBandRatioOf (energies fa);
     spectralCentroid := centroid fa;
     broadbandRatio := spread fa / (centroid fa + 1);
     highFreqBurst := highFreqBurstOf (energies fa);
     amplitudeSpike := amplitudeSpikeOf s fa;
     maxAmplitude := peakAmplitude fa;
     skewWeight := getFrequencyWeight skew (centroid fa);
     speechProtection := protection fa * 0.6;
     bandEnergies := energies fa;
     loudnessInfo := loudness fa;
     dynamicThreshold := dynamicThresholdOf s fa;
     adaptiveSpectralThreshold :=
       adaptiveSpectralThresholdOf s (signalToNoise fa);
     adaptiveTransientThreshold :=
       adaptiveTransientThresholdOf s (signalToNoise fa) |}.

(** [detectMouthClick(timeData, freqData)].  [None] marks a call outside
    what is modelled over the reals: a sensitivity that is not a positive
    finite number, a skew that is not finite, or buffers of another size
    than the analyser's.  The frames are lists of reals: a spectrum with a
    bin at -Infinity, current or stored, is outside the model too (there
    the flux of the source can be NaN or Infinity).  A [Thrown] outcome
    is the TypeError of [handleMouthClickDetected], or an exception of the
    audio graph. *)
Definition detectMouthClick (st : State) (env : Env)
    (timeData freqData : list R)
    : option (Outcome (DetectionResult * State)) :=
  if negb (processingEnabled st)
  then Some (Returned (disabledResult, st))
  else if negb (frameFits (analyser st) timeData freqData) then None
  else
    let tracked :=
      updateDynamicLoudness (loudnessState st) (map Fin timeData) in
    let info := fst tracked in
    match sensitivity (params st), frequencySkew (params st),
          snr info, adaptiveThreshold (snd tracked) with
    | Fin s, Fin skew, Fin ratio, Fin threshold =>
        if negb (Rltb 0 s) then None
        else
          let analysed :=
            analyseFrame (analyser st) info ratio threshold timeData
              freqData in
          let fa := fst analysed in
          let st2 :=
            withAnalyser (withLoudnessState st (snd tracked))
              (snd analysed) in
          let adjustedConfidence := adjustedConfidenceOf s skew fa in
          let isClickDetected := isClickDetectedOf s skew fa in
          let limited :=
            shouldProcessClick st2 (now env) isClickDetected
              (Fin adjustedConfidence) in
          let result :=
            {| isClick := fst limited;
               confidence := adjustedConfidence;
               lpcConfidence := methodConfidence (lpcOutlier s fa);
               spectralConfidence := finalConfidenceOf s skew fa;
               details := Some (detailsOf s skew fa) |} in
          if fst limited then
            match handleMouthClickDetected (snd limited) (audioTime env)
                    (Fin adjustedConfidence) (gainFault env)
                    (fallbackFault env) with
            | Returned st4 => Some (Returned (result, st4))
            | Thrown st4 => Some (Thrown st4)
            end
          else Some (Returned (result, snd limited))
    | _, _, _, _ => None
    end.

(** ** Predicates of the statements *)

(** The four numeric tunables lie in their documented ranges. *)
Definition validConfiguration (p : DetectionParameters) : Prop :=
  exists s k w r : R,
    sensitivity p = Fin s /\ 0.1 <= s <= 2.0
    /\ frequencySkew p = Fin k /\ -1 <= k <= 1
    /\ clickWidening p = Fin w /\ 1 <= w <= 20
    /\ reductionAmount p = Fin r /\ -60 <= r <= 0.

(** An automation call that places a gain value places a finite one
    between 0.0001 and 1. *)
Definition gainWithinBounds (e : GainEvent) : Prop :=
  forall v, gainValue e = Some v ->
    exists g : R, v = Fin g /\ 0.0001 <= g <= 1.0.

(** Pairwise spacing of a list of timestamps, oldest first. *)
Fixpoint spaced (m : R) (l : list R) : Prop :=
  match l with
  | [] => True
  | x :: rest => Forall (fun y => m <= y - x) rest /\ spaced m rest
  end.

(** The invariant of the sliding window: [admitted] are the events
    admitted so far, none later than the clock [t]; from [t] on the stored
    window and [admitted] have the same recent events; the stored window
    holds at most the maximum; no trailing window of [admitted] holds more
    than the maximum. *)
Definition windowInvariant (st : State) (t : R) (admitted : list R) : Prop :=
  Forall (fun x => x <= t) admitted
  /\ (forall T, t <= T -> recent T (clickHistory (limiter st)) = recent T admitted)
  /\ (length (clickHistory (limiter st)) <= maxClicksPerSecond (limiter st))%nat
  /\ (forall T, (length (inTrailingWindow T admitted)
                 <= maxClicksPerSecond (limiter st))%nat).

(** The measurements of a frame that the monotonicity rests on: residual,
    flux and band energies are not negative, and the speech protection
    discounts by at most the whole confidence. *)
Definition measured (fa : FrameAnalysis) : Prop :=
  0 <= residualRMS fa /\ 0 <= residualPeak fa /\ 0 <= flux fa
  /\ 0 <= lowEnergy (energies fa) /\ 0 <= midEnergy (energies fa)
  /\ 0 <= highEnergy (energies fa) /\ 0 <= mouthEnergy (energies fa)
  /\ 0 <= protection fa <= 0.8.

(** The state with another sensitivity, everything else fixed. *)
Definition atSensitivity (st : State) (s : R) : State :=
  withParams st (withSensitivity (params st) (Fin s)).

(** The result a tick builds from the analysis of its frame. *)
Definition resultOf (s skew : R) (fa : FrameAnalysis) (click : bool)
    : DetectionResult :=
  {| isClick := click;
     confidence := adjustedConfidenceOf s skew fa;
     lpcConfidence := methodConfidence (lpcOutlier s fa);
     spectralConfidence := finalConfidenceOf s skew fa;
     details := Some (detailsOf s skew fa) |}.

(** Nine detections at confidence 0.9: eight of them 125 ms apart, the
    ninth 999 ms after the first. *)
Definition burstOfNine : list Detection :=
  map (fun t => mkDetection t true (Fin 0.9))
    [200; 325; 450; 575; 700; 825; 950; 1075; 1199].

(** A limiter 20 ms after an admitted event. *)
Definition suppressedState : State :=
  withRateLimiter (initialState 48000 true) [980] 980 1030.

(** The bin cache is empty or holds the bins of the current sample rate. *)
Definition cacheValid (a : Analyser) : Prop :=
  freqBinCache a = None
  \/ (freqBinCache a = Some (computeBinCache a)
      /\ cacheSampleRate a = sampleRate a).

(** An analyser at 48 kHz whose previous spectrum is flat at [p] dB. *)
Definition quietAnalyser (a : Analyser) (p : R) : Prop :=
  sampleRate a = 48000%Z
  /\ previousSpectrum a = repeat p frequencyBinCount
  /\ (0 < bufferSize a)%nat
  /\ cacheValid a.

(** A loudness tracker that has only heard silence. *)
Definition quietLoudness (l : LoudnessState) : Prop :=
  loudnessHistory l = repeat (Fin (-60)) 30.

(** The measurements of a silent frame under a flat spectrum of
    magnitude [m] with spectral flux [fl], in a quiet room. *)
Definition flatAnalysis (fa : FrameAnalysis) (m fl t : R) : Prop :=
  residualRMS fa = 0 /\ residualPeak fa = 0 /\ flux fa = fl
  /\ energies fa
     = {| lowEnergy := m * FreqWeights.low; midEnergy := m * FreqWeights.mid;
          highEnergy := m * FreqWeights.high;
          mouthEnergy := m * FreqWeights.mouth |}
  /\ peakAmplitude fa = 0 /\ protection fa = 0
  /\ signalToNoise fa = 0.1 /\ adaptive fa = t.

(** An enabled instance with the default configuration, at 48 kHz, in a
    quiet room, whose last spectrum was flat at [p] dB. *)
Definition quietState (st : State) (p : R) : Prop :=
  processingEnabled st = true
  /\ params st = defaultParams
  /\ quietAnalyser (analyser st) p
  /\ quietLoudness (loudnessState st).

(** ** Segment interpolation *)

(** The index [buffer.slice] starts or stops at, for a whole-number
    argument: a negative one counts from the end, and both are clipped to
    the buffer. *)
Definition relativeIndex (len i : Z) : Z :=
  if (i <? 0)%Z then Z.max (len + i) 0 else Z.min i len.

Definition slice (buffer : list R) (start stop : Z) : list R :=
  let len := Z.of_nat (length buffer) in
  let k := relativeIndex len start in
  let final := relativeIndex len stop in
  firstn (Z.to_nat (final - k)) (skipn (Z.to_nat k) buffer).

(** [interpolateAudioSegment(startIdx, endIdx, buffer)] for whole-number
    indices.  [None] is the RangeError of [new Float32Array(segmentLength)]
    for a negative length. *)
Definition interpolateAudioSegment (startIdx endIdx : Z) (buffer : list R)
    : option (list R) :=
  let segmentLength := (endIdx - startIdx)%Z in
  let preContext :=
    slice buffer (Z.max 0 (startIdx - segmentLength)) startIdx in
  let postContext :=
    slice buffer endIdx
      (Z.min (Z.of_nat (length buffer)) (endIdx + segmentLength)) in
  if (segmentLength <? 0)%Z then None
  else
    Some (map (fun i =>
                 let ratio := INR i / IZR segmentLength in
                 let preValue :=
                   if (0 <? length preContext)%nat
                   then nth (length preContext - 1) preContext 0 else 0 in
                 let postValue :=
                   if (0 <? length postContext)%nat
                   then nth 0 postContext 0 else 0 in
                 preValue * (1 - ratio) + postValue * ratio)
              (seq 0 (Z.to_nat segmentLength))).

(** ** The spectral flux over decibel values *)

(** A bin as the analyser node delivers it: a number of decibels, or
    -Infinity for a bin without energy. *)
Definition decibel (x : jsnum) : bool :=
  match x with
  | Fin _ | NInf => true
  | _ => false
  end.

(** The flux loop of [detectMouthClick] on such spectra, [previous] being
    the stored spectrum: an index past the end of an array reads
    [undefined], which the subtraction turns into NaN. *)
Definition spectralFluxOfBins (previous current : list jsnum) : jsnum :=
  if (0 <? length previous)%nat
  then
    (fold_left
       (fun spectralFlux i =>
          spectralFlux
          + Math_max (Fin 0) (nth i current NaN - nth i previous NaN))
       (seq 0 (length current)) (Fin 0)
     / Fin (INR (length current)))%js
  else Fin 0.

(** The bin [i] is at -Infinity in both spectra. *)
Definition silentInBoth (previous current : list jsnum) (i : nat) : bool :=
  match nth i previous NaN, nth i current NaN with
  | NInf, NInf => true
  | _, _ => false
  end.

(** ** Stored settings and the processing switch *)

(** The keys of [chrome.storage.sync] that the class reads or writes.  A
    key that is not stored is [None]; the flags hold booleans, the
    tunables numbers, [siteSettings] an object from host name to flag. *)
Record Storage : Type := mkStorage {
  storedDebugEnabled : option bool;
  storedProcessingEnabled : option bool;
  storedGlobalProcessingEnabled : option bool;
  storedSiteSettings : option (list (string * bool));
  storedMode : option string;
  storedSensitivity : option jsnum;
  storedFrequencySkew : option jsnum;
  storedClickWidening : option jsnum;
  storedReductionAmount : option jsnum
}.

Definition emptyStorage : Storage :=
  mkStorage None None None None None None None None None.

(** Truthiness of a number: zero and NaN are falsy. *)
Definition truthy (x : jsnum) : bool :=
  match x with
  | Fin r => negb (Reqb r 0)
  | NaN => false
  | _ => true
  end.

(** The names a plain object inherits from [Object.prototype]; [in] finds
    them, and reading one gives a function or, for [__proto__], an object:
    a truthy value. *)
Definition inheritedNames : list string :=
  [ "constructor"; "__proto__"; "hasOwnProperty"; "isPrototypeOf";
    "propertyIsEnumerable"; "toLocaleString"; "toString"; "valueOf";
    "__defineGetter__"; "__defineSetter__"; "__lookupGetter__";
    "__lookupSetter__" ]%string.

Definition inheritedName (h : string) : bool :=
  existsb (String.eqb h) inheritedNames.

Fixpoint ownProperty (settings : list (string * bool)) (h : string)
    : option bool :=
  match settings with
  | [] => None
  | (k, v) :: rest => if String.eqb k h then Some v else ownProperty rest h
  end.

(** [h in siteSettings ? siteSettings[h] : ...], by truthiness: [None]
    when [h] is not in the object; an inherited name reads as an object,
    which is truthy. *)
Definition siteLookup (settings : list (string * bool)) (h : string)
    : option bool :=
  match ownProperty settings h with
  | Some v => Some v
  | None => if inheritedName h then Some true else None
  end.

Fixpoint assignOwn (settings : list (string * bool)) (h : string) (v : bool)
    : list (string * bool) :=
  match settings with
  | [] => [(h, v)]
  | (k, w) :: rest =>
      if String.eqb k h then (k, v) :: rest
      else (k, w) :: assignOwn rest h v
  end.

(** [siteSettings[h] = v].  The inherited [__proto__] is an accessor whose
    setter ignores a boolean, so without an own entry of that name the
    assignment changes nothing; every other name gets an own entry. *)
Definition siteAssign (settings : list (string * bool)) (h : string)
    (v : bool) : list (string * bool) :=
  match ownProperty settings h with
  | None => if String.eqb h "__proto__" then settings
            else assignOwn settings h v
  | Some _ => assignOwn settings h v
  end.

(** An [AdvancedMouthDeClicker] with the fields of its analysis loop and
    of its debug overlay; [debugElement] says whether the overlay
    exists. *)
Record Instance : Type := mkInstance {
  core : State;
  hostname : string;
  frameCounter : nat;
  lastProcessingTime : R;
  debugEnabled : bool;
  debugElement : bool
}.

Definition withCore (inst : Instance) (st : State) : Instance :=
  {| core := st; hostname := hostname inst;
     frameCounter := frameCounter inst;
     lastProcessingTime := lastProcessingTime inst;
     debugEnabled := debugEnabled inst; debugElement := debugElement inst |}.

Definition withFrameCounter (inst : Instance) (n : nat) : Instance :=
  {| core := core inst; hostname := hostname inst;
     frameCounter := n;
     lastProcessingTime := lastProcessingTime inst;
     debugEnabled := debugEnabled inst; debugElement := debugElement inst |}.

Definition withLastProcessingTime (inst : Instance) (t : R) : Instance :=
  {| core := core inst; hostname := hostname inst;
     frameCounter := frameCounter inst;
     lastProcessingTime := t;
     debugEnabled := debugEnabled inst; debugElement := debugElement inst |}.

Definition withDebug (inst : Instance) (enabled element : bool) : Instance :=
  {| core := core inst; hostname := hostname inst;
     frameCounter := frameCounter inst;
     lastProcessingTime := lastProcessingTime inst;
     debugEnabled := enabled; debugElement := element |}.

Definition withProcessing (st : State) (enabled : bool)
    (calls : list GainEvent) : State :=
  {| analyser := analyser st; loudnessState := loudnessState st;
     limiter := limiter st; params := params st;
     processingEnabled := enabled;
     clickCount := clickCount st; gainTimeline := gainTimeline st ++ calls |}.

(** The instance the constructor leaves before the stored settings
    arrive: [processingEnabled] is still undefined, which reads as
    false. *)
Definition newInstance (rate : Z) (host : string) : Instance :=
  {| core := initialState rate false; hostname := host;
     frameCounter := 0; lastProcessingTime := 0;
     debugEnabled := false; debugElement := false |}.

(** The five conditional assignments that load the stored tunables. *)
Definition loadParameters (p : DetectionParameters) (data : Storage)
    : DetectionParameters :=
  let p :=
    match storedMode data with
    | Some m => if String.eqb m "" then p else withMode p m
    | None => p
    end in
  let p :=
    match storedSensitivity data with
    | Some v => if truthy v then withSensitivity p v else p
    | None => p
    end in
  let p :=
    match storedFrequencySkew data with
    | Some v => withFrequencySkew p v
    | None => p
    end in
  let p :=
    match storedClickWidening data with
    | Some v => if truthy v then withClickWidening p v else p
    | None => p
    end in
  match storedReductionAmount data with
  | Some v => withReductionAmount p v
  | None => p
  end.

(** [processingEnabled] as the constructor reads it from the store. *)
Definition storedSwitch (host : string) (data : Storage) : bool :=
  let siteSettings :=
    match storedSiteSettings data with Some s => s | None => [] end in
  match siteLookup siteSettings host with
  | Some v => v
  | None =>
      match storedProcessingEnabled data with
      | Some false => false
      | _ => true
      end
  end.

(** The callback of the constructor's [chrome.storage.sync.get], run at
    audio time [currentTime]. *)
Definition loadSettings (inst : Instance) (data : Storage) (currentTime : R)
    : Instance :=
  let inst :=
    match storedDebugEnabled data with
    | Some true => withDebug inst true true
    | _ => inst
    end in
  let enabled := storedSwitch (hostname inst) data in
  let calls :=
    if enabled then []
    else [setValueAtTime (Fin 1.0) (Fin currentTime)] in
  let st := withProcessing (core inst) enabled calls in
  withCore inst (withParams st (loadParameters (params st) data)).

(** What [toggleProcessing] leaves in the store once its callback has
    run. *)
Definition storeSwitch (host : string) (data : Storage)
    (enabled isGlobal : bool) : Storage :=
  if isGlobal then
    {| storedDebugEnabled := storedDebugEnabled data;
       storedProcessingEnabled := storedProcessingEnabled data;
       storedGlobalProcessingEnabled := Some enabled;
       storedSiteSettings := storedSiteSettings data;
       storedMode := storedMode data;
       storedSensitivity := storedSensitivity data;
       storedFrequencySkew := storedFrequencySkew data;
       storedClickWidening := storedClickWidening data;
       storedReductionAmount := storedReductionAmount data |}
  else
    let siteSettings :=
      match storedSiteSettings data with Some s => s | None => [] end in
    {| storedDebugEnabled := storedDebugEnabled data;
       storedProcessingEnabled := storedProcessingEnabled data;
       storedGlobalProcessingEnabled := storedGlobalProcessingEnabled data;
       storedSiteSettings := Some (siteAssign siteSettings host enabled);
       storedMode := storedMode data;
       storedSensitivity := storedSensitivity data;
       storedFrequencySkew := storedFrequencySkew data;
       storedClickWidening := storedClickWidening data;
       storedReductionAmount := storedReductionAmount data |}.

(** [toggleProcessing(enabled, isGlobal)] at audio time [currentTime],
    with the store as its callback leaves it. *)
Definition toggleProcessing (inst : Instance) (data : Storage)
    (currentTime : R) (enabled isGlobal : bool) : Instance * Storage :=
  let calls :=
    if enabled then []
    else [ cancelScheduledValues (Fin currentTime);
           setValueAtTime (Fin 1.0) (Fin currentTime) ] in
  (withCore inst (withProcessing (core inst) enabled calls),
   storeSwitch (hostname inst) data enabled isGlobal).

(** [toggleDebug(enabled)]: the overlay exists exactly while debugging is
    on. *)
Definition toggleDebug (inst : Instance) (enabled : bool) : Instance :=
  if enabled then withDebug inst true true
  else if debugElement inst then withDebug inst false false
  else withDebug inst false (debugElement inst).

(** ** The analysis loop *)

Definition processingInterval : nat := 3.
Definition targetProcessingRate : R := 60.

(** What one call of [analyzeAudio] meets: whether the audio context is
    running, the value of [performance.now()] at its start, the
    environment of the detection, and the frames the analyser node
    delivers. *)
Record Tick : Type := mkTick {
  contextRunning : bool;
  tickTime : R;
  tickEnv : Env;
  tickTimeData : list R;
  tickFreqData : list R
}.

(** [analyzeAudio()].  The inner [None] is the [null] of a skipped or
    failed call; the outer [None] is a detection outside the model. *)
Definition analyzeAudio (inst : Instance) (t : Tick)
    : option (option DetectionResult * Instance) :=
  if negb (contextRunning t) then Some (None, inst)
  else
    let counted := withFrameCounter inst (S (frameCounter inst)) in
    if negb (frameCounter counted mod processingInterval =? 0)%nat
    then Some (None, counted)
    else if Rltb (tickTime t - lastProcessingTime counted)
                 (1000 / targetProcessingRate)
    then Some (None, counted)
    else
      let timed := withLastProcessingTime counted (tickTime t) in
      match detectMouthClick (core timed) (tickEnv t) (tickTimeData t)
              (tickFreqData t) with
      | Some (Returned (result, st)) => Some (Some result, withCore timed st)
      | Some (Thrown st) => Some (None, withCore timed st)
      | None => None
      end.

(** The loop of [startDetection] over the ticks [ticks]: the results of
    the calls, oldest first, and the instance they leave. *)
Fixpoint runDetection (inst : Instance) (ticks : list Tick)
    : option (list (option DetectionResult) * Instance) :=
  match ticks with
  | [] => Some ([], inst)
  | t :: rest =>
      match analyzeAudio inst t with
      | Some (result, inst') =>
          match runDetection inst' rest with
          | Some (results, final) => Some (result :: results, final)
          | None => None
          end
      | None => None
      end
  end.

(** ** Popup messages *)

(** The messages of the listener: the two switches and the parameter
    messages; any other type is [otherMessage]. *)
Inductive PopupMessage : Type :=
| toggleProcessingMessage (value : bool)
| toggleDebugMessage (value : bool)
| parameterMessage (message : Message)
| otherMessage.

(** The listener of [chrome.runtime.onMessage], for the controller's
    [mouthDeClicker] (absent until the first video plays). *)
Definition onPopupMessage (mouthDeClicker : option Instance) (data : Storage)
    (currentTime : R) (message : PopupMessage)
    : option Instance * Storage :=
  match mouthDeClicker with
  | None => (None, data)
  | Some inst =>
      match message with
      | toggleProcessingMessage v =>
          let (inst', data') := toggleProcessing inst data currentTime v false in
          (Some inst', data')
      | toggleDebugMessage v => (Some (toggleDebug inst v), data)
      | parameterMessage m =>
          (Some (withCore inst
                   (withParams (core inst) (onMessage (params (core inst)) m))),
           data)
      | otherMessage => (Some inst, data)
      end
  end.

(** ** The earlier detector, [ClickRemover] *)

Module ClickRemover.

(** The fields of a [ClickRemover] that [detectClick] reads or writes.
    [currentSpectrum] is overwritten by every call before it is read, and
    is a local of the model. *)
Record Remover : Type := mkRemover {
  sampleRate : Z;
  previousSpectrum : list R;
  dynamicHistory : list R;
  sensitivityMultiplier : R;
  processingEnabled : bool;
  clickCount : nat;
  gainTimeline : list GainEvent
}.

(** [delayNode.delayTime.value], in seconds. *)
Definition delayTime : R := 0.08.

Module FreqBands.
Definition low : Band := mkBand 100 500.
Definition mid : Band := mkBand 500 2000.
Definition high : Band := mkBand 2000 8000.
End FreqBands.

Module Thresholds.
Definition lowToHighRatio : R := 0.5.
Definition midToLowRatio : R := 1.2.
Definition confidenceThreshold : R := 0.6.
Definition suddenChange : R := 8.
End Thresholds.

Module Weights.
Definition spectralChange : R := 0.4.
Definition frequencyRatio : R := 1.5.
End Weights.

(** The state the constructor builds when no sensitivity is stored;
    [enabled] is the switch that the stored settings give. *)
Definition initialRemover (rate : Z) (enabled : bool) : Remover :=
  {| sampleRate := rate;
     previousSpectrum := repeat 0 frequencyBinCount;
     dynamicHistory := repeat 0 10;
     sensitivityMultiplier := 1.0;
     processingEnabled := enabled;
     clickCount := 0;
     gainTimeline := [] |}.

Definition binOf (r : Remover) (hz : Z) : Z :=
  (hz * Z.of_nat frequencyBinCount / sampleRate r)%Z.

Definition calculateBandEnergy (r : Remover) (freqData : list R)
    (minFreq maxFreq : Z) : R :=
  let minBin := binOf r minFreq in
  let maxBin := binOf r maxFreq in
  sumOver (seq (Z.to_nat minBin) (Z.to_nat (maxBin - minBin)))
    (fun i => Rpower 10 (nth i freqData 0 / 20))
  / IZR (maxBin - minBin).

(** [x || fallback] for a finite number [x]. *)
Definition orElse (x fallback : R) : R := if Reqb x 0 then fallback else x.

(** The locals of the loop over the bins. *)
Record Dynamics : Type := mkDynamics {
  totalChange : R;
  suddenChange : R;
  peakCount : nat;
  maxChange : R
}.

Definition dynamicsStep (acc : Dynamics) (change : R) : Dynamics :=
  if Rltb 0 change then
    {| totalChange := totalChange acc + change;
       suddenChange :=
         if Rltb Thresholds.suddenChange change
         then suddenChange acc + change else suddenChange acc;
       peakCount :=
         if Rltb Thresholds.suddenChange change
         then S (peakCount acc) else peakCount acc;
       maxChange := Rmax (maxChange acc) change |}
  else acc.

Definition spectrumDynamics (previous current : list R) : Dynamics :=
  fold_left dynamicsStep
    (map (fun i => Rabs (nth i current 0 - nth i previous 0))
       (seq 0 frequencyBinCount))
    (mkDynamics 0 0 0 0).

(** [dynamicHistory.push(totalChange)], then one [shift()] past 5
    entries. *)
Definition pushChange (history : list R) (change : R) : list R :=
  let pushed := history ++ [change] in
  if (5 <? length pushed)%nat then tl pushed else pushed.

(** [history.reduce((a, b) => a + b) / history.length] on a history that
    is not empty. *)
Definition averageOf (history : list R) : R :=
  match history with
  | [] => 0
  | x :: rest => fold_left Rplus rest x / INR (length history)
  end.

(** The two frequency methods: [spectralChange], [frequencyRatio]. *)
Definition frequencyMethods (lowToHighRatio midToLowRatio : R)
    : bool * bool :=
  (Rltb lowToHighRatio Thresholds.lowToHighRatio,
   Rltb Thresholds.midToLowRatio midToLowRatio).

(** The three dynamic methods: [suddenChange], [peakDensity],
    [dynamicRange]. *)
Definition dynamicMethods (multiplier avgChange dynamicRatio : R)
    (d : Dynamics) : bool * bool * bool :=
  (Rltb (avgChange * 2.0 / multiplier) (suddenChange d)
   || Rltb (Thresholds.suddenChange * 2 / multiplier) (maxChange d),
   Rltb (INR frequencyBinCount * 0.08 / multiplier) (INR (peakCount d)),
   Rltb (1.8 / multiplier) dynamicRatio)%bool.

Definition freqConfidenceOf (methods : bool * bool) : R :=
  (0 + (if fst methods then Weights.spectralChange else 0)
   + (if snd methods then Weights.frequencyRatio else 0))
  / (0 + Weights.spectralChange + Weights.frequencyRatio).

Definition dynamicConfidenceOf (multiplier : R) (methods : bool * bool * bool)
    : R :=
  let '(sudden, peaks, range) := methods in
  (0 + (if sudden then 1.8 * multiplier else 0)
   + (if peaks then 1.2 * multiplier else 0)
   + (if range then 1.0 * multiplier else 0))
  / (0 + 1.8 * multiplier + 1.2 * multiplier + 1.0 * multiplier).

(** The measurements of the returned object; its [suddenChange] and
    [peakCount] are the fields [reportedSuddenChange] and
    [reportedPeakCount]. *)
Record ClickDetails : Type := mkClickDetails {
  lowToHighRatio : R;
  midToLowRatio : R;
  dynamicRatio : R;
  reportedSuddenChange : R;
  reportedPeakCount : nat
}.

(** The object [detectClick] returns; [details] is [None] for the short
    object of the disabled path. *)
Record ClickResult : Type := mkClickResult {
  isClick : bool;
  confidence : R;
  freqConfidence : R;
  dynamicConfidence : R;
  details : option ClickDetails
}.

Definition handleClickDetected (r : Remover) (currentTime : R) : Remover :=
  let lookAheadTime := currentTime + delayTime in
  {| sampleRate := sampleRate r;
     previousSpectrum := previousSpectrum r;
     dynamicHistory := dynamicHistory r;
     sensitivityMultiplier := sensitivityMultiplier r;
     processingEnabled := processingEnabled r;
     clickCount := S (clickCount r);
     gainTimeline :=
       gainTimeline r
       ++ [ cancelScheduledValues (Fin lookAheadTime);
            setValueAtTime (Fin 0.0001) (Fin (lookAheadTime - 0.025));
            setValueAtTime (Fin 0.0001) (Fin (lookAheadTime + 0.04));
            linearRampToValueAtTime (Fin 0.2) (Fin (lookAheadTime + 0.055));
            linearRampToValueAtTime (Fin 0.6) (Fin (lookAheadTime + 0.075));
            linearRampToValueAtTime (Fin 1.0) (Fin (lookAheadTime + 0.1)) ]
  |}.

(** The calls that are modelled over the reals: full frames, a multiplier
    that is not zero, and a sample rate that keeps every band inside the
    spectrum and gives it at least one bin. *)
Definition inModel (r : Remover) (freqData : list R) : bool :=
  ((length freqData =? frequencyBinCount)%nat
   && (length (previousSpectrum r) =? frequencyBinCount)%nat
   && negb (Reqb (sensitivityMultiplier r) 0)
   && (8000 <=? sampleRate r)%Z
   && (binOf r 100 <? binOf r 500)%Z
   && (binOf r 500 <? binOf r 2000)%Z
   && (binOf r 2000 <? binOf r 8000)%Z)%bool.

Definition withSpectrum (r : Remover) (spectrum history : list R)
    : Remover :=
  {| sampleRate := sampleRate r;
     previousSpectrum := spectrum;
     dynamicHistory := history;
     sensitivityMultiplier := sensitivityMultiplier r;
     processingEnabled := processingEnabled r;
     clickCount := clickCount r;
     gainTimeline := gainTimeline r |}.

(** [detectClick(timeData, freqData)] at audio time [currentTime];
    [timeData] is not read.  [None] marks a call outside the model. *)
Definition detectClick (r : Remover) (currentTime : R) (freqData : list R)
    : option (ClickResult * Remover) :=
  if negb (processingEnabled r)
  then Some ({| isClick := false; confidence := 0; freqConfidence := 0;
                dynamicConfidence := 0; details := None |}, r)
  else if negb (inModel r freqData) then None
  else
    let lowEnergy :=
      calculateBandEnergy r freqData (bandMin FreqBands.low)
        (bandMax FreqBands.low) in
    let midEnergy :=
      calculateBandEnergy r freqData (bandMin FreqBands.mid)
        (bandMax FreqBands.mid) in
    let highEnergy :=
      calculateBandEnergy r freqData (bandMin FreqBands.high)
        (bandMax FreqBands.high) in
    let lowToHighRatio := lowEnergy / orElse highEnergy 0.000001 in
    let midToLowRatio := midEnergy / orElse lowEnergy 0.000001 in
    let freqMethods := frequencyMethods lowToHighRatio midToLowRatio in
    let d := spectrumDynamics (previousSpectrum r) freqData in
    let history := pushChange (dynamicHistory r) (totalChange d) in
    let avgChange := averageOf history in
    let dynamicRatio := suddenChange d / orElse avgChange 0.000001 in
    let methods :=
      dynamicMethods (sensitivityMultiplier r) avgChange dynamicRatio d in
    let freqConfidence := freqConfidenceOf freqMethods in
    let dynamicConfidence :=
      dynamicConfidenceOf (sensitivityMultiplier r) methods in
    let isClick :=
      (Rleb Thresholds.confidenceThreshold freqConfidence
       || Rleb 0.6 dynamicConfidence)%bool in
    let r1 := withSpectrum r freqData history in
    Some
      ({| isClick := isClick;
          confidence := Rmax freqConfidence dynamicConfidence;
          freqConfidence := freqConfidence;
          dynamicConfidence := dynamicConfidence;
          details :=
            Some {| lowToHighRatio := lowToHighRatio;
                    midToLowRatio := midToLowRatio;
                    dynamicRatio := dynamicRatio;
                    reportedSuddenChange := suddenChange d;
                    reportedPeakCount := peakCount d |} |},
       if isClick then handleClickDetected r1 currentTime else r1).

End ClickRemover.

(** ** Predicates of the further statements *)

(** A click widening that the scheduler rejects: the widening duration is
    not a positive finite number. *)
Definition wideningRejected (p : DetectionParameters) : Prop :=
  (negb (isFinite (wideningDuration p))
   || (wideningDuration p <=? Fin 0)%js)%bool = true.

(** A call of [analyzeAudio] that was skipped: it returned [null] and left
    the detector as it was. *)
Definition skipped (before : Instance) (result : option DetectionResult)
    (after : Instance) : Prop :=
  result = None /\ core after = core before.

(** A frame of the analyser's size that is silent but for the sample at
    index [position], which is [v]. *)
Definition impulseFrame (position : nat) (v : R) : list R :=
  repeat 0 position ++ v :: repeat 0 (frequencyBinCount - position - 1).

(** A rate limiter with room at time [t]: no event in its window, no
    suppression running, and the last event at least the minimal interval
    back. *)
Definition limiterFree (st : State) (t : R) : Prop :=
  clickHistory (limiter st) = []
  /\ (0 < maxClicksPerSecond (limiter st))%nat
  /\ clickSuppressionTime (limiter st) <= t
  /\ minClickInterval (limiter st) <= t - lastClickTime (limiter st).

(** The number a parameter message carries, if it carries one. *)
Definition messageNumber (message : Message) : option jsnum :=
  match message with
  | updateSensitivity v | updateFrequencySkew v | updateClickWidening v
  | updateReductionAmount v => Some v
  | updateMode _ => None
  end.

(** * Properties *)

(** ** Comparisons on reals *)

Lemma Rltb_true (a b : R) : a < b -> Rltb a b = true.
Proof. intros H. unfold Rltb. destruct (Rlt_dec a b); [reflexivity | lra]. Qed.

Lemma Rltb_false (a b : R) : b <= a -> Rltb a b = false.
Proof. intros H. unfold Rltb. destruct (Rlt_dec a b); [lra | reflexivity]. Qed.

Lemma Rleb_true (a b : R) : a <= b -> Rleb a b = true.
Proof. intros H. unfold Rleb. destruct (Rle_dec a b); [reflexivity | lra]. Qed.

Lemma Rleb_false (a b : R) : b < a -> Rleb a b = false.
Proof. intros H. unfold Rleb. destruct (Rle_dec a b); [lra | reflexivity]. Qed.

Lemma Reqb_true (a b : R) : a = b -> Reqb a b = true.
Proof.
  intros H. unfold Reqb. destruct (Req_dec_T a b); [reflexivity | lra].
Qed.

Lemma Reqb_false (a b : R) : a <> b -> Reqb a b = false.
Proof.
  intros H. unfold Reqb. destruct (Req_dec_T a b); [contradiction | reflexivity].
Qed.

Lemma Rltb_spec (a b : R) : Rltb a b = true <-> a < b.
Proof. unfold Rltb. destruct (Rlt_dec a b); split; (lra || discriminate || auto). Qed.

Lemma Rleb_spec (a b : R) : Rleb a b = true <-> a <= b.
Proof. unfold Rleb. destruct (Rle_dec a b); split; (lra || discriminate || auto). Qed.

(** Decide every comparison of the goal that linear arithmetic settles. *)
Ltac rdecide :=
  repeat match goal with
  | |- context [Rltb ?a ?b] =>
      first [ rewrite (Rltb_true a b) by lra
            | rewrite (Rltb_false a b) by lra ]
  | |- context [Rleb ?a ?b] =>
      first [ rewrite (Rleb_true a b) by lra
            | rewrite (Rleb_false a b) by lra ]
  | |- context [Reqb ?a ?b] =>
      first [ rewrite (Reqb_true a b) by lra
            | rewrite (Reqb_false a b) by lra ]
  end.

(** Split on a comparison that the context does not settle. *)
Ltac rcases a b :=
  destruct (Rlt_dec a b);
  [ rewrite ?(Rltb_true a b) by lra | rewrite ?(Rltb_false a b) by lra ].

Lemma Rpower_pos (a b : R) : 0 < Rpower a b.
Proof. unfold Rpower. apply exp_pos. Qed.

Lemma Rpower_10_le_1 (x : R) : x <= 0 -> Rpower 10 x <= 1.
Proof.
  intros H. rewrite <- (Rpower_O 10) by lra.
  apply Rle_Rpower; lra.
Qed.

(** ** The resolved reduction factor *)

(** Unfold the arithmetic of [jsnum] and decide the comparisons met. *)
Ltac jsred :=
  cbn [isFinite JS.lt JS.le JS.gt JS.ge JS.neg JS.add JS.sub JS.mul JS.div
       Math_max Math_min Math_sqrt Math_log10 Math_pow signedInf
       negb orb andb Bool.eqb].
Ltac jseval := repeat first [ progress jsred | progress rdecide ].

Lemma resolve_at_or_below_floor (r : R) :
  r <= -60 -> resolveReductionFactor (Fin r) = Fin 0.0001.
Proof.
  intros H. unfold resolveReductionFactor. jseval. reflexivity.
Qed.

Lemma resolve_above_floor (r : R) :
  -60 < r -> resolveReductionFactor (Fin r) = Fin (Rpower 10 (r / 20)).
Proof.
  intros H. unfold resolveReductionFactor. jseval.
  destruct (Req_dec_T (r / 20) 0) as [E | E].
  - rewrite (Reqb_true _ _ E). jseval.
    rewrite E, Rpower_O by lra. reflexivity.
  - rewrite (Reqb_false _ _ E). jseval.
    rewrite (Rleb_false (Rpower 10 (r / 20)) 0) by apply Rpower_pos.
    reflexivity.
Qed.

Lemma resolve_finite_positive (x : jsnum) :
  exists v, resolveReductionFactor x = Fin v /\ 0 < v.
Proof.
  destruct x as [r | | |].
  - destruct (Rle_dec r (-60)).
    + exists 0.0001. rewrite resolve_at_or_below_floor by assumption.
      split; [reflexivity | lra].
    + exists (Rpower 10 (r / 20)). rewrite resolve_above_floor by lra.
      split; [reflexivity | apply Rpower_pos].
  - exists 0.0001. unfold resolveReductionFactor. jseval.
    rewrite Rabs_right by lra. jseval. split; [reflexivity | lra].
  - exists 0.0001. unfold resolveReductionFactor. jseval.
    split; [reflexivity | lra].
  - exists 0.0001. unfold resolveReductionFactor. jseval.
    split; [reflexivity | lra].
Qed.

(** C5.  The resolved reduction factor is exactly 0.0001 when the
    configured reduction is at or below -60 dB (minus infinity included),
    it is 10^(reductionDb/20) for a reduction above -60 dB up to 0 dB, and
    whatever the stored value is (NaN and the infinities included) the
    resolved factor is a finite, strictly positive number: a non-finite or
    non-positive intermediate value is replaced by 0.0001. *)
Theorem resolved_reduction_factor :
  (forall r : R, r <= -60 -> resolveReductionFactor (Fin r) = Fin 0.0001)
  /\ resolveReductionFactor NInf = Fin 0.0001
  /\ (forall r : R, -60 < r <= 0 ->
        resolveReductionFactor (Fin r) = Fin (Rpower 10 (r / 20)))
  /\ resolveReductionFactor NaN = Fin 0.0001
  /\ resolveReductionFactor PInf = Fin 0.0001
  /\ (forall x : jsnum,
        exists v, resolveReductionFactor x = Fin v /\ 0 < v).
Proof.
  split; [exact resolve_at_or_below_floor |].
  split.
  { unfold resolveReductionFactor. jseval. reflexivity. }
  split; [intros r [H _]; apply resolve_above_floor; exact H |].
  split; [reflexivity |].
  split.
  { unfold resolveReductionFactor. jseval. rewrite Rabs_right by lra.
    jseval. reflexivity. }
  exact resolve_finite_positive.
Qed.

Lemma resolved_reduction_factor_witness :
  resolveReductionFactor (Fin (-60)) = Fin 0.0001
  /\ resolveReductionFactor (Fin (-6)) = Fin (Rpower 10 (-6 / 20)).
Proof.
  split.
  - apply (proj1 resolved_reduction_factor (-60)). lra.
  - apply (proj1 (proj2 (proj2 resolved_reduction_factor)) (-6)). lra.
Defined.

(** ** The scheduled gain curve *)

Lemma Forall_firstn {A : Type} (P : A -> Prop) (k : nat) (l : list A) :
  Forall P l -> Forall P (firstn k l).
Proof.
  intros H. revert k. induction H; intros [| k]; cbn; constructor; auto.
Qed.

Lemma performCalls_Forall (P : GainEvent -> Prop) (calls : list GainEvent)
    (fault : option nat) :
  Forall P calls -> Forall P (fst (performCalls calls fault)).
Proof.
  intros H. unfold performCalls. destruct fault as [k |]; [| exact H].
  destruct (k <? length calls)%nat; cbn; [apply Forall_firstn |]; exact H.
Qed.

Lemma dip_within_bounds (v : R) :
  0 < v <= 1 ->
  exists g : R, Math_max (Fin 0.1) (Fin v) = Fin g /\ 0.0001 <= g <= 1.0.
Proof.
  intros H. jsred. unfold Rltb. destruct (Rlt_dec 0.1 v).
  - exists v. split; [reflexivity | lra].
  - exists 0.1. split; [reflexivity | lra].
Qed.

Lemma smoothGainRamp_within_bounds (t wd : jsnum) (v : R) :
  0 < v <= 1 -> Forall gainWithinBounds (smoothGainRamp t wd (Fin v)).
Proof.
  intros H. destruct (dip_within_bounds v H) as [g [Eg Hg]].
  unfold smoothGainRamp. rewrite Eg.
  repeat constructor; intros x Hx; cbn in Hx; try discriminate;
    injection Hx as <-; eexists; (split; [reflexivity | lra]).
Qed.

Lemma fallbackGainRamp_within_bounds (t : jsnum) :
  Forall gainWithinBounds (fallbackGainRamp t).
Proof.
  unfold fallbackGainRamp.
  repeat constructor; intros x Hx; cbn in Hx; try discriminate;
    injection Hx as <-; eexists; (split; [reflexivity | lra]).
Qed.

Lemma resolve_in_unit_interval (r : R) :
  -60 <= r <= 0 ->
  exists v, resolveReductionFactor (Fin r) = Fin v /\ 0 < v <= 1.
Proof.
  intros H. destruct (Rle_dec r (-60)).
  - exists 0.0001. rewrite resolve_at_or_below_floor by assumption.
    split; [reflexivity | lra].
  - exists (Rpower 10 (r / 20)). rewrite resolve_above_floor by lra.
    split; [reflexivity |].
    split; [apply Rpower_pos | apply Rpower_10_le_1; lra].
Qed.

Lemma wideningDuration_valid (p : DetectionParameters) (w : R) :
  clickWidening p = Fin w -> 1 <= w <= 20 ->
  exists d, wideningDuration p = Fin d /\ 0 < d.
Proof.
  intros E H. unfold wideningDuration. rewrite E. jseval.
  destruct (String.eqb (mode p) "smack"); eexists;
    (split; [reflexivity | lra]).
Qed.

(** C1.  For a configuration inside the documented ranges (boundary
    values included), whatever the confidence of the admitted event and
    whichever automation call the audio graph rejects, every gain value
    that [handleMouthClickDetected] places on the timeline, by the smooth
    ramp or by the fallback ramp, is a finite number in [0.0001, 1]; when
    no call is rejected the whole seven-call ramp is emitted. *)
Theorem gain_curve_within_bounds (st : State) (currentTime : R)
    (confidence : jsnum) (fault fallbackFault : option nat) :
  validConfiguration (params st) ->
  exists calls,
    gainTimeline
      (stateAfter
         (handleMouthClickDetected st currentTime confidence fault
            fallbackFault))
    = gainTimeline st ++ calls
    /\ Forall gainWithinBounds calls
    /\ (fault = None -> length calls = 7%nat).
Proof.
  intros (s & k & w & r & _ & _ & _ & _ & Ew & Hw & Er & Hr).
  destruct (wideningDuration_valid _ _ Ew Hw) as [d [Ed Hd]].
  destruct (resolve_in_unit_interval r Hr) as [v [Ev Hv]].
  unfold handleMouthClickDetected. rewrite Ed, Er, Ev. jseval.
  pose proof (performCalls_Forall gainWithinBounds
                (smoothGainRamp (Fin (currentTime + lookAheadDelay)) (Fin d)
                   (Fin v)) fault
                (smoothGainRamp_within_bounds _ _ v Hv)) as Hsmooth.
  pose proof (performCalls_Forall gainWithinBounds
                (fallbackGainRamp (Fin (currentTime + lookAheadDelay)))
                fallbackFault (fallbackGainRamp_within_bounds _)) as Hfall.
  destruct (performCalls (smoothGainRamp _ _ _) fault) as [done threw] eqn:E1.
  destruct threw.
  - destruct (performCalls (fallbackGainRamp _) fallbackFault)
      as [done' threw'] eqn:E2.
    exists (done ++ done'). cbn in Hsmooth, Hfall.
    split; [destruct threw'; reflexivity |].
    split; [apply Forall_app; split; assumption |].
    intros ->. cbn in E1. discriminate.
  - exists done. cbn in Hsmooth.
    split; [reflexivity |]. split; [assumption |].
    intros ->. cbn in E1. injection E1 as <-. reflexivity.
Qed.

Lemma gain_curve_within_bounds_witness :
  exists calls,
    gainTimeline
      (stateAfter
         (handleMouthClickDetected (initialState 48000 true) 1
            (Fin 0.7) None None))
    = gainTimeline (initialState 48000 true) ++ calls
    /\ Forall gainWithinBounds calls
    /\ (@None nat = None -> length calls = 7%nat).
Proof.
  apply (gain_curve_within_bounds (initialState 48000 true) 1
           (Fin 0.7) None None).
  exists 1.0, 0.0, 5.0, (-60). cbn.
  repeat split; try reflexivity; lra.
Defined.

(** ** The configuration interface *)

Lemma Math_max_absorb (x : jsnum) (b : R) :
  Math_max (Math_max x (Fin b)) (Fin b) = Math_max x (Fin b).
Proof.
  destruct x as [a | | |]; jsred; try reflexivity.
  - unfold Rltb. destruct (Rlt_dec a b); jsred; rdecide; reflexivity.
  - rdecide. reflexivity.
Qed.

Lemma smack_skew_settles (x : jsnum) :
  (forall k, x = Fin k -> k <= -0.1) ->
  let once := Math_max (Fin (-0.3)) (x - Fin 0.2)%js in
  Math_max (Fin (-0.3)) (once - Fin 0.2)%js = once.
Proof.
  intros H. destruct x as [k | | |]; cbn zeta.
  - specialize (H k eq_refl). jseval. reflexivity.
  - jseval. reflexivity.
  - jseval. reflexivity.
  - reflexivity.
Qed.

Lemma setMode_again (p : DetectionParameters) (m : string) :
  (m = "smack"%string -> forall k, frequencySkew p = Fin k -> k <= -0.1) ->
  setMode (setMode p m) m = setMode p m.
Proof.
  intros H. unfold setMode.
  destruct (String.eqb m "smack") eqn:Esmack.
  - apply String.eqb_eq in Esmack. specialize (H Esmack). subst m.
    cbn [String.eqb Ascii.eqb Bool.eqb orb andb withMode withClickWidening
         withFrequencySkew sensitivity frequencySkew clickWidening
         reductionAmount mode].
    rewrite Math_max_absorb, (smack_skew_settles _ H). reflexivity.
  - destruct (String.eqb m "click"); reflexivity.
Qed.

Lemma updateParameters_again (p : DetectionParameters)
    (n : PartialParameters) :
  updateParameters (updateParameters p n) n = updateParameters p n.
Proof.
  destruct n as [[?|] [?|] [?|] [?|] [?|]]; reflexivity.
Qed.

(** Where a second application changes nothing: [updateParameters] with
    any subset of fields, and every parameter message but the mode message
    ['smack'] arriving while the stored frequency skew is a finite number
    above -0.1. *)
Lemma second_application_settled :
  (forall p n, updateParameters (updateParameters p n) n
               = updateParameters p n)
  /\ (forall p message,
        (message = updateMode "smack" ->
         forall k, frequencySkew p = Fin k -> k <= -0.1) ->
        onMessage (onMessage p message) message = onMessage p message).
Proof.
  split; [exact updateParameters_again |].
  intros p [v | v | v | v | m] H; cbn [onMessage]; try reflexivity.
  apply setMode_again. intros ->. apply H. reflexivity.
Qed.

(** C7 at its failing input: from the default configuration the mode
    message ['smack'] applied once leaves a frequency skew of -0.2, and
    applied a second time a skew of -0.3, so the stored configuration
    after two applications differs from the one after one.  The same mode
    given to [updateParameters] is stored twice as once. *)
Theorem smack_twice_differs_from_once :
  frequencySkew
    (onMessage (onMessage defaultParams (updateMode "smack"))
       (updateMode "smack")) = Fin (-0.3)
  /\ frequencySkew (onMessage defaultParams (updateMode "smack"))
     = Fin (0.0 - 0.2)
  /\ onMessage (onMessage defaultParams (updateMode "smack"))
       (updateMode "smack")
     <> onMessage defaultParams (updateMode "smack")
  /\ (let update := mkPartial None None None None (Some "smack"%string) in
      updateParameters (updateParameters defaultParams update) update
      = updateParameters defaultParams update).
Proof.
  assert (E1 : frequencySkew
                 (onMessage (onMessage defaultParams (updateMode "smack"))
                    (updateMode "smack")) = Fin (-0.3)).
  { cbn [onMessage setMode defaultParams String.eqb Ascii.eqb Bool.eqb orb
         andb withMode withClickWidening withFrequencySkew sensitivity
         frequencySkew clickWidening reductionAmount mode].
    jseval. reflexivity. }
  assert (E2 : frequencySkew (onMessage defaultParams (updateMode "smack"))
               = Fin (0.0 - 0.2)).
  { cbn [onMessage setMode defaultParams String.eqb Ascii.eqb Bool.eqb orb
         andb withMode withClickWidening withFrequencySkew sensitivity
         frequencySkew clickWidening reductionAmount mode].
    jseval. reflexivity. }
  split; [exact E1 |]. split; [exact E2 |].
  split; [| reflexivity].
  intros E. rewrite E in E1. rewrite E2 in E1. injection E1. lra.
Qed.

(** The four setters clamp whatever is not NaN, and keep the other
    fields; NaN goes through [Math.max] and [Math.min] and is stored. *)
Lemma clamp_within (lo hi : R) (v : jsnum) :
  lo <= hi -> v <> NaN ->
  exists c : R, clamp lo hi v = Fin c /\ lo <= c <= hi.
Proof.
  intros Hle Hv. unfold clamp.
  destruct v as [a | | |]; [| | | contradiction]; jsred.
  - rcases a hi; jsred.
    + rcases lo a; eexists; (split; [reflexivity | lra]).
    + rcases lo hi; eexists; (split; [reflexivity | lra]).
  - rcases lo hi; eexists; (split; [reflexivity | lra]).
  - exists lo. split; [reflexivity | lra].
Qed.

Lemma clamp_NaN (lo hi : R) : clamp lo hi NaN = NaN.
Proof. reflexivity. Qed.

Lemma setters_clamp (p : DetectionParameters) (v : jsnum) :
  v <> NaN ->
  (exists c : R, setSensitivity p v = withSensitivity p (Fin c)
                 /\ 0.1 <= c <= 2.0)
  /\ (exists c : R, setFrequencySkew p v = withFrequencySkew p (Fin c)
                    /\ -1.0 <= c <= 1.0)
  /\ (exists c : R, setClickWidening p v = withClickWidening p (Fin c)
                    /\ 1 <= c <= 20)
  /\ (exists c : R, setReductionAmount p v = withReductionAmount p (Fin c)
                    /\ -60 <= c <= 0).
Proof.
  intros Hv.
  unfold setSensitivity, setFrequencySkew, setClickWidening,
    setReductionAmount.
  repeat split;
    match goal with
    | |- context [clamp ?lo ?hi v] =>
        let H := fresh in
        assert (H : lo <= hi) by lra;
        destruct (clamp_within lo hi v H Hv) as [c [-> Hc]];
        exists c; split; [reflexivity | exact Hc]
    end.
Qed.

(** C8 at its failing input: [updateParameters] stores a sensitivity of 5
    as it is, the other fields keep their values, and the stored
    configuration is outside the documented ranges; the setter
    [setSensitivity] stores 2 for the same value. *)
Theorem updateParameters_stores_unclamped :
  let update := mkPartial (Some (Fin 5)) None None None None in
  updateParameters defaultParams update
  = withSensitivity defaultParams (Fin 5)
  /\ ~ validConfiguration (updateParameters defaultParams update)
  /\ setSensitivity defaultParams (Fin 5)
     = withSensitivity defaultParams (Fin 2.0).
Proof.
  cbn zeta. split; [reflexivity |]. split.
  - intros (s & k & w & r & Es & Hs & _). cbn in Es. injection Es as <-. lra.
  - unfold setSensitivity, clamp. jseval. reflexivity.
Qed.

(** ** The disabled path *)

(** C10.  With processing disabled, [detectMouthClick] returns, for every
    frame, [isClick = false] with confidence 0 and zero LPC and spectral
    confidences, and the state it leaves is the state it found: loudness
    history, circular buffer, previous spectrum and rate limiter included. *)
Theorem disabled_detection_is_inert (st : State) (env : Env)
    (timeData freqData : list R) :
  processingEnabled st = false ->
  detectMouthClick st env timeData freqData
  = Some (Returned
            ({| isClick := false; confidence := 0; lpcConfidence := 0;
                spectralConfidence := 0; details := None |}, st)).
Proof.
  intros H. unfold detectMouthClick. rewrite H. reflexivity.
Qed.

Lemma disabled_detection_is_inert_witness :
  detectMouthClick (initialState 48000 false) (mkEnv 1000 1 None None)
    [0.5; -0.5] [-20; -30]
  = Some (Returned
            ({| isClick := false; confidence := 0; lpcConfidence := 0;
                spectralConfidence := 0; details := None |},
             initialState 48000 false)).
Proof.
  apply (disabled_detection_is_inert (initialState 48000 false)
           (mkEnv 1000 1 None None) [0.5; -0.5] [-20; -30]).
  reflexivity.
Defined.

(** ** The rate limiter *)

Lemma filter_length_implies {A : Type} (p q : A -> bool) (l : list A) :
  (forall x, p x = true -> q x = true) ->
  (length (filter p l) <= length (filter q l))%nat.
Proof.
  intros H. induction l as [| x l IH]; cbn; [lia |].
  destruct (p x) eqn:E.
  - rewrite (H x E). cbn. lia.
  - destruct (q x); cbn; lia.
Qed.

Lemma filter_filter_implies {A : Type} (p q : A -> bool) (l : list A) :
  (forall x, p x = true -> q x = true) ->
  filter p (filter q l) = filter p l.
Proof.
  intros H. induction l as [| x l IH]; cbn; [reflexivity |].
  destruct (q x) eqn:E; cbn.
  - rewrite IH. reflexivity.
  - destruct (p x) eqn:E'; [| exact IH].
    rewrite (H x E') in E. discriminate.
Qed.

Lemma recent_later (t T : R) (l : list R) :
  t <= T -> recent T (recent t l) = recent T l.
Proof.
  intros H. unfold recent. apply filter_filter_implies. intros x Hx.
  apply Rltb_spec in Hx. apply Rltb_true. lra.
Qed.

(** What one call of [shouldProcessClick] does to the limiter. *)
Lemma shouldProcessClick_cases (st : State) (t : R) (d : bool) (c : jsnum) :
  let r := shouldProcessClick st t d c in
  let pruned := recent t (clickHistory (limiter st)) in
  (fst r = false
   /\ (snd r = st
       \/ snd r = withRateLimiter st pruned (lastClickTime (limiter st))
                    (clickSuppressionTime (limiter st))))
  \/ (fst r = true
      /\ snd r = withRateLimiter st (pruned ++ [t]) t (t + 50)
      /\ (length pruned < maxClicksPerSecond (limiter st))%nat
      /\ minClickInterval (limiter st) <= t - lastClickTime (limiter st)
      /\ clickSuppressionTime (limiter st) <= t).
Proof.
  cbn zeta. unfold shouldProcessClick.
  destruct d; cbn [negb]; [| left; split; [reflexivity | left; reflexivity]].
  destruct (Rltb t (clickSuppressionTime (limiter st))) eqn:E1;
    [left; split; [reflexivity | right; reflexivity] |].
  destruct (maxClicksPerSecond (limiter st) <=? _)%nat eqn:E2;
    [left; split; [reflexivity | right; reflexivity] |].
  destruct (Rltb (t - lastClickTime (limiter st)) (minClickInterval (limiter st))) eqn:E3;
    [left; split; [reflexivity | right; reflexivity] |].
  destruct (c <? _)%js;
    [left; split; [reflexivity | right; reflexivity] |].
  right. split; [reflexivity |]. split; [reflexivity |].
  apply Nat.leb_gt in E2.
  unfold Rltb in E1, E3.
  destruct (Rlt_dec t (clickSuppressionTime (limiter st))); [discriminate |].
  destruct (Rlt_dec (t - lastClickTime (limiter st)) (minClickInterval (limiter st)));
    [discriminate |].
  repeat split; [exact E2 | lra | lra].
Qed.

Lemma shouldProcessClick_keeps_limits (st : State) (t : R) (d : bool)
    (c : jsnum) :
  maxClicksPerSecond (limiter (snd (shouldProcessClick st t d c)))
  = maxClicksPerSecond (limiter st)
  /\ minClickInterval (limiter (snd (shouldProcessClick st t d c)))
     = minClickInterval (limiter st).
Proof.
  destruct (shouldProcessClick_cases st t d c)
    as [[_ [-> | ->]] | [_ [-> _]]]; split; reflexivity.
Qed.

Lemma spaced_pair (m : R) (l pre mid post : list R) (x y : R) :
  spaced m l -> l = pre ++ x :: mid ++ y :: post -> m <= y - x.
Proof.
  revert l. induction pre as [| z pre IH]; intros l Hs ->; cbn in Hs.
  - destruct Hs as [Hall _]. rewrite Forall_forall in Hall.
    apply Hall. apply in_or_app. right. left. reflexivity.
  - destruct Hs as [_ Hs]. exact (IH _ Hs eq_refl).
Qed.

Lemma runLimiter_step (st : State) (c : Detection) (rest : list Detection) :
  runLimiter st (c :: rest)
  = (fst (runLimiter (snd (shouldProcessClick st (atTime c) (detected c)
                        (withConfidence c))) rest),
     if fst (shouldProcessClick st (atTime c) (detected c)
               (withConfidence c))
     then atTime c
          :: snd (runLimiter (snd (shouldProcessClick st (atTime c) (detected c)
                                (withConfidence c))) rest)
     else snd (runLimiter (snd (shouldProcessClick st (atTime c) (detected c)
                             (withConfidence c))) rest)).
Proof.
  cbn [runLimiter].
  destruct (shouldProcessClick st (atTime c) (detected c) (withConfidence c))
    as [ok st'].
  cbn [fst snd]. destruct (runLimiter st' rest). reflexivity.
Qed.

Lemma runLimiter_spaced_from_last (calls : list Detection) :
  forall (st : State) (t : R),
    clockFrom t calls -> lastClickTime (limiter st) <= t ->
    Forall (fun y => minClickInterval (limiter st) <= y - lastClickTime (limiter st))
      (snd (runLimiter st calls))
    /\ spaced (minClickInterval (limiter st)) (snd (runLimiter st calls)).
Proof.
  induction calls as [| c rest IH]; intros st t Hclock Hlast.
  - cbn. split; [constructor | exact I].
  - destruct Hclock as [Ht Hclock]. rewrite runLimiter_step. cbn [snd].
    pose proof (shouldProcessClick_keeps_limits st (atTime c) (detected c)
                  (withConfidence c)) as [_ Hmin].
    pose proof (shouldProcessClick_cases st (atTime c) (detected c)
                  (withConfidence c)) as Hcases.
    cbn zeta in Hcases.
    set (res := shouldProcessClick st (atTime c) (detected c)
                  (withConfidence c)) in *.
    specialize (IH (snd res) (atTime c) Hclock). rewrite Hmin in IH.
    destruct Hcases as [[Hf Hst] | [Hf [Hst [_ [Hgap _]]]]]; rewrite Hf.
    + assert (Hl : lastClickTime (limiter (snd res)) = lastClickTime (limiter st))
        by (destruct Hst as [-> | ->]; reflexivity).
      rewrite Hl in IH. apply IH. lra.
    + assert (Hl : lastClickTime (limiter (snd res)) = atTime c)
        by (rewrite Hst; reflexivity).
      rewrite Hl in IH. destruct (IH (Rle_refl _)) as [Hall Hsp].
      split; [| split; assumption].
      constructor; [exact Hgap |].
      eapply Forall_impl; [| exact Hall]. cbn. intros y Hy. lra.
Qed.

Lemma runLimiter_spaced (calls : list Detection) :
  forall (st : State) (t : R),
    clockFrom t calls ->
    spaced (minClickInterval (limiter st)) (snd (runLimiter st calls)).
Proof.
  induction calls as [| c rest IH]; intros st t Hclock; [exact I |].
  destruct Hclock as [Ht Hclock]. rewrite runLimiter_step. cbn [snd].
  pose proof (shouldProcessClick_keeps_limits st (atTime c) (detected c)
                (withConfidence c)) as [_ Hmin].
  pose proof (shouldProcessClick_cases st (atTime c) (detected c)
                (withConfidence c)) as Hcases.
  cbn zeta in Hcases.
  set (res := shouldProcessClick st (atTime c) (detected c)
                (withConfidence c)) in *.
  destruct Hcases as [[Hf _] | [Hf [Hst _]]]; rewrite Hf.
  - rewrite <- Hmin. exact (IH _ (atTime c) Hclock).
  - pose proof (runLimiter_spaced_from_last rest (snd res) (atTime c) Hclock)
      as H.
    rewrite Hmin in H.
    assert (Hl : lastClickTime (limiter (snd res)) = atTime c)
      by (rewrite Hst; reflexivity).
    rewrite Hl in H. exact (H (Rle_refl _)).
Qed.

(** C4.  Over any stream of detection calls made at non-decreasing
    times, any two admitted events are at least [minClickInterval] apart
    (125 ms in the state the constructor builds); a call made less than
    that after the last admitted event is refused, and every admission
    stores its time as the last-event time. *)
Theorem admitted_events_min_spacing :
  (forall (st : State) (calls : list Detection) (t0 : R)
          (pre mid post : list R) (x y : R),
      clockFrom t0 calls ->
      snd (runLimiter st calls) = pre ++ x :: mid ++ y :: post ->
      minClickInterval (limiter st) <= y - x)
  /\ (forall st t d c,
        t - lastClickTime (limiter st) < minClickInterval (limiter st) ->
        fst (shouldProcessClick st t d c) = false)
  /\ (forall st t d c,
        fst (shouldProcessClick st t d c) = true ->
        lastClickTime (limiter (snd (shouldProcessClick st t d c))) = t)
  /\ minClickInterval (limiter (initialState 48000 true)) = 125.
Proof.
  split.
  { intros st calls t0 pre mid post x y Hclock E.
    exact (spaced_pair _ _ pre mid post x y
             (runLimiter_spaced calls st t0 Hclock) E). }
  split.
  { intros st t d c H.
    destruct (shouldProcessClick_cases st t d c)
      as [[Hf _] | [_ [_ [_ [Hgap _]]]]]; [exact Hf | lra]. }
  split; [| reflexivity].
  intros st t d c H.
  destruct (shouldProcessClick_cases st t d c)
    as [[Hf _] | [_ [-> _]]]; [congruence | reflexivity].
Qed.

Lemma recent_length_later (t T : R) (l : list R) :
  t <= T -> (length (recent T l) <= length (recent t l))%nat.
Proof.
  intros H. unfold recent. apply filter_length_implies. intros x Hx.
  apply Rltb_spec in Hx. apply Rltb_true. lra.
Qed.

Lemma inTrailingWindow_within_recent (T : R) (l : list R) :
  (length (inTrailingWindow T l) <= length (recent T l))%nat.
Proof.
  unfold inTrailingWindow, recent. apply filter_length_implies.
  intros x Hx. apply andb_true_iff in Hx. apply Hx.
Qed.

Lemma windowInvariant_step (st : State) (t : R) (admitted : list R)
    (c : Detection) :
  windowInvariant st t admitted -> t <= atTime c ->
  let res :=
    shouldProcessClick st (atTime c) (detected c) (withConfidence c) in
  windowInvariant (snd res) (atTime c)
    (admitted ++ (if fst res then [atTime c] else [])).
Proof.
  intros (Hle & Hrec & Hlen & Hwin) Ht. cbn zeta.
  pose proof (shouldProcessClick_keeps_limits st (atTime c) (detected c)
                (withConfidence c)) as [Hmax _].
  pose proof (shouldProcessClick_cases st (atTime c) (detected c)
                (withConfidence c)) as Hcases.
  cbn zeta in Hcases.
  set (res := shouldProcessClick st (atTime c) (detected c)
                (withConfidence c)) in *.
  unfold windowInvariant. rewrite Hmax.
  destruct Hcases as [[Hf Hst] | [Hf [Hst [Hroom _]]]]; rewrite Hf.
  - rewrite app_nil_r.
    split; [eapply Forall_impl; [| exact Hle]; cbn; intros; lra |].
    split; [| split; [| exact Hwin]].
    + intros T HT. destruct Hst as [-> | ->].
      * apply Hrec. lra.
      * cbn [clickHistory limiter withLimiter withRateLimiter].
        rewrite recent_later by exact HT. apply Hrec. lra.
    + destruct Hst as [-> | ->]; [exact Hlen |].
      cbn [clickHistory limiter withLimiter withRateLimiter]. unfold recent.
      etransitivity; [apply filter_length_le | exact Hlen].
  - rewrite Hst. cbn [clickHistory limiter withLimiter withRateLimiter].
    split.
    { apply Forall_app. split.
      - eapply Forall_impl; [| exact Hle]. cbn. intros. lra.
      - constructor; [lra | constructor]. }
    split.
    { intros T HT. unfold recent at 1 3. rewrite !filter_app.
      fold (recent T (recent (atTime c) (clickHistory (limiter st)))).
      fold (recent T admitted).
      rewrite recent_later by exact HT. rewrite Hrec by lra.
      reflexivity. }
    split.
    { rewrite length_app. cbn [length]. lia. }
    intros T. unfold inTrailingWindow. rewrite filter_app, length_app.
    fold (inTrailingWindow T admitted).
    cbn [filter]. destruct (Rle_dec (atTime c) T) as [Hin | Hout].
    + pose proof (inTrailingWindow_within_recent T admitted) as H1.
      pose proof (recent_length_later (atTime c) T admitted Hin) as H2.
      rewrite <- (Hrec (atTime c)) in H2 by lra.
      destruct (Rleb (atTime c) T && Rltb (T - atTime c) 1000)%bool;
        cbn [length]; lia.
    + rewrite (Rleb_false (atTime c) T) by lra. cbn [andb length].
      specialize (Hwin T). lia.
Qed.

Lemma runLimiter_window (calls : list Detection) :
  forall (st : State) (t : R) (admitted : list R),
    clockFrom t calls -> windowInvariant st t admitted ->
    exists t', windowInvariant (fst (runLimiter st calls)) t'
                 (admitted ++ snd (runLimiter st calls)).
Proof.
  induction calls as [| c rest IH]; intros st t admitted Hclock Hinv.
  - exists t. cbn. rewrite app_nil_r. exact Hinv.
  - destruct Hclock as [Ht Hclock]. rewrite runLimiter_step. cbn [fst snd].
    pose proof (windowInvariant_step st t admitted c Hinv Ht) as Hstep.
    cbn zeta in Hstep.
    set (res := shouldProcessClick st (atTime c) (detected c)
                  (withConfidence c)) in *.
    destruct (IH (snd res) (atTime c) _ Hclock Hstep) as [t' H].
    exists t'. destruct (fst res).
    + rewrite <- app_assoc in H. exact H.
    + rewrite app_nil_r in H. exact H.
Qed.

Lemma runLimiter_keeps_max (calls : list Detection) :
  forall st, maxClicksPerSecond (limiter (fst (runLimiter st calls)))
             = maxClicksPerSecond (limiter st).
Proof.
  induction calls as [| c rest IH]; intros st; [reflexivity |].
  rewrite runLimiter_step. cbn [fst]. rewrite IH.
  apply shouldProcessClick_keeps_limits.
Qed.

(** What a detected call leaves in the stored window: the timestamps of
    the old window that are younger than one second, and the time of the
    call itself when it is admitted. *)
Lemma shouldProcessClick_prunes (st : State) (t : R) (c : jsnum)
    (time : R) :
  let r := shouldProcessClick st t true c in
  In time (clickHistory (limiter (snd r)))
  <-> (In time (clickHistory (limiter st)) /\ t - time < 1000)
      \/ (fst r = true /\ time = t).
Proof.
  cbv zeta.
  assert (Hrecent : In time (recent t (clickHistory (limiter st)))
                    <-> In time (clickHistory (limiter st))
                        /\ t - time < 1000).
  { unfold recent. rewrite filter_In, Rltb_spec. reflexivity. }
  assert (Hrefused :
            In time (clickHistory
                       (limiter
                          (withRateLimiter st
                             (recent t (clickHistory (limiter st)))
                             (lastClickTime (limiter st))
                             (clickSuppressionTime (limiter st)))))
            <-> (In time (clickHistory (limiter st)) /\ t - time < 1000)
                \/ (false = true /\ time = t)).
  { cbn [withRateLimiter withLimiter limiter clickHistory].
    rewrite Hrecent. split; [intros H; left; exact H |].
    intros [H | [H _]]; [exact H | discriminate]. }
  unfold shouldProcessClick. cbn [negb].
  destruct (Rltb t (clickSuppressionTime (limiter st)));
    [exact Hrefused |].
  destruct (maxClicksPerSecond (limiter st) <=? _)%nat; [exact Hrefused |].
  destruct (Rltb (t - lastClickTime (limiter st)) _); [exact Hrefused |].
  destruct (c <? _)%js; [exact Hrefused |].
  cbn [fst snd withRateLimiter withLimiter limiter clickHistory].
  rewrite in_app_iff, Hrecent. cbn [In].
  split.
  - intros [H | [H | []]]; [left; exact H | right; split; [reflexivity |]].
    symmetry. exact H.
  - intros [H | [_ H]]; [left; exact H | right; left; symmetry; exact H].
Qed.

(** C3.  From a limiter whose window is empty, over any stream of
    detection calls made at non-decreasing times, no trailing 1-second
    window holds more admitted events than [maxClicksPerSecond] (8 in the
    state the constructor builds), and the stored window never holds more
    than that.  Every detected call first prunes the stored window: what
    it leaves are the timestamps of the old window younger than one
    second, and the time of the call when it is admitted.  A call that
    finds the pruned window full is refused. *)
Theorem admitted_events_rate_capped :
  (forall (st : State) (calls : list Detection) (t0 T : R),
      clickHistory (limiter st) = [] ->
      clockFrom t0 calls ->
      (length (inTrailingWindow T (snd (runLimiter st calls)))
       <= maxClicksPerSecond (limiter st))%nat
      /\ (length (clickHistory (limiter (fst (runLimiter st calls))))
          <= maxClicksPerSecond (limiter st))%nat)
  /\ (forall st t d c,
        (maxClicksPerSecond (limiter st) <= length (recent t (clickHistory (limiter st))))%nat ->
        fst (shouldProcessClick st t d c) = false)
  /\ (forall st t c time,
        In time
          (clickHistory (limiter (snd (shouldProcessClick st t true c))))
        <-> (In time (clickHistory (limiter st)) /\ t - time < 1000)
            \/ (fst (shouldProcessClick st t true c) = true /\ time = t))
  /\ maxClicksPerSecond (limiter (initialState 48000 true)) = 8%nat.
Proof.
  split.
  { intros st calls t0 T Hempty Hclock.
    assert (Hinv : windowInvariant st t0 []).
    { unfold windowInvariant. rewrite Hempty.
      split; [constructor |]. split; [reflexivity |].
      split; cbn; intros; lia. }
    destruct (runLimiter_window calls st t0 [] Hclock Hinv)
      as [t' (_ & _ & Hlen & Hwin)].
    rewrite runLimiter_keeps_max in Hlen, Hwin. cbn [app] in Hwin.
    split; [apply Hwin | exact Hlen]. }
  split.
  { intros st t d c H.
    destruct (shouldProcessClick_cases st t d c)
      as [[Hf _] | [_ [_ [Hroom _]]]]; [exact Hf | lia]. }
  split; [| reflexivity].
  intros st t c time. apply shouldProcessClick_prunes.
Qed.

Lemma Rpower_1_base (x : R) : Rpower 1 x = 1.
Proof. unfold Rpower. rewrite ln_1, Rmult_0_r. apply exp_0. Qed.

Lemma requiredConfidence_finite (s : R) (held maxClicks : nat) :
  0 < s -> (0 < maxClicks)%nat ->
  requiredConfidence (Fin s) held maxClicks
  = Fin (0.5 / Rpower s 0.8
         + INR held / INR maxClicks * 0.3 / Rpower s 0.8).
Proof.
  intros Hs Hm. unfold requiredConfidence.
  assert (Hp := Rpower_pos s 0.8).
  assert (Hn : INR maxClicks <> 0) by (apply not_0_INR; lia).
  jseval. reflexivity.
Qed.

(** The outcome of a call that passes every check. *)
Lemma shouldProcessClick_admits (st : State) (t c s : R) :
  sensitivity (params st) = Fin s -> 0 < s ->
  clickSuppressionTime (limiter st) <= t ->
  (length (recent t (clickHistory (limiter st))) < maxClicksPerSecond (limiter st))%nat ->
  minClickInterval (limiter st) <= t - lastClickTime (limiter st) ->
  0.5 / Rpower s 0.8
  + INR (length (recent t (clickHistory (limiter st))))
    / INR (maxClicksPerSecond (limiter st)) * 0.3 / Rpower s 0.8 <= c ->
  shouldProcessClick st t true (Fin c)
  = (true,
     withRateLimiter st (recent t (clickHistory (limiter st)) ++ [t]) t (t + 50)).
Proof.
  intros Es Hs Hsup Hroom Hgap Hconf. unfold shouldProcessClick.
  cbn [negb]. rewrite Es.
  rewrite requiredConfidence_finite by (assumption || lia).
  apply Nat.leb_gt in Hroom. rewrite Hroom. jseval. reflexivity.
Qed.

(** A fresh limiter admits the first eight detections of the burst and
    refuses the ninth, which finds the window full. *)
Lemma shouldProcessClick_full (st : State) (t : R) (c : jsnum) :
  clickSuppressionTime (limiter st) <= t ->
  (maxClicksPerSecond (limiter st)
   <= length (recent t (clickHistory (limiter st))))%nat ->
  shouldProcessClick st t true c
  = (false,
     withRateLimiter st (recent t (clickHistory (limiter st)))
       (lastClickTime (limiter st)) (clickSuppressionTime (limiter st))).
Proof.
  intros Hsup Hfull. unfold shouldProcessClick. cbn [negb].
  rewrite (Rltb_false t _ Hsup).
  apply Nat.leb_le in Hfull. rewrite Hfull. reflexivity.
Qed.

Ltac window_decide :=
  cbn; unfold recent; repeat (progress (cbn [filter app]; rdecide)); cbn.

Ltac limiter_step t :=
  rewrite runLimiter_step; cbn [atTime detected withConfidence];
  rewrite (shouldProcessClick_admits _ t 0.9 1.0);
  [ cbn [fst snd]
  | reflexivity | lra
  | cbn; lra
  | window_decide; lia
  | cbn; lra
  | replace 1.0 with 1 by lra; rewrite Rpower_1_base; window_decide; lra ].

Lemma burst_fills_the_window :
  snd (runLimiter (initialState 48000 true) burstOfNine)
  = [200; 325; 450; 575; 700; 825; 950; 1075]
  /\ clickHistory (limiter (fst (runLimiter (initialState 48000 true)
                                  burstOfNine)))
     = [200; 325; 450; 575; 700; 825; 950; 1075].
Proof.
  unfold burstOfNine. cbn [map].
  limiter_step 200. limiter_step 325. limiter_step 450. limiter_step 575.
  limiter_step 700. limiter_step 825. limiter_step 950. limiter_step 1075.
  rewrite runLimiter_step. cbn [atTime detected withConfidence].
  rewrite shouldProcessClick_full;
    [ cbn [fst snd runLimiter]
    | cbn; lra
    | window_decide; lia ].
  split; [reflexivity |].
  window_decide. reflexivity.
Qed.

Lemma admitted_events_rate_capped_witness :
  ((length (inTrailingWindow 1199
              (snd (runLimiter (initialState 48000 true) burstOfNine)))
    <= maxClicksPerSecond (limiter (initialState 48000 true)))%nat
   /\ (length
         (clickHistory
            (limiter (fst (runLimiter (initialState 48000 true)
                             burstOfNine))))
       <= maxClicksPerSecond (limiter (initialState 48000 true)))%nat)
  /\ length (clickHistory
               (limiter (fst (runLimiter (initialState 48000 true)
                                burstOfNine)))) = 8%nat.
Proof.
  split.
  - apply (proj1 admitted_events_rate_capped (initialState 48000 true)
             burstOfNine 0 1199).
    + reflexivity.
    + unfold burstOfNine. cbn [map clockFrom atTime]. repeat split; lra.
  - rewrite (proj2 burst_fills_the_window). reflexivity.
Defined.

(** Two detections 200 ms apart at confidence 0.9 are both admitted by a
    fresh limiter. *)
Lemma two_events_admitted :
  snd (runLimiter (initialState 48000 true)
         [ mkDetection 200 true (Fin 0.9); mkDetection 400 true (Fin 0.9) ])
  = [200; 400].
Proof.
  rewrite runLimiter_step. cbn [atTime detected withConfidence].
  rewrite (shouldProcessClick_admits _ 200 0.9 1.0);
    [| reflexivity | lra
     | cbn; lra
     | cbn; lia
     | cbn; lra
     | replace 1.0 with 1 by lra; rewrite Rpower_1_base; cbn; lra ].
  cbn [fst snd]. rewrite runLimiter_step. cbn [atTime detected withConfidence].
  rewrite (shouldProcessClick_admits _ 400 0.9 1.0);
    [ reflexivity
    | reflexivity | lra
    | cbn; lra
    | cbn; unfold recent; cbn [filter]; rdecide; cbn; lia
    | cbn; lra
    | replace 1.0 with 1 by lra; rewrite Rpower_1_base; cbn;
      unfold recent; cbn [filter]; rdecide; cbn; lra ].
Qed.

Lemma admitted_events_min_spacing_witness :
  minClickInterval (limiter (initialState 48000 true)) <= 400 - 200.
Proof.
  apply (proj1 admitted_events_min_spacing (initialState 48000 true)
           [ mkDetection 200 true (Fin 0.9); mkDetection 400 true (Fin 0.9) ]
           0 [] [] [] 200 400).
  - cbn. lra.
  - exact two_events_admitted.
Defined.

(** ** The loudness tracker *)

Lemma ln_10_pos : 0 < ln 10.
Proof. rewrite <- ln_1. apply ln_increasing; lra. Qed.

Lemma log10_inv_pow (n : nat) : log10 (/ 10 ^ n) = - INR n.
Proof.
  unfold log10. rewrite ln_Rinv by (apply pow_lt; lra).
  rewrite ln_pow by lra. pose proof ln_10_pos. field. lra.
Qed.

Lemma log10_le (a b : R) : 0 < a -> a <= b -> log10 a <= log10 b.
Proof.
  intros Ha Hab. unfold log10. pose proof ln_10_pos as H.
  apply Rmult_le_compat_r; [left; apply Rinv_0_lt_compat; exact H |].
  destruct Hab as [Hlt | ->];
    [left; apply ln_increasing; assumption | right; reflexivity].
Qed.

Lemma log10_floor : log10 1e-10 = -10.
Proof.
  replace 1e-10 with (/ 10 ^ 10) by lra. rewrite log10_inv_pow. cbn. lra.
Qed.

(** Whatever the root mean square came out as, the loudness is a finite
    number, -60 dB for a zero or non-finite value and never below the
    -200 dB of the floor [1e-10]. *)
Lemma loudness_of_rms (rms : jsnum) :
  exists l : R,
    (if (isFinite rms && (rms >? Fin 0)%js)%bool
     then (Fin 20 * Math_log10 (Math_max rms (Fin 1e-10)))%js
     else Fin (-60)) = Fin l
    /\ -200 <= l
    /\ ((forall r, rms = Fin r -> r <= 0) -> l = -60).
Proof.
  pose proof log10_floor as Hfloor.
  destruct rms as [r | | |]; jsred;
    try (exists (-60); split; [reflexivity | split; [lra | reflexivity]]).
  rcases 0 r; jsred;
    [| exists (-60); split; [reflexivity | split; [lra | reflexivity]]].
  rcases r 1e-10; jseval.
  - exists (20 * log10 1e-10). split; [reflexivity |]. split; [lra |].
    intros H. specialize (H r eq_refl). lra.
  - exists (20 * log10 r). split; [reflexivity |]. split.
    + assert (log10 1e-10 <= log10 r) by (apply log10_le; lra). lra.
    + intros H. specialize (H r eq_refl). lra.
Qed.

Lemma loudnessOf_finite (timeData : list jsnum) :
  exists l : R, loudnessOf timeData = Fin l /\ -200 <= l.
Proof.
  unfold loudnessOf.
  destruct (loudness_of_rms
              (Math_sqrt (sumFiniteSquares timeData
                          / Fin (INR (length timeData)))%js))
    as [l [E [H _]]].
  exists l. split; assumption.
Qed.

Lemma sub_finite (a b : R) : (Fin a - Fin b)%js = Fin (a + - b).
Proof. reflexivity. Qed.

(** The three values [updateDynamicLoudness] returns and stores are
    finite, whatever the frame and the stored history hold. *)
Lemma signalToNoiseOf_finite (l : R) (noise : jsnum) :
  exists s : R, signalToNoiseOf (Fin l) noise = Fin s /\ 0.1 <= s <= 60.
Proof.
  unfold signalToNoiseOf. cbn [isFinite].
  assert (Hn : exists b : R,
             (if isFinite noise then noise else Fin (-40)) = Fin b)
    by (destruct noise; cbn [isFinite]; eexists; reflexivity).
  destruct Hn as [b ->]. cbn zeta. rewrite sub_finite.
  apply (clamp_within 0.1 60 (Fin (l + - b))); [lra | discriminate].
Qed.

Lemma adaptiveThresholdOf_finite (s : R) :
  0.1 <= s <= 60 ->
  exists a : R, adaptiveThresholdOf (Fin s) = Fin a /\ 0.1 <= a <= 1.
Proof.
  intros Hs. unfold adaptiveThresholdOf. cbn zeta.
  cbn [JS.div]. rdecide. rewrite sub_finite.
  fold (clamp 1.0 5.0 (Fin (3.0 + - (s / 20)))).
  destruct (clamp_within 1.0 5.0 (Fin (3.0 + - (s / 20)))) as [g [-> Hg]];
    [lra | discriminate |].
  cbn [JS.div]. rdecide.
  destruct (clamp_within 0.1 1.0
              (Fin (Thresholds.confidenceThreshold / g))) as [a [Ea Ha]];
    [lra | discriminate |].
  exists a. split; [exact Ea | lra].
Qed.

(** The three values [updateDynamicLoudness] returns and stores are
    finite, whatever the frame and the stored history hold. *)
Lemma updateDynamicLoudness_finite (st : LoudnessState)
    (timeData : list jsnum) :
  exists l s a : R,
    fst (updateDynamicLoudness st timeData)
    = {| loudnessDb := Fin l; snr := Fin s; infoAdaptiveThreshold := Fin a |}
    /\ -200 <= l /\ 0.1 <= s <= 60 /\ 0.1 <= a <= 1
    /\ signalToNoiseRatio (snd (updateDynamicLoudness st timeData)) = Fin s
    /\ adaptiveThreshold (snd (updateDynamicLoudness st timeData)) = Fin a.
Proof.
  unfold updateDynamicLoudness. cbn zeta. cbn [fst snd].
  destruct (loudnessOf_finite timeData) as [l [-> Hl]].
  destruct (signalToNoiseOf_finite l
              (backgroundNoiseOf (pushLoudness (loudnessHistory st) (Fin l))))
    as [s [-> Hs]].
  destruct (adaptiveThresholdOf_finite s Hs) as [a [-> Ha]].
  exists l, s, a. cbn [signalToNoiseRatio adaptiveThreshold].
  repeat split; try reflexivity; lra.
Qed.

(** The sum of the squares of the finite samples is a finite number that
    is not negative, and zero when every finite sample is zero. *)
Lemma sumFiniteSquares_from (timeData : list jsnum) (acc : R) :
  0 <= acc ->
  exists q : R,
    fold_left (fun rms x => if isFinite x then (rms + x * x)%js else rms)
      timeData (Fin acc) = Fin q
    /\ acc <= q
    /\ (Forall (fun x => x = Fin 0 \/ isFinite x = false) timeData ->
        q = acc).
Proof.
  revert acc. induction timeData as [| x rest IH]; intros acc Hacc.
  - exists acc. cbn [fold_left]. split; [reflexivity |].
    split; [lra | reflexivity].
  - cbn [fold_left]. destruct x as [v | | |]; cbn [isFinite JS.add JS.mul].
    + destruct (IH (acc + v * v) ltac:(nra)) as (q & E & Hq & Hzero).
      exists q. split; [exact E |]. split; [nra |].
      intros H. apply Forall_cons_iff in H. destruct H as [[Hx | Hx] H];
        [| discriminate].
      injection Hx as ->. rewrite (Hzero H). lra.
    + destruct (IH acc Hacc) as (q & E & Hq & Hzero).
      exists q. split; [exact E |]. split; [exact Hq |].
      intros H. apply Forall_cons_iff in H. apply Hzero, H.
    + destruct (IH acc Hacc) as (q & E & Hq & Hzero).
      exists q. split; [exact E |]. split; [exact Hq |].
      intros H. apply Forall_cons_iff in H. apply Hzero, H.
    + destruct (IH acc Hacc) as (q & E & Hq & Hzero).
      exists q. split; [exact E |]. split; [exact Hq |].
      intros H. apply Forall_cons_iff in H. apply Hzero, H.
Qed.

(** The loudness in terms of the sum of squares [q] of the finite
    samples: -60 dB when the root mean square is zero (no finite sample
    but zeros) or not finite (the empty frame, 0 / 0), else 20 times the
    decimal logarithm of the root mean square floored at [1e-10]. *)
Lemma loudnessOf_value (timeData : list jsnum) :
  exists q : R,
    sumFiniteSquares timeData = Fin q /\ 0 <= q
    /\ (Forall (fun x => x = Fin 0 \/ isFinite x = false) timeData ->
        q = 0)
    /\ loudnessOf timeData
       = Fin (if Rltb 0 q
              then 20 * log10 (Rmax (sqrt (q / INR (length timeData)))
                                1e-10)
              else -60).
Proof.
  destruct (sumFiniteSquares_from timeData 0 ltac:(lra))
    as (q & E & Hq & Hzero).
  exists q. split; [exact E |]. split; [exact Hq |].
  split; [exact Hzero |].
  unfold loudnessOf. cbv zeta. unfold sumFiniteSquares. rewrite E.
  destruct timeData as [| x rest].
  - cbn [fold_left] in E. injection E as <-.
    cbn [length INR JS.div]. rewrite (Reqb_true 0 0) by reflexivity.
    unfold signedInf. rewrite (Reqb_true 0 0) by reflexivity.
    rewrite (Rltb_false 0 0) by lra. reflexivity.
  - assert (Hn : 0 < INR (length (x :: rest)))
      by (apply lt_0_INR; cbn [length]; lia).
    set (n := INR (length (x :: rest))) in *.
    cbn [JS.div]. rewrite (Reqb_false n 0) by lra.
    assert (Hquot : 0 <= q / n)
      by (apply Rmult_le_pos; [lra | left; apply Rinv_0_lt_compat; lra]).
    cbn [Math_sqrt]. rewrite (Rltb_false (q / n) 0) by lra.
    cbn [isFinite andb JS.gt JS.lt].
    rcases 0 q.
    + assert (0 < q / n)
        by (apply Rmult_lt_0_compat; [lra | apply Rinv_0_lt_compat; lra]).
      rewrite (Rltb_true 0 (sqrt (q / n)))
        by (apply sqrt_lt_R0; assumption).
      pose proof (Rmax_r (sqrt (q / n)) 1e-10) as Hfloor.
      cbn [Math_max JS.lt].
      destruct (Rlt_dec (sqrt (q / n)) 1e-10) as [Hs | Hs].
      * rewrite (Rltb_true _ _ Hs), (Rmax_right _ _ (Rlt_le _ _ Hs)).
        cbn [Math_log10]. rdecide. reflexivity.
      * rewrite (Rltb_false (sqrt (q / n)) 1e-10),
          (Rmax_left (sqrt (q / n)) 1e-10) by lra.
        cbn [Math_log10].
        rewrite (Rltb_false (sqrt (q / n)) 0),
          (Reqb_false (sqrt (q / n)) 0) by lra.
        reflexivity.
    + assert (q = 0) by lra. subst q.
      replace (0 / n) with 0 by (unfold Rdiv; lra).
      rewrite sqrt_0, (Rltb_false 0 0) by lra. reflexivity.
Qed.

(** C9, as the code has it.  For every frame (non-finite samples
    included) and every state, the loudness the tracker returns is a finite
    number that is never below -200 dB: it is -60 dB when the root mean
    square of the finite samples is zero or not finite (all of them zero,
    none of them, or an empty frame), and else 20 times the decimal
    logarithm of the root mean square floored at [1e-10].  The
    signal-to-noise ratio it returns and stores is a finite number in
    [0.1, 60]. *)
Theorem loudness_finite_and_snr_clamped (st : LoudnessState)
    (timeData : list jsnum) :
  exists l s q : R,
    loudnessDb (fst (updateDynamicLoudness st timeData)) = Fin l
    /\ -200 <= l
    /\ sumFiniteSquares timeData = Fin q
    /\ (Forall (fun x => x = Fin 0 \/ isFinite x = false) timeData ->
        l = -60)
    /\ (q <= 0 -> l = -60)
    /\ (0 < q ->
        l = 20 * log10 (Rmax (sqrt (q / INR (length timeData))) 1e-10))
    /\ snr (fst (updateDynamicLoudness st timeData)) = Fin s
    /\ signalToNoiseRatio (snd (updateDynamicLoudness st timeData)) = Fin s
    /\ 0.1 <= s <= 60.
Proof.
  destruct (updateDynamicLoudness_finite st timeData)
    as (l & s & a & E & Hl & Hs & _ & Es & _).
  destruct (loudnessOf_value timeData) as (q & Eq & Hq & Hzero & Eloud).
  assert (El : loudnessOf timeData = Fin l).
  { apply (f_equal loudnessDb) in E. exact E. }
  rewrite Eloud in El. injection El as El.
  exists l, s, q. rewrite E. cbn [loudnessDb snr].
  split; [reflexivity |]. split; [exact Hl |]. split; [exact Eq |].
  split.
  { intros H. rewrite (Hzero H), (Rltb_false 0 0) in El by lra.
    symmetry. exact El. }
  split.
  { intros H. rewrite (Rltb_false 0 q) in El by lra. symmetry. exact El. }
  split.
  { intros H. rewrite (Rltb_true 0 q) in El by lra. symmetry. exact El. }
  split; [reflexivity |]. split; [exact Es | exact Hs].
Qed.

Lemma sumFiniteSquares_constant (a : R) (n : nat) :
  sumFiniteSquares (repeat (Fin a) n) = Fin (INR n * (a * a)).
Proof.
  unfold sumFiniteSquares.
  assert (H : forall acc,
             fold_left
               (fun rms x => if isFinite x then (rms + x * x)%js else rms)
               (repeat (Fin a) n) (Fin acc)
             = Fin (acc + INR n * (a * a))).
  { induction n as [| n IH]; intros acc.
    - cbn. f_equal. lra.
    - cbn [repeat fold_left isFinite JS.mul JS.add]. rewrite IH.
      f_equal. rewrite S_INR. lra. }
  rewrite H. f_equal. lra.
Qed.

(** C9 as stated fails: a frame of 4096 samples of amplitude 0.0001 has a
    loudness of -80 dB, below -60 dB. *)
Lemma quiet_frame_below_minus_60 :
  loudnessDb
    (fst (updateDynamicLoudness (loudnessState (initialState 48000 true))
            (repeat (Fin 0.0001) frequencyBinCount))) = Fin (-80)
  /\ -80 < -60.
Proof.
  split; [| lra].
  unfold updateDynamicLoudness. cbn [fst loudnessDb]. unfold loudnessOf.
  rewrite sumFiniteSquares_constant, repeat_length.
  assert (Hn : 0 < INR frequencyBinCount)
    by (apply lt_0_INR; unfold frequencyBinCount; lia).
  cbn [JS.div]. rewrite (Reqb_false (INR frequencyBinCount) 0) by lra.
  replace (INR frequencyBinCount * (0.0001 * 0.0001) / INR frequencyBinCount)
    with (0.0001 * 0.0001) by (field; lra).
  cbn [Math_sqrt]. rdecide. rewrite sqrt_square by lra. jseval.
  replace 0.0001 with (/ 10 ^ 4) by lra. rewrite log10_inv_pow.
  f_equal. cbn. lra.
Qed.

(** ** Monotonicity in the sensitivity *)

(** A threshold of the shape [base / sensitivity^p / max(1, snr / d)]. *)
Lemma scaled_threshold_pos (base s p snr d : R) :
  0 < base -> 0 < base / Rpower s p / Rmax 1.0 (snr / d).
Proof.
  intros Hb. pose proof (Rpower_pos s p) as Hp.
  assert (Hm : 1 <= Rmax 1.0 (snr / d))
    by (eapply Rle_trans; [| apply Rmax_l]; lra).
  apply Rdiv_lt_0_compat; [apply Rdiv_lt_0_compat; assumption | lra].
Qed.

Lemma scaled_threshold_antitone (base s1 s2 p snr d : R) :
  0 < base -> 0 <= p -> 0 < s1 -> s1 <= s2 ->
  base / Rpower s2 p / Rmax 1.0 (snr / d)
  <= base / Rpower s1 p / Rmax 1.0 (snr / d).
Proof.
  intros Hb Hp Hs1 Hs.
  pose proof (Rpower_pos s1 p) as H1. pose proof (Rpower_pos s2 p) as H2.
  assert (Hpow : Rpower s1 p <= Rpower s2 p)
    by (apply Rle_Rpower_l; [exact Hp | split; assumption]).
  assert (Hm : 1 <= Rmax 1.0 (snr / d))
    by (eapply Rle_trans; [| apply Rmax_l]; lra).
  apply Rmult_le_compat_r; [left; apply Rinv_0_lt_compat; lra |].
  apply Rmult_le_compat_l; [lra |].
  apply Rinv_le_contravar; assumption.
Qed.

Lemma ratio_monotone (x t1 t2 : R) :
  0 <= x -> 0 < t2 -> t2 <= t1 -> x / t1 <= x / t2.
Proof.
  intros Hx H2 H. apply Rmult_le_compat_l; [exact Hx |].
  apply Rinv_le_contravar; assumption.
Qed.

Lemma capped_ratio_monotone (x t1 t2 : R) :
  0 <= x -> 0 < t2 -> t2 <= t1 -> Rmin 2.0 (x / t1) <= Rmin 2.0 (x / t2).
Proof.
  intros Hx H2 H. apply Rle_min_compat_l. apply ratio_monotone; assumption.
Qed.

Lemma Rmax_monotone (a b c d : R) :
  a <= c -> b <= d -> Rmax a b <= Rmax c d.
Proof.
  intros H1 H2. apply Rmax_lub.
  - eapply Rle_trans; [exact H1 | apply Rmax_l].
  - eapply Rle_trans; [exact H2 | apply Rmax_r].
Qed.

Lemma lpcConfidenceOf_monotone (s1 s2 snr rms peak : R) :
  0 < s1 -> s1 <= s2 -> 0 <= rms -> 0 <= peak ->
  lpcConfidenceOf s1 snr rms peak <= lpcConfidenceOf s2 snr rms peak.
Proof.
  intros Hs1 Hs Hrms Hpeak. unfold lpcConfidenceOf, adaptiveErrorThreshold.
  cbn zeta.
  pose proof (scaled_threshold_pos Thresholds.lpcError s2 2.5 snr 10) as P2.
  pose proof (scaled_threshold_antitone Thresholds.lpcError s1 s2 2.5 snr 10)
    as A.
  unfold Thresholds.lpcError in *.
  assert (P2' := P2 ltac:(lra)).
  assert (A' := A ltac:(lra) ltac:(lra) Hs1 Hs).
  apply Rmax_monotone; apply capped_ratio_monotone; try assumption; lra.
Qed.

Lemma mouthBandRatioOf_nonneg (fa : FrameAnalysis) :
  measured fa -> 0 <= mouthBandRatioOf (energies fa).
Proof.
  intros (_ & _ & _ & Hl & Hm & Hh & Hmo & _). unfold mouthBandRatioOf.
  cbn zeta. apply Rmult_le_pos; [exact Hmo |].
  left. apply Rinv_0_lt_compat. lra.
Qed.

Lemma amplitudeSpikeOf_monotone (s1 s2 : R) (fa : FrameAnalysis) :
  0 < s1 -> s1 <= s2 ->
  amplitudeSpikeOf s1 fa = true -> amplitudeSpikeOf s2 fa = true.
Proof.
  intros Hs1 Hs H. unfold amplitudeSpikeOf, amplitudeThresholdOf in *.
  cbn zeta in *. apply Rltb_spec in H. apply Rltb_true.
  pose proof (scaled_threshold_antitone 0.1 s1 s2 2.3 (signalToNoise fa) 20
                ltac:(lra) ltac:(lra) Hs1 Hs).
  lra.
Qed.

(** Each of the five methods has a confidence that does not decrease
    with the sensitivity. *)
Lemma detectionMethods_monotone (s1 s2 : R) (fa : FrameAnalysis) :
  measured fa -> 0 < s1 -> s1 <= s2 ->
  Forall2 (fun m1 m2 => methodConfidence m1 <= methodConfidence m2
                        /\ weight m1 = weight m2)
    (detectionMethods s1 fa) (detectionMethods s2 fa).
Proof.
  intros Hm Hs1 Hs. pose proof (mouthBandRatioOf_nonneg fa Hm) as Hratio.
  destruct Hm as (Hrms & Hpeak & Hflux & _).
  unfold detectionMethods.
  repeat (apply Forall2_cons; [split; [| reflexivity] |]);
    [ | | | | | apply Forall2_nil ];
    cbn [methodConfidence lpcOutlier spectralFluxMethod
         mouthBandTransient highFreqBurstMethod amplitudeSpikeMethod].
  - apply lpcConfidenceOf_monotone; assumption.
  - unfold adaptiveSpectralThresholdOf. cbn zeta.
    apply capped_ratio_monotone; [exact Hflux | |].
    + apply scaled_threshold_pos. unfold Thresholds.spectralFlux. lra.
    + apply scaled_threshold_antitone; try assumption;
        unfold Thresholds.spectralFlux; lra.
  - unfold adaptiveTransientThresholdOf. cbn zeta.
    apply capped_ratio_monotone; [exact Hratio | |].
    + apply scaled_threshold_pos. unfold Thresholds.transientRatio. lra.
    + apply scaled_threshold_antitone; try assumption;
        unfold Thresholds.transientRatio; lra.
  - lra.
  - destruct (amplitudeSpikeOf s1 fa) eqn:E.
    + rewrite (amplitudeSpikeOf_monotone s1 s2 fa Hs1 Hs E). lra.
    + destruct (amplitudeSpikeOf s2 fa); lra.
Qed.

Lemma getFrequencyWeight_pos (skew freq : R) :
  0 < getFrequencyWeight skew freq.
Proof.
  unfold getFrequencyWeight. cbn zeta.
  destruct (Rltb skew 0); [apply exp_pos |].
  destruct (Rltb 0 skew); apply exp_pos.
Qed.

(** With a positive skew weight the fused confidence is the plain
    weighted sum: the weights add up to one. *)
Lemma finalConfidenceOf_weighted_sum (s skew : R) (fa : FrameAnalysis) :
  finalConfidenceOf s skew fa
  = 0.35 * methodConfidence (lpcOutlier s fa)
    + 0.25 * methodConfidence (spectralFluxMethod s fa)
    + 0.2 * methodConfidence (mouthBandTransient s fa)
    + 0.15 * methodConfidence (highFreqBurstMethod s fa)
    + 0.05 * methodConfidence (amplitudeSpikeMethod s fa).
Proof.
  unfold finalConfidenceOf. cbn zeta.
  pose proof (getFrequencyWeight_pos skew (centroid fa)) as Hk.
  set (k := getFrequencyWeight skew (centroid fa)) in *.
  unfold accumulate, detectionMethods.
  cbn [fold_left fst snd weight lpcOutlier spectralFluxMethod
       mouthBandTransient highFreqBurstMethod amplitudeSpikeMethod].
  clearbody k. rewrite Rltb_true by lra.
  generalize (methodConfidence (lpcOutlier s fa))
    (methodConfidence (spectralFluxMethod s fa))
    (methodConfidence (mouthBandTransient s fa))
    (methodConfidence (highFreqBurstMethod s fa))
    (methodConfidence (amplitudeSpikeMethod s fa)).
  intros c1 c2 c3 c4 c5.
  match goal with
  | |- ?n / ?d = ?r =>
      replace d with k by lra; replace n with (r * k) by lra
  end.
  field. lra.
Qed.

Lemma adjustedConfidenceOf_monotone (s1 s2 skew : R) (fa : FrameAnalysis) :
  measured fa -> 0 < s1 -> s1 <= s2 ->
  finalConfidenceOf s1 skew fa <= finalConfidenceOf s2 skew fa
  /\ adjustedConfidenceOf s1 skew fa <= adjustedConfidenceOf s2 skew fa.
Proof.
  intros Hm Hs1 Hs.
  pose proof (detectionMethods_monotone s1 s2 fa Hm Hs1 Hs) as H.
  unfold detectionMethods in H.
  repeat match goal with
         | H : Forall2 _ (_ :: _) (_ :: _) |- _ =>
             apply Forall2_cons_iff in H; destruct H as [[? _] H]
         end.
  assert (Hfinal : finalConfidenceOf s1 skew fa
                   <= finalConfidenceOf s2 skew fa)
    by (rewrite !finalConfidenceOf_weighted_sum; lra).
  split; [exact Hfinal |].
  unfold adjustedConfidenceOf. cbn zeta.
  destruct Hm as (_ & _ & _ & _ & _ & _ & _ & Hp).
  apply Rmult_le_compat_r; [lra | exact Hfinal].
Qed.

Lemma dynamicThresholdOf_antitone (s1 s2 : R) (fa : FrameAnalysis) :
  0 < s1 -> s1 <= s2 ->
  dynamicThresholdOf s2 fa <= dynamicThresholdOf s1 fa.
Proof.
  intros Hs1 Hs. unfold dynamicThresholdOf. cbn zeta.
  apply Rle_min_compat_l. unfold Thresholds.confidenceThreshold.
  pose proof (Rpower_pos s1 1.5). pose proof (Rpower_pos s2 1.5).
  apply Rmult_le_compat_l; [lra |].
  apply Rinv_le_contravar; [assumption |].
  apply Rle_Rpower_l; [lra | split; assumption].
Qed.

Lemma requiredConfidence_antitone (s1 s2 : R) (held maxClicks : nat) :
  0 < s1 -> s1 <= s2 -> (0 < maxClicks)%nat ->
  exists a b : R,
    requiredConfidence (Fin s1) held maxClicks = Fin a
    /\ requiredConfidence (Fin s2) held maxClicks = Fin b
    /\ b <= a.
Proof.
  intros Hs1 Hs Hm.
  rewrite !requiredConfidence_finite by (assumption || lra).
  eexists. eexists. split; [reflexivity |]. split; [reflexivity |].
  pose proof (Rpower_pos s1 0.8) as H1. pose proof (Rpower_pos s2 0.8) as H2.
  assert (Hpow : / Rpower s2 0.8 <= / Rpower s1 0.8).
  { apply Rinv_le_contravar; [assumption |].
    apply Rle_Rpower_l; [lra | split; assumption]. }
  assert (Hr : 0 <= INR held / INR maxClicks).
  { apply Rmult_le_pos; [apply pos_INR |].
    left. apply Rinv_0_lt_compat. apply lt_0_INR. exact Hm. }
  unfold Rdiv in *.
  apply Rplus_le_compat.
  - apply Rmult_le_compat_l; [lra | exact Hpow].
  - apply Rmult_le_compat_l; [| exact Hpow].
    apply Rmult_le_pos; [exact Hr | lra].
Qed.

(** ** What a frame measures *)

Lemma sumOver_from (indices : list nat) (f : nat -> R) (acc : R) :
  fold_left (fun a i => a + f i) indices acc = acc + sumOver indices f.
Proof.
  unfold sumOver. revert acc.
  induction indices as [| i l IH]; intros acc; cbn [fold_left]; [lra |].
  rewrite IH, (IH (0 + f i)). lra.
Qed.

Lemma sumOver_cons (i : nat) (l : list nat) (f : nat -> R) :
  sumOver (i :: l) f = f i + sumOver l f.
Proof. unfold sumOver at 1. cbn [fold_left]. rewrite sumOver_from. lra. Qed.

Lemma sumOver_nonneg (indices : list nat) (f : nat -> R) :
  (forall i, 0 <= f i) -> 0 <= sumOver indices f.
Proof.
  intros H. induction indices as [| i l IH]; [unfold sumOver; cbn; lra |].
  rewrite sumOver_cons. specialize (H i). lra.
Qed.

Lemma sumOver_ext (indices : list nat) (f g : nat -> R) :
  (forall i, In i indices -> f i = g i) ->
  sumOver indices f = sumOver indices g.
Proof.
  intros H. induction indices as [| i l IH]; [reflexivity |].
  rewrite !sumOver_cons, IH, (H i); [reflexivity | left; reflexivity |].
  intros j Hj. apply H. right. exact Hj.
Qed.

Lemma sumOver_constant (indices : list nat) (c : R) :
  sumOver indices (fun _ => c) = INR (length indices) * c.
Proof.
  induction indices as [| i l IH]; [unfold sumOver; cbn; lra |].
  rewrite sumOver_cons, IH. cbn [length]. rewrite S_INR. lra.
Qed.

Lemma over_count_nonneg (x : R) (n : nat) : 0 <= x -> 0 <= x / INR n.
Proof.
  intros H. destruct n as [| n].
  - cbn [INR]. unfold Rdiv. rewrite Rinv_0. lra.
  - apply Rmult_le_pos; [exact H |].
    left. apply Rinv_0_lt_compat. apply lt_0_INR. lia.
Qed.

Lemma running_max_from (A : Type) (g : A -> R) (l : list A) (a : R) :
  a <= fold_left (fun m x => Rmax m (g x)) l a.
Proof.
  revert a. induction l as [| x l IH]; intros a; cbn [fold_left]; [lra |].
  eapply Rle_trans; [apply (Rmax_l a (g x)) | apply IH].
Qed.

Lemma calculateBandEnergy_nonneg (st : Analyser) (freqData : list R)
    (minFreq maxFreq : Z) (w : R) :
  0 <= w -> 0 <= fst (calculateBandEnergy st freqData minFreq maxFreq w).
Proof.
  intros Hw. unfold calculateBandEnergy. cbn [fst].
  set (bins := match cachedBins _ _ _ with Some b => b | None => _ end).
  destruct (0 <? maxBin bins - minBin bins)%Z eqn:E; [| lra].
  apply Z.ltb_lt in E. apply Rmult_le_pos; [| exact Hw].
  apply Rmult_le_pos.
  - apply sumOver_nonneg. intros i. left. apply Rpower_pos.
  - left. apply Rinv_0_lt_compat. apply IZR_lt. exact E.
Qed.

Lemma checkSpeechProtection_range (st : Analyser) (timeData freqData : list R)
    (e : BandEnergies) :
  0 <= checkSpeechProtection st timeData freqData e <= 0.8.
Proof.
  unfold checkSpeechProtection. cbn zeta.
  destruct (_ >? Fin 0.3)%js; destruct (Rltb 0.4 _); destruct (Rltb _ _);
    cbn [fold_left]; unfold Rmax;
    repeat match goal with
           | |- context [Rle_dec ?a ?b] => destruct (Rle_dec a b)
           end; lra.
Qed.

Lemma spectralFluxOf_nonneg (st : Analyser) (freqData : list R) :
  0 <= spectralFluxOf st freqData.
Proof.
  unfold spectralFluxOf. destruct (0 <? _)%nat; [| lra].
  apply over_count_nonneg. apply sumOver_nonneg. intros i. apply Rmax_l.
Qed.

Lemma bandEnergiesOf_nonneg (st : Analyser) (freqData : list R) :
  0 <= lowEnergy (fst (bandEnergiesOf st freqData))
  /\ 0 <= midEnergy (fst (bandEnergiesOf st freqData))
  /\ 0 <= highEnergy (fst (bandEnergiesOf st freqData))
  /\ 0 <= mouthEnergy (fst (bandEnergiesOf st freqData)).
Proof.
  unfold bandEnergiesOf. cbn zeta.
  cbn [fst lowEnergy midEnergy highEnergy mouthEnergy].
  repeat split; apply calculateBandEnergy_nonneg;
    unfold FreqWeights.low, FreqWeights.mid, FreqWeights.high,
      FreqWeights.mouth; lra.
Qed.

Lemma analyseFrame_measured (st : Analyser) (info : LoudnessInfo)
    (snr adaptive : R) (timeData freqData : list R) :
  measured (fst (analyseFrame st info snr adaptive timeData freqData)).
Proof.
  unfold analyseFrame, measured. cbn zeta.
  cbn [fst residualRMS residualPeak flux energies protection].
  split; [apply sqrt_pos |].
  split; [apply running_max_from |].
  split; [apply spectralFluxOf_nonneg |].
  destruct (bandEnergiesOf_nonneg (writeCircular st timeData) freqData)
    as (Hl & Hm & Hh & Hmo).
  repeat (split; [assumption |]).
  apply checkSpeechProtection_range.
Qed.

(** ** The tick as a function of the sensitivity *)

Lemma initFreqBinCache_again (a : Analyser) :
  initFreqBinCache (initFreqBinCache a) = initFreqBinCache a.
Proof.
  assert (Hfresh : forall cache,
             initFreqBinCache (withCache a cache) = withCache a cache).
  { intros cache. unfold initFreqBinCache.
    cbn [freqBinCache cacheSampleRate sampleRate withCache].
    rewrite Z.eqb_refl. reflexivity. }
  destruct (freqBinCache a) eqn:E1;
    [destruct (cacheSampleRate a =? sampleRate a)%Z eqn:E2 |].
  - assert (H : initFreqBinCache a = a)
      by (unfold initFreqBinCache; rewrite E1, E2; reflexivity).
    rewrite H. exact H.
  - assert (H : initFreqBinCache a = withCache a (computeBinCache a))
      by (unfold initFreqBinCache; rewrite E1, E2; reflexivity).
    rewrite H. apply Hfresh.
  - assert (H : initFreqBinCache a = withCache a (computeBinCache a))
      by (unfold initFreqBinCache; rewrite E1; reflexivity).
    rewrite H. apply Hfresh.
Qed.

Lemma calculateBandEnergy_state (a : Analyser) (freqData : list R)
    (lo hi : Z) (w : R) :
  snd (calculateBandEnergy a freqData lo hi w) = initFreqBinCache a.
Proof. reflexivity. Qed.

Lemma bandEnergiesOf_state (a : Analyser) (freqData : list R) :
  snd (bandEnergiesOf a freqData) = initFreqBinCache a.
Proof.
  unfold bandEnergiesOf. cbn zeta. cbn [snd].
  rewrite !calculateBandEnergy_state, !initFreqBinCache_again.
  reflexivity.
Qed.

(** The state one analysis leaves: the frame written to the circular
    buffer, the bin cache filled, the spectrum stored. *)
Lemma analyseFrame_state (a : Analyser) (info : LoudnessInfo)
    (ratio threshold : R) (timeData freqData : list R) :
  snd (analyseFrame a info ratio threshold timeData freqData)
  = storeSpectrum (initFreqBinCache (writeCircular a timeData)) freqData.
Proof.
  unfold analyseFrame. cbn zeta. cbn [snd].
  rewrite bandEnergiesOf_state. reflexivity.
Qed.

(** What a returned result holds, in terms of the analysis of the frame. *)
Lemma detectMouthClick_returned (st st' : State) (env : Env)
    (timeData freqData : list R) (r : DetectionResult) :
  processingEnabled st = true ->
  detectMouthClick st env timeData freqData = Some (Returned (r, st')) ->
  exists s skew ratio threshold : R,
    sensitivity (params st) = Fin s /\ 0 < s
    /\ frequencySkew (params st) = Fin skew
    /\ snr (fst (updateDynamicLoudness (loudnessState st)
                   (map Fin timeData))) = Fin ratio
    /\ adaptiveThreshold
         (snd (updateDynamicLoudness (loudnessState st) (map Fin timeData)))
       = Fin threshold
    /\ r = resultOf s skew
             (fst (analyseFrame (analyser st)
                     (fst (updateDynamicLoudness (loudnessState st)
                             (map Fin timeData)))
                     ratio threshold timeData freqData))
             (isClick r).
Proof.
  intros Hen H. unfold detectMouthClick in H. rewrite Hen in H.
  cbn [negb] in H.
  destruct (frameFits (analyser st) timeData freqData); cbn [negb] in H;
    [| discriminate].
  cbn zeta in H.
  set (tracked := updateDynamicLoudness (loudnessState st)
                    (map Fin timeData)) in *.
  destruct (sensitivity (params st)) as [s | | |]; try discriminate.
  destruct (frequencySkew (params st)) as [skew | | |]; try discriminate.
  destruct (snr (fst tracked)) as [ratio | | |] eqn:Esnr; try discriminate.
  destruct (adaptiveThreshold (snd tracked)) as [threshold | | |] eqn:Eth;
    try discriminate.
  destruct (Rltb 0 s) eqn:Es; cbn [negb] in H; [| discriminate].
  apply Rltb_spec in Es.
  exists s, skew, ratio, threshold.
  repeat (split; [reflexivity || assumption |]).
  set (fa := fst (analyseFrame (analyser st) (fst tracked) ratio threshold
                    timeData freqData)) in *.
  destruct (shouldProcessClick _ (now env) _ _) as [ok st3].
  cbn [fst snd] in H. destruct ok.
  - destruct (handleMouthClickDetected st3 _ _ _ _); [| discriminate].
    injection H as <- _. reflexivity.
  - injection H as <- _. reflexivity.
Qed.

(** The result of a tick at sensitivity [s], in terms of the analysis of
    the frame in the state with the stored sensitivity. *)
Lemma detectMouthClick_atSensitivity (st st' : State) (env : Env)
    (timeData freqData : list R) (s : R) (r : DetectionResult) :
  processingEnabled st = true ->
  detectMouthClick (atSensitivity st s) env timeData freqData
  = Some (Returned (r, st')) ->
  exists skew ratio threshold : R,
    0 < s
    /\ frequencySkew (params st) = Fin skew
    /\ snr (fst (updateDynamicLoudness (loudnessState st)
                   (map Fin timeData))) = Fin ratio
    /\ adaptiveThreshold
         (snd (updateDynamicLoudness (loudnessState st) (map Fin timeData)))
       = Fin threshold
    /\ r = resultOf s skew
             (fst (analyseFrame (analyser st)
                     (fst (updateDynamicLoudness (loudnessState st)
                             (map Fin timeData)))
                     ratio threshold timeData freqData))
             (isClick r).
Proof.
  intros Hen H.
  destruct (detectMouthClick_returned (atSensitivity st s) st' env timeData
              freqData r Hen H)
    as (s' & skew & ratio & threshold & Es & Hs & Ek & Er & Et & Hr).
  cbn [atSensitivity withParams withSensitivity params sensitivity
       frequencySkew loudnessState analyser] in Es, Ek, Er, Et, Hr.
  injection Es as <-.
  exists skew, ratio, threshold. repeat (split; [assumption |]). exact Hr.
Qed.

(** C2.  For a fixed frame and a fixed analyser state, and sensitivities
    [0.1 <= s1 <= s2 <= 2]: the confidence of each of the five methods
    (LPC with exponent 2.5, spectral flux 2.2, mouth band 2.0, burst,
    amplitude 2.3) does not decrease from [s1] to [s2], nor do the fused
    and the adjusted confidence; the decision threshold (exponent 1.5) and
    the confidence required by the rate limiter (exponent 0.8) do not
    increase; and two ticks of [detectMouthClick] that differ only in the
    stored sensitivity return confidences ordered the same way. *)
Theorem confidence_monotone_in_sensitivity (st : State) (env : Env)
    (timeData freqData : list R) (s1 s2 : R) :
  0.1 <= s1 -> s1 <= s2 -> s2 <= 2.0 ->
  (forall info ratio threshold skew,
      let fa :=
        fst (analyseFrame (analyser st) info ratio threshold timeData
               freqData) in
      Forall2 (fun m1 m2 => methodConfidence m1 <= methodConfidence m2
                            /\ weight m1 = weight m2)
        (detectionMethods s1 fa) (detectionMethods s2 fa)
      /\ finalConfidenceOf s1 skew fa <= finalConfidenceOf s2 skew fa
      /\ adjustedConfidenceOf s1 skew fa <= adjustedConfidenceOf s2 skew fa
      /\ dynamicThresholdOf s2 fa <= dynamicThresholdOf s1 fa)
  /\ (forall held maxClicks, (0 < maxClicks)%nat ->
        exists a b : R,
          requiredConfidence (Fin s1) held maxClicks = Fin a
          /\ requiredConfidence (Fin s2) held maxClicks = Fin b
          /\ b <= a)
  /\ (forall r1 st1 r2 st2,
        processingEnabled st = true ->
        detectMouthClick (atSensitivity st s1) env timeData freqData
        = Some (Returned (r1, st1)) ->
        detectMouthClick (atSensitivity st s2) env timeData freqData
        = Some (Returned (r2, st2)) ->
        confidence r1 <= confidence r2
        /\ lpcConfidence r1 <= lpcConfidence r2
        /\ spectralConfidence r1 <= spectralConfidence r2
        /\ (forall d1 d2, details r1 = Some d1 -> details r2 = Some d2 ->
              dynamicThreshold d2 <= dynamicThreshold d1)).
Proof.
  intros H1 H12 H2. assert (Hpos : 0 < s1) by lra.
  split.
  { intros info ratio threshold skew fa.
    pose proof (analyseFrame_measured (analyser st) info ratio threshold
                  timeData freqData) as Hm. fold fa in Hm. clearbody fa.
    split; [apply detectionMethods_monotone; assumption |].
    split; [apply adjustedConfidenceOf_monotone; assumption |].
    split; [apply adjustedConfidenceOf_monotone; assumption |].
    apply dynamicThresholdOf_antitone; assumption. }
  split.
  { intros held maxClicks Hmax.
    apply requiredConfidence_antitone; assumption. }
  intros r1 st1 r2 st2 Hen E1 E2.
  destruct (detectMouthClick_atSensitivity st st1 env timeData freqData s1 r1
              Hen E1)
    as (skew & ratio & threshold & _ & Ek & Er & Et & Hr1).
  destruct (detectMouthClick_atSensitivity st st2 env timeData freqData s2 r2
              Hen E2)
    as (skew' & ratio' & threshold' & _ & Ek' & Er' & Et' & Hr2).
  rewrite Ek in Ek'. injection Ek' as <-.
  rewrite Er in Er'. injection Er' as <-.
  rewrite Et in Et'. injection Et' as <-.
  pose proof (analyseFrame_measured (analyser st)
                (fst (updateDynamicLoudness (loudnessState st)
                        (map Fin timeData)))
                ratio threshold timeData freqData) as Hm.
  revert Hr1 Hr2 Hm.
  generalize (fst (analyseFrame (analyser st)
                     (fst (updateDynamicLoudness (loudnessState st)
                             (map Fin timeData)))
                     ratio threshold timeData freqData)).
  intros fa Hr1 Hr2 Hm. rewrite Hr1, Hr2.
  cbn [resultOf confidence lpcConfidence spectralConfidence details isClick].
  split; [apply adjustedConfidenceOf_monotone; assumption |].
  split.
  { pose proof (detectionMethods_monotone s1 s2 fa Hm Hpos H12) as H.
    unfold detectionMethods in H. apply Forall2_cons_iff in H.
    apply H. }
  split; [apply adjustedConfidenceOf_monotone; assumption |].
  intros d1 d2 Hd1 Hd2.
  injection Hd1 as <-. injection Hd2 as <-.
  cbn [dynamicThreshold detailsOf].
  apply dynamicThresholdOf_antitone; assumption.
Qed.

(** A tick that falls into the suppression interval after an admitted
    event returns its result and schedules nothing. *)
Lemma detectMouthClick_while_suppressed (st : State) (env : Env)
    (timeData freqData : list R) (s skew : R) :
  processingEnabled st = true ->
  frameFits (analyser st) timeData freqData = true ->
  sensitivity (params st) = Fin s -> 0 < s ->
  frequencySkew (params st) = Fin skew ->
  now env < clickSuppressionTime (limiter st) ->
  exists r st',
    detectMouthClick st env timeData freqData = Some (Returned (r, st'))
    /\ isClick r = false.
Proof.
  intros Hen Hfit Es Hs Ek Hsup. unfold detectMouthClick.
  rewrite Hen, Hfit. cbn [negb]. cbn zeta.
  destruct (updateDynamicLoudness_finite (loudnessState st)
              (map Fin timeData))
    as (l & ratio & a & Einfo & _ & _ & _ & _ & Ea).
  rewrite Es, Ek, Einfo, Ea. cbn [snr].
  rewrite (Rltb_true 0 s Hs). cbn [negb].
  unfold shouldProcessClick.
  destruct (isClickDetectedOf s skew _); cbn [negb].
  - cbn [limiter withAnalyser withLoudnessState].
    rewrite (Rltb_true _ _ Hsup). cbn [fst snd].
    eexists. eexists. split; reflexivity.
  - cbn [fst snd]. eexists. eexists. split; reflexivity.
Qed.

Lemma confidence_monotone_in_sensitivity_witness :
  exists r1 r2 : DetectionResult,
    confidence r1 <= confidence r2
    /\ lpcConfidence r1 <= lpcConfidence r2
    /\ spectralConfidence r1 <= spectralConfidence r2
    /\ (forall d1 d2, details r1 = Some d1 -> details r2 = Some d2 ->
          dynamicThreshold d2 <= dynamicThreshold d1).
Proof.
  destruct (detectMouthClick_while_suppressed
              (atSensitivity suppressedState 0.5) (mkEnv 1000 1 None None)
              (repeat 0 frequencyBinCount) (repeat (-40) frequencyBinCount)
              0.5 0.0)
    as (r1 & st1 & E1 & _);
    [reflexivity | vm_compute; reflexivity | reflexivity | lra | reflexivity
     | cbn [now clickSuppressionTime limiter atSensitivity suppressedState
            withParams withRateLimiter withLimiter]; lra |].
  destruct (detectMouthClick_while_suppressed
              (atSensitivity suppressedState 1.5) (mkEnv 1000 1 None None)
              (repeat 0 frequencyBinCount) (repeat (-40) frequencyBinCount)
              1.5 0.0)
    as (r2 & st2 & E2 & _);
    [reflexivity | vm_compute; reflexivity | reflexivity | lra | reflexivity
     | cbn [now clickSuppressionTime limiter atSensitivity suppressedState
            withParams withRateLimiter withLimiter]; lra |].
  exists r1, r2.
  apply (proj2 (proj2 (confidence_monotone_in_sensitivity suppressedState
                         (mkEnv 1000 1 None None)
                         (repeat 0 frequencyBinCount)
                         (repeat (-40) frequencyBinCount) 0.5 1.5
                         ltac:(lra) ltac:(lra) ltac:(lra)))
           r1 st1 r2 st2 eq_refl E1 E2).
Defined.

(** ** The LPC analyser on short and silent windows *)

Lemma computeLPCCoefficients_short (signal : list R) (order : nat) :
  (length signal < 2 * order)%nat ->
  computeLPCCoefficients signal order
  = {| coefficients := repeat 0 (order + 1); error := Fin 1.0 |}.
Proof.
  intros H. unfold computeLPCCoefficients.
  replace (length signal <? order * 2)%nat with true
    by (symmetry; apply Nat.ltb_lt; lia).
  reflexivity.
Qed.

(** The autocorrelation is a finite number at every lag that leaves a
    pair of samples, and NaN at the others. *)
Lemma autocorrelationAt_value (signal : list R) (k : nat) :
  autocorrelationAt signal k
  = if (k <? length signal)%nat
    then Fin (laggedProducts signal k / INR (length signal - k))
    else NaN.
Proof.
  unfold autocorrelationAt. cbv zeta. cbn [JS.div].
  destruct (k <? length signal)%nat eqn:E.
  - apply Nat.ltb_lt in E.
    assert (0 < INR (length signal - k)) by (apply lt_0_INR; lia).
    rewrite Reqb_false by lra. reflexivity.
  - apply Nat.ltb_ge in E.
    replace (length signal - k)%nat with 0%nat by lia.
    unfold laggedProducts.
    replace (length signal - k)%nat with 0%nat by lia.
    cbn [INR seq]. rewrite (Reqb_true 0 0) by reflexivity.
    unfold signedInf, sumOver. cbn [fold_left].
    rewrite (Reqb_true 0 0) by reflexivity. reflexivity.
Qed.

Lemma finiteValues_finite (g : nat -> R) (f : nat -> jsnum)
    (indices : list nat) :
  (forall k, In k indices -> f k = Fin (g k)) ->
  finiteValues (map f indices) = Some (map g indices).
Proof.
  intros H. induction indices as [| k rest IH]; [reflexivity |].
  cbn [map finiteValues]. rewrite (H k) by (left; reflexivity).
  rewrite IH by (intros j Hj; apply H; right; exact Hj). reflexivity.
Qed.

(** [computeLPCCoefficients] over the reals: on a window that is not
    empty every autocorrelation it reads is finite. *)
Lemma computeLPCCoefficients_finite (signal : list R) (order : nat) :
  signal <> [] ->
  computeLPCCoefficients signal order
  = if (length signal <? order * 2)%nat
    then {| coefficients := repeat 0 (order + 1); error := Fin 1.0 |}
    else
      let r :=
        map (fun k => laggedProducts signal k / INR (length signal - k))
          (seq 0 (order + 1)) in
      if Rltb (nth 0 r 0) 1e-10
      then {| coefficients := repeat 0 (order + 1); error := Fin 1.0 |}
      else
        let a := setNth 0 1 (repeat 0 (order + 1)) in
        let (a, e) := levinsonDurbin order 1 r a (nth 0 r 0) in
        {| coefficients := a; error := Fin (Rmax e 1e-10) |}.
Proof.
  intros Hne. unfold computeLPCCoefficients. cbv zeta.
  destruct (length signal <? order * 2)%nat eqn:Eshort; [reflexivity |].
  apply Nat.ltb_ge in Eshort.
  assert (Hlen : (0 < length signal)%nat)
    by (destruct signal; [contradiction | cbn; lia]).
  rewrite (finiteValues_finite
             (fun k => laggedProducts signal k / INR (length signal - k))).
  - reflexivity.
  - intros k Hk. apply in_seq in Hk. rewrite autocorrelationAt_value.
    replace (k <? length signal)%nat with true
      by (symmetry; apply Nat.ltb_lt; lia).
    reflexivity.
Qed.

(** The empty window at order 0. *)
Lemma computeLPCCoefficients_empty :
  computeLPCCoefficients [] 0 = {| coefficients := [1]; error := NaN |}.
Proof.
  unfold computeLPCCoefficients. cbv zeta.
  cbn [length Nat.ltb Nat.leb Nat.mul Nat.add seq map].
  rewrite autocorrelationAt_value. reflexivity.
Qed.

Lemma computeLPCCoefficients_silent (signal : list R) (order : nat)
    (r0 : R) :
  autocorrelationAt signal 0 = Fin r0 -> r0 < 1e-10 ->
  computeLPCCoefficients signal order
  = {| coefficients := repeat 0 (order + 1); error := Fin 1.0 |}.
Proof.
  intros E H.
  assert (Hne : signal <> []).
  { intros ->. rewrite autocorrelationAt_value in E. discriminate. }
  rewrite autocorrelationAt_value in E.
  replace (0 <? length signal)%nat with true in E
    by (symmetry; apply Nat.ltb_lt; destruct signal;
        [contradiction | cbn; lia]).
  injection E as E.
  rewrite (computeLPCCoefficients_finite signal order Hne).
  destruct (length signal <? order * 2)%nat; [reflexivity |].
  cbv zeta.
  replace (nth 0 (map (fun k => laggedProducts signal k
                                / INR (length signal - k))
                    (seq 0 (order + 1))) 0)
    with r0 by (rewrite Nat.add_1_r; cbn [seq map nth]; symmetry; exact E).
  rewrite (Rltb_true _ _ H). reflexivity.
Qed.

Lemma nth_all_zero (l : list R) (i : nat) :
  Forall (fun x => x = 0) l -> nth i l 0 = 0.
Proof.
  intros H. revert i. induction H as [| x l Hx _ IH]; intros [| i]; cbn;
    auto.
Qed.

Lemma sumOver_zero (indices : list nat) (f : nat -> R) :
  (forall i, f i = 0) -> sumOver indices f = 0.
Proof.
  intros H. rewrite (sumOver_ext indices f (fun _ => 0)) by (intros; apply H).
  rewrite sumOver_constant. lra.
Qed.

Lemma laggedProducts_all_zero (signal : list R) (k : nat) :
  Forall (fun x => x = 0) signal -> laggedProducts signal k = 0.
Proof.
  intros H. unfold laggedProducts.
  rewrite sumOver_zero; [reflexivity |].
  intros i. rewrite (nth_all_zero signal i H). lra.
Qed.

Lemma autocorrelationAt_all_zero (signal : list R) (k : nat) :
  Forall (fun x => x = 0) signal -> (k < length signal)%nat ->
  autocorrelationAt signal k = Fin (0 / INR (length signal - k)).
Proof.
  intros H Hk. rewrite autocorrelationAt_value.
  replace (k <? length signal)%nat with true
    by (symmetry; apply Nat.ltb_lt; exact Hk).
  rewrite (laggedProducts_all_zero signal k H). reflexivity.
Qed.

Lemma nth_map_seq (f : nat -> R) (start n i : nat) (d : R) :
  (i < n)%nat -> nth i (map f (seq start n)) d = f (start + i)%nat.
Proof.
  intros Hi.
  rewrite (nth_indep _ d (f 0%nat)) by (rewrite length_map, length_seq; exact Hi).
  rewrite map_nth, seq_nth by exact Hi. reflexivity.
Qed.

Lemma nth_computePredictionError_all_zero (signal coeffs : list R)
    (i : nat) :
  Forall (fun x => x = 0) signal ->
  nth i (computePredictionError signal coeffs) 0 = 0.
Proof.
  intros H. unfold computePredictionError. cbv zeta.
  destruct (Nat.lt_ge_cases i (length signal)) as [Hi | Hi].
  - rewrite nth_map_seq by exact Hi. cbn [Nat.add].
    destruct (i <? _)%nat; [reflexivity |].
    rewrite (nth_all_zero signal i H).
    rewrite sumOver_zero; [lra |].
    intros j. rewrite (nth_all_zero signal (i - j) H). lra.
  - apply nth_overflow. rewrite length_map, length_seq. exact Hi.
Qed.

Lemma running_max_of_zeros (A : Type) (g : A -> R) (l : list A) :
  (forall x, g x = 0) -> fold_left (fun m x => Rmax m (g x)) l 0 = 0.
Proof.
  intros H. induction l as [| x l IH]; cbn [fold_left]; [reflexivity |].
  rewrite H, Rmax_left by lra. exact IH.
Qed.

Lemma errorRMSOf_all_zero (pe : list R) :
  (forall i, nth i pe 0 = 0) -> errorRMSOf pe = 0.
Proof.
  intros H. unfold errorRMSOf.
  rewrite sumOver_zero by (intros i; rewrite H; lra).
  unfold Rdiv. rewrite Rmult_0_l. apply sqrt_0.
Qed.

Lemma errorPeakOf_all_zero (pe : list R) :
  (forall i, nth i pe 0 = 0) -> errorPeakOf pe = 0.
Proof.
  intros H. unfold errorPeakOf.
  apply (running_max_of_zeros nat (fun i => Rabs (nth i pe 0))).
  intros i. rewrite H. apply Rabs_R0.
Qed.

Lemma lpcConfidenceOf_of_no_residual (s snr : R) :
  lpcConfidenceOf s snr 0 0 = 0.
Proof.
  unfold lpcConfidenceOf. cbv zeta. unfold Rdiv. rewrite !Rmult_0_l.
  rewrite Rmin_right by lra. apply Rmax_left. lra.
Qed.

(** With no LPC residual the two override rules are off and the decision
    is the comparison of the adjusted confidence with the threshold. *)
Lemma isClickDetectedOf_without_residual (s skew : R) (fa : FrameAnalysis) :
  residualRMS fa = 0 -> residualPeak fa = 0 ->
  methodConfidence (lpcOutlier s fa) = 0
  /\ methodDetected (lpcOutlier s fa) = false
  /\ isClickDetectedOf s skew fa
     = Rltb (dynamicThresholdOf s fa) (adjustedConfidenceOf s skew fa).
Proof.
  intros Hrms Hpeak.
  assert (Hlpc : methodConfidence (lpcOutlier s fa) = 0).
  { cbn [lpcOutlier methodConfidence]. rewrite Hrms, Hpeak.
    apply lpcConfidenceOf_of_no_residual. }
  split; [exact Hlpc |]. split.
  { cbn [lpcOutlier methodDetected methodConfidence] in *. rewrite Hlpc.
    apply Rltb_false. lra. }
  unfold isClickDetectedOf. cbv zeta. rewrite Hlpc.
  pose proof (Rpower_pos s 1.5) as Hp.
  rewrite (Rltb_false (1.5 / Rpower s 1.5) 0)
    by (left; apply Rdiv_lt_0_compat; lra).
  rewrite (Rltb_false (1.0 / Rpower s 1.5) 0)
    by (left; apply Rdiv_lt_0_compat; lra).
  cbn [andb]. rewrite andb_false_r, !orb_false_r. reflexivity.
Qed.

(** ** A silent frame under a flat spectrum *)

Lemma nth_repeat_within (c d : R) (n i : nat) :
  (i < n)%nat -> nth i (repeat c n) d = c.
Proof.
  revert i. induction n as [| n IH]; intros i Hi; [lia |].
  destruct i as [| i]; cbn; [reflexivity | apply IH; lia].
Qed.

Lemma Forall_repeat_zero (n : nat) : Forall (fun x => x = 0) (repeat 0 n).
Proof. induction n; cbn; constructor; auto. Qed.

Lemma Forall_skipn_zero (k : nat) (l : list R) :
  Forall (fun x => x = 0) l -> Forall (fun x => x = 0) (skipn k l).
Proof.
  intros H. revert k. induction H; intros [| k]; cbn; auto.
Qed.

Lemma sumOver_seq_constant (f : nat -> R) (start n : nat) (c : R) :
  (forall i, (start <= i < start + n)%nat -> f i = c) ->
  sumOver (seq start n) f = INR n * c.
Proof.
  intros H.
  rewrite (sumOver_ext (seq start n) f (fun _ => c)).
  - rewrite sumOver_constant, length_seq. reflexivity.
  - intros i Hi. apply in_seq in Hi. apply H. exact Hi.
Qed.

Lemma maxAmplitudeOf_zeros (n : nat) : maxAmplitudeOf (repeat 0 n) = 0.
Proof.
  unfold maxAmplitudeOf.
  induction n as [| n IH]; cbn [repeat fold_left]; [reflexivity |].
  rewrite Rabs_R0, Rmax_left by lra. exact IH.
Qed.

Lemma spectralFluxOf_flat (a : Analyser) (p c : R) (n : nat) :
  (0 < n)%nat -> previousSpectrum a = repeat p n ->
  spectralFluxOf a (repeat c n) = Rmax 0 (c - p).
Proof.
  intros Hn Hprev. unfold spectralFluxOf.
  rewrite Hprev, !repeat_length.
  replace (0 <? n)%nat with true by (symmetry; apply Nat.ltb_lt; exact Hn).
  rewrite (sumOver_seq_constant _ 0 n (Rmax 0 (c - p))).
  - field. apply not_0_INR. lia.
  - intros i Hi. rewrite !nth_repeat_within by lia. reflexivity.
Qed.

Lemma initFreqBinCache_valid (a : Analyser) :
  cacheValid a ->
  initFreqBinCache a = withCache a (computeBinCache a).
Proof.
  intros [Hnone | [Hsome Hrate]]; unfold initFreqBinCache.
  - rewrite Hnone. reflexivity.
  - rewrite Hsome, Hrate, Z.eqb_refl.
    destruct a as [sr bs cb bi cache csr prev].
    cbn [freqBinCache cacheSampleRate sampleRate] in Hsome, Hrate.
    subst csr. unfold withCache.
    cbn [freqBinCache cacheSampleRate sampleRate bufferSize circularBuffer
         bufferIndex previousSpectrum].
    rewrite <- Hsome. reflexivity.
Qed.

(** One band of a flat spectrum at 48 kHz: the mean magnitude times the
    weight. *)
Lemma calculateBandEnergy_flat (a : Analyser) (c w : R) (band : Band) :
  cacheValid a -> sampleRate a = 48000%Z ->
  In band [FreqBands.low; FreqBands.mid; FreqBands.high; FreqBands.mouth] ->
  fst (calculateBandEnergy a (repeat c frequencyBinCount) (bandMin band)
         (bandMax band) w)
  = Rpower 10 (c / 20) * w.
Proof.
  intros Hvalid Hrate Hband. unfold calculateBandEnergy. cbv zeta.
  rewrite (initFreqBinCache_valid a Hvalid).
  cbn [fst freqBinCache withCache].
  assert (Hbins : cachedBins (computeBinCache a) (bandMin band)
                    (bandMax band)
                  = Some (mkBins (binOf a (bandMin band))
                            (binOf a (bandMax band)))).
  { cbn in Hband.
    destruct Hband as [<- | [<- | [<- | [<- | []]]]]; reflexivity. }
  rewrite Hbins. cbn [minBin maxBin]. unfold binOf. rewrite Hrate.
  cbn in Hband.
  destruct Hband as [<- | [<- | [<- | [<- | []]]]];
    cbn [bandMin bandMax FreqBands.low FreqBands.mid FreqBands.high
         FreqBands.mouth];
    match goal with
    | |- context [(?x * Z.of_nat frequencyBinCount / 48000)%Z] =>
        let v := eval vm_compute in (x * Z.of_nat frequencyBinCount / 48000)%Z
        in change (x * Z.of_nat frequencyBinCount / 48000)%Z with v
    end;
    match goal with
    | |- context [(?x * Z.of_nat frequencyBinCount / 48000)%Z] =>
        let v := eval vm_compute in (x * Z.of_nat frequencyBinCount / 48000)%Z
        in change (x * Z.of_nat frequencyBinCount / 48000)%Z with v
    end;
    match goal with
    | |- context [sumOver (seq (Z.to_nat ?lo) (Z.to_nat ?range)) _] =>
        let n := eval vm_compute in (Z.to_nat range) in
        let s := eval vm_compute in (Z.to_nat lo) in
        let r := eval vm_compute in range in
        change (Z.to_nat range) with n; change (Z.to_nat lo) with s;
        change range with r;
        rewrite (sumOver_seq_constant _ s n (Rpower 10 (c / 20)))
          by (intros i Hi; rewrite nth_repeat_within
                by (unfold frequencyBinCount; lia); reflexivity);
        replace (INR n) with (IZR r)
          by (rewrite INR_IZR_INZ; reflexivity)
    end;
    cbn [Z.ltb Z.compare Pos.compare Pos.compare_cont];
    field.
Qed.

Lemma initFreqBinCache_keeps_valid (a : Analyser) :
  cacheValid a ->
  cacheValid (initFreqBinCache a)
  /\ sampleRate (initFreqBinCache a) = sampleRate a
  /\ previousSpectrum (initFreqBinCache a) = previousSpectrum a
  /\ bufferSize (initFreqBinCache a) = bufferSize a.
Proof.
  intros H. rewrite (initFreqBinCache_valid a H).
  split; [right; split; reflexivity |]. repeat split; reflexivity.
Qed.

Lemma bandEnergiesOf_flat (a : Analyser) (c : R) :
  cacheValid a -> sampleRate a = 48000%Z ->
  fst (bandEnergiesOf a (repeat c frequencyBinCount))
  = {| lowEnergy := Rpower 10 (c / 20) * FreqWeights.low;
       midEnergy := Rpower 10 (c / 20) * FreqWeights.mid;
       highEnergy := Rpower 10 (c / 20) * FreqWeights.high;
       mouthEnergy := Rpower 10 (c / 20) * FreqWeights.mouth |}.
Proof.
  intros Hvalid Hrate. unfold bandEnergiesOf. cbv zeta. cbn [fst].
  rewrite !calculateBandEnergy_state, !initFreqBinCache_again.
  destruct (initFreqBinCache_keeps_valid a Hvalid) as (Hv & Hr & _).
  rewrite Hrate in Hr.
  f_equal.
  - apply (calculateBandEnergy_flat a c _ FreqBands.low Hvalid Hrate).
    cbn; auto.
  - apply (calculateBandEnergy_flat _ c _ FreqBands.mid Hv Hr).
    cbn; auto.
  - apply (calculateBandEnergy_flat _ c _ FreqBands.high Hv Hr).
    cbn; auto.
  - apply (calculateBandEnergy_flat _ c _ FreqBands.mouth Hv Hr).
    cbn; auto.
Qed.

Lemma calculateAutocorrelation_zeros (n maxLag : nat) :
  Forall (fun x => x = 0) (calculateAutocorrelation (repeat 0 n) maxLag).
Proof.
  unfold calculateAutocorrelation. apply Forall_map, Forall_forall.
  intros lag _. destruct (lag <? _)%nat; [| reflexivity].
  rewrite sumOver_zero; [unfold Rdiv; lra |].
  intros i. rewrite (nth_all_zero _ i (Forall_repeat_zero n)). lra.
Qed.

Lemma maxOfList_zeros (l : list R) :
  Forall (fun x => x = 0) l -> (maxOfList l >? Fin 0.3)%js = false.
Proof.
  intros H. destruct H as [| x l Hx Hl]; [reflexivity |].
  unfold maxOfList. subst x.
  assert (E : fold_left Rmax l 0 = 0).
  { induction Hl as [| y l Hy _ IH]; cbn [fold_left]; [reflexivity |].
    subst y. rewrite Rmax_left by lra. exact IH. }
  rewrite E. cbn [JS.gt JS.lt]. apply Rltb_false. lra.
Qed.

Lemma formant_scan_flat (c : R) (l : list R) :
  Forall (fun x => x = c) l ->
  fold_left formantStep l (c, false, 0%nat) = (c, false, 0%nat).
Proof.
  intros H. induction H as [| x l Hx _ IH]; [reflexivity |].
  subst x. cbn [fold_left]. unfold formantStep at 2.
  rewrite (Rltb_false c c) by lra. cbn [andb]. exact IH.
Qed.

Lemma detectFormantStructure_flat (a : Analyser) (c : R) :
  sampleRate a = 48000%Z ->
  detectFormantStructure a (repeat c frequencyBinCount) = 0.
Proof.
  intros Hrate. unfold detectFormantStructure. cbv zeta.
  rewrite Hrate, repeat_length.
  change (Z.to_nat (500 * Z.of_nat frequencyBinCount * 2 / 48000))
    with 85%nat.
  change (Z.to_nat (3000 * Z.of_nat frequencyBinCount * 2 / 48000))
    with 512%nat.
  rewrite nth_repeat_within by (unfold frequencyBinCount; lia).
  rewrite formant_scan_flat.
  - cbn [INR]. unfold Rdiv. rewrite Rmult_0_l. apply Rmin_right. lra.
  - apply Forall_map, Forall_forall. intros i Hi. apply in_seq in Hi.
    apply nth_repeat_within. unfold frequencyBinCount. lia.
Qed.

Lemma checkSpeechProtection_flat (a : Analyser) (c m : R) (n : nat) :
  sampleRate a = 48000%Z -> 0 < m ->
  checkSpeechProtection a (repeat 0 n) (repeat c frequencyBinCount)
    {| lowEnergy := m * FreqWeights.low; midEnergy := m * FreqWeights.mid;
       highEnergy := m * FreqWeights.high;
       mouthEnergy := m * FreqWeights.mouth |}
  = 0.
Proof.
  intros Hrate Hm. unfold checkSpeechProtection. cbv zeta.
  rewrite maxOfList_zeros
    by (apply Forall_skipn_zero, calculateAutocorrelation_zeros).
  rewrite (detectFormantStructure_flat a c Hrate).
  cbn [lowEnergy midEnergy highEnergy].
  unfold FreqWeights.low, FreqWeights.mid, FreqWeights.high.
  rewrite (Rltb_false 0.4 0) by lra.
  rewrite (Rltb_false (m * 1.0) (m * 0.2 + m * 0.6)) by nra.
  cbn [fold_left]. rewrite (Rmax_left 0 0) by lra.
  apply Rmax_left. lra.
Qed.

Lemma analyseFrame_flat (a : Analyser) (info : LoudnessInfo)
    (ratio threshold p c : R) :
  quietAnalyser a p ->
  let r := analyseFrame a info ratio threshold (repeat 0 frequencyBinCount)
             (repeat c frequencyBinCount) in
  residualRMS (fst r) = 0 /\ residualPeak (fst r) = 0
  /\ flux (fst r) = Rmax 0 (c - p)
  /\ energies (fst r)
     = {| lowEnergy := Rpower 10 (c / 20) * FreqWeights.low;
          midEnergy := Rpower 10 (c / 20) * FreqWeights.mid;
          highEnergy := Rpower 10 (c / 20) * FreqWeights.high;
          mouthEnergy := Rpower 10 (c / 20) * FreqWeights.mouth |}
  /\ peakAmplitude (fst r) = 0 /\ protection (fst r) = 0
  /\ signalToNoise (fst r) = ratio /\ adaptive (fst r) = threshold
  /\ quietAnalyser (snd r) c.
Proof.
  intros (Hrate & Hprev & Hsize & Hvalid). cbv zeta.
  assert (Hvalid' : cacheValid (writeCircular a (repeat 0 frequencyBinCount)))
    by exact Hvalid.
  destruct (initFreqBinCache_keeps_valid _ Hvalid') as (Hv & Hr & Hp & Hb).
  cbn [sampleRate previousSpectrum bufferSize writeCircular withBuffers]
    in Hr, Hp, Hb.
  rewrite analyseFrame_state. unfold analyseFrame. cbv zeta.
  cbn [fst residualRMS residualPeak flux energies peakAmplitude protection
       signalToNoise adaptive].
  rewrite bandEnergiesOf_state.
  rewrite (bandEnergiesOf_flat _ c Hvalid' Hrate).
  assert (Hzero : forall i,
             nth i (predictionErrorOf (repeat 0 frequencyBinCount)) 0 = 0).
  { intros i. unfold predictionErrorOf. cbv zeta.
    apply nth_computePredictionError_all_zero.
    unfold analysisWindowOf. cbv zeta.
    apply Forall_skipn_zero, Forall_repeat_zero. }
  split; [apply errorRMSOf_all_zero; exact Hzero |].
  split; [apply errorPeakOf_all_zero; exact Hzero |].
  split.
  { apply spectralFluxOf_flat; [unfold frequencyBinCount; lia |].
    rewrite Hp. exact Hprev. }
  split; [reflexivity |].
  split; [apply maxAmplitudeOf_zeros |].
  split.
  { apply checkSpeechProtection_flat; [| apply Rpower_pos].
    cbn [sampleRate storeSpectrum withBuffers]. rewrite Hr. exact Hrate. }
  split; [reflexivity |]. split; [reflexivity |].
  unfold quietAnalyser.
  cbn [sampleRate previousSpectrum bufferSize storeSpectrum withBuffers].
  rewrite Hr, Hp, Hb, Hprev, repeat_length.
  rewrite skipn_all2 by (rewrite repeat_length; lia). rewrite app_nil_r.
  repeat split; assumption.
Qed.

Lemma div_below (a b c : R) : 0 < b -> a <= c * b -> a / b <= c.
Proof.
  intros Hb H. apply (Rmult_le_reg_r b); [exact Hb |].
  unfold Rdiv. rewrite Rmult_assoc, Rinv_l by lra. lra.
Qed.

Lemma div_above (a b c : R) : 0 < b -> c * b <= a -> c <= a / b.
Proof.
  intros Hb H. apply (Rmult_le_reg_r b); [exact Hb |].
  unfold Rdiv. rewrite Rmult_assoc, Rinv_l by lra. lra.
Qed.

Lemma div_strictly_below (a b c : R) : 0 < b -> a < c * b -> a / b < c.
Proof.
  intros Hb H. apply (Rmult_lt_reg_r b); [exact Hb |].
  unfold Rdiv. rewrite Rmult_assoc, Rinv_l by lra. lra.
Qed.

Lemma div_strictly_above (a b c : R) : 0 < b -> c * b < a -> c < a / b.
Proof.
  intros Hb H. apply (Rmult_lt_reg_r b); [exact Hb |].
  unfold Rdiv. rewrite Rmult_assoc, Rinv_l by lra. lra.
Qed.

Lemma sortAscending_constant (a : R) (n : nat) :
  sortAscending (repeat (Fin a) n) = repeat (Fin a) n.
Proof.
  unfold sortAscending.
  induction n as [| n IH]; [reflexivity |].
  cbn [repeat fold_right]. rewrite IH.
  destruct n as [| n]; [reflexivity |].
  cbn [repeat insertSorted]. jseval. reflexivity.
Qed.

Lemma updateDynamicLoudness_quiet (l : LoudnessState) (n : nat) :
  quietLoudness l -> (0 < n)%nat ->
  exists t : R,
    updateDynamicLoudness l (map Fin (repeat 0 n))
    = ({| loudnessDb := Fin (-60); snr := Fin 0.1;
          infoAdaptiveThreshold := Fin t |},
       {| loudnessHistory := repeat (Fin (-60)) 30;
          adaptiveThreshold := Fin t;
          backgroundNoiseLevel := Fin (-60);
          signalToNoiseRatio := Fin 0.1 |})
    /\ 0.21 < t < 0.22.
Proof.
  intros Hl Hn. unfold updateDynamicLoudness. cbv zeta. rewrite Hl.
  assert (Hloud : loudnessOf (map Fin (repeat 0 n)) = Fin (-60)).
  { unfold loudnessOf. cbv zeta.
    rewrite map_repeat, sumFiniteSquares_constant, repeat_length.
    assert (Hpos : 0 < INR n) by (apply lt_0_INR; exact Hn).
    cbn [JS.div]. rewrite (Reqb_false (INR n) 0) by lra.
    replace (INR n * (0 * 0) / INR n) with 0 by (field; lra).
    cbn [Math_sqrt]. rdecide. rewrite sqrt_0. jseval. reflexivity. }
  rewrite Hloud.
  assert (Hpush : pushLoudness (repeat (Fin (-60)) 30) (Fin (-60))
                  = repeat (Fin (-60)) 30) by reflexivity.
  rewrite Hpush.
  assert (Hnoise : backgroundNoiseOf (repeat (Fin (-60)) 30) = Fin (-60)).
  { unfold backgroundNoiseOf. cbv zeta.
    rewrite sortAscending_constant. reflexivity. }
  rewrite Hnoise.
  assert (Hsnr : signalToNoiseOf (Fin (-60)) (Fin (-60)) = Fin 0.1).
  { unfold signalToNoiseOf. cbv zeta. jseval. reflexivity. }
  rewrite Hsnr.
  destruct (adaptiveThresholdOf_finite 0.1 ltac:(lra)) as [t [Et _]].
  assert (Ht : adaptiveThresholdOf (Fin 0.1)
               = Fin (0.65 / (3.0 + - (0.1 / 20)))).
  { unfold adaptiveThresholdOf, Thresholds.confidenceThreshold. cbv zeta.
    jseval.
    assert (H1 : 0.65 / (3.0 + - (0.1 / 20)) < 1.0)
      by (apply div_strictly_below; lra).
    assert (H2 : 0.1 < 0.65 / (3.0 + - (0.1 / 20)))
      by (apply div_strictly_above; lra).
    rewrite (Rltb_true _ _ H1). jsred. rewrite (Rltb_true _ _ H2).
    reflexivity. }
  rewrite Ht. eexists. split; [reflexivity |].
  split; [apply div_strictly_above; lra | apply div_strictly_below; lra].
Qed.

Lemma Rpower_default_sensitivity (x : R) : Rpower 1.0 x = 1.
Proof. replace 1.0 with 1 by lra. apply Rpower_1_base. Qed.

Lemma quiet_scale (d : R) : 1 <= d -> Rmax 1.0 (0.1 / d) = 1.
Proof.
  intros Hd. rewrite Rmax_left; [lra |].
  apply div_below; lra.
Qed.

Lemma Rmin_capped_range (x : R) : 0 <= x -> 0 <= Rmin 2.0 x <= x.
Proof.
  intros Hx. split; [apply Rmin_glb; lra | apply Rmin_r].
Qed.

(** At the default sensitivity such a frame is a click exactly through its
    spectral flux: none without flux, one with a flux of 0.32 dB or more,
    and then with an adjusted confidence of at least one half. *)
Lemma decision_on_flat_frame (fa : FrameAnalysis) (m fl t skew : R) :
  flatAnalysis fa m fl t -> 0 < m -> 0.21 < t < 0.22 ->
  methodConfidence (lpcOutlier 1.0 fa) = 0
  /\ (fl = 0 -> isClickDetectedOf 1.0 skew fa = false)
  /\ (0.32 <= fl ->
      isClickDetectedOf 1.0 skew fa = true
      /\ 0.5 <= adjustedConfidenceOf 1.0 skew fa).
Proof.
  intros (Hrms & Hpeak & Hflux & Hen & Hamp & Hprot & Hsnr & Had) Hm Ht.
  destruct (isClickDetectedOf_without_residual 1.0 skew fa Hrms Hpeak)
    as (Hlpc & _ & ->).
  split; [exact Hlpc |].
  assert (Hthr : dynamicThresholdOf 1.0 fa = t).
  { unfold dynamicThresholdOf, Thresholds.confidenceThreshold. cbv zeta.
    rewrite Had, Rpower_default_sensitivity. apply Rmin_left. lra. }
  assert (Hspike : amplitudeSpikeOf 1.0 fa = false).
  { unfold amplitudeSpikeOf, amplitudeThresholdOf. cbv zeta.
    rewrite Hamp, Hsnr, Rpower_default_sensitivity, quiet_scale by lra.
    apply Rltb_false. lra. }
  assert (Hmouth : 0 <= methodConfidence (mouthBandTransient 1.0 fa)
                   <= 0.3).
  { cbn [mouthBandTransient methodConfidence].
    unfold adaptiveTransientThresholdOf, Thresholds.transientRatio,
      mouthBandRatioOf. cbv zeta.
    rewrite Hen, Hsnr, Rpower_default_sensitivity, quiet_scale by lra.
    cbn [lowEnergy midEnergy highEnergy mouthEnergy].
    unfold FreqWeights.low, FreqWeights.mid, FreqWeights.high,
      FreqWeights.mouth.
    set (ratio := m * 1.5 / (m * 0.2 + m * 0.6 + m * 1.0 + 0.0001)).
    assert (Hr : 0 <= ratio <= 0.84)
      by (split; [apply div_above | apply div_below]; lra).
    assert (Hq : 0 <= ratio / (2.8 / 1 / 1) <= 0.3)
      by (split; [apply div_above | apply div_below]; lra).
    pose proof (Rmin_capped_range _ (proj1 Hq)). lra. }
  assert (Hburst : 0 <= methodConfidence (highFreqBurstMethod 1.0 fa)
                   <= 0.63).
  { cbn [highFreqBurstMethod methodConfidence]. unfold highFreqBurstOf.
    rewrite Hen. cbn [lowEnergy midEnergy highEnergy].
    unfold FreqWeights.low, FreqWeights.mid, FreqWeights.high.
    set (burst := m * 1.0 / (m * 0.2 + m * 0.6 + 0.0001)).
    assert (Hr : 0 <= burst <= 1.25)
      by (split; [apply div_above | apply div_below]; lra).
    assert (Hq : 0 <= burst / 2.0 <= 0.63) by lra.
    pose proof (Rmin_capped_range _ (proj1 Hq)). lra. }
  assert (Hadj : adjustedConfidenceOf 1.0 skew fa
                 = 0.25 * methodConfidence (spectralFluxMethod 1.0 fa)
                   + 0.2 * methodConfidence (mouthBandTransient 1.0 fa)
                   + 0.15 * methodConfidence (highFreqBurstMethod 1.0 fa)).
  { unfold adjustedConfidenceOf. cbv zeta.
    rewrite finalConfidenceOf_weighted_sum, Hlpc, Hprot.
    cbn [amplitudeSpikeMethod methodConfidence]. rewrite Hspike. lra. }
  assert (Hfluxc : methodConfidence (spectralFluxMethod 1.0 fa)
                   = Rmin 2.0 (fl / 0.16)).
  { cbn [spectralFluxMethod methodConfidence].
    unfold adaptiveSpectralThresholdOf, Thresholds.spectralFlux. cbv zeta.
    rewrite Hflux, Hsnr, Rpower_default_sensitivity, quiet_scale by lra.
    f_equal. f_equal. lra. }
  rewrite Hthr, Hadj, Hfluxc. split.
  - intros ->. unfold Rdiv. rewrite Rmult_0_l, Rmin_right by lra.
    apply Rltb_false. lra.
  - intros Hfl.
    assert (H2 : 2.0 <= fl / 0.16) by (apply div_above; lra).
    rewrite Rmin_left by exact H2.
    split; [apply Rltb_true |]; lra.
Qed.

Lemma quietAnalyser_frameFits (a : Analyser) (p c : R) :
  quietAnalyser a p ->
  frameFits a (repeat 0 frequencyBinCount) (repeat c frequencyBinCount)
  = true.
Proof.
  intros (Hrate & Hprev & Hsize & _). unfold frameFits.
  rewrite Hprev, !repeat_length, Nat.eqb_refl, Hrate.
  apply Nat.ltb_lt in Hsize. rewrite Hsize. reflexivity.
Qed.

Lemma handleMouthClickDetected_default (st : State) (t : R) (c : jsnum)
    (fallback : option nat) :
  params st = defaultParams ->
  exists st',
    handleMouthClickDetected st t c None fallback = Returned st'.
Proof.
  intros Hp. unfold handleMouthClickDetected. cbv zeta. rewrite Hp.
  unfold wideningDuration. cbv zeta.
  cbn [clickWidening mode defaultParams String.eqb Ascii.eqb Bool.eqb].
  jseval. cbn [performCalls]. eexists. reflexivity.
Qed.

(** The analysis part of a tick of a quiet state on a silent frame under a
    flat spectrum at [c] dB. *)
Lemma quiet_tick_analysis (st : State) (p c : R) :
  quietState st p ->
  exists (t : R) (tracked : LoudnessInfo * LoudnessState)
         (analysed : FrameAnalysis * Analyser),
    updateDynamicLoudness (loudnessState st)
      (map Fin (repeat 0 frequencyBinCount)) = tracked
    /\ snr (fst tracked) = Fin 0.1
    /\ adaptiveThreshold (snd tracked) = Fin t
    /\ quietLoudness (snd tracked)
    /\ analyseFrame (analyser st) (fst tracked) 0.1 t
         (repeat 0 frequencyBinCount) (repeat c frequencyBinCount)
       = analysed
    /\ flatAnalysis (fst analysed) (Rpower 10 (c / 20)) (Rmax 0 (c - p)) t
    /\ quietAnalyser (snd analysed) c
    /\ 0.21 < t < 0.22.
Proof.
  intros (_ & _ & Han & Hl).
  destruct (updateDynamicLoudness_quiet (loudnessState st) frequencyBinCount
              Hl ltac:(unfold frequencyBinCount; lia)) as [t [EU Ht]].
  exists t. eexists. eexists. split; [exact EU |].
  cbn [fst snd snr adaptiveThreshold].
  split; [reflexivity |]. split; [reflexivity |]. split; [reflexivity |].
  split; [reflexivity |].
  pose proof (analyseFrame_flat (analyser st)
                (mkLoudness (Fin (-60)) (Fin 0.1) (Fin t)) 0.1 t p c Han)
    as H.
  cbv zeta in H.
  destruct H as (H1 & H2 & H3 & H4 & H5 & H6 & H7 & H8 & H9).
  cbn [fst snd].
  split; [| split; [exact H9 | exact Ht]].
  unfold flatAnalysis. repeat split; assumption.
Qed.

(** Without spectral flux the tick returns no click and leaves a quiet
    state, with the rate limiter as it was. *)
Lemma quiet_tick_without_flux (st : State) (env : Env) (p c : R) :
  quietState st p -> c <= p ->
  exists r st',
    detectMouthClick st env (repeat 0 frequencyBinCount)
      (repeat c frequencyBinCount) = Some (Returned (r, st'))
    /\ isClick r = false
    /\ quietState st' c /\ limiter st' = limiter st
    /\ gainTimeline st' = gainTimeline st
    /\ lpcConfidence r = 0.
Proof.
  intros Hq Hc.
  destruct (quiet_tick_analysis st p c Hq)
    as (t & tracked & analysed & EU & Esnr & Eth & Hl & EA & Hflat & Han
        & Ht).
  destruct Hq as (Hen & Hp & Hqa & _).
  unfold detectMouthClick.
  rewrite Hen, (quietAnalyser_frameFits _ p c Hqa). cbn [negb]. cbv zeta.
  rewrite EU, Esnr, Eth, Hp.
  cbn [sensitivity frequencySkew defaultParams]. rdecide. cbn [negb].
  rewrite EA.
  rewrite (Rmax_left 0 (c - p)) in Hflat by lra.
  destruct (decision_on_flat_frame (fst analysed) _ 0 t 0.0 Hflat
              (Rpower_pos _ _) Ht) as (Hlpc & Hno & _).
  rewrite (Hno eq_refl). unfold shouldProcessClick. cbn [negb fst snd].
  eexists. eexists. split; [reflexivity |].
  split; [reflexivity |].
  split; [| split; [reflexivity | split; [reflexivity | exact Hlpc]]].
  unfold quietState.
  cbn [processingEnabled params analyser loudnessState withAnalyser
       withLoudnessState].
  split; [exact Hen |]. split; [exact Hp |].
  split; [exact Han | exact Hl].
Qed.

(** With a jump of the flat spectrum by 0.32 dB or more, a free rate
    limiter and no fault in the audio graph, the tick returns a click
    although the LPC confidence of the silent window is zero. *)
Lemma quiet_tick_with_flux (st : State) (env : Env) (p c : R) :
  quietState st p -> 0.32 <= c - p ->
  clickHistory (limiter st) = [] ->
  (0 < maxClicksPerSecond (limiter st))%nat ->
  clickSuppressionTime (limiter st) <= now env ->
  minClickInterval (limiter st) <= now env - lastClickTime (limiter st) ->
  gainFault env = None ->
  exists r st',
    detectMouthClick st env (repeat 0 frequencyBinCount)
      (repeat c frequencyBinCount) = Some (Returned (r, st'))
    /\ isClick r = true /\ lpcConfidence r = 0.
Proof.
  intros Hq Hc Hhist Hmax Hsup Hgap Hfault.
  destruct (quiet_tick_analysis st p c Hq)
    as (t & tracked & analysed & EU & Esnr & Eth & Hl & EA & Hflat & Han
        & Ht).
  destruct Hq as (Hen & Hp & Hqa & _).
  unfold detectMouthClick.
  rewrite Hen, (quietAnalyser_frameFits _ p c Hqa). cbn [negb]. cbv zeta.
  rewrite EU, Esnr, Eth, Hp.
  cbn [sensitivity frequencySkew defaultParams]. rdecide. cbn [negb].
  rewrite EA.
  rewrite (Rmax_right 0 (c - p)) in Hflat by lra.
  destruct (decision_on_flat_frame (fst analysed) _ (c - p) t 0.0 Hflat
              (Rpower_pos _ _) Ht) as (Hlpc & _ & Hyes).
  destruct (Hyes Hc) as [Hdet Hconf]. rewrite Hdet.
  rewrite (shouldProcessClick_admits _ (now env) _ 1.0);
    [ | cbn [params withAnalyser withLoudnessState]; rewrite Hp; reflexivity
      | lra
      | cbn [limiter withAnalyser withLoudnessState]; exact Hsup
      | cbn [limiter withAnalyser withLoudnessState]; rewrite Hhist;
        exact Hmax
      | cbn [limiter withAnalyser withLoudnessState]; exact Hgap
      | cbn [limiter withAnalyser withLoudnessState];
        rewrite Hhist, Rpower_default_sensitivity; cbn [recent filter length
          INR]; unfold Rdiv; rewrite Rmult_0_l; lra ].
  cbn [fst snd]. rewrite Hfault.
  destruct (handleMouthClickDetected_default
              (withRateLimiter
                 (withAnalyser (withLoudnessState st (snd tracked))
                    (snd analysed))
                 (recent (now env)
                    (clickHistory
                       (limiter
                          (withAnalyser (withLoudnessState st (snd tracked))
                             (snd analysed)))) ++ [now env])
                 (now env) (now env + 50))
              (audioTime env)
              (Fin (adjustedConfidenceOf 1.0 0.0 (fst analysed)))
              (fallbackFault env) Hp) as [st4 ->].
  eexists. eexists. split; [reflexivity |].
  split; [reflexivity | exact Hlpc].
Qed.

Lemma initialState_quiet : quietState (initialState 48000 true) 0.
Proof.
  unfold quietState, quietAnalyser, quietLoudness.
  repeat split; try reflexivity.
  - vm_compute. lia.
  - left. reflexivity.
Qed.

(** C6, as the code has it.  A window shorter than twice the order, a
    window whose zeroth autocorrelation is a number below [1e-10], and so
    an all-zero window that is not empty, make [computeLPCCoefficients]
    return [order + 1] zero coefficients and the error 1.0; the empty
    window at order 0, whose zeroth autocorrelation is [0 / 0], gets the
    coefficient 1 and the error NaN.  On a frame whose analysis window is
    all zero the LPC confidence is 0 at every sensitivity, the LPC method
    does not detect and both override rules are off: the frame is a click
    exactly when the adjusted confidence of the other methods is above the
    dynamic threshold.  So an enabled instance with the default
    configuration at 48 kHz, in a quiet room, decides no click on a
    silent frame under a flat spectrum that is not above the flat spectrum
    of the frame before. *)
Theorem lpc_on_short_or_silent_window :
  (forall (signal : list R) (order : nat),
      (length signal < 2 * order)%nat ->
      computeLPCCoefficients signal order
      = {| coefficients := repeat 0 (order + 1); error := Fin 1.0 |})
  /\ (forall (signal : list R) (order : nat) (r0 : R),
        autocorrelationAt signal 0 = Fin r0 -> r0 < 1e-10 ->
        computeLPCCoefficients signal order
        = {| coefficients := repeat 0 (order + 1); error := Fin 1.0 |})
  /\ (forall (signal : list R) (order : nat),
        Forall (fun x => x = 0) signal ->
        signal <> [] \/ (0 < order)%nat ->
        computeLPCCoefficients signal order
        = {| coefficients := repeat 0 (order + 1); error := Fin 1.0 |}
        /\ length (coefficients (computeLPCCoefficients signal order))
           = (order + 1)%nat)
  /\ computeLPCCoefficients [] 0 = {| coefficients := [1]; error := NaN |}
  /\ (forall (a : Analyser) (info : LoudnessInfo) (ratio threshold : R)
             (timeData freqData : list R) (s skew : R),
        length timeData = frequencyBinCount ->
        Forall (fun x => x = 0) (analysisWindowOf timeData) ->
        let fa :=
          fst (analyseFrame a info ratio threshold timeData freqData) in
        methodConfidence (lpcOutlier s fa) = 0
        /\ methodDetected (lpcOutlier s fa) = false
        /\ isClickDetectedOf s skew fa
           = Rltb (dynamicThresholdOf s fa) (adjustedConfidenceOf s skew fa))
  /\ (forall (st : State) (env : Env) (p c : R),
        quietState st p -> c <= p ->
        exists r st',
          detectMouthClick st env (repeat 0 frequencyBinCount)
            (repeat c frequencyBinCount) = Some (Returned (r, st'))
          /\ lpcConfidence r = 0
          /\ isClick r = false).
Proof.
  split; [exact computeLPCCoefficients_short |].
  split; [exact computeLPCCoefficients_silent |].
  assert (Hzero : forall signal order,
             Forall (fun x => x = 0) signal ->
             signal <> [] \/ (0 < order)%nat ->
             computeLPCCoefficients signal order
             = {| coefficients := repeat 0 (order + 1); error := Fin 1.0 |}).
  { intros signal order H [Hne | Horder].
    - apply (computeLPCCoefficients_silent signal order
               (0 / INR (length signal - 0))).
      + apply autocorrelationAt_all_zero; [exact H |].
        destruct signal; [contradiction | cbn; lia].
      + unfold Rdiv. rewrite Rmult_0_l. lra.
    - destruct signal as [| x rest].
      + apply computeLPCCoefficients_short. cbn [length]. lia.
      + apply (computeLPCCoefficients_silent (x :: rest) order
                 (0 / INR (length (x :: rest) - 0))).
        * apply autocorrelationAt_all_zero; [exact H | cbn; lia].
        * unfold Rdiv. rewrite Rmult_0_l. lra. }
  split.
  { intros signal order H Hside. rewrite (Hzero signal order H Hside).
    split; [reflexivity | apply repeat_length]. }
  split; [exact computeLPCCoefficients_empty |].
  split.
  { intros a info ratio threshold timeData freqData s skew _ H fa.
    apply isClickDetectedOf_without_residual; unfold fa, analyseFrame;
      cbv zeta; cbn [fst residualRMS residualPeak];
      [apply errorRMSOf_all_zero | apply errorPeakOf_all_zero];
      intros i; unfold predictionErrorOf; cbv zeta;
      apply nth_computePredictionError_all_zero; exact H. }
  intros st env p c Hq Hc.
  destruct (quiet_tick_without_flux st env p c Hq Hc)
    as (r & st' & E & Hno & _ & _ & _ & Hlpc).
  exists r, st'. split; [exact E |]. split; [exact Hlpc | exact Hno].
Qed.

Lemma lpc_on_short_or_silent_window_witness :
  computeLPCCoefficients [0.5; 0.2; -0.1] 16%nat
  = {| coefficients := repeat 0 (16 + 1)%nat; error := Fin 1.0 |}
  /\ computeLPCCoefficients (repeat 0 1024%nat) 16%nat
     = {| coefficients := repeat 0 (16 + 1)%nat; error := Fin 1.0 |}
  /\ exists r st',
       detectMouthClick (initialState 48000 true) (mkEnv 1000 1 None None)
         (repeat 0 frequencyBinCount) (repeat (-100) frequencyBinCount)
       = Some (Returned (r, st'))
       /\ lpcConfidence r = 0
       /\ isClick r = false.
Proof.
  split; [| split].
  - apply (proj1 lpc_on_short_or_silent_window [0.5; 0.2; -0.1] 16%nat).
    cbn. lia.
  - apply (proj1 (proj2 (proj2 lpc_on_short_or_silent_window))
             (repeat 0 1024%nat) 16%nat).
    + apply Forall_repeat_zero.
    + right. lia.
  - apply (proj2 (proj2 (proj2 (proj2 (proj2
                    lpc_on_short_or_silent_window))))
             (initialState 48000 true) (mkEnv 1000 1 None None) 0 (-100)
             initialState_quiet).
    lra.
Defined.

(** C6 as stated fails in its last part.  A fresh instance at 48 kHz
    receives a silent frame under a flat spectrum at -100 dB, then a
    silent frame under a flat spectrum at -20 dB: the analysis window of
    the second frame is all zero, its LPC confidence is 0, and a click is
    decided. *)
Lemma silent_window_click_decided :
  exists r1 st1 r2 st2,
    detectMouthClick (initialState 48000 true) (mkEnv 1000 1 None None)
      (repeat 0 frequencyBinCount) (repeat (-100) frequencyBinCount)
    = Some (Returned (r1, st1))
    /\ isClick r1 = false
    /\ Forall (fun x => x = 0)
         (analysisWindowOf (repeat 0 frequencyBinCount))
    /\ detectMouthClick st1 (mkEnv 1050 1.05 None None)
         (repeat 0 frequencyBinCount) (repeat (-20) frequencyBinCount)
       = Some (Returned (r2, st2))
    /\ lpcConfidence r2 = 0
    /\ isClick r2 = true.
Proof.
  destruct (quiet_tick_without_flux (initialState 48000 true)
              (mkEnv 1000 1 None None) 0 (-100) initialState_quiet
              ltac:(lra))
    as (r1 & st1 & E1 & Hno & Hq1 & Hlim & _).
  destruct (quiet_tick_with_flux st1 (mkEnv 1050 1.05 None None) (-100)
              (-20) Hq1) as (r2 & st2 & E2 & Hyes & Hlpc);
    try (rewrite Hlim; cbn [limiter initialState clickHistory
           maxClicksPerSecond clickSuppressionTime minClickInterval
           lastClickTime now]);
    try reflexivity; try lra; try lia.
  exists r1, st1, r2, st2.
  split; [exact E1 |]. split; [exact Hno |].
  split; [unfold analysisWindowOf; apply Forall_skipn_zero,
            Forall_repeat_zero |].
  split; [exact E2 |]. split; [exact Hlpc | exact Hyes].
Qed.


(** * Further properties *)

(** ** The configuration interface, continued *)

Lemma Math_max_finite (a b : R) : Math_max (Fin a) (Fin b) = Fin (Rmax a b).
Proof.
  cbn [Math_max JS.lt]. destruct (Rlt_dec a b).
  - rewrite (Rltb_true a b) by lra. rewrite Rmax_right by lra. reflexivity.
  - rewrite (Rltb_false a b) by lra. rewrite Rmax_left by lra. reflexivity.
Qed.

Lemma Math_min_finite (a b : R) : Math_min (Fin a) (Fin b) = Fin (Rmin a b).
Proof.
  cbn [Math_min JS.lt]. destruct (Rlt_dec b a).
  - rewrite (Rltb_true b a) by lra. rewrite Rmin_right by lra. reflexivity.
  - rewrite (Rltb_false b a) by lra. rewrite Rmin_left by lra. reflexivity.
Qed.

Lemma setMode_keeps_valid_configuration (p : DetectionParameters)
    (m : string) :
  validConfiguration p -> validConfiguration (setMode p m).
Proof.
  intros (s & k & w & r & Hs & Hsr & Hk & Hkr & Hw & Hwr & Hr & Hrr).
  unfold setMode.
  destruct (String.eqb m "click" || String.eqb m "smack")%bool;
    [| exists s, k, w, r; repeat split; tauto || lra ].
  destruct (String.eqb m "smack").
  - cbn [withMode withClickWidening withFrequencySkew clickWidening
         frequencySkew].
    rewrite Hw, Hk.
    rewrite sub_finite, !Math_max_finite.
    exists s, (Rmax (-0.3) (k + - (0.2))), (Rmax w 8), r.
    cbn [sensitivity frequencySkew clickWidening reductionAmount].
    split; [exact Hs |]. split; [exact Hsr |].
    split; [reflexivity |].
    split; [split; [eapply Rle_trans; [| apply Rmax_l]; lra
                   | apply Rmax_lub; lra] |].
    split; [reflexivity |].
    split; [split; [eapply Rle_trans; [| apply Rmax_r]; lra
                   | apply Rmax_lub; lra] |].
    split; [exact Hr | exact Hrr].
  - exists s, k, w, r. cbn [withMode sensitivity frequencySkew clickWidening
                            reductionAmount].
    repeat split; tauto || lra.
Qed.

(** X1.  A parameter message of the popup keeps a valid configuration
    valid: the four numeric messages store a value of the documented range
    for every number they carry, infinities included, unless it is NaN,
    and a mode message keeps the numeric tunables in range. *)
Theorem parameter_messages_keep_valid_configuration
    (p : DetectionParameters) (message : Message) :
  validConfiguration p ->
  messageNumber message <> Some NaN ->
  validConfiguration (onMessage p message).
Proof.
  intros Hp Hn.
  destruct message as [v | v | v | v | m]; cbn [onMessage];
    try (assert (Hv : v <> NaN)
           by (intros ->; apply Hn; reflexivity);
         destruct (setters_clamp p v Hv)
           as ((c1 & E1 & B1) & (c2 & E2 & B2) & (c3 & E3 & B3)
               & (c4 & E4 & B4));
         destruct Hp as (s & k & w & r & Hs & Hsr & Hk & Hkr & Hw & Hwr
                         & Hr & Hrr)).
  - rewrite E1. exists c1, k, w, r.
    cbn [withSensitivity sensitivity frequencySkew clickWidening
         reductionAmount].
    repeat split; tauto || lra.
  - rewrite E2. exists s, c2, w, r.
    cbn [withFrequencySkew sensitivity frequencySkew clickWidening
         reductionAmount].
    repeat split; tauto || lra.
  - rewrite E3. exists s, k, c3, r.
    cbn [withClickWidening sensitivity frequencySkew clickWidening
         reductionAmount].
    repeat split; tauto || lra.
  - rewrite E4. exists s, k, w, c4.
    cbn [withReductionAmount sensitivity frequencySkew clickWidening
         reductionAmount].
    repeat split; tauto || lra.
  - apply setMode_keeps_valid_configuration. exact Hp.
Qed.

Lemma defaultParams_valid : validConfiguration defaultParams.
Proof.
  exists 1.0, 0.0, 5.0, (-60).
  cbn [defaultParams sensitivity frequencySkew clickWidening reductionAmount].
  repeat split; reflexivity || lra.
Qed.

Lemma parameter_messages_keep_valid_configuration_witness :
  validConfiguration (onMessage defaultParams (updateSensitivity PInf)).
Proof.
  apply (parameter_messages_keep_valid_configuration defaultParams
           (updateSensitivity PInf) defaultParams_valid).
  cbn. discriminate.
Defined.


Lemma setMode_smack (p : DetectionParameters) :
  setMode p "smack"
  = withFrequencySkew
      (withClickWidening (withMode p "smack")
         (Math_max (clickWidening p) (Fin 8)))
      (Math_max (Fin (-0.3)) (frequencySkew p - Fin 0.2)%js).
Proof. reflexivity. Qed.

Lemma setMode_click (p : DetectionParameters) :
  setMode p "click" = withMode p "click".
Proof. reflexivity. Qed.

Lemma wideningDuration_finite (p : DetectionParameters) (w : R) :
  clickWidening p = Fin w ->
  wideningDuration p
  = Fin (w / 1000
         * (if String.eqb (mode p) "smack" then 1.5 else 1.0)).
Proof.
  intros H. unfold wideningDuration. rewrite H. jseval. reflexivity.
Qed.

(** X2.  With a valid configuration the repair is widened by the stored
    click widening in milliseconds, times 1.5 in 'smack' mode: by 1 to
    20 ms outside 'smack' mode and by 1.5 to 30 ms in it.  Right after
    [setMode('smack')] the widening is at least 12 ms, since [setMode]
    raises a stored widening below 8 ms to 8 ms, but a later
    [setClickWidening(1)] brings it down to 1.5 ms with the mode still
    'smack'.  Switching to 'smack' and back to 'click' does not restore
    the tunables: the widening stays at the larger of its old value and
    8 ms and the skew at the larger of -0.3 and its old value less 0.2. *)
Theorem widening_duration_by_mode (p : DetectionParameters) :
  validConfiguration p ->
  (exists w d : R,
      clickWidening p = Fin w /\ wideningDuration p = Fin d
      /\ (mode p = "smack"%string ->
          d = w / 1000 * 1.5 /\ 0.0015 <= d <= 0.03)
      /\ (mode p <> "smack"%string ->
          d = w / 1000 /\ 0.001 <= d <= 0.02))
  /\ (exists d : R,
        wideningDuration (setMode p "click") = Fin d
        /\ 0.001 <= d <= 0.02)
  /\ (exists d : R,
        wideningDuration (setMode p "smack") = Fin d
        /\ 0.012 <= d <= 0.03)
  /\ (let lowered := setClickWidening (setMode p "smack") (Fin 1) in
      mode lowered = "smack"%string
      /\ wideningDuration lowered = Fin (1 / 1000 * 1.5))
  /\ exists w k : R,
       clickWidening p = Fin w /\ frequencySkew p = Fin k
       /\ let back := setMode (setMode p "smack") "click" in
          mode back = "click"%string
          /\ clickWidening back = Fin (Rmax w 8)
          /\ frequencySkew back = Fin (Rmax (-0.3) (k - 0.2))
          /\ (w < 8 -> back <> p).
Proof.
  intros (s & k & w & r & Hs & Hsr & Hk & Hkr & Hw & Hwr & Hr & Hrr).
  split; [| split; [| split; [| split]]].
  - exists w. eexists. split; [exact Hw |].
    split; [apply (wideningDuration_finite p w Hw) |].
    split.
    + intros ->. change (String.eqb "smack" "smack") with true.
      split; [reflexivity | lra].
    + intros Hmode.
      destruct (String.eqb_spec (mode p) "smack") as [E | _];
        [contradiction |].
      split; lra.
  - rewrite setMode_click.
    rewrite (wideningDuration_finite (withMode p "click") w Hw).
    cbn [withMode mode]. change (String.eqb "click" "smack") with false.
    eexists. split; [reflexivity | lra].
  - rewrite setMode_smack.
    rewrite (wideningDuration_finite _ (Rmax w 8))
      by (cbn [withFrequencySkew withClickWidening clickWidening];
          rewrite Hw; apply Math_max_finite).
    cbn [withFrequencySkew withClickWidening withMode mode].
    change (String.eqb "smack" "smack") with true.
    eexists. split; [reflexivity |].
    assert (8 <= Rmax w 8 <= 20)
      by (split; [apply Rmax_r | apply Rmax_lub; lra]).
    lra.
  - cbv zeta. rewrite setMode_smack. unfold setClickWidening, clamp.
    rewrite Math_min_finite, Math_max_finite.
    rewrite (Rmin_right 20 1), (Rmax_left 1 1) by lra.
    split; [reflexivity |].
    rewrite (wideningDuration_finite _ 1) by reflexivity.
    cbn [withFrequencySkew withClickWidening withMode mode].
    change (String.eqb "smack" "smack") with true. reflexivity.
  - exists w, k. split; [exact Hw |]. split; [exact Hk |]. cbv zeta.
    rewrite setMode_click, setMode_smack.
    cbn [withMode withFrequencySkew withClickWidening mode clickWidening
         frequencySkew].
    rewrite Hw, Hk, sub_finite, !Math_max_finite.
    split; [reflexivity |]. split; [reflexivity |]. split; [reflexivity |].
    intros Hlt E.
    apply (f_equal clickWidening) in E. cbn [clickWidening] in E.
    rewrite Hw in E. injection E as E.
    rewrite Rmax_right in E by lra. lra.
Qed.

Lemma widening_duration_by_mode_witness :
  (exists d : R,
      wideningDuration (setMode defaultParams "smack") = Fin d
      /\ 0.012 <= d <= 0.03)
  /\ (let lowered :=
        setClickWidening (setMode defaultParams "smack") (Fin 1) in
      mode lowered = "smack"%string
      /\ wideningDuration lowered = Fin (1 / 1000 * 1.5)).
Proof.
  destruct (widening_duration_by_mode defaultParams defaultParams_valid)
    as (_ & _ & Hsmack & Hlowered & _).
  split; [exact Hsmack | exact Hlowered].
Defined.


(** ** The gain repair scheduler, continued *)

Lemma performCalls_complete (calls done : list GainEvent)
    (fault : option nat) :
  performCalls calls fault = (done, false) -> done = calls.
Proof.
  unfold performCalls. destruct fault as [k |].
  - destruct (k <? length calls)%nat; intros E; inversion E; reflexivity.
  - intros E; inversion E; reflexivity.
Qed.

Lemma smoothGainRamp_ends_at_full_gain (t wd rf : jsnum) :
  exists calls time,
    smoothGainRamp t wd rf
    = calls ++ [linearRampToValueAtTime (Fin 1.0) time].
Proof.
  unfold smoothGainRamp. cbv zeta.
  eexists [_; _; _; _; _; _]. eexists. reflexivity.
Qed.

Lemma fallbackGainRamp_ends_at_full_gain (t : jsnum) :
  exists calls time,
    fallbackGainRamp t = calls ++ [linearRampToValueAtTime (Fin 1.0) time].
Proof.
  unfold fallbackGainRamp. eexists [_; _]. eexists. reflexivity.
Qed.

(** X3.  However a repair ends, it touches only the click counter and the
    gain timeline.  When [handleMouthClickDetected] returns, the counter
    has gone up by one and the last automation call placed is a linear
    ramp back to gain 1.0, after the smooth ramp as after the fallback;
    when it throws, the counter is as it was. *)
Theorem repair_ends_at_full_gain (st : State) (currentTime : R)
    (confidence : jsnum) (fault fallbackFault : option nat) :
  match handleMouthClickDetected st currentTime confidence fault
          fallbackFault with
  | Returned st' =>
      clickCount st' = S (clickCount st)
      /\ (exists calls time,
             gainTimeline st'
             = gainTimeline st
               ++ calls ++ [linearRampToValueAtTime (Fin 1.0) time])
      /\ params st' = params st /\ limiter st' = limiter st
      /\ analyser st' = analyser st
      /\ loudnessState st' = loudnessState st
      /\ processingEnabled st' = processingEnabled st
  | Thrown st' =>
      clickCount st' = clickCount st
      /\ params st' = params st /\ limiter st' = limiter st
      /\ analyser st' = analyser st
      /\ loudnessState st' = loudnessState st
      /\ processingEnabled st' = processingEnabled st
  end.
Proof.
  unfold handleMouthClickDetected. cbv zeta.
  destruct (negb (isFinite (wideningDuration (params st)))
            || (wideningDuration (params st) <=? Fin 0)%js)%bool.
  { repeat split; reflexivity. }
  destruct (performCalls (smoothGainRamp _ _ _) fault) as [done threw] eqn:E1.
  destruct threw.
  - destruct (performCalls (fallbackGainRamp _) fallbackFault)
      as [done' threw'] eqn:E2.
    destruct threw'.
    + cbn [withGain clickCount params limiter analyser loudnessState
           processingEnabled].
      repeat split; reflexivity.
    + apply performCalls_complete in E2. subst done'.
      destruct (fallbackGainRamp_ends_at_full_gain
                  (Fin currentTime + Fin lookAheadDelay)%js)
        as (calls & time & E).
      cbn [withGain clickCount gainTimeline params limiter analyser
           loudnessState processingEnabled].
      split; [reflexivity |].
      split; [| repeat split; reflexivity].
      exists (done ++ calls), time. rewrite E, <- !app_assoc. reflexivity.
  - apply performCalls_complete in E1. subst done.
    destruct (smoothGainRamp_ends_at_full_gain
                (Fin currentTime + Fin lookAheadDelay)%js
                (wideningDuration (params st))
                (resolveReductionFactor (reductionAmount (params st))))
      as (calls & time & E).
    cbn [withGain clickCount gainTimeline params limiter analyser
         loudnessState processingEnabled].
    split; [reflexivity |].
    split; [| repeat split; reflexivity].
    exists calls, time. rewrite E. reflexivity.
Qed.

Lemma wideningDuration_in_range (p : DetectionParameters) :
  validConfiguration p ->
  exists d, wideningDuration p = Fin d /\ 0.001 <= d <= 0.03.
Proof.
  intros (s & k & w & r & _ & _ & _ & _ & Hw & Hwr & _).
  rewrite (wideningDuration_finite p w Hw).
  destruct (String.eqb (mode p) "smack"); eexists;
    (split; [reflexivity | lra]).
Qed.

(** X4.  With a valid configuration and an audio graph that accepts the
    calls, a repair at audio time [currentTime] places, after the
    cancellation, six automation points in strictly increasing time order
    around the look-ahead point [currentTime + 0.12]: full gain before it,
    the reduced gain (never below 0.1) at it and until the widening has
    passed, then 0.6, 0.85 and 1.0.  Every call lies after [currentTime],
    and the gain is back at 1.0 no later than 75 ms after the look-ahead
    point. *)
Theorem repair_schedule_ordered (st : State) (currentTime : R)
    (confidence : jsnum) (fallbackFault : option nat) :
  validConfiguration (params st) ->
  let lookAhead := currentTime + lookAheadDelay in
  exists (st' : State) (g tc t1 t3 t4 t5 t6 : R),
    handleMouthClickDetected st currentTime confidence None fallbackFault
    = Returned st'
    /\ gainTimeline st'
       = gainTimeline st
         ++ [ cancelScheduledValues (Fin tc);
              setValueAtTime (Fin 1.0) (Fin t1);
              linearRampToValueAtTime (Fin g) (Fin lookAhead);
              setValueAtTime (Fin g) (Fin t3);
              linearRampToValueAtTime (Fin 0.6) (Fin t4);
              linearRampToValueAtTime (Fin 0.85) (Fin t5);
              linearRampToValueAtTime (Fin 1.0) (Fin t6) ]
    /\ currentTime < tc
    /\ currentTime < t1 /\ t1 < lookAhead /\ lookAhead < t3 /\ t3 < t4
    /\ t4 < t5 /\ t5 < t6 /\ t6 <= lookAhead + 0.075
    /\ 0.1 <= g <= 1.
Proof.
  intros Hvalid lookAhead.
  destruct (wideningDuration_in_range _ Hvalid) as [d [Ed Hd]].
  destruct Hvalid as (s & k & w & r & _ & _ & _ & _ & _ & _ & Er & Hr).
  destruct (resolve_in_unit_interval r Hr) as [v [Ev Hv]].
  unfold handleMouthClickDetected. rewrite Ed, Er, Ev. jseval.
  cbn [performCalls]. unfold smoothGainRamp. cbv zeta.
  cbn [JS.mul]. rewrite !Math_max_finite.
  cbn [JS.mul JS.add JS.sub JS.neg].
  do 8 eexists. split; [reflexivity |].
  cbn [withGain gainTimeline].
  split; [reflexivity |].
  unfold lookAhead, lookAheadDelay.
  assert (H1 : 0.01 <= Rmax 0.01 (d * 0.5) <= 0.015)
    by (split; [apply Rmax_l | apply Rmax_lub; lra]).
  assert (H2 : 0.02 <= Rmax 0.02 (d * 1.5) <= 0.045)
    by (split; [apply Rmax_l | apply Rmax_lub; lra]).
  assert (H3 : 0.1 <= Rmax 0.1 v <= 1)
    by (split; [apply Rmax_l | apply Rmax_lub; lra]).
  repeat split; lra.
Qed.

Lemma repair_schedule_ordered_witness :
  let lookAhead := 1 + lookAheadDelay in
  exists (st' : State) (g tc t1 t3 t4 t5 t6 : R),
    handleMouthClickDetected (initialState 48000 true) 1 (Fin 0.7) None None
    = Returned st'
    /\ gainTimeline st'
       = gainTimeline (initialState 48000 true)
         ++ [ cancelScheduledValues (Fin tc);
              setValueAtTime (Fin 1.0) (Fin t1);
              linearRampToValueAtTime (Fin g) (Fin lookAhead);
              setValueAtTime (Fin g) (Fin t3);
              linearRampToValueAtTime (Fin 0.6) (Fin t4);
              linearRampToValueAtTime (Fin 0.85) (Fin t5);
              linearRampToValueAtTime (Fin 1.0) (Fin t6) ]
    /\ 1 < tc
    /\ 1 < t1 /\ t1 < lookAhead /\ lookAhead < t3 /\ t3 < t4
    /\ t4 < t5 /\ t5 < t6 /\ t6 <= lookAhead + 0.075
    /\ 0.1 <= g <= 1.
Proof.
  apply (repair_schedule_ordered (initialState 48000 true) 1 (Fin 0.7) None).
  exists 1.0, 0.0, 5.0, (-60). cbn.
  repeat split; try reflexivity; lra.
Defined.


(** ** One tick, step by step *)

(** An enabled tick on fitting frames with a finite positive sensitivity
    and a finite skew is inside the model; its outcome is the decision of
    the rate limiter on the analysed frame, followed by the repair. *)
Lemma detectMouthClick_enabled (st : State) (env : Env)
    (timeData freqData : list R) (s skew : R) :
  processingEnabled st = true ->
  frameFits (analyser st) timeData freqData = true ->
  sensitivity (params st) = Fin s -> 0 < s ->
  frequencySkew (params st) = Fin skew ->
  exists (ratio threshold : R),
    let tracked :=
      updateDynamicLoudness (loudnessState st) (map Fin timeData) in
    let analysed :=
      analyseFrame (analyser st) (fst tracked) ratio threshold timeData
        freqData in
    let fa := fst analysed in
    let limited :=
      shouldProcessClick
        (withAnalyser (withLoudnessState st (snd tracked)) (snd analysed))
        (now env) (isClickDetectedOf s skew fa)
        (Fin (adjustedConfidenceOf s skew fa)) in
    snr (fst tracked) = Fin ratio
    /\ adaptiveThreshold (snd tracked) = Fin threshold
    /\ 0.1 <= ratio <= 60 /\ 0.1 <= threshold <= 1
    /\ detectMouthClick st env timeData freqData
       = if fst limited then
           match handleMouthClickDetected (snd limited) (audioTime env)
                   (Fin (adjustedConfidenceOf s skew fa)) (gainFault env)
                   (fallbackFault env) with
           | Returned st4 => Some (Returned (resultOf s skew fa true, st4))
           | Thrown st4 => Some (Thrown st4)
           end
         else Some (Returned (resultOf s skew fa false, snd limited)).
Proof.
  intros Hen Hfit Es Hs Ek.
  destruct (updateDynamicLoudness_finite (loudnessState st)
              (map Fin timeData))
    as (l & ratio & a & Einfo & _ & Hr & Ha & _ & Ea).
  exists ratio, a. cbv zeta.
  split; [rewrite Einfo; reflexivity |].
  split; [exact Ea |]. split; [exact Hr |]. split; [exact Ha |].
  unfold detectMouthClick.
  rewrite Hen, Hfit. cbn [negb]. cbv zeta.
  rewrite Es, Ek, Ea.
  replace (snr (fst (updateDynamicLoudness (loudnessState st)
                       (map Fin timeData)))) with (Fin ratio)
    by (rewrite Einfo; reflexivity).
  rewrite (Rltb_true 0 s Hs). cbn [negb].
  destruct (shouldProcessClick _ (now env) _ _) as [ok st3].
  cbn [fst snd]. destruct ok; reflexivity.
Qed.

(** The rate limiter touches nothing but its own fields. *)
Lemma shouldProcessClick_frame (st : State) (t : R) (d : bool) (c : jsnum) :
  let st' := snd (shouldProcessClick st t d c) in
  params st' = params st /\ gainTimeline st' = gainTimeline st
  /\ clickCount st' = clickCount st
  /\ processingEnabled st' = processingEnabled st
  /\ analyser st' = analyser st /\ loudnessState st' = loudnessState st.
Proof.
  cbv zeta.
  destruct (shouldProcessClick_cases st t d c) as [[_ [E | E]] | [_ [E _]]];
    rewrite E; repeat split; reflexivity.
Qed.

Lemma handleMouthClickDetected_rejected (st : State) (currentTime : R)
    (confidence : jsnum) (fault fallbackFault : option nat) :
  wideningRejected (params st) ->
  handleMouthClickDetected st currentTime confidence fault fallbackFault
  = Thrown st.
Proof.
  intros H. unfold handleMouthClickDetected. cbv zeta.
  unfold wideningRejected in H. rewrite H. reflexivity.
Qed.

(** A repair touches only the click counter and the gain timeline. *)
Lemma handleMouthClickDetected_frame (st : State) (currentTime : R)
    (confidence : jsnum) (fault fallbackFault : option nat) :
  let st' :=
    stateAfter
      (handleMouthClickDetected st currentTime confidence fault
         fallbackFault) in
  params st' = params st /\ limiter st' = limiter st
  /\ analyser st' = analyser st /\ loudnessState st' = loudnessState st
  /\ processingEnabled st' = processingEnabled st.
Proof.
  cbv zeta. unfold handleMouthClickDetected. cbv zeta.
  destruct (negb (isFinite (wideningDuration (params st)))
            || (wideningDuration (params st) <=? Fin 0)%js)%bool.
  { repeat split; reflexivity. }
  destruct (performCalls (smoothGainRamp _ _ _) fault) as [done threw].
  destruct threw.
  - destruct (performCalls (fallbackGainRamp _) fallbackFault)
      as [done' threw'].
    destruct threw'; repeat split; reflexivity.
  - repeat split; reflexivity.
Qed.

(** The state a tick leaves, whatever its outcome. *)
Lemma detectMouthClick_keeps_configuration (st : State) (env : Env)
    (timeData freqData : list R) :
  match detectMouthClick st env timeData freqData with
  | Some o =>
      let st' :=
        match o with Returned (_, st') => st' | Thrown st' => st' end in
      params st' = params st /\ processingEnabled st' = processingEnabled st
  | None => True
  end.
Proof.
  unfold detectMouthClick.
  destruct (processingEnabled st) eqn:Hen; cbn [negb];
    [| split; [reflexivity | exact Hen]].
  destruct (frameFits (analyser st) timeData freqData); cbn [negb];
    [| exact I].
  cbv zeta.
  generalize (updateDynamicLoudness (loudnessState st) (map Fin timeData)).
  intros tracked.
  destruct (sensitivity (params st)) as [s | | |]; try exact I.
  destruct (frequencySkew (params st)) as [skew | | |]; try exact I.
  destruct (snr (fst tracked)) as [ratio | | |]; try exact I.
  destruct (adaptiveThreshold (snd tracked)) as [threshold | | |];
    try exact I.
  destruct (Rltb 0 s); cbn [negb]; [| exact I].
  generalize (analyseFrame (analyser st) (fst tracked) ratio threshold
                timeData freqData).
  intros analysed.
  generalize (adjustedConfidenceOf s skew (fst analysed)),
             (isClickDetectedOf s skew (fst analysed)),
             (finalConfidenceOf s skew (fst analysed)),
             (methodConfidence (lpcOutlier s (fst analysed))),
             (detailsOf s skew (fst analysed)).
  intros c d f l dt.
  pose proof (shouldProcessClick_frame
                (withAnalyser (withLoudnessState st (snd tracked))
                   (snd analysed)) (now env) d (Fin c)) as Hf.
  cbv zeta in Hf.
  destruct (shouldProcessClick _ (now env) d (Fin c)) as [ok st3].
  cbn [fst snd] in Hf |- *.
  destruct Hf as (Hp & _ & _ & He & _).
  cbn [params processingEnabled withAnalyser withLoudnessState] in Hp, He.
  destruct ok.
  - pose proof (handleMouthClickDetected_frame st3 (audioTime env) (Fin c)
                  (gainFault env) (fallbackFault env)) as Hr.
    cbv zeta in Hr.
    destruct (handleMouthClickDetected st3 (audioTime env) (Fin c)
                (gainFault env) (fallbackFault env)) as [st4 | st4];
      cbn [stateAfter] in Hr; destruct Hr as (Hp4 & _ & _ & _ & He4);
      split; congruence.
  - split; congruence.
Qed.

(** A repair with an accepted widening, on an audio graph that takes the
    calls, returns. *)
Lemma handleMouthClickDetected_accepted (st : State) (t : R) (c : jsnum)
    (fallback : option nat) :
  ~ wideningRejected (params st) ->
  exists st',
    handleMouthClickDetected st t c None fallback = Returned st'.
Proof.
  intros Hacc. unfold handleMouthClickDetected. cbv zeta.
  unfold wideningRejected in Hacc.
  destruct (negb (isFinite (wideningDuration (params st)))
            || (wideningDuration (params st) <=? Fin 0)%js)%bool;
    [contradiction Hacc; reflexivity |].
  cbn [performCalls]. eexists. reflexivity.
Qed.

(** An enabled tick on fitting frames, with a finite positive sensitivity,
    a finite skew, an accepted widening and an audio graph that takes the
    calls, returns a result. *)
Lemma detectMouthClick_total (st : State) (env : Env)
    (timeData freqData : list R) (s skew : R) :
  processingEnabled st = true ->
  frameFits (analyser st) timeData freqData = true ->
  sensitivity (params st) = Fin s -> 0 < s ->
  frequencySkew (params st) = Fin skew ->
  ~ wideningRejected (params st) ->
  gainFault env = None ->
  exists r st',
    detectMouthClick st env timeData freqData = Some (Returned (r, st')).
Proof.
  intros Hen Hfit Es Hs Ek Hacc Hfault.
  destruct (detectMouthClick_enabled st env timeData freqData s skew Hen Hfit
              Es Hs Ek) as (ratio & threshold & _ & _ & _ & _ & E).
  cbv zeta in E. rewrite E. clear E.
  generalize (updateDynamicLoudness (loudnessState st) (map Fin timeData)).
  intros tracked.
  generalize (analyseFrame (analyser st) (fst tracked) ratio threshold
                timeData freqData).
  intros analysed.
  generalize (resultOf s skew (fst analysed) true),
             (resultOf s skew (fst analysed) false),
             (adjustedConfidenceOf s skew (fst analysed)),
             (isClickDetectedOf s skew (fst analysed)).
  intros rt rf c d.
  pose proof (shouldProcessClick_frame
                (withAnalyser (withLoudnessState st (snd tracked))
                   (snd analysed)) (now env) d (Fin c)) as Hf.
  cbv zeta in Hf.
  destruct (shouldProcessClick _ (now env) d (Fin c)) as [ok st3].
  cbn [fst snd] in Hf |- *. destruct Hf as (Hp & _).
  cbn [params withAnalyser withLoudnessState] in Hp.
  destruct ok; [| eexists; eexists; reflexivity].
  rewrite Hfault.
  destruct (handleMouthClickDetected_accepted st3 (audioTime env) (Fin c)
              (fallbackFault env)) as [st4 ->];
    [rewrite Hp; exact Hacc |].
  eexists. eexists. reflexivity.
Qed.


(** ** A click widening that the scheduler rejects *)

Lemma shouldProcessClick_withParams (st : State) (p : DetectionParameters)
    (t : R) (d : bool) (c : jsnum) :
  sensitivity p = sensitivity (params st) ->
  shouldProcessClick (withParams st p) t d c
  = (fst (shouldProcessClick st t d c),
     withParams (snd (shouldProcessClick st t d c)) p).
Proof.
  intros Hs. unfold shouldProcessClick.
  destruct d; cbn [negb]; [| reflexivity].
  cbv zeta. cbn [limiter params withParams]. rewrite Hs.
  destruct (Rltb t (clickSuppressionTime (limiter st))); [reflexivity |].
  destruct (maxClicksPerSecond (limiter st)
            <=? length (recent t (clickHistory (limiter st))))%nat;
    [reflexivity |].
  destruct (Rltb (t - lastClickTime (limiter st))
              (minClickInterval (limiter st))); [reflexivity |].
  destruct (c <? requiredConfidence _ _ _)%js; reflexivity.
Qed.

Lemma detectMouthClick_inside (st st' : State) (env : Env)
    (timeData freqData : list R) (r : DetectionResult) :
  detectMouthClick st env timeData freqData = Some (Returned (r, st')) ->
  isClick r = true ->
  processingEnabled st = true
  /\ frameFits (analyser st) timeData freqData = true.
Proof.
  intros H Hc. unfold detectMouthClick in H.
  destruct (processingEnabled st); cbn [negb] in H.
  - destruct (frameFits (analyser st) timeData freqData); cbn [negb] in H;
      [split; reflexivity | discriminate].
  - injection H as <- _. discriminate.
Qed.

(** X5.  A frame that is reported as a click under one configuration makes
    [detectMouthClick] throw under a configuration that differs by a
    rejected click widening (zero, negative or not finite): the rate
    limiter has recorded the click as before, but no automation call is
    made and the click counter stays. *)
Theorem rejected_widening_loses_the_click (st st1 : State) (env : Env)
    (timeData freqData : list R) (p : DetectionParameters)
    (r : DetectionResult) :
  wideningRejected p ->
  sensitivity p = sensitivity (params st) ->
  frequencySkew p = frequencySkew (params st) ->
  detectMouthClick st env timeData freqData = Some (Returned (r, st1)) ->
  isClick r = true ->
  exists st2,
    detectMouthClick (withParams st p) env timeData freqData
    = Some (Thrown st2)
    /\ limiter st2 = limiter st1
    /\ lastClickTime (limiter st2) = now env
    /\ gainTimeline st2 = gainTimeline st
    /\ clickCount st2 = clickCount st.
Proof.
  intros Hrej Hs Hk H Hclick.
  destruct (detectMouthClick_inside _ _ _ _ _ _ H Hclick) as [Hen Hfit].
  destruct (detectMouthClick_returned _ _ _ _ _ _ Hen H)
    as (s & skew & ratio0 & threshold0 & Es & Hpos & Ek & _).
  destruct (detectMouthClick_enabled st env timeData freqData s skew Hen Hfit
              Es Hpos Ek)
    as (ratio & threshold & Er & Et & _ & _ & E).
  destruct (detectMouthClick_enabled (withParams st p) env timeData freqData
              s skew Hen Hfit
              (eq_trans Hs Es) Hpos (eq_trans Hk Ek))
    as (ratio' & threshold' & Er' & Et' & _ & _ & E').
  cbv zeta in Er, Et, E, Er', Et', E'.
  cbn [loudnessState analyser withParams] in Er', Et', E'.
  rewrite Er in Er'. injection Er' as <-.
  rewrite Et in Et'. injection Et' as <-.
  rewrite E'. rewrite E in H. clear E E'.
  revert H.
  generalize (updateDynamicLoudness (loudnessState st) (map Fin timeData)).
  intros tracked.
  generalize (analyseFrame (analyser st) (fst tracked) ratio threshold
                timeData freqData).
  intros analysed.
  change (withAnalyser (withLoudnessState (withParams st p) (snd tracked))
            (snd analysed))
    with (withParams
            (withAnalyser (withLoudnessState st (snd tracked))
               (snd analysed)) p).
  rewrite shouldProcessClick_withParams
    by (cbn [params withAnalyser withLoudnessState]; exact Hs).
  cbn [fst snd].
  pose proof (shouldProcessClick_cases
                (withAnalyser (withLoudnessState st (snd tracked))
                   (snd analysed)) (now env)
                (isClickDetectedOf s skew (fst analysed))
                (Fin (adjustedConfidenceOf s skew (fst analysed)))) as Hcases.
  pose proof (shouldProcessClick_frame
                (withAnalyser (withLoudnessState st (snd tracked))
                   (snd analysed)) (now env)
                (isClickDetectedOf s skew (fst analysed))
                (Fin (adjustedConfidenceOf s skew (fst analysed)))) as Hf.
  cbv zeta in Hcases, Hf.
  destruct (shouldProcessClick _ (now env) _ _) as [ok st3].
  cbn [fst snd] in Hcases, Hf |- *.
  destruct ok.
  - destruct Hcases as [[Hno _] | (_ & E3 & _)]; [discriminate |].
    destruct Hf as (_ & Hg & Hc & _).
    cbn [gainTimeline clickCount withAnalyser withLoudnessState] in Hg, Hc.
    pose proof (handleMouthClickDetected_frame st3 (audioTime env)
                  (Fin (adjustedConfidenceOf s skew (fst analysed)))
                  (gainFault env) (fallbackFault env)) as Hr.
    cbv zeta in Hr.
    destruct (handleMouthClickDetected st3 _ _ _ _) as [st4 | st4];
      [| discriminate].
    cbn [stateAfter] in Hr. destruct Hr as (_ & Hl & _).
    intros H. injection H as _ <-.
    rewrite (handleMouthClickDetected_rejected (withParams st3 p))
      by exact Hrej.
    exists (withParams st3 p).
    split; [reflexivity |].
    cbn [limiter gainTimeline clickCount withParams].
    split; [symmetry; exact Hl |].
    split; [rewrite E3; reflexivity |].
    split; assumption.
  - intros H. injection H as Hres _. rewrite <- Hres in Hclick.
    discriminate.
Qed.

Lemma zero_widening_rejected :
  wideningRejected (withClickWidening defaultParams (Fin 0)).
Proof.
  unfold wideningRejected, wideningDuration.
  cbn [withClickWidening defaultParams clickWidening mode].
  change (String.eqb "click" "smack") with false.
  jseval. reflexivity.
Qed.

Lemma rejected_widening_loses_the_click_witness :
  exists st2,
    detectMouthClick
      (withParams (initialState 48000 true)
         (withClickWidening defaultParams (Fin 0)))
      (mkEnv 1000 1 None None) (repeat 0 frequencyBinCount)
      (repeat 1 frequencyBinCount)
    = Some (Thrown st2)
    /\ lastClickTime (limiter st2) = 1000
    /\ gainTimeline st2 = []
    /\ clickCount st2 = 0%nat.
Proof.
  destruct (quiet_tick_with_flux (initialState 48000 true)
              (mkEnv 1000 1 None None) 0 1 initialState_quiet)
    as (r & st1 & E & Hclick & _);
    [ lra | reflexivity | cbn; lia | cbn; lra | cbn; lra | reflexivity | ].
  destruct (rejected_widening_loses_the_click (initialState 48000 true) st1
              (mkEnv 1000 1 None None) (repeat 0 frequencyBinCount)
              (repeat 1 frequencyBinCount)
              (withClickWidening defaultParams (Fin 0)) r
              zero_widening_rejected eq_refl eq_refl E Hclick)
    as (st2 & E2 & _ & Hlast & Hg & Hc).
  exists st2. repeat split; assumption.
Defined.

(** With a rejected widening a tick never repairs: it reports no click,
    or throws before any automation call. *)
Lemma detectMouthClick_rejected (st : State) (env : Env)
    (timeData freqData : list R) :
  wideningRejected (params st) ->
  match detectMouthClick st env timeData freqData with
  | Some (Returned (r, st')) =>
      isClick r = false /\ gainTimeline st' = gainTimeline st
      /\ clickCount st' = clickCount st
  | Some (Thrown st') =>
      gainTimeline st' = gainTimeline st /\ clickCount st' = clickCount st
  | None => True
  end.
Proof.
  intros Hrej. unfold detectMouthClick.
  destruct (processingEnabled st) eqn:Hen; cbn [negb];
    [| repeat split; reflexivity].
  destruct (frameFits (analyser st) timeData freqData); cbn [negb];
    [| exact I].
  cbv zeta.
  generalize (updateDynamicLoudness (loudnessState st) (map Fin timeData)).
  intros tracked.
  destruct (sensitivity (params st)) as [s | | |]; try exact I.
  destruct (frequencySkew (params st)) as [skew | | |]; try exact I.
  destruct (snr (fst tracked)) as [ratio | | |]; try exact I.
  destruct (adaptiveThreshold (snd tracked)) as [threshold | | |];
    try exact I.
  destruct (Rltb 0 s); cbn [negb]; [| exact I].
  generalize (analyseFrame (analyser st) (fst tracked) ratio threshold
                timeData freqData).
  intros analysed.
  generalize (adjustedConfidenceOf s skew (fst analysed)),
             (isClickDetectedOf s skew (fst analysed)),
             (finalConfidenceOf s skew (fst analysed)),
             (methodConfidence (lpcOutlier s (fst analysed))),
             (detailsOf s skew (fst analysed)).
  intros c d f l dt.
  pose proof (shouldProcessClick_frame
                (withAnalyser (withLoudnessState st (snd tracked))
                   (snd analysed)) (now env) d (Fin c)) as Hf.
  cbv zeta in Hf.
  destruct (shouldProcessClick _ (now env) d (Fin c)) as [ok st3].
  cbn [fst snd] in Hf |- *.
  destruct Hf as (Hp & Hg & Hc & _).
  cbn [params gainTimeline clickCount withAnalyser withLoudnessState]
    in Hp, Hg, Hc.
  destruct ok.
  - rewrite (handleMouthClickDetected_rejected st3)
      by (rewrite Hp; exact Hrej).
    split; assumption.
  - cbn [isClick]. repeat split; assumption.
Qed.

Lemma analyzeAudio_rejected (inst inst' : Instance) (t : Tick)
    (result : option DetectionResult) :
  wideningRejected (params (core inst)) ->
  analyzeAudio inst t = Some (result, inst') ->
  wideningRejected (params (core inst'))
  /\ gainTimeline (core inst') = gainTimeline (core inst)
  /\ clickCount (core inst') = clickCount (core inst)
  /\ (forall r, result = Some r -> isClick r = false).
Proof.
  intros Hrej. unfold analyzeAudio.
  destruct (contextRunning t); cbn [negb].
  2:{ intros H. injection H as <- <-.
      repeat split; try assumption; try reflexivity. discriminate. }
  cbv zeta. cbn [frameCounter withFrameCounter lastProcessingTime].
  destruct (S (frameCounter inst) mod processingInterval =? 0)%nat;
    cbn [negb].
  2:{ intros H. injection H as <- <-. cbn [core withFrameCounter].
      repeat split; try assumption; try reflexivity. discriminate. }
  destruct (Rltb _ _).
  { intros H. injection H as <- <-. cbn [core withFrameCounter].
    repeat split; try assumption; try reflexivity. discriminate. }
  cbn [core withLastProcessingTime withFrameCounter].
  pose proof (detectMouthClick_rejected (core inst) (tickEnv t)
                (tickTimeData t) (tickFreqData t) Hrej) as Hd.
  pose proof (detectMouthClick_keeps_configuration (core inst) (tickEnv t)
                (tickTimeData t) (tickFreqData t)) as Hk.
  destruct (detectMouthClick (core inst) (tickEnv t) (tickTimeData t)
              (tickFreqData t)) as [[[r st'] | st'] |];
    [| | discriminate]; cbv zeta in Hk; destruct Hk as [Hp _];
    intros H; injection H as <- <-; cbn [core withCore].
  - destruct Hd as (Hc & Hg & Hn).
    split; [rewrite Hp; exact Hrej |].
    split; [exact Hg |]. split; [exact Hn |].
    intros r0 E. injection E as <-. exact Hc.
  - destruct Hd as (Hg & Hn).
    split; [rewrite Hp; exact Hrej |].
    split; [exact Hg |]. split; [exact Hn |]. discriminate.
Qed.

(** X6.  While the stored click widening is rejected by the scheduler, the
    detection loop never repairs anything: over any run of
    [analyzeAudio] calls the gain timeline and the click counter stay as
    they were and no call reports a click, because every repair throws
    and the loop swallows the exception. *)
Theorem rejected_widening_never_repairs (ticks : list Tick) :
  forall (inst final : Instance) (results : list (option DetectionResult)),
    wideningRejected (params (core inst)) ->
    runDetection inst ticks = Some (results, final) ->
    gainTimeline (core final) = gainTimeline (core inst)
    /\ clickCount (core final) = clickCount (core inst)
    /\ Forall (fun result =>
                 forall r, result = Some r -> isClick r = false) results.
Proof.
  induction ticks as [| t rest IH]; intros inst final results Hrej H.
  - cbn [runDetection] in H. injection H as <- <-.
    repeat split. constructor.
  - cbn [runDetection] in H.
    destruct (analyzeAudio inst t) as [[result inst'] |] eqn:E;
      [| discriminate].
    destruct (analyzeAudio_rejected _ _ _ _ Hrej E) as (Hrej' & Hg & Hc & Hr).
    destruct (runDetection inst' rest) as [[results' final'] |] eqn:E';
      [| discriminate].
    injection H as <- <-.
    destruct (IH _ _ _ Hrej' E') as (Hg' & Hc' & Hall).
    split; [congruence |]. split; [congruence |].
    constructor; assumption.
Qed.

(** The tick of a quiet instance on a silent frame whose flat spectrum
    jumps, under a configuration with a rejected widening: the click is
    decided and recorded by the rate limiter, and the repair throws. *)
Lemma quiet_tick_rejected (st : State) (env : Env) (p c : R)
    (p0 : DetectionParameters) :
  quietState st p -> 0.32 <= c - p ->
  clickHistory (limiter st) = [] ->
  (0 < maxClicksPerSecond (limiter st))%nat ->
  clickSuppressionTime (limiter st) <= now env ->
  minClickInterval (limiter st) <= now env - lastClickTime (limiter st) ->
  sensitivity p0 = Fin 1.0 -> frequencySkew p0 = Fin 0.0 ->
  wideningRejected p0 ->
  exists st2,
    detectMouthClick (withParams st p0) env (repeat 0 frequencyBinCount)
      (repeat c frequencyBinCount) = Some (Thrown st2)
    /\ lastClickTime (limiter st2) = now env
    /\ gainTimeline st2 = gainTimeline st
    /\ clickCount st2 = clickCount st.
Proof.
  intros Hq Hc Hhist Hmax Hsup Hgap Hs0 Hk0 Hrej.
  destruct (quiet_tick_analysis st p c Hq)
    as (t & tracked & analysed & EU & Esnr & Eth & Hl & EA & Hflat & Han
        & Ht).
  destruct Hq as (Hen & Hp & Hqa & _).
  unfold detectMouthClick.
  cbn [processingEnabled analyser loudnessState params withParams].
  rewrite Hen, (quietAnalyser_frameFits _ p c Hqa). cbn [negb]. cbv zeta.
  rewrite EU, Esnr, Eth, Hs0, Hk0. rdecide. cbn [negb].
  rewrite EA.
  rewrite (Rmax_right 0 (c - p)) in Hflat by lra.
  destruct (decision_on_flat_frame (fst analysed) _ (c - p) t 0.0 Hflat
              (Rpower_pos _ _) Ht) as (_ & _ & Hyes).
  destruct (Hyes Hc) as [Hdet Hconf]. rewrite Hdet.
  rewrite (shouldProcessClick_admits _ (now env) _ 1.0);
    [ | cbn [params withAnalyser withLoudnessState withParams]; exact Hs0
      | lra
      | cbn [limiter withAnalyser withLoudnessState withParams]; exact Hsup
      | cbn [limiter withAnalyser withLoudnessState withParams];
        rewrite Hhist; exact Hmax
      | cbn [limiter withAnalyser withLoudnessState withParams]; exact Hgap
      | cbn [limiter withAnalyser withLoudnessState withParams];
        rewrite Hhist, Rpower_default_sensitivity; cbn [recent filter length
          INR]; unfold Rdiv; rewrite Rmult_0_l; lra ].
  cbn [fst snd].
  rewrite handleMouthClickDetected_rejected
    by (cbn [params withRateLimiter withLimiter withAnalyser
             withLoudnessState withParams]; exact Hrej).
  eexists. split; [reflexivity |].
  cbn [limiter lastClickTime gainTimeline clickCount withRateLimiter
       withLimiter withAnalyser withLoudnessState withParams].
  repeat split; reflexivity.
Qed.

(** A call of [analyzeAudio] with the context running: counted and
    skipped, or processed. *)
Lemma analyzeAudio_counted (inst : Instance) (t : Tick) :
  contextRunning t = true ->
  S (frameCounter inst) mod 3 <> 0%nat ->
  analyzeAudio inst t
  = Some (None, withFrameCounter inst (S (frameCounter inst))).
Proof.
  intros Hrun Hmod. unfold analyzeAudio, processingInterval.
  rewrite Hrun. cbn [negb]. cbv zeta. cbn [frameCounter withFrameCounter].
  apply Nat.eqb_neq in Hmod. rewrite Hmod. reflexivity.
Qed.

Lemma analyzeAudio_processed (inst : Instance) (t : Tick) :
  contextRunning t = true ->
  S (frameCounter inst) mod 3 = 0%nat ->
  1000 / 60 <= tickTime t - lastProcessingTime inst ->
  analyzeAudio inst t
  = let timed :=
      withLastProcessingTime
        (withFrameCounter inst (S (frameCounter inst))) (tickTime t) in
    match detectMouthClick (core inst) (tickEnv t) (tickTimeData t)
            (tickFreqData t) with
    | Some (Returned (result, st)) => Some (Some result, withCore timed st)
    | Some (Thrown st) => Some (None, withCore timed st)
    | None => None
    end.
Proof.
  intros Hrun Hmod Htime.
  unfold analyzeAudio, processingInterval, targetProcessingRate.
  rewrite Hrun. cbn [negb]. cbv zeta.
  cbn [frameCounter withFrameCounter lastProcessingTime].
  apply Nat.eqb_eq in Hmod. rewrite Hmod. cbn [negb].
  rewrite (Rltb_false _ _ Htime). reflexivity.
Qed.

Lemma rejected_widening_never_repairs_witness :
  let inst :=
    withCore (newInstance 48000 "example.org")
      (withParams (initialState 48000 true)
         (withClickWidening defaultParams (Fin 0))) in
  let tick time :=
    mkTick true time (mkEnv time (time / 1000) None None)
      (repeat 0 frequencyBinCount) (repeat 1 frequencyBinCount) in
  exists final,
    runDetection inst [tick 1000; tick 1017; tick 1034]
    = Some ([None; None; None], final)
    /\ lastClickTime (limiter (core final)) = 1034
    /\ gainTimeline (core final) = []
    /\ clickCount (core final) = 0%nat.
Proof.
  intros inst tick.
  destruct (quiet_tick_rejected (initialState 48000 true)
              (mkEnv 1034 (1034 / 1000) None None) 0 1
              (withClickWidening defaultParams (Fin 0))
              initialState_quiet)
    as (st2 & E & Hlast & Hg & Hc);
    [ lra | reflexivity | cbn; lia | cbn; lra | cbn; lra | reflexivity
    | reflexivity | exact zero_widening_rejected | ].
  assert (Hrun : runDetection inst [tick 1000; tick 1017; tick 1034]
                 = Some ([None; None; None],
                         withCore
                           (withLastProcessingTime
                              (withFrameCounter
                                 (withFrameCounter
                                    (withFrameCounter inst 1) 2) 3) 1034)
                           st2)).
  { cbn [runDetection].
    rewrite (analyzeAudio_counted inst (tick 1000)) by (cbn; lia || reflexivity).
    rewrite (analyzeAudio_counted _ (tick 1017)) by (cbn; lia || reflexivity).
    rewrite (analyzeAudio_processed _ (tick 1034))
      by (cbn; first [reflexivity | lra]).
    cbv zeta.
    cbn [core withFrameCounter withCore newInstance tick tickEnv tickTimeData
         tickFreqData tickTime frameCounter inst].
    rewrite E. reflexivity. }
  eexists. split; [exact Hrun |].
  destruct (rejected_widening_never_repairs _ inst _ _
              zero_widening_rejected Hrun) as (Hg' & Hc' & _).
  cbn [core withCore] in Hg', Hc' |- *.
  split; [exact Hlast |]. split; [exact Hg' | exact Hc'].
Defined.


(** ** The fused confidence, continued *)

Lemma capped_ratio_range (x t : R) :
  0 <= x -> 0 < t -> 0 <= Rmin 2.0 (x / t) <= 2.0.
Proof.
  intros Hx Ht. split; [| apply Rmin_l].
  apply Rmin_glb; [lra |]. unfold Rdiv. apply Rle_mult_inv_pos; assumption.
Qed.

Lemma adaptiveErrorThreshold_pos (s snr : R) :
  0 < adaptiveErrorThreshold s snr.
Proof.
  unfold adaptiveErrorThreshold. cbv zeta. apply scaled_threshold_pos.
  unfold Thresholds.lpcError. lra.
Qed.

Lemma lpcConfidenceOf_range (s snr rms peak : R) :
  0 <= rms -> 0 <= peak -> 0 <= lpcConfidenceOf s snr rms peak <= 2.0.
Proof.
  intros Hr Hp. unfold lpcConfidenceOf. cbv zeta.
  pose proof (adaptiveErrorThreshold_pos s snr) as Ht.
  pose proof (capped_ratio_range rms _ Hr Ht) as H1.
  assert (Ht3 : 0 < adaptiveErrorThreshold s snr * 3) by lra.
  pose proof (capped_ratio_range peak _ Hp Ht3) as H2.
  split.
  - eapply Rle_trans; [apply (proj1 H1) | apply Rmax_l].
  - apply Rmax_lub; [apply H1 | apply H2].
Qed.

Lemma highFreqBurstOf_nonneg (fa : FrameAnalysis) :
  measured fa -> 0 <= highFreqBurstOf (energies fa).
Proof.
  intros (_ & _ & _ & Hl & Hm & Hh & _). unfold highFreqBurstOf.
  unfold Rdiv. apply Rle_mult_inv_pos; lra.
Qed.

Lemma detectionMethods_range (s : R) (fa : FrameAnalysis) :
  measured fa ->
  Forall (fun m => 0 <= methodConfidence m <= 2.0) (detectionMethods s fa).
Proof.
  intros Hm.
  pose proof (mouthBandRatioOf_nonneg fa Hm) as Hmouth.
  pose proof (highFreqBurstOf_nonneg fa Hm) as Hburst.
  destruct Hm as (Hr & Hp & Hf & _).
  unfold detectionMethods.
  repeat apply Forall_cons; try apply Forall_nil.
  - apply lpcConfidenceOf_range; assumption.
  - cbn [spectralFluxMethod methodConfidence].
    apply capped_ratio_range; [assumption |].
    unfold adaptiveSpectralThresholdOf. cbv zeta.
    apply scaled_threshold_pos. unfold Thresholds.spectralFlux. lra.
  - cbn [mouthBandTransient methodConfidence].
    apply capped_ratio_range; [assumption |].
    unfold adaptiveTransientThresholdOf. cbv zeta.
    apply scaled_threshold_pos. unfold Thresholds.transientRatio. lra.
  - cbn [highFreqBurstMethod methodConfidence].
    apply capped_ratio_range; [assumption | lra].
  - cbn [amplitudeSpikeMethod methodConfidence].
    destruct (amplitudeSpikeOf s fa); lra.
Qed.

Lemma finalConfidenceOf_range (s skew : R) (fa : FrameAnalysis) :
  measured fa -> 0 <= finalConfidenceOf s skew fa <= 2.0.
Proof.
  intros Hm. rewrite finalConfidenceOf_weighted_sum.
  pose proof (detectionMethods_range s fa Hm) as H.
  unfold detectionMethods in H.
  apply Forall_cons_iff in H. destruct H as [H1 H].
  apply Forall_cons_iff in H. destruct H as [H2 H].
  apply Forall_cons_iff in H. destruct H as [H3 H].
  apply Forall_cons_iff in H. destruct H as [H4 H].
  apply Forall_cons_iff in H. destruct H as [H5 _].
  lra.
Qed.

Lemma adjustedConfidenceOf_range (s skew : R) (fa : FrameAnalysis) :
  measured fa ->
  0.52 * finalConfidenceOf s skew fa <= adjustedConfidenceOf s skew fa
  /\ adjustedConfidenceOf s skew fa <= finalConfidenceOf s skew fa.
Proof.
  intros Hm. pose proof (finalConfidenceOf_range s skew fa Hm) as Hf.
  destruct Hm as (_ & _ & _ & _ & _ & _ & _ & Hp).
  unfold adjustedConfidenceOf. cbv zeta. split; nra.
Qed.

(** X7.  On a frame of finite samples and finite spectrum bins, with a
    finite stored spectrum, a positive finite sensitivity and a finite
    skew (the calls [detectMouthClick] is modelled on), every result that
    it returns carries confidences on a fixed scale: the LPC confidence
    and the fused (spectral) confidence lie in [0, 2], and the reported
    confidence is the fused one lowered by the speech protection, by no
    more than 48 percent.  A spectrum with a bin at -Infinity is not such
    a frame: there the flux can be NaN ([spectralFluxOfBins]). *)
Theorem returned_confidences_in_range (st st' : State) (env : Env)
    (timeData freqData : list R) (r : DetectionResult) :
  detectMouthClick st env timeData freqData = Some (Returned (r, st')) ->
  0 <= lpcConfidence r <= 2
  /\ 0 <= spectralConfidence r <= 2
  /\ 0.52 * spectralConfidence r <= confidence r <= spectralConfidence r.
Proof.
  intros H. destruct (processingEnabled st) eqn:Hen.
  - destruct (detectMouthClick_returned _ _ _ _ _ _ Hen H)
      as (s & skew & ratio & threshold & _ & _ & _ & _ & _ & Er).
    pose proof (analyseFrame_measured (analyser st)
                  (fst (updateDynamicLoudness (loudnessState st)
                          (map Fin timeData)))
                  ratio threshold timeData freqData) as Hm.
    rewrite Er. cbn [resultOf lpcConfidence spectralConfidence confidence].
    pose proof (finalConfidenceOf_range s skew _ Hm) as Hf.
    pose proof (adjustedConfidenceOf_range s skew _ Hm) as Ha.
    split.
    + cbn [lpcOutlier methodConfidence].
      destruct Hm as (Hr & Hp & _).
      pose proof (lpcConfidenceOf_range s ratio _ _ Hr Hp) as Hl.
      cbn [signalToNoise analyseFrame fst] in *.
      lra.
    + split; [lra | exact Ha].
  - unfold detectMouthClick in H. rewrite Hen in H. cbn [negb] in H.
    injection H as <- _. cbn [disabledResult lpcConfidence
                              spectralConfidence confidence]. lra.
Qed.

Lemma returned_confidences_in_range_witness :
  exists r st',
    detectMouthClick (initialState 48000 true) (mkEnv 1000 1 None None)
      (repeat 0 frequencyBinCount) (repeat (-100) frequencyBinCount)
    = Some (Returned (r, st'))
    /\ 0 <= lpcConfidence r <= 2
    /\ 0 <= spectralConfidence r <= 2
    /\ 0.52 * spectralConfidence r <= confidence r <= spectralConfidence r.
Proof.
  destruct (quiet_tick_without_flux (initialState 48000 true)
              (mkEnv 1000 1 None None) 0 (-100) initialState_quiet
              ltac:(lra)) as (r & st' & E & _).
  exists r, st'. split; [exact E |].
  exact (returned_confidences_in_range _ _ _ _ _ _ E).
Defined.

Lemma shouldProcessClick_admitted_confidence (st : State) (t c s : R)
    (d : bool) :
  sensitivity (params st) = Fin s -> 0 < s ->
  fst (shouldProcessClick st t d (Fin c)) = true ->
  let held := length (recent t (clickHistory (limiter st))) in
  (held < maxClicksPerSecond (limiter st))%nat
  /\ 0.5 / Rpower s 0.8
     + INR held / INR (maxClicksPerSecond (limiter st)) * 0.3 / Rpower s 0.8
     <= c.
Proof.
  intros Es Hs. unfold shouldProcessClick.
  destruct d; cbn [negb fst]; [| discriminate].
  cbv zeta.
  destruct (Rltb t (clickSuppressionTime (limiter st)));
    [cbn [fst]; discriminate |].
  destruct (maxClicksPerSecond (limiter st)
            <=? length (recent t (clickHistory (limiter st))))%nat eqn:Emax;
    [cbn [fst]; discriminate |].
  apply Nat.leb_gt in Emax.
  destruct (Rltb (t - lastClickTime (limiter st))
              (minClickInterval (limiter st)));
    [cbn [fst]; discriminate |].
  rewrite Es.
  rewrite (requiredConfidence_finite s _ _ Hs) by lia.
  cbn [JS.lt].
  destruct (Rltb c _) eqn:Ec; cbn [fst]; [discriminate |].
  intros _. split; [exact Emax |].
  destruct (Rlt_dec c
              (0.5 / Rpower s 0.8
               + INR (length (recent t (clickHistory (limiter st))))
                 / INR (maxClicksPerSecond (limiter st)) * 0.3
                 / Rpower s 0.8)) as [Hlt | Hge]; [| lra].
  rewrite (Rltb_true _ _ Hlt) in Ec. discriminate.
Qed.

(** X8.  A frame is reported as a click only with enough confidence for
    the rate limiter: at sensitivity [s], with [held] clicks of the last
    second in a window of [maxClicksPerSecond], the reported confidence is
    at least [(0.5 + 0.3 * held / maxClicksPerSecond) / s ^ 0.8]; at the
    default sensitivity no click is reported below confidence 0.5,
    whichever rule decided it. *)
Theorem reported_click_confidence_floor (st st' : State) (env : Env)
    (timeData freqData : list R) (r : DetectionResult) :
  detectMouthClick st env timeData freqData = Some (Returned (r, st')) ->
  isClick r = true ->
  exists s : R,
    sensitivity (params st) = Fin s /\ 0 < s
    /\ let held :=
         length (recent (now env) (clickHistory (limiter st))) in
       (held < maxClicksPerSecond (limiter st))%nat
       /\ 0.5 / Rpower s 0.8
          + INR held / INR (maxClicksPerSecond (limiter st)) * 0.3
            / Rpower s 0.8
          <= confidence r
       /\ 0.5 / Rpower s 0.8 <= confidence r.
Proof.
  intros H Hclick.
  destruct (detectMouthClick_inside _ _ _ _ _ _ H Hclick) as [Hen Hfit].
  destruct (detectMouthClick_returned _ _ _ _ _ _ Hen H)
    as (s & skew & ratio0 & threshold0 & Es & Hpos & Ek & _).
  destruct (detectMouthClick_enabled st env timeData freqData s skew Hen Hfit
              Es Hpos Ek)
    as (ratio & threshold & _ & _ & _ & _ & E).
  cbv zeta in E. rewrite E in H. clear E.
  exists s. split; [exact Es |]. split; [exact Hpos |].
  revert H.
  generalize (updateDynamicLoudness (loudnessState st) (map Fin timeData)).
  intros tracked.
  generalize (analyseFrame (analyser st) (fst tracked) ratio threshold
                timeData freqData).
  intros analysed.
  pose proof (shouldProcessClick_admitted_confidence
                (withAnalyser (withLoudnessState st (snd tracked))
                   (snd analysed)) (now env)
                (adjustedConfidenceOf s skew (fst analysed)) s
                (isClickDetectedOf s skew (fst analysed)) Es Hpos) as Hadm.
  cbv zeta in Hadm.
  cbn [limiter withAnalyser withLoudnessState] in Hadm.
  destruct (shouldProcessClick _ (now env) _ _) as [ok st3].
  cbn [fst snd] in Hadm |- *.
  destruct ok.
  - destruct (Hadm eq_refl) as [Hheld Hconf].
    destruct (handleMouthClickDetected st3 _ _ _ _); [| discriminate].
    intros H. injection H as <- _.
    cbn [resultOf confidence]. cbv zeta.
    split; [exact Hheld |]. split; [exact Hconf |].
    assert (0 <= INR (length (recent (now env) (clickHistory (limiter st))))
                 / INR (maxClicksPerSecond (limiter st)) * 0.3
                 / Rpower s 0.8).
    { pose proof (Rpower_pos s 0.8) as Hp.
      pose proof (pos_INR (length (recent (now env)
                                     (clickHistory (limiter st))))) as Hh.
      assert (Hm : 0 < INR (maxClicksPerSecond (limiter st)))
        by (apply lt_0_INR; lia).
      unfold Rdiv. apply Rle_mult_inv_pos; [| exact Hp].
      apply Rmult_le_pos; [| lra].
      apply Rle_mult_inv_pos; assumption. }
    lra.
  - intros H. injection H as Hres _. rewrite <- Hres in Hclick.
    discriminate.
Qed.

Lemma reported_click_confidence_floor_witness :
  exists r st',
    detectMouthClick (initialState 48000 true) (mkEnv 1000 1 None None)
      (repeat 0 frequencyBinCount) (repeat 1 frequencyBinCount)
    = Some (Returned (r, st'))
    /\ exists s : R,
         sensitivity (params (initialState 48000 true)) = Fin s /\ 0 < s
         /\ 0.5 / Rpower s 0.8 <= confidence r.
Proof.
  destruct (quiet_tick_with_flux (initialState 48000 true)
              (mkEnv 1000 1 None None) 0 1 initialState_quiet)
    as (r & st1 & E & Hclick & _);
    [ lra | reflexivity | cbn; lia | cbn; lra | cbn; lra | reflexivity | ].
  exists r, st1. split; [exact E |].
  destruct (reported_click_confidence_floor _ _ _ _ _ _ E Hclick)
    as (s & Es & Hs & _ & _ & Hc).
  exists s. repeat split; assumption.
Defined.


(** ** The frequency skew *)

Lemma finalConfidenceOf_skew (s k1 k2 : R) (fa : FrameAnalysis) :
  finalConfidenceOf s k1 fa = finalConfidenceOf s k2 fa.
Proof. rewrite !finalConfidenceOf_weighted_sum. reflexivity. Qed.

Lemma adjustedConfidenceOf_skew (s k1 k2 : R) (fa : FrameAnalysis) :
  adjustedConfidenceOf s k1 fa = adjustedConfidenceOf s k2 fa.
Proof.
  unfold adjustedConfidenceOf. cbv zeta.
  rewrite (finalConfidenceOf_skew s k1 k2). reflexivity.
Qed.

Lemma isClickDetectedOf_skew (s k1 k2 : R) (fa : FrameAnalysis) :
  isClickDetectedOf s k1 fa = isClickDetectedOf s k2 fa.
Proof.
  unfold isClickDetectedOf. cbv zeta.
  rewrite (adjustedConfidenceOf_skew s k1 k2). reflexivity.
Qed.

Lemma handleMouthClickDetected_withParams (st : State)
    (p : DetectionParameters) (currentTime : R) (confidence : jsnum)
    (fault fallbackFault : option nat) :
  clickWidening p = clickWidening (params st) ->
  mode p = mode (params st) ->
  reductionAmount p = reductionAmount (params st) ->
  handleMouthClickDetected (withParams st p) currentTime confidence fault
    fallbackFault
  = match handleMouthClickDetected st currentTime confidence fault
            fallbackFault with
    | Returned st' => Returned (withParams st' p)
    | Thrown st' => Thrown (withParams st' p)
    end.
Proof.
  intros Hw Hm Hr. unfold handleMouthClickDetected. cbv zeta.
  cbn [params withParams].
  replace (wideningDuration p) with (wideningDuration (params st))
    by (unfold wideningDuration; rewrite Hw, Hm; reflexivity).
  rewrite Hr.
  destruct (negb (isFinite (wideningDuration (params st)))
            || (wideningDuration (params st) <=? Fin 0)%js)%bool;
    [reflexivity |].
  destruct (performCalls (smoothGainRamp _ _ _) fault) as [done threw].
  destruct threw; [| reflexivity].
  destruct (performCalls (fallbackGainRamp _) fallbackFault)
    as [done' threw'].
  destruct threw'; reflexivity.
Qed.

(** X9.  In exact arithmetic the frequency skew has no effect on the
    detection: every method weight is multiplied by the same skew weight,
    which cancels in the weighted mean.  A tick under another finite skew
    ends the same way, with the same decision and the same three
    confidences, and leaves the same state but for the stored skew. *)
Theorem frequency_skew_cancels (st : State) (env : Env)
    (timeData freqData : list R) (k : R) :
  isFinite (frequencySkew (params st)) = true ->
  let p := withFrequencySkew (params st) (Fin k) in
  match detectMouthClick st env timeData freqData,
        detectMouthClick (withParams st p) env timeData freqData with
  | Some (Returned (r, st1)), Some (Returned (r', st1')) =>
      isClick r' = isClick r /\ confidence r' = confidence r
      /\ lpcConfidence r' = lpcConfidence r
      /\ spectralConfidence r' = spectralConfidence r
      /\ st1' = withParams st1 p
  | Some (Thrown st1), Some (Thrown st1') => st1' = withParams st1 p
  | None, None => True
  | _, _ => False
  end.
Proof.
  intros Hfin p.
  assert (Hs : sensitivity p = sensitivity (params st)) by reflexivity.
  assert (Hk : frequencySkew p = Fin k) by reflexivity.
  assert (Hw : clickWidening p = clickWidening (params st)) by reflexivity.
  assert (Hm : mode p = mode (params st)) by reflexivity.
  assert (Hr : reductionAmount p = reductionAmount (params st))
    by reflexivity.
  clearbody p.
  unfold detectMouthClick.
  cbn [processingEnabled analyser loudnessState params withParams].
  destruct (processingEnabled st); cbn [negb];
    [| repeat split; reflexivity].
  destruct (frameFits (analyser st) timeData freqData); cbn [negb];
    [| exact I].
  cbv zeta.
  generalize (updateDynamicLoudness (loudnessState st) (map Fin timeData)).
  intros tracked.
  rewrite Hs, Hk.
  destruct (frequencySkew (params st)) as [k0 | | |]; try discriminate.
  destruct (sensitivity (params st)) as [s | | |] eqn:Es; try exact I.
  destruct (snr (fst tracked)) as [ratio | | |]; try exact I.
  destruct (adaptiveThreshold (snd tracked)) as [threshold | | |];
    try exact I.
  destruct (Rltb 0 s); cbn [negb]; [| exact I].
  generalize (analyseFrame (analyser st) (fst tracked) ratio threshold
                timeData freqData).
  intros analysed.
  rewrite !(adjustedConfidenceOf_skew s k k0),
          !(isClickDetectedOf_skew s k k0),
          !(finalConfidenceOf_skew s k k0).
  change (withAnalyser (withLoudnessState (withParams st p) (snd tracked))
            (snd analysed))
    with (withParams
            (withAnalyser (withLoudnessState st (snd tracked))
               (snd analysed)) p).
  rewrite shouldProcessClick_withParams
    by (cbn [params withAnalyser withLoudnessState]; congruence).
  pose proof (shouldProcessClick_frame
                (withAnalyser (withLoudnessState st (snd tracked))
                   (snd analysed)) (now env)
                (isClickDetectedOf s k0 (fst analysed))
                (Fin (adjustedConfidenceOf s k0 (fst analysed)))) as Hf.
  cbv zeta in Hf.
  destruct (shouldProcessClick _ (now env) _ _) as [ok st3].
  cbn [fst snd] in Hf |- *. destruct Hf as (Hp & _).
  cbn [params withAnalyser withLoudnessState] in Hp.
  destruct ok.
  - rewrite handleMouthClickDetected_withParams
      by (rewrite Hp; assumption).
    destruct (handleMouthClickDetected st3 _ _ _ _);
      repeat split; reflexivity.
  - repeat split; reflexivity.
Qed.

Lemma frequency_skew_cancels_witness :
  let st := initialState 48000 true in
  let p := withFrequencySkew (params st) (Fin 1) in
  match detectMouthClick st (mkEnv 1000 1 None None)
          (repeat 0 frequencyBinCount) (repeat 1 frequencyBinCount),
        detectMouthClick (withParams st p) (mkEnv 1000 1 None None)
          (repeat 0 frequencyBinCount) (repeat 1 frequencyBinCount) with
  | Some (Returned (r, st1)), Some (Returned (r', st1')) =>
      isClick r' = isClick r /\ confidence r' = confidence r
      /\ lpcConfidence r' = lpcConfidence r
      /\ spectralConfidence r' = spectralConfidence r
      /\ st1' = withParams st1 p
  | Some (Thrown st1), Some (Thrown st1') => st1' = withParams st1 p
  | None, None => True
  | _, _ => False
  end.
Proof.
  intros st p.
  apply (frequency_skew_cancels st (mkEnv 1000 1 None None)
           (repeat 0 frequencyBinCount) (repeat 1 frequencyBinCount) 1).
  reflexivity.
Defined.

Lemma exp_nonpos_le_1 (x : R) : x <= 0 -> exp x <= 1.
Proof.
  intros H. rewrite <- exp_0. destruct H as [H | ->].
  - left. apply exp_increasing. exact H.
  - right. reflexivity.
Qed.

(** X10.  The skew weight of a frequency is a number in (0, 1].  A
    negative skew leaves every frequency up to 3500 Hz at weight 1 and
    attenuates only above, a positive skew leaves every frequency from
    3500 Hz on at weight 1 and attenuates only below, and with no skew the
    weight is 1 at 3500 Hz only. *)
Theorem frequency_weight_range (skew freq : R) :
  0 < getFrequencyWeight skew freq <= 1
  /\ (skew < 0 -> freq <= 3500 -> getFrequencyWeight skew freq = 1)
  /\ (0 < skew -> 3500 <= freq -> getFrequencyWeight skew freq = 1)
  /\ (skew = 0 -> (getFrequencyWeight skew freq = 1 <-> freq = 3500)).
Proof.
  split; [split; [apply getFrequencyWeight_pos |] |].
  - unfold getFrequencyWeight. cbv zeta.
    destruct (Rlt_dec skew 0) as [Hn | Hn].
    + rewrite (Rltb_true _ _ Hn). apply exp_nonpos_le_1.
      pose proof (Rabs_pos skew). pose proof (Rmax_l 0 (freq / 3500 - 1)).
      nra.
    + rewrite (Rltb_false skew 0) by lra.
      destruct (Rlt_dec 0 skew) as [Hp | Hp].
      * rewrite (Rltb_true _ _ Hp). apply exp_nonpos_le_1.
        pose proof (Rmax_l 0 (1 - freq / 3500)). nra.
      * rewrite (Rltb_false 0 skew) by lra. apply exp_nonpos_le_1.
        pose proof (Rabs_pos (freq - 3500)).
        assert (0 <= Rabs (freq - 3500) / 3500)
          by (unfold Rdiv; apply Rle_mult_inv_pos; lra).
        lra.
  - unfold getFrequencyWeight. cbv zeta. split; [| split].
    + intros Hn Hf. rewrite (Rltb_true _ _ Hn).
      rewrite Rmax_left by lra. rewrite Rmult_0_r. apply exp_0.
    + intros Hp Hf. rewrite (Rltb_false skew 0) by lra.
      rewrite (Rltb_true _ _ Hp).
      rewrite Rmax_left by lra. rewrite Rmult_0_r. apply exp_0.
    + intros ->. rewrite (Rltb_false 0 0) by lra. split.
      * intros H. rewrite <- exp_0 in H. apply exp_inv in H.
        assert (Hz : Rabs (freq - 3500) = 0) by lra.
        destruct (Req_dec (freq - 3500) 0) as [E | E]; [lra |].
        apply Rabs_no_R0 in E. contradiction.
      * intros ->. replace (3500 - 3500) with 0 by lra.
        rewrite Rabs_R0. replace (-2 * (0 / 3500)) with 0 by lra.
        apply exp_0.
Qed.

Lemma frequency_weight_range_witness :
  getFrequencyWeight (-0.5) 1000 = 1.
Proof.
  apply (proj1 (proj2 (frequency_weight_range (-0.5) 1000))); lra.
Defined.


(** ** The speech protection, continued *)

Lemma sumOver_le (indices : list nat) (f : nat -> R) (c : R) :
  (forall i, f i <= c) -> sumOver indices f <= INR (length indices) * c.
Proof.
  intros H. induction indices as [| i l IH].
  - cbn. lra.
  - rewrite sumOver_cons. change (length (i :: l)) with (S (length l)).
    rewrite S_INR. pose proof (H i). lra.
Qed.

Lemma product_within (x y a : R) :
  Rabs x <= a -> Rabs y <= a -> x * y <= a * a.
Proof.
  intros Hx Hy.
  pose proof (Rabs_pos x). pose proof (Rabs_pos y).
  apply Rle_trans with (Rabs (x * y)); [apply Rle_abs |].
  rewrite Rabs_mult. nra.
Qed.

Lemma nth_within (l : list R) (a : R) (i : nat) :
  0 <= a -> Forall (fun x => Rabs x <= a) l -> Rabs (nth i l 0) <= a.
Proof.
  intros Ha H. destruct (Nat.lt_ge_cases i (length l)) as [Hi | Hi].
  - rewrite Forall_forall in H. apply H. apply nth_In. exact Hi.
  - rewrite nth_overflow by exact Hi. rewrite Rabs_R0. exact Ha.
Qed.

Lemma calculateAutocorrelation_within (signal : list R) (maxLag : nat)
    (a : R) :
  0 <= a -> Forall (fun x => Rabs x <= a) signal ->
  Forall (fun v => v <= a * a) (calculateAutocorrelation signal maxLag).
Proof.
  intros Ha H. unfold calculateAutocorrelation.
  apply Forall_map. apply Forall_forall. intros lag _.
  destruct (lag <? length signal)%nat eqn:E; [| nra].
  apply Nat.ltb_lt in E.
  assert (Hn : 0 < INR (length signal - lag)) by (apply lt_0_INR; lia).
  apply div_below; [exact Hn |].
  rewrite Rmult_comm.
  replace (INR (length signal - lag))
    with (INR (length (seq 0 (length signal - lag))))
    by (rewrite length_seq; reflexivity).
  apply sumOver_le. intros i.
  apply product_within; apply nth_within; assumption.
Qed.

Lemma running_max_within (l : list R) (x b : R) :
  x <= b -> Forall (fun v => v <= b) l -> fold_left Rmax l x <= b.
Proof.
  revert x. induction l as [| y l IH]; intros x Hx H; cbn [fold_left].
  - exact Hx.
  - apply Forall_cons_iff in H. destruct H as [Hy H].
    apply IH; [apply Rmax_lub; assumption | exact H].
Qed.

Lemma maxOfList_within (l : list R) (b : R) :
  Forall (fun v => v <= b) l -> (maxOfList l >? Fin b)%js = false.
Proof.
  intros H. destruct l as [| x rest]; [reflexivity |].
  apply Forall_cons_iff in H. destruct H as [Hx H].
  cbn [maxOfList JS.gt JS.lt]. apply Rltb_false.
  apply running_max_within; assumption.
Qed.

Lemma Forall_skipn_le (k : nat) (l : list R) (b : R) :
  Forall (fun v => v <= b) l -> Forall (fun v => v <= b) (skipn k l).
Proof.
  intros H. rewrite <- (firstn_skipn k l) in H.
  apply Forall_app in H. exact (proj2 H).
Qed.

(** X11.  The speech protection takes one of four values: 0.8 for a
    periodic frame, else 0.6 for a frame with formants, else 0.3 for
    sustained low and mid energy, else 0.  Sustained energy alone always
    gives at least 0.3. *)
Theorem speech_protection_values (st : Analyser) (timeData freqData : list R)
    (e : BandEnergies) :
  let p := checkSpeechProtection st timeData freqData e in
  (p = 0 \/ p = 0.3 \/ p = 0.6 \/ p = 0.8)
  /\ (highEnergy e < lowEnergy e + midEnergy e -> 0.3 <= p)
  /\ (p = 0 -> lowEnergy e + midEnergy e <= highEnergy e).
Proof.
  cbv zeta. unfold checkSpeechProtection. cbv zeta.
  cbn [fold_left].
  destruct (maxOfList _ >? Fin 0.3)%js;
    destruct (Rltb 0.4 _);
    destruct (Rlt_dec (highEnergy e) (lowEnergy e + midEnergy e)) as [H | H];
    rewrite ?(Rltb_true _ _ H), ?(Rltb_false (highEnergy e)
                                    (lowEnergy e + midEnergy e)) by lra;
    repeat match goal with
           | |- context [Rmax ?a ?b] =>
               first [ rewrite (Rmax_left a b) by lra
                     | rewrite (Rmax_right a b) by lra ]
           end;
    (split; [tauto || lra || (right; tauto) || auto |]); split; intros; lra.
Qed.

(** X12.  The periodicity test compares the raw autocorrelation with 0.3,
    so it depends on the level of the signal: a frame whose samples all
    stay within [a] in magnitude, with [a * a <= 0.3] (an amplitude of 0.5,
    say), never gets the periodicity protection of 0.8, however periodic
    it is; its protection is at most 0.6. *)
Theorem quiet_frames_get_no_periodicity_protection (st : Analyser)
    (timeData freqData : list R) (e : BandEnergies) (a : R) :
  0 <= a -> a * a <= 0.3 ->
  Forall (fun x => Rabs x <= a) timeData ->
  checkSpeechProtection st timeData freqData e <= 0.6.
Proof.
  intros Ha Hsq H. unfold checkSpeechProtection. cbv zeta.
  rewrite maxOfList_within.
  2:{ apply Forall_skipn_le.
      eapply Forall_impl;
        [| apply (calculateAutocorrelation_within timeData 50 a Ha H)].
      cbv beta. intros v Hv. lra. }
  cbn [fold_left].
  destruct (Rltb 0.4 _); destruct (Rltb (highEnergy e) _);
    repeat match goal with
           | |- context [Rmax ?x ?y] =>
               first [ rewrite (Rmax_left x y) by lra
                     | rewrite (Rmax_right x y) by lra ]
           end; lra.
Qed.

Lemma quiet_frames_get_no_periodicity_protection_witness :
  checkSpeechProtection (analyser (initialState 48000 true))
    [0.5; -0.5; 0.5; -0.5] [] (mkEnergies 0 0 0 0) <= 0.6.
Proof.
  apply (quiet_frames_get_no_periodicity_protection _ _ _ _ 0.5);
    [lra | lra |].
  repeat apply Forall_cons; try apply Forall_nil;
    unfold Rabs; destruct (Rcase_abs _); lra.
Defined.


(** ** The LPC analyser, continued *)

Lemma setNth_length (i : nat) (v : R) (l : list R) :
  length (setNth i v l) = length l.
Proof.
  revert i. induction l as [| x l IH]; intros i;
    [destruct i; reflexivity |].
  destruct i; cbn [setNth length]; [reflexivity | rewrite IH; reflexivity].
Qed.

Lemma nth_setNth_other (i j : nat) (v d : R) (l : list R) :
  i <> j -> nth j (setNth i v l) d = nth j l d.
Proof.
  revert i j. induction l as [| x l IH]; intros i j H;
    [destruct i; reflexivity |].
  destruct i, j; cbn [setNth nth]; try reflexivity; try contradiction.
  apply IH. lia.
Qed.

Lemma nth_setNth_same (i : nat) (v d : R) (l : list R) :
  (i < length l)%nat -> nth i (setNth i v l) d = v.
Proof.
  revert i. induction l as [| x l IH]; intros i H; [cbn in H; lia |].
  destruct i; cbn [setNth nth]; [reflexivity |].
  apply IH. cbn in H. lia.
Qed.

(** The in-place coefficient update leaves the length and the leading
    coefficient alone. *)
Lemma coefficient_update_keeps_head (g : list R -> nat -> R)
    (indices : list nat) :
  forall a : list R,
    Forall (fun j => (1 <= j)%nat) indices ->
    let a' := fold_left (fun a j => setNth j (g a j) a) indices a in
    length a' = length a /\ nth 0 a' 0 = nth 0 a 0.
Proof.
  induction indices as [| j rest IH]; intros a H; cbv zeta.
  - split; reflexivity.
  - apply Forall_cons_iff in H. destruct H as [Hj H].
    cbn [fold_left]. destruct (IH (setNth j (g a j) a) H) as [Hl Hn].
    cbv zeta in Hl, Hn. rewrite Hl, Hn, setNth_length.
    split; [reflexivity |]. apply nth_setNth_other. lia.
Qed.

Lemma seq_from_one (n : nat) : Forall (fun j => (1 <= j)%nat) (seq 1 n).
Proof.
  apply Forall_forall. intros j Hj. apply in_seq in Hj. lia.
Qed.

Lemma levinsonDurbin_invariant (steps : nat) :
  forall (i : nat) (r a : list R) (e : R),
    (1 <= i)%nat -> 0 < e ->
    let result := levinsonDurbin steps i r a e in
    length (fst result) = length a
    /\ nth 0 (fst result) 0 = nth 0 a 0
    /\ 0 < snd result <= e.
Proof.
  induction steps as [| steps IH]; intros i r a e Hi He; cbv zeta.
  - cbn [levinsonDurbin fst snd]. repeat split; lra || reflexivity.
  - cbn [levinsonDurbin]. cbv zeta.
    destruct (Rltb (Rabs e) 1e-10);
      [cbn [fst snd]; repeat split; lra || reflexivity |].
    set (lambda := (nth i r 0 - _) / e).
    destruct (Rleb 1.0 (Rabs lambda)) eqn:El;
      [cbn [fst snd]; repeat split; lra || reflexivity |].
    assert (Hl : Rabs lambda < 1).
    { destruct (Rlt_dec (Rabs lambda) 1) as [H | H]; [exact H |].
      rewrite (Rleb_true 1.0 (Rabs lambda)) in El by lra. discriminate. }
    assert (Hsq : 0 < 1 - lambda * lambda <= 1).
    { pose proof (Rabs_pos lambda) as Hp.
      assert (lambda * lambda = Rabs lambda * Rabs lambda).
      { unfold Rabs. destruct (Rcase_abs lambda); lra. }
      nra. }
    match goal with
    | |- context [levinsonDurbin steps (S i) r ?a' ?e'] =>
        destruct (IH (S i) r a' e' ltac:(lia) ltac:(nra)) as (H1 & H2 & H3)
    end.
    cbv zeta in H1, H2, H3.
    destruct (coefficient_update_keeps_head
                (fun a j => nth j a 0 - lambda * nth (i - j) a 0)
                (seq 1 (i - 1)) a (seq_from_one _)) as [Hlen Hhead].
    cbv zeta in Hlen, Hhead.
    rewrite H1, H2, setNth_length, Hlen.
    rewrite nth_setNth_other by lia. rewrite Hhead.
    split; [reflexivity |]. split; [reflexivity |]. nra.
Qed.

Lemma computeLPCCoefficients_length (signal : list R) (order : nat) :
  length (coefficients (computeLPCCoefficients signal order))
  = (order + 1)%nat.
Proof.
  destruct signal as [| x rest].
  - unfold computeLPCCoefficients. cbv zeta.
    destruct (length [] <? order * 2)%nat; [apply repeat_length |].
    destruct (finiteValues _) as [r |];
      [| cbn [coefficients]; rewrite setNth_length; apply repeat_length].
    destruct (Rltb _ 1e-10) eqn:Esilent; [apply repeat_length |].
    assert (Hr0 : 0 < nth 0 r 0).
    { destruct (Rlt_dec (nth 0 r 0) 1e-10) as [H | H];
        [rewrite (Rltb_true _ _ H) in Esilent; discriminate | lra]. }
    pose proof (levinsonDurbin_invariant order 1 r
                  (setNth 0 1 (repeat 0 (order + 1))) _ ltac:(lia) Hr0)
      as H.
    cbv zeta in H.
    destruct (levinsonDurbin order 1 _ _ _) as [a e].
    cbn [fst snd coefficients] in *.
    destruct H as (Hlen & _). rewrite Hlen, setNth_length, repeat_length.
    reflexivity.
  - rewrite computeLPCCoefficients_finite by discriminate.
    destruct (length (x :: rest) <? order * 2)%nat; [apply repeat_length |].
    cbv zeta.
    destruct (Rltb _ 1e-10) eqn:Esilent; [apply repeat_length |].
    match type of Esilent with
    | Rltb ?r0 _ = false =>
        assert (Hr0 : 0 < r0)
          by (destruct (Rlt_dec r0 1e-10) as [H | H];
              [rewrite (Rltb_true _ _ H) in Esilent; discriminate | lra]);
        pose proof (levinsonDurbin_invariant order 1
                      (map (fun k => laggedProducts (x :: rest) k
                                     / INR (length (x :: rest) - k))
                         (seq 0 (order + 1)))
                      (setNth 0 1 (repeat 0 (order + 1))) r0 ltac:(lia) Hr0)
          as H
    end.
    cbv zeta in H.
    destruct (levinsonDurbin order 1 _ _ _) as [a e].
    cbn [fst snd coefficients] in *.
    destruct H as (Hlen & _). rewrite Hlen, setNth_length, repeat_length.
    reflexivity.
Qed.

(** X13.  [computeLPCCoefficients] always returns [order + 1]
    coefficients.  For a window that is long enough and whose zeroth
    autocorrelation (the mean square of the window) is a number of at
    least [1e-10], the leading coefficient is 1 and the prediction error
    is a number between [1e-10] and that mean square: the recursion never
    lets the error grow or reach zero. *)
Theorem lpc_model_well_formed (signal : list R) (order : nat) :
  length (coefficients (computeLPCCoefficients signal order))
  = (order + 1)%nat
  /\ ((2 * order <= length signal)%nat ->
      forall r0 : R,
        autocorrelationAt signal 0 = Fin r0 -> 1e-10 <= r0 ->
        nth 0 (coefficients (computeLPCCoefficients signal order)) 0 = 1
        /\ exists e : R,
             error (computeLPCCoefficients signal order) = Fin e
             /\ 1e-10 <= e <= r0).
Proof.
  split; [apply computeLPCCoefficients_length |].
  intros Hlong r0 E Hr0.
  assert (Hne : signal <> []).
  { intros ->. rewrite autocorrelationAt_value in E. discriminate. }
  rewrite autocorrelationAt_value in E.
  replace (0 <? length signal)%nat with true in E
    by (symmetry; apply Nat.ltb_lt; destruct signal;
        [contradiction | cbn; lia]).
  injection E as E.
  rewrite (computeLPCCoefficients_finite signal order Hne).
  replace (length signal <? order * 2)%nat with false
    by (symmetry; apply Nat.ltb_ge; lia).
  cbv zeta.
  replace (nth 0 (map (fun k => laggedProducts signal k
                                / INR (length signal - k))
                    (seq 0 (order + 1))) 0)
    with r0 by (rewrite Nat.add_1_r; cbn [seq map nth]; symmetry; exact E).
  rewrite (Rltb_false r0 1e-10) by lra.
  pose proof (levinsonDurbin_invariant order 1
                (map (fun k => laggedProducts signal k
                               / INR (length signal - k))
                   (seq 0 (order + 1)))
                (setNth 0 1 (repeat 0 (order + 1))) r0
                ltac:(lia) ltac:(lra)) as H.
  cbv zeta in H.
  destruct (levinsonDurbin order 1 _ _ _) as [a e].
  cbn [fst snd coefficients error] in *.
  destruct H as (_ & Hhead & He).
  rewrite nth_setNth_same in Hhead by (rewrite repeat_length; lia).
  split; [exact Hhead |].
  exists (Rmax e 1e-10). split; [reflexivity |].
  split; [apply Rmax_r | apply Rmax_lub; lra].
Qed.

Lemma lpc_model_well_formed_witness :
  nth 0 (coefficients (computeLPCCoefficients [1; 0; 1; 0] 1)) 0 = 1
  /\ exists e : R,
       error (computeLPCCoefficients [1; 0; 1; 0] 1) = Fin e
       /\ 1e-10 <= e <= (0 + 1 * 1 + 0 * 0 + 1 * 1 + 0 * 0) / INR 4.
Proof.
  apply (proj2 (lpc_model_well_formed [1; 0; 1; 0] 1)).
  - cbn. lia.
  - rewrite autocorrelationAt_value. reflexivity.
  - cbn [INR]. lra.
Defined.

Lemma nth_computePredictionError (signal coeffs : list R) (i : nat) :
  (i < length signal)%nat ->
  nth i (computePredictionError signal coeffs) 0
  = if (i <? length coeffs - 1)%nat then 0
    else nth i signal 0
         - sumOver (seq 1 (length coeffs - 1))
             (fun j => nth j coeffs 0 * nth (i - j) signal 0).
Proof.
  intros H. unfold computePredictionError. cbv zeta.
  rewrite (nth_map_seq _ 0 (length signal) i 0 H). reflexivity.
Qed.


(** ** The spectral shape *)

Lemma sumOver_between (indices : list nat) (f g : nat -> R) (a b : R) :
  (forall i, In i indices -> a * g i <= f i <= b * g i) ->
  a * sumOver indices g <= sumOver indices f <= b * sumOver indices g.
Proof.
  induction indices as [| i l IH]; intros H.
  - unfold sumOver. cbn. lra.
  - rewrite !sumOver_cons.
    pose proof (H i (or_introl eq_refl)).
    assert (Hl : forall j, In j l -> a * g j <= f j <= b * g j)
      by (intros j Hj; apply H; right; exact Hj).
    specialize (IH Hl). lra.
Qed.

Lemma sumOver_pos (indices : list nat) (f : nat -> R) :
  indices <> [] -> (forall i, 0 < f i) -> 0 < sumOver indices f.
Proof.
  intros Hne H. destruct indices as [| i l]; [contradiction |].
  rewrite sumOver_cons.
  pose proof (H i). pose proof (sumOver_nonneg l f (fun j => Rlt_le _ _ (H j))).
  lra.
Qed.

Lemma magnitudeOf_pos (db : R) : 0 < magnitudeOf db.
Proof. unfold magnitudeOf. apply Rpower_pos. Qed.

Lemma binFrequency_range (st : Analyser) (freqData : list R) (i : nat) :
  (0 <= sampleRate st)%Z -> (i < length freqData)%nat ->
  0 <= binFrequency st freqData i <= IZR (sampleRate st) / 2.
Proof.
  intros Hr Hi. unfold binFrequency.
  assert (Hn : 0 < INR (length freqData)) by (apply lt_0_INR; lia).
  assert (Hs : 0 <= IZR (sampleRate st)) by (apply IZR_le; exact Hr).
  assert (Hin : 0 <= INR i <= INR (length freqData))
    by (split; [apply pos_INR | apply le_INR; lia]).
  split.
  - apply div_above; [lra | nra].
  - apply div_below; [lra |]. nra.
Qed.

Lemma spectral_denominator_pos (freqData : list R) :
  freqData <> [] ->
  0 < sumOver (seq 0 (length freqData))
        (fun i => magnitudeOf (nth i freqData 0)).
Proof.
  intros Hne. apply sumOver_pos.
  - destruct freqData; [contradiction | discriminate].
  - intros i. apply magnitudeOf_pos.
Qed.

Lemma calculateSpectralCentroid_range (st : Analyser) (freqData : list R) :
  (0 <= sampleRate st)%Z ->
  0 <= calculateSpectralCentroid st freqData <= IZR (sampleRate st) / 2.
Proof.
  intros Hr.
  assert (Hs : 0 <= IZR (sampleRate st)) by (apply IZR_le; exact Hr).
  unfold calculateSpectralCentroid. cbv zeta.
  destruct freqData as [| x rest] eqn:E.
  { cbn. rewrite Rltb_false by lra. lra. }
  rewrite <- E.
  assert (Hne : freqData <> []) by (rewrite E; discriminate).
  pose proof (spectral_denominator_pos freqData Hne) as Hd.
  rewrite (Rltb_true _ _ Hd).
  pose proof (sumOver_between (seq 0 (length freqData))
                (fun i => binFrequency st freqData i
                          * magnitudeOf (nth i freqData 0))
                (fun i => magnitudeOf (nth i freqData 0))
                0 (IZR (sampleRate st) / 2)) as Hb.
  destruct Hb as [Hlo Hhi].
  { intros i Hi. apply in_seq in Hi.
    pose proof (binFrequency_range st freqData i Hr ltac:(lia)).
    pose proof (magnitudeOf_pos (nth i freqData 0)). nra. }
  split.
  - apply div_above; [exact Hd | lra].
  - apply div_below; [exact Hd | lra].
Qed.

(** X14.  For a sample rate that is not negative, the spectral centroid
    is a frequency between 0 and half the sample rate, and the spectral
    spread around any centre in that band is between 0 and half the
    sample rate too; for an empty spectrum both are 0. *)
Theorem spectral_shape_within_band (st : Analyser) (freqData : list R) :
  (0 <= sampleRate st)%Z ->
  let nyquist := IZR (sampleRate st) / 2 in
  0 <= calculateSpectralCentroid st freqData <= nyquist
  /\ (forall c, 0 <= c <= nyquist ->
        0 <= calculateSpectralSpread st freqData c <= nyquist)
  /\ 0 <= calculateSpectralSpread st freqData
            (calculateSpectralCentroid st freqData) <= nyquist
  /\ (freqData = [] ->
      calculateSpectralCentroid st freqData = 0
      /\ forall c, calculateSpectralSpread st freqData c = 0).
Proof.
  intros Hr nyquist.
  assert (Hs : 0 <= IZR (sampleRate st)) by (apply IZR_le; exact Hr).
  assert (Hspread : forall c, 0 <= c <= nyquist ->
            0 <= calculateSpectralSpread st freqData c <= nyquist).
  { intros c Hc. unfold calculateSpectralSpread. cbv zeta.
    destruct freqData as [| x rest] eqn:E.
    { cbn. rewrite Rltb_false by lra. unfold nyquist. lra. }
    rewrite <- E.
    assert (Hne : freqData <> []) by (rewrite E; discriminate).
    pose proof (spectral_denominator_pos freqData Hne) as Hd.
    rewrite (Rltb_true _ _ Hd).
    pose proof (sumOver_between (seq 0 (length freqData))
                  (fun i => (binFrequency st freqData i - c) ^ 2
                            * magnitudeOf (nth i freqData 0))
                  (fun i => magnitudeOf (nth i freqData 0))
                  0 (nyquist * nyquist)) as Hb.
    destruct Hb as [Hlo Hhi].
    { intros i Hi. apply in_seq in Hi.
      pose proof (binFrequency_range st freqData i Hr ltac:(lia)) as Hf.
      fold nyquist in Hf.
      pose proof (magnitudeOf_pos (nth i freqData 0)).
      assert ((binFrequency st freqData i - c) ^ 2 <= nyquist * nyquist)
        by nra.
      assert (0 <= (binFrequency st freqData i - c) ^ 2)
        by (apply pow2_ge_0).
      nra. }
    split; [apply sqrt_pos |].
    assert (Hn : 0 <= nyquist) by (unfold nyquist; lra).
    rewrite <- (sqrt_square nyquist Hn).
    apply sqrt_le_1_alt. apply div_below; [exact Hd | lra]. }
  pose proof (calculateSpectralCentroid_range st freqData Hr) as Hc.
  fold nyquist in Hc.
  split; [exact Hc |]. split; [exact Hspread |].
  split; [apply Hspread; exact Hc |].
  intros ->. split.
  - unfold calculateSpectralCentroid. cbn. rewrite Rltb_false by lra.
    reflexivity.
  - intros c. unfold calculateSpectralSpread. cbn.
    rewrite Rltb_false by lra. reflexivity.
Qed.

Lemma spectral_shape_within_band_witness :
  0 <= calculateSpectralCentroid (analyser (initialState 48000 true))
         [-20; -30; -40] <= IZR 48000 / 2.
Proof.
  apply (spectral_shape_within_band (analyser (initialState 48000 true))
           [-20; -30; -40]).
  cbn. lia.
Defined.


(** ** The loudness tracker, continued *)

Lemma adaptiveThresholdOf_formula (s : R) :
  0.1 <= s <= 60 ->
  adaptiveThresholdOf (Fin s)
  = Fin (Thresholds.confidenceThreshold / Rmax 1.0 (3.0 - s / 20)).
Proof.
  intros Hs. unfold adaptiveThresholdOf. cbv zeta.
  cbn [JS.div]. rdecide. rewrite sub_finite.
  rewrite Math_min_finite, Math_max_finite.
  rewrite (Rmin_right 5.0 (3.0 + - (s / 20))) by lra.
  replace (3.0 + - (s / 20)) with (3.0 - s / 20) by lra.
  assert (Hg : 1.0 <= Rmax 1.0 (3.0 - s / 20) <= 2.995)
    by (split; [apply Rmax_l | apply Rmax_lub; lra]).
  cbn [JS.div]. rewrite (Reqb_false (Rmax 1.0 (3.0 - s / 20)) 0) by lra.
  rewrite Math_min_finite, Math_max_finite.
  unfold Thresholds.confidenceThreshold.
  assert (Hq : 0.217 <= 0.65 / Rmax 1.0 (3.0 - s / 20) <= 0.65).
  { split.
    - apply div_above; [lra | lra].
    - apply div_below; [lra | lra]. }
  rewrite (Rmin_right 1.0 _) by lra.
  rewrite (Rmax_right 0.1 _) by lra.
  reflexivity.
Qed.

(** X15.  Whatever the frame and the history, the adaptive threshold that
    the loudness tracker returns and stores is [0.65 / max(1, 3 - snr /
    20)] for the signal-to-noise ratio it has just computed: a number
    between 0.217 and 0.65, equal to 0.65 from a ratio of 40 dB on.  The
    clamps at 0.1, 1.0 and 5.0 never engage. *)
Theorem adaptive_threshold_formula (l : LoudnessState)
    (timeData : list jsnum) :
  exists s a : R,
    snr (fst (updateDynamicLoudness l timeData)) = Fin s
    /\ infoAdaptiveThreshold (fst (updateDynamicLoudness l timeData)) = Fin a
    /\ adaptiveThreshold (snd (updateDynamicLoudness l timeData)) = Fin a
    /\ a = 0.65 / Rmax 1 (3 - s / 20)
    /\ 0.217 <= a <= 0.65
    /\ (40 <= s -> a = 0.65).
Proof.
  unfold updateDynamicLoudness. cbv zeta. cbn [fst snd].
  destruct (loudnessOf_finite timeData) as [v [-> Hv]].
  destruct (signalToNoiseOf_finite v
              (backgroundNoiseOf (pushLoudness (loudnessHistory l) (Fin v))))
    as [s [-> Hs]].
  rewrite (adaptiveThresholdOf_formula s Hs).
  unfold Thresholds.confidenceThreshold.
  exists s, (0.65 / Rmax 1.0 (3.0 - s / 20)).
  cbn [snr infoAdaptiveThreshold adaptiveThreshold].
  assert (Hg : 1.0 <= Rmax 1.0 (3.0 - s / 20) <= 2.995)
    by (split; [apply Rmax_l | apply Rmax_lub; lra]).
  split; [reflexivity |]. split; [reflexivity |]. split; [reflexivity |].
  split; [replace 1.0 with 1 by lra; replace 3.0 with 3 by lra;
          reflexivity |].
  split.
  - split; [apply div_above | apply div_below]; lra.
  - intros H40. rewrite Rmax_left by lra. lra.
Qed.

Lemma insertSorted_length (x : jsnum) (l : list jsnum) :
  length (insertSorted x l) = S (length l).
Proof.
  induction l as [| y l IH]; [reflexivity |].
  cbn [insertSorted]. destruct ((x - y) >? Fin 0)%js; cbn [length];
    [rewrite IH |]; reflexivity.
Qed.

Lemma sortAscending_length (l : list jsnum) :
  length (sortAscending l) = length l.
Proof.
  unfold sortAscending. induction l as [| x l IH]; [reflexivity |].
  cbn [fold_right length]. rewrite insertSorted_length, IH. reflexivity.
Qed.

(** X16.  The loudness history is a sliding window: a history of 30
    values, as the constructor builds it, stays at 30 values, the oldest
    dropped and the new loudness appended; a shorter history grows by
    one.  With 30 values the background noise level is the fourth
    smallest of the window. *)
Theorem loudness_history_slides (l : LoudnessState) (timeData : list jsnum) :
  let after := snd (updateDynamicLoudness l timeData) in
  let reading := loudnessDb (fst (updateDynamicLoudness l timeData)) in
  ((length (loudnessHistory l) < 30)%nat ->
   loudnessHistory after = loudnessHistory l ++ [reading])
  /\ (length (loudnessHistory l) = 30%nat ->
      loudnessHistory after = tl (loudnessHistory l) ++ [reading]
      /\ length (loudnessHistory after) = 30%nat
      /\ backgroundNoiseLevel after
         = nth 3 (sortAscending (loudnessHistory after)) NaN).
Proof.
  cbv zeta. unfold updateDynamicLoudness. cbv zeta.
  cbn [fst snd loudnessHistory loudnessDb backgroundNoiseLevel].
  unfold pushLoudness. cbv zeta. rewrite length_app. cbn [length].
  split.
  - intros H.
    replace (30 <? length (loudnessHistory l) + 1)%nat with false
      by (symmetry; apply Nat.ltb_ge; lia).
    reflexivity.
  - intros H.
    replace (30 <? length (loudnessHistory l) + 1)%nat with true
      by (symmetry; apply Nat.ltb_lt; lia).
    destruct (loudnessHistory l) as [| x rest] eqn:E; [cbn in H; lia |].
    cbn [app tl]. cbn [length] in H.
    assert (Hlen : length (rest ++ [loudnessOf timeData]) = 30%nat)
      by (rewrite length_app; cbn [length]; lia).
    split; [reflexivity |]. split; [exact Hlen |].
    unfold backgroundNoiseOf. cbv zeta.
    rewrite sortAscending_length, Hlen. reflexivity.
Qed.

Lemma loudness_history_slides_witness :
  let l := loudnessState (initialState 48000 true) in
  let after := snd (updateDynamicLoudness l [Fin 0.5; Fin (-0.5)]) in
  let reading := loudnessDb (fst (updateDynamicLoudness l [Fin 0.5; Fin (-0.5)])) in
  loudnessHistory after = tl (loudnessHistory l) ++ [reading]
  /\ length (loudnessHistory after) = 30%nat
  /\ backgroundNoiseLevel after
     = nth 3 (sortAscending (loudnessHistory after)) NaN.
Proof.
  intros l after reading.
  apply (proj2 (loudness_history_slides l [Fin 0.5; Fin (-0.5)])).
  reflexivity.
Defined.

(** ** The spectral flux between two frames *)

Lemma previousSpectrum_initFreqBinCache (a : Analyser) :
  previousSpectrum (initFreqBinCache a) = previousSpectrum a.
Proof.
  unfold initFreqBinCache.
  destruct (freqBinCache a); [destruct (cacheSampleRate a =? sampleRate a)%Z |];
    reflexivity.
Qed.

Lemma previousSpectrum_after_frame (a : Analyser) (info : LoudnessInfo)
    (ratio threshold : R) (timeData freqData : list R) :
  previousSpectrum (snd (analyseFrame a info ratio threshold timeData
                           freqData))
  = freqData ++ skipn (length freqData) (previousSpectrum a).
Proof.
  rewrite analyseFrame_state. unfold storeSpectrum.
  cbn [previousSpectrum withBuffers].
  rewrite previousSpectrum_initFreqBinCache. reflexivity.
Qed.

Lemma flux_of_frame (a : Analyser) (info : LoudnessInfo)
    (ratio threshold : R) (timeData freqData : list R) :
  flux (fst (analyseFrame a info ratio threshold timeData freqData))
  = if (0 <? length (previousSpectrum a))%nat
    then
      sumOver (seq 0 (length freqData))
        (fun i => Rmax 0 (nth i freqData 0 - nth i (previousSpectrum a) 0))
      / INR (length freqData)
    else 0.
Proof.
  unfold analyseFrame. cbv zeta. cbn [fst flux].
  rewrite bandEnergiesOf_state. unfold spectralFluxOf.
  rewrite previousSpectrum_initFreqBinCache. reflexivity.
Qed.

(** On finite bins the loop over decibel values adds up reals. *)
Lemma flux_sum_finite (h : nat -> R) (g : nat -> jsnum)
    (indices : list nat) :
  forall acc : R,
    (forall i, In i indices -> g i = Fin (h i)) ->
    fold_left (fun flux i => (flux + g i)%js) indices (Fin acc)
    = Fin (fold_left (fun flux i => flux + h i) indices acc).
Proof.
  induction indices as [| i rest IH]; intros acc H; [reflexivity |].
  cbn [fold_left]. rewrite (H i) by (left; reflexivity).
  cbn [JS.add]. apply IH. intros j Hj. apply H. right. exact Hj.
Qed.

Lemma nth_map_Fin (l : list R) (i : nat) :
  (i < length l)%nat -> nth i (map Fin l) NaN = Fin (nth i l 0).
Proof.
  intros H. rewrite (nth_indep _ NaN (Fin 0)) by (rewrite length_map; exact H).
  apply map_nth.
Qed.

Lemma spectralFluxOfBins_finite (previous current : list R) :
  length current = length previous -> current <> [] ->
  spectralFluxOfBins (map Fin previous) (map Fin current)
  = Fin (sumOver (seq 0 (length current))
           (fun i => Rmax 0 (nth i current 0 - nth i previous 0))
         / INR (length current)).
Proof.
  intros Hlen Hne.
  assert (Hpos : (0 < length current)%nat)
    by (destruct current; [contradiction | cbn; lia]).
  unfold spectralFluxOfBins. rewrite !length_map.
  replace (0 <? length previous)%nat with true
    by (symmetry; apply Nat.ltb_lt; lia).
  rewrite (flux_sum_finite
             (fun i => Rmax 0 (nth i current 0 - nth i previous 0))).
  - cbn [JS.div].
    rewrite Reqb_false
      by (apply Rgt_not_eq; apply lt_0_INR; exact Hpos).
    reflexivity.
  - intros i Hi. apply in_seq in Hi.
    rewrite !nth_map_Fin by lia.
    rewrite sub_finite, Math_max_finite. reflexivity.
Qed.

(** One bin that does not rise adds 0 to the flux, or NaN when it is at
    -Infinity in both spectra. *)
Lemma bin_without_rise (p c : jsnum) :
  decibel p = true -> decibel c = true -> (p <? c)%js = false ->
  Math_max (Fin 0) (c - p)%js
  = match p, c with NInf, NInf => NaN | _, _ => Fin 0 end.
Proof.
  destruct p as [p | | |], c as [c | | |]; cbn [decibel];
    try discriminate; intros _ _ H; cbn [JS.lt] in H; try discriminate.
  - rewrite sub_finite, Math_max_finite.
    assert (c <= p).
    { destruct (Rlt_dec p c) as [Hlt | Hge]; [| lra].
      rewrite (Rltb_true _ _ Hlt) in H. discriminate. }
    rewrite Rmax_left by lra. reflexivity.
  - reflexivity.
  - reflexivity.
Qed.

Lemma flux_sum_without_rise (g : nat -> jsnum) (silent : nat -> bool)
    (indices : list nat) :
  (forall i, In i indices -> g i = if silent i then NaN else Fin 0) ->
  (forall acc : R,
      fold_left (fun flux i => (flux + g i)%js) indices (Fin acc)
      = if existsb silent indices then NaN else Fin acc)
  /\ fold_left (fun flux i => (flux + g i)%js) indices NaN = NaN.
Proof.
  induction indices as [| i rest IH]; intros H.
  - split; [intros acc |]; reflexivity.
  - destruct IH as [IH1 IH2];
      [intros j Hj; apply H; right; exact Hj |].
    cbn [fold_left existsb]. rewrite (H i) by (left; reflexivity).
    split.
    + intros acc. destruct (silent i); cbn [JS.add orb].
      * exact IH2.
      * replace (acc + 0) with acc by lra. apply IH1.
    + cbn [JS.add]. destruct (silent i); exact IH2.
Qed.

(** X17.  The spectral flux counts rises only, against the spectrum of
    the frame before.  When no bin of a frame is above the same bin of
    the previous frame (a steady or decaying spectrum), the flux is 0,
    unless some bin is at -Infinity in both frames: then the flux is NaN,
    the difference of the two.  In both cases the flux method does not
    detect.  On spectra of finite values the analysed frame holds this
    flux, and for the second of two such frames it is 0, with confidence
    0, at every sensitivity. *)
Theorem falling_spectrum_has_no_flux :
  (forall previous current : list jsnum,
      length previous = length current -> current <> [] ->
      Forall (fun x => decibel x = true) previous ->
      Forall (fun x => decibel x = true) current ->
      (forall i, (i < length current)%nat ->
         (nth i previous NaN <? nth i current NaN)%js = false) ->
      spectralFluxOfBins previous current
      = (if existsb (silentInBoth previous current)
              (seq 0 (length current))
         then NaN else Fin 0)
      /\ forall threshold : R, 0 < threshold ->
           (spectralFluxOfBins previous current >? Fin threshold)%js
           = false)
  /\ (forall (a : Analyser) (info : LoudnessInfo) (ratio threshold : R)
             (timeData freqData : list R),
        length freqData = length (previousSpectrum a) -> freqData <> [] ->
        spectralFluxOfBins (map Fin (previousSpectrum a)) (map Fin freqData)
        = Fin (flux (fst (analyseFrame a info ratio threshold timeData
                            freqData))))
  /\ (forall (a : Analyser) (info1 info2 : LoudnessInfo)
             (r1 t1 r2 t2 s : R)
             (timeData1 freqData1 timeData2 freqData2 : list R),
        length freqData1 = length (previousSpectrum a) ->
        length freqData2 = length freqData1 ->
        (forall i, nth i freqData2 0 <= nth i freqData1 0) ->
        let first := analyseFrame a info1 r1 t1 timeData1 freqData1 in
        let second :=
          analyseFrame (snd first) info2 r2 t2 timeData2 freqData2 in
        flux (fst second) = 0
        /\ methodConfidence (spectralFluxMethod s (fst second)) = 0
        /\ methodDetected (spectralFluxMethod s (fst second)) = false).
Proof.
  split; [| split].
  - intros previous current Hlen Hne Hprev Hcur Hfall.
    assert (Hpos : (0 < length current)%nat)
      by (destruct current; [contradiction | cbn; lia]).
    assert (Hbin : forall i, In i (seq 0 (length current)) ->
               Math_max (Fin 0) (nth i current NaN - nth i previous NaN)%js
               = if silentInBoth previous current i then NaN else Fin 0).
    { intros i Hi. apply in_seq in Hi.
      rewrite bin_without_rise.
      - unfold silentInBoth.
        destruct (nth i previous NaN), (nth i current NaN); reflexivity.
      - apply (proj1 (Forall_forall _ _) Hprev). apply nth_In. lia.
      - apply (proj1 (Forall_forall _ _) Hcur). apply nth_In. lia.
      - apply Hfall. lia. }
    destruct (flux_sum_without_rise _ (silentInBoth previous current) _ Hbin)
      as [Hsum _].
    assert (Hflux : spectralFluxOfBins previous current
                    = if existsb (silentInBoth previous current)
                           (seq 0 (length current))
                      then NaN else Fin 0).
    { unfold spectralFluxOfBins.
      replace (0 <? length previous)%nat with true
        by (symmetry; apply Nat.ltb_lt; lia).
      rewrite (Hsum 0).
      destruct (existsb _ _); [reflexivity |].
      cbn [JS.div].
      rewrite Reqb_false
        by (apply Rgt_not_eq; apply lt_0_INR; exact Hpos).
      f_equal. unfold Rdiv. apply Rmult_0_l. }
    split; [exact Hflux |].
    intros threshold Ht. rewrite Hflux.
    destruct (existsb _ _); [reflexivity |].
    cbn [JS.gt JS.lt]. apply Rltb_false. lra.
  - intros a info ratio threshold timeData freqData Hlen Hne.
    rewrite flux_of_frame.
    replace (0 <? length (previousSpectrum a))%nat with true
      by (symmetry; apply Nat.ltb_lt; rewrite <- Hlen;
          destruct freqData; [contradiction | cbn; lia]).
    apply spectralFluxOfBins_finite; assumption.
  - intros a info1 info2 r1 t1 r2 t2 s timeData1 freqData1 timeData2
      freqData2 _ Hlen Hle first second.
    assert (Hflux : flux (fst second) = 0).
    { unfold second. rewrite flux_of_frame.
      unfold first. rewrite previousSpectrum_after_frame.
      destruct (0 <? _)%nat; [| reflexivity].
      rewrite (sumOver_seq_constant _ 0 (length freqData2) 0);
        [unfold Rdiv; rewrite Rmult_0_r; apply Rmult_0_l |].
      intros i Hi.
      rewrite app_nth1 by lia. specialize (Hle i).
      rewrite Rmax_left by lra. reflexivity. }
    split; [exact Hflux |].
    cbn [spectralFluxMethod methodConfidence methodDetected].
    rewrite Hflux.
    assert (Ht : 0 < adaptiveSpectralThresholdOf s
                       (signalToNoise (fst second))).
    { unfold adaptiveSpectralThresholdOf. cbv zeta.
      apply scaled_threshold_pos. unfold Thresholds.spectralFlux. lra. }
    split.
    + unfold Rdiv. rewrite Rmult_0_l. apply Rmin_right. lra.
    + apply Rltb_false. lra.
Qed.

Lemma falling_spectrum_has_no_flux_witness :
  spectralFluxOfBins [NInf; Fin (-20)] [NInf; Fin (-30)] = NaN
  /\ spectralFluxOfBins [Fin (-10); Fin (-20)] [NInf; Fin (-30)] = Fin 0
  /\ (spectralFluxOfBins [NInf; Fin (-20)] [NInf; Fin (-30)] >? Fin 0.16)%js
     = false.
Proof.
  assert (Hfirst :
            spectralFluxOfBins [NInf; Fin (-20)] [NInf; Fin (-30)] = NaN
            /\ forall threshold : R, 0 < threshold ->
                 (spectralFluxOfBins [NInf; Fin (-20)] [NInf; Fin (-30)]
                  >? Fin threshold)%js = false).
  { apply (proj1 falling_spectrum_has_no_flux
             [NInf; Fin (-20)] [NInf; Fin (-30)]).
    - reflexivity.
    - discriminate.
    - repeat constructor.
    - repeat constructor.
    - intros [| [| i]] Hi; cbn [nth JS.lt];
        [reflexivity | apply Rltb_false; lra | cbn in Hi; lia]. }
  assert (Hsecond :
            spectralFluxOfBins [Fin (-10); Fin (-20)] [NInf; Fin (-30)]
            = Fin 0).
  { apply (proj1 falling_spectrum_has_no_flux
             [Fin (-10); Fin (-20)] [NInf; Fin (-30)]).
    - reflexivity.
    - discriminate.
    - repeat constructor.
    - repeat constructor.
    - intros [| [| i]] Hi; cbn [nth JS.lt];
        [reflexivity | apply Rltb_false; lra | cbn in Hi; lia]. }
  split; [exact (proj1 Hfirst) |]. split; [exact Hsecond |].
  apply (proj2 Hfirst). lra.
Defined.


(** ** Segment interpolation *)

Lemma relativeIndex_inside (len i : Z) :
  (0 <= i <= len)%Z -> relativeIndex len i = i.
Proof.
  intros H. unfold relativeIndex.
  replace (i <? 0)%Z with false by (symmetry; apply Z.ltb_ge; lia).
  apply Z.min_l. lia.
Qed.

Lemma slice_inside (buffer : list R) (a b : Z) :
  (0 <= a <= b)%Z -> (b <= Z.of_nat (length buffer))%Z ->
  length (slice buffer a b) = Z.to_nat (b - a)
  /\ forall i, (i < Z.to_nat (b - a))%nat ->
       nth i (slice buffer a b) 0 = nth (Z.to_nat a + i) buffer 0.
Proof.
  intros Hab Hb. unfold slice. cbv zeta.
  rewrite !relativeIndex_inside by lia.
  split.
  - rewrite length_firstn, length_skipn. lia.
  - intros i Hi. rewrite nth_firstn.
    replace (i <? Z.to_nat (b - a))%nat with true
      by (symmetry; apply Nat.ltb_lt; exact Hi).
    apply nth_skipn.
Qed.

Lemma between_ends (pre post ratio : R) :
  0 <= ratio <= 1 ->
  Rmin pre post <= pre * (1 - ratio) + post * ratio <= Rmax pre post.
Proof.
  intros H. unfold Rmin, Rmax. destruct (Rle_dec pre post); nra.
Qed.

Lemma interpolateAudioSegment_inside (startIdx endIdx : Z)
    (buffer : list R) :
  (0 <= startIdx)%Z -> (startIdx < endIdx)%Z ->
  (endIdx <= Z.of_nat (length buffer))%Z ->
  let before :=
    if (startIdx =? 0)%Z then 0
    else nth (Z.to_nat (startIdx - 1)) buffer 0 in
  let after := nth (Z.to_nat endIdx) buffer 0 in
  exists segment,
    interpolateAudioSegment startIdx endIdx buffer = Some segment
    /\ length segment = Z.to_nat (endIdx - startIdx)
    /\ nth 0 segment 0 = before
    /\ forall i, (i < length segment)%nat ->
         nth i segment 0
         = before * (1 - INR i / IZR (endIdx - startIdx))
           + after * (INR i / IZR (endIdx - startIdx))
         /\ Rmin before after <= nth i segment 0 <= Rmax before after.
Proof.
  intros Hs Hlt He before after.
  unfold interpolateAudioSegment. cbv zeta.
  replace (endIdx - startIdx <? 0)%Z with false
    by (symmetry; apply Z.ltb_ge; lia).
  destruct (slice_inside buffer (Z.max 0 (startIdx - (endIdx - startIdx)))
              startIdx ltac:(lia) ltac:(lia)) as [Hprelen Hpre].
  destruct (slice_inside buffer endIdx
              (Z.min (Z.of_nat (length buffer))
                 (endIdx + (endIdx - startIdx)))
              ltac:(lia) ltac:(lia)) as [Hpostlen Hpost].
  set (preContext := slice buffer _ startIdx) in *.
  set (postContext := slice buffer endIdx _) in *.
  assert (Ebefore :
            (if (0 <? length preContext)%nat
             then nth (length preContext - 1) preContext 0 else 0)
            = before).
  { unfold before. destruct (Z.eqb_spec startIdx 0) as [E | E].
    - replace (0 <? length preContext)%nat with false; [reflexivity |].
      symmetry. apply Nat.ltb_ge. rewrite Hprelen. lia.
    - replace (0 <? length preContext)%nat with true
        by (symmetry; apply Nat.ltb_lt; rewrite Hprelen; lia).
      rewrite Hpre by lia. f_equal. rewrite Hprelen. lia. }
  assert (Eafter :
            (if (0 <? length postContext)%nat
             then nth 0 postContext 0 else 0)
            = after).
  { unfold after.
    destruct (Z.eq_dec endIdx (Z.of_nat (length buffer))) as [E | E].
    - replace (0 <? length postContext)%nat with false.
      + symmetry. apply nth_overflow. lia.
      + symmetry. apply Nat.ltb_ge. rewrite Hpostlen. lia.
    - replace (0 <? length postContext)%nat with true
        by (symmetry; apply Nat.ltb_lt; rewrite Hpostlen; lia).
      rewrite Hpost by lia. f_equal. lia. }
  rewrite Ebefore, Eafter.
  eexists. split; [reflexivity |].
  assert (Hlen : length
                   (map (fun i =>
                           before * (1 - INR i / IZR (endIdx - startIdx))
                           + after * (INR i / IZR (endIdx - startIdx)))
                      (seq 0 (Z.to_nat (endIdx - startIdx))))
                 = Z.to_nat (endIdx - startIdx))
    by (rewrite length_map, length_seq; reflexivity).
  split; [exact Hlen |].
  assert (Hseg : 0 < IZR (endIdx - startIdx)) by (apply IZR_lt; lia).
  assert (Hnth : forall i, (i < Z.to_nat (endIdx - startIdx))%nat ->
            nth i
              (map (fun i =>
                      before * (1 - INR i / IZR (endIdx - startIdx))
                      + after * (INR i / IZR (endIdx - startIdx)))
                 (seq 0 (Z.to_nat (endIdx - startIdx)))) 0
            = before * (1 - INR i / IZR (endIdx - startIdx))
              + after * (INR i / IZR (endIdx - startIdx))).
  { intros i Hi.
    rewrite (nth_map_seq _ 0 (Z.to_nat (endIdx - startIdx)) i 0 Hi).
    reflexivity. }
  split.
  - rewrite Hnth by lia. cbn [INR]. unfold Rdiv. rewrite Rmult_0_l. lra.
  - intros i Hi. rewrite Hlen in Hi. rewrite (Hnth i Hi).
    split; [reflexivity |].
    apply between_ends.
    assert (Hi' : INR i <= IZR (endIdx - startIdx)).
    { rewrite INR_IZR_INZ. apply IZR_le. lia. }
    pose proof (pos_INR i).
    split; [apply div_above | apply div_below]; lra.
Qed.

(** X18.  [interpolateAudioSegment] over a segment inside the buffer
    returns one sample per index of the segment, on the straight line
    from the sample just before the segment (0 at the start of the
    buffer) towards the sample just after it (0 at the end of the
    buffer): the first sample equals the one before the segment, and
    every sample lies between the two neighbours.  An empty segment gives
    an empty result, and a segment whose end lies before its start makes
    the function throw (a typed array of negative length). *)
Theorem interpolation_between_neighbours (startIdx endIdx : Z)
    (buffer : list R) :
  ((0 <= startIdx)%Z -> (startIdx < endIdx)%Z ->
   (endIdx <= Z.of_nat (length buffer))%Z ->
   let before :=
     if (startIdx =? 0)%Z then 0
     else nth (Z.to_nat (startIdx - 1)) buffer 0 in
   let after := nth (Z.to_nat endIdx) buffer 0 in
   exists segment,
     interpolateAudioSegment startIdx endIdx buffer = Some segment
     /\ length segment = Z.to_nat (endIdx - startIdx)
     /\ nth 0 segment 0 = before
     /\ forall i, (i < length segment)%nat ->
          nth i segment 0
          = before * (1 - INR i / IZR (endIdx - startIdx))
            + after * (INR i / IZR (endIdx - startIdx))
          /\ Rmin before after <= nth i segment 0 <= Rmax before after)
  /\ (endIdx = startIdx ->
      interpolateAudioSegment startIdx endIdx buffer = Some [])
  /\ ((endIdx < startIdx)%Z ->
      interpolateAudioSegment startIdx endIdx buffer = None).
Proof.
  split; [exact (interpolateAudioSegment_inside startIdx endIdx buffer) |].
  unfold interpolateAudioSegment. cbv zeta. split.
  - intros ->. rewrite Z.sub_diag. reflexivity.
  - intros H.
    replace (endIdx - startIdx <? 0)%Z with true
      by (symmetry; apply Z.ltb_lt; lia).
    reflexivity.
Qed.

Lemma interpolation_between_neighbours_witness :
  exists segment,
    interpolateAudioSegment 1 3 [0.5; 9; 9; -0.5] = Some segment
    /\ length segment = 2%nat
    /\ nth 0 segment 0 = 0.5.
Proof.
  destruct (proj1 (interpolation_between_neighbours 1 3 [0.5; 9; 9; -0.5]))
    as (segment & E & Hlen & Hfirst & _); [lia | lia | cbn; lia |].
  exists segment. repeat split; assumption.
Defined.


(** ** The processing switch and the store *)

Lemma ownProperty_assignOwn_same (settings : list (string * bool))
    (h : string) (v : bool) :
  ownProperty (assignOwn settings h v) h = Some v.
Proof.
  induction settings as [| [k w] rest IH]; cbn [assignOwn ownProperty].
  - rewrite String.eqb_refl. reflexivity.
  - destruct (String.eqb k h) eqn:E; cbn [ownProperty]; rewrite E;
      [reflexivity | exact IH].
Qed.

Lemma ownProperty_assignOwn_other (settings : list (string * bool))
    (h other : string) (v : bool) :
  other <> h ->
  ownProperty (assignOwn settings h v) other = ownProperty settings other.
Proof.
  intros Hne.
  induction settings as [| [k w] rest IH]; cbn [assignOwn ownProperty].
  - destruct (String.eqb_spec h other) as [E | E]; [congruence | reflexivity].
  - destruct (String.eqb_spec k h) as [E | E]; cbn [ownProperty].
    + subst k. destruct (String.eqb_spec h other); [congruence | reflexivity].
    + rewrite IH. reflexivity.
Qed.

Lemma loadSettings_switch (inst : Instance) (data : Storage) (t : R) :
  processingEnabled (core (loadSettings inst data t))
  = storedSwitch (hostname inst) data.
Proof.
  unfold loadSettings. cbv zeta.
  destruct (storedDebugEnabled data) as [[|] |]; reflexivity.
Qed.

Lemma storedSwitch_after_site_toggle (host : string) (data : Storage)
    (enabled : bool) :
  (host <> "__proto__"%string ->
   storedSwitch host (storeSwitch host data enabled false) = enabled)
  /\ (forall other, other <> host ->
        storedSwitch other (storeSwitch host data enabled false)
        = storedSwitch other data)
  /\ (host = "__proto__"%string ->
      match storedSiteSettings data with
      | Some settings => ownProperty settings host = None
      | None => True
      end ->
      storedSwitch host (storeSwitch host data enabled false) = true
      /\ storedSwitch host data = true).
Proof.
  unfold storedSwitch, storeSwitch. cbv zeta.
  cbn [storedSiteSettings storedProcessingEnabled].
  unfold siteLookup, siteAssign.
  set (settings := match storedSiteSettings data with
                   | Some s => s
                   | None => []
                   end).
  split; [| split].
  - intros Hne.
    destruct (String.eqb_spec host "__proto__"); [contradiction |].
    destruct (ownProperty settings host); rewrite ownProperty_assignOwn_same;
      reflexivity.
  - intros other Hne.
    destruct (ownProperty settings host);
      [rewrite ownProperty_assignOwn_other by exact Hne; reflexivity |].
    destruct (String.eqb host "__proto__"); [reflexivity |].
    rewrite ownProperty_assignOwn_other by exact Hne. reflexivity.
  - intros -> Hown.
    assert (E : ownProperty settings "__proto__" = None)
      by (unfold settings; destruct (storedSiteSettings data);
          [exact Hown | reflexivity]).
    rewrite E. cbn [String.eqb Ascii.eqb Bool.eqb]. rewrite E.
    split; reflexivity.
Qed.

(** X19.  The switch of a site survives a reload: after the popup's
    [toggleProcessing] message on a host, a new instance on that host
    loads the toggled value, whatever else the store holds, and the
    switches of all other hosts read as before.  The one exception is a
    host named [__proto__] without an entry of its own in the store: the
    assignment stores nothing for it, and a new instance comes up
    enabled, before the message as after it. *)
Theorem site_switch_survives_reload (inst : Instance) (data : Storage)
    (currentTime laterTime : R) (rate : Z) (enabled : bool) :
  let host := hostname inst in
  let data' :=
    snd (onPopupMessage (Some inst) data currentTime
           (toggleProcessingMessage enabled)) in
  (host <> "__proto__"%string ->
   processingEnabled
     (core (loadSettings (newInstance rate host) data' laterTime))
   = enabled)
  /\ (forall other, other <> host ->
        processingEnabled
          (core (loadSettings (newInstance rate other) data' laterTime))
        = processingEnabled
            (core (loadSettings (newInstance rate other) data laterTime)))
  /\ (host = "__proto__"%string ->
      match storedSiteSettings data with
      | Some settings => ownProperty settings host = None
      | None => True
      end ->
      processingEnabled
        (core (loadSettings (newInstance rate host) data' laterTime))
      = true
      /\ processingEnabled
           (core (loadSettings (newInstance rate host) data laterTime))
         = true).
Proof.
  cbv zeta. cbn [onPopupMessage toggleProcessing snd].
  rewrite !loadSettings_switch.
  cbn [hostname newInstance].
  destruct (storedSwitch_after_site_toggle (hostname inst) data enabled)
    as (H1 & H2 & H3).
  split; [exact H1 |]. split; [| exact H3].
  intros other Hne. rewrite !loadSettings_switch. cbn [hostname newInstance].
  apply H2. exact Hne.
Qed.

Lemma site_switch_survives_reload_witness :
  processingEnabled
    (core (loadSettings (newInstance 48000 "example.org")
             (snd (onPopupMessage
                     (Some (newInstance 48000 "example.org"))
                     emptyStorage 1 (toggleProcessingMessage false)))
             2))
  = false.
Proof.
  apply (proj1 (site_switch_survives_reload
                  (newInstance 48000 "example.org") emptyStorage 1 2 48000
                  false)).
  cbn. discriminate.
Defined.


(** ** The analysis loop *)

Lemma analyzeAudio_step (inst inst' : Instance) (t : Tick)
    (result : option DetectionResult) :
  analyzeAudio inst t = Some (result, inst') ->
  (skipped inst result inst'
   /\ (frameCounter inst' = frameCounter inst
       \/ frameCounter inst' = S (frameCounter inst)))
  \/ (S (frameCounter inst) mod 3 = 0%nat
      /\ frameCounter inst' = S (frameCounter inst)
      /\ lastProcessingTime inst' = tickTime t
      /\ 1000 / 60 <= tickTime t - lastProcessingTime inst).
Proof.
  unfold analyzeAudio, skipped.
  destruct (contextRunning t); cbn [negb].
  2:{ intros H. injection H as <- <-. left. auto. }
  cbv zeta. cbn [frameCounter withFrameCounter lastProcessingTime].
  unfold processingInterval, targetProcessingRate.
  destruct (S (frameCounter inst) mod 3 =? 0)%nat eqn:Emod; cbn [negb].
  2:{ intros H. injection H as <- <-. left.
      cbn [core frameCounter withFrameCounter]. auto. }
  apply Nat.eqb_eq in Emod.
  destruct (Rlt_dec (tickTime t - lastProcessingTime inst) (1000 / 60))
    as [Hlt | Hge].
  { rewrite (Rltb_true _ _ Hlt). intros H. injection H as <- <-. left.
    cbn [core frameCounter withFrameCounter]. auto. }
  rewrite (Rltb_false _ _) by lra.
  destruct (detectMouthClick _ _ _ _) as [[[r st] | st] |];
    [| | discriminate]; intros H; injection H as <- <-; right;
    cbn [frameCounter lastProcessingTime withCore withLastProcessingTime
         withFrameCounter];
    (split; [exact Emod |]); (split; [reflexivity |]);
    (split; [reflexivity | lra]).
Qed.

(** X20.  The loop processes at most every third call: of any three
    consecutive calls of [analyzeAudio], at least two are skipped, that
    is, return [null] and leave the detector untouched. *)
Theorem two_of_three_calls_are_skipped (inst i1 i2 i3 : Instance)
    (t1 t2 t3 : Tick) (r1 r2 r3 : option DetectionResult) :
  analyzeAudio inst t1 = Some (r1, i1) ->
  analyzeAudio i1 t2 = Some (r2, i2) ->
  analyzeAudio i2 t3 = Some (r3, i3) ->
  (skipped inst r1 i1 /\ skipped i1 r2 i2)
  \/ (skipped inst r1 i1 /\ skipped i2 r3 i3)
  \/ (skipped i1 r2 i2 /\ skipped i2 r3 i3).
Proof.
  intros H1 H2 H3.
  apply analyzeAudio_step in H1, H2, H3.
  destruct H1 as [[S1 C1] | (M1 & C1 & _)];
    destruct H2 as [[S2 C2] | (M2 & C2 & _)];
    destruct H3 as [[S3 C3] | (M3 & C3 & _)];
    try (left; split; assumption);
    try (right; left; split; assumption);
    try (right; right; split; assumption);
    exfalso.
  - (* second and third processed *)
    rewrite C2 in M3.
    pose proof (Nat.div_mod_eq (S (frameCounter i1)) 3).
    pose proof (Nat.div_mod_eq (S (S (frameCounter i1))) 3).
    lia.
  - (* first and third processed *)
    pose proof (Nat.div_mod_eq (S (frameCounter inst)) 3).
    pose proof (Nat.div_mod_eq (S (frameCounter i2)) 3).
    destruct C2 as [C2 | C2]; rewrite C2, C1 in *; lia.
  - (* first and second processed *)
    rewrite C1 in M2.
    pose proof (Nat.div_mod_eq (S (frameCounter inst)) 3).
    pose proof (Nat.div_mod_eq (S (S (frameCounter inst))) 3).
    lia.
  - rewrite C1 in M2.
    pose proof (Nat.div_mod_eq (S (frameCounter inst)) 3).
    pose proof (Nat.div_mod_eq (S (S (frameCounter inst))) 3).
    lia.
Qed.

Lemma two_of_three_calls_are_skipped_witness :
  let inst :=
    withCore (newInstance 48000 "example.org") (initialState 48000 true) in
  let tick time :=
    mkTick true time (mkEnv time (time / 1000) None None)
      (repeat 0 frequencyBinCount) (repeat 0 frequencyBinCount) in
  let i1 := withFrameCounter inst 1 in
  let i2 := withFrameCounter i1 2 in
  exists r i3,
    analyzeAudio inst (tick 1000) = Some (None, i1)
    /\ analyzeAudio i1 (tick 1017) = Some (None, i2)
    /\ analyzeAudio i2 (tick 1034) = Some (Some r, i3)
    /\ frameCounter i3 = 3%nat
    /\ ((skipped inst None i1 /\ skipped i1 None i2)
        \/ (skipped inst None i1 /\ skipped i2 (Some r) i3)
        \/ (skipped i1 None i2 /\ skipped i2 (Some r) i3)).
Proof.
  intros inst tick i1 i2.
  destruct (quiet_tick_without_flux (initialState 48000 true)
              (mkEnv 1034 (1034 / 1000) None None) 0 0 initialState_quiet
              ltac:(lra)) as (r & st' & E & _).
  assert (E1 : analyzeAudio inst (tick 1000) = Some (None, i1))
    by (apply analyzeAudio_counted; cbn; lia || reflexivity).
  assert (E2 : analyzeAudio i1 (tick 1017) = Some (None, i2))
    by (apply analyzeAudio_counted; cbn; lia || reflexivity).
  assert (E3 : analyzeAudio i2 (tick 1034)
               = Some (Some r,
                       withCore
                         (withLastProcessingTime (withFrameCounter i2 3)
                            1034) st')).
  { rewrite analyzeAudio_processed by (cbn; first [reflexivity | lra]).
    cbv zeta.
    cbn [core withFrameCounter withCore newInstance tick tickEnv tickTimeData
         tickFreqData tickTime frameCounter inst i1 i2].
    rewrite E. reflexivity. }
  exists r. eexists.
  split; [exact E1 |]. split; [exact E2 |]. split; [exact E3 |].
  split; [reflexivity |].
  exact (two_of_three_calls_are_skipped inst i1 i2 _ (tick 1000) (tick 1017)
           (tick 1034) None None (Some r) E1 E2 E3).
Defined.

Lemma analyzeAudio_switched_off (inst : Instance) (t : Tick) :
  processingEnabled (core inst) = false ->
  exists result inst',
    analyzeAudio inst t = Some (result, inst')
    /\ core inst' = core inst
    /\ (result = None \/ result = Some disabledResult).
Proof.
  intros Hoff. unfold analyzeAudio.
  destruct (contextRunning t); cbn [negb].
  2:{ exists None, inst. auto. }
  cbv zeta.
  destruct (negb _).
  { eexists. eexists. split; [reflexivity |].
    cbn [core withFrameCounter]. auto. }
  destruct (Rltb _ _).
  { eexists. eexists. split; [reflexivity |].
    cbn [core withFrameCounter]. auto. }
  cbn [core withLastProcessingTime withFrameCounter].
  unfold detectMouthClick. rewrite Hoff. cbn [negb].
  eexists. eexists. split; [reflexivity |]. cbn [core withCore]. auto.
Qed.

Lemma runDetection_switched_off (ticks : list Tick) :
  forall inst : Instance,
    processingEnabled (core inst) = false ->
    exists results final,
      runDetection inst ticks = Some (results, final)
      /\ core final = core inst
      /\ length results = length ticks
      /\ Forall (fun result =>
                   result = None \/ result = Some disabledResult) results.
Proof.
  induction ticks as [| t rest IH]; intros inst Hoff.
  - exists [], inst. repeat split. constructor.
  - destruct (analyzeAudio_switched_off inst t Hoff)
      as (result & inst' & E & Hcore & Hres).
    destruct (IH inst' ltac:(rewrite Hcore; exact Hoff))
      as (results & final & E' & Hcore' & Hlen & Hall).
    exists (result :: results), final.
    cbn [runDetection]. rewrite E, E'.
    split; [reflexivity |]. split; [congruence |].
    split; [cbn [length]; congruence |].
    constructor; assumption.
Qed.

(** X21.  Switching the processing off takes effect at once and lasts:
    [toggleProcessing(false)] cancels the scheduled gain changes and sets
    the gain to 1.0 at the current audio time, and every later run of the
    loop returns (no call is outside the model or throws), reports no
    click, and leaves the detector, its gain timeline included, exactly as
    the switch left it. *)
Theorem switched_off_loop_is_inert (inst : Instance) (data : Storage)
    (currentTime : R) (isGlobal : bool) (ticks : list Tick) :
  let off := fst (toggleProcessing inst data currentTime false isGlobal) in
  gainTimeline (core off)
  = gainTimeline (core inst)
    ++ [ cancelScheduledValues (Fin currentTime);
         setValueAtTime (Fin 1.0) (Fin currentTime) ]
  /\ exists results final,
       runDetection off ticks = Some (results, final)
       /\ core final = core off
       /\ length results = length ticks
       /\ Forall (fun result =>
                    result = None \/ result = Some disabledResult) results.
Proof.
  cbv zeta. cbn [toggleProcessing fst].
  split; [reflexivity |].
  apply runDetection_switched_off. reflexivity.
Qed.


(** ** The decision as a function of the sensitivity *)

Lemma inverse_power_antitone (c s1 s2 p : R) :
  0 < c -> 0 <= p -> 0 < s1 -> s1 <= s2 ->
  c / Rpower s2 p <= c / Rpower s1 p.
Proof.
  intros Hc Hp Hs1 Hs.
  pose proof (Rpower_pos s1 p) as H1.
  assert (Hpow : Rpower s1 p <= Rpower s2 p)
    by (apply Rle_Rpower_l; [exact Hp | split; assumption]).
  apply Rmult_le_compat_l; [lra |].
  apply Rinv_le_contravar; assumption.
Qed.

Lemma isClickDetectedOf_monotone (s1 s2 skew : R) (fa : FrameAnalysis) :
  measured fa -> 0 < s1 -> s1 <= s2 ->
  isClickDetectedOf s1 skew fa = true -> isClickDetectedOf s2 skew fa = true.
Proof.
  intros Hm Hs1 Hs. unfold isClickDetectedOf. cbv zeta.
  pose proof (adjustedConfidenceOf_monotone s1 s2 skew fa Hm Hs1 Hs)
    as [_ Hadj].
  pose proof (dynamicThresholdOf_antitone s1 s2 fa Hs1 Hs) as Hthr.
  assert (Hlpc : methodConfidence (lpcOutlier s1 fa)
                 <= methodConfidence (lpcOutlier s2 fa)).
  { cbn [lpcOutlier methodConfidence].
    destruct Hm as (Hr & Hp & _).
    apply lpcConfidenceOf_monotone; assumption. }
  pose proof (inverse_power_antitone 1.5 s1 s2 1.5 ltac:(lra) ltac:(lra)
                Hs1 Hs) as H15.
  pose proof (inverse_power_antitone 1.0 s1 s2 1.5 ltac:(lra) ltac:(lra)
                Hs1 Hs) as H10.
  pose proof (scaled_threshold_antitone Thresholds.spectralFlux s1 s2 2.2
                (signalToNoise fa) 8
                ltac:(unfold Thresholds.spectralFlux; lra) ltac:(lra)
                Hs1 Hs) as Hflux.
  assert (Hsqrt : 0.5 / sqrt (Rpower s2 1.5) <= 0.5 / sqrt (Rpower s1 1.5)).
  { pose proof (Rpower_pos s1 1.5) as H1.
    assert (Hpow : Rpower s1 1.5 <= Rpower s2 1.5)
      by (apply Rle_Rpower_l; [lra | split; assumption]).
    apply Rmult_le_compat_l; [lra |].
    apply Rinv_le_contravar; [apply sqrt_lt_R0; exact H1 |].
    apply sqrt_le_1_alt. exact Hpow. }
  intros H. apply orb_true_iff in H. apply orb_true_iff.
  destruct H as [H | H].
  - left. apply orb_true_iff in H. apply orb_true_iff.
    destruct H as [H | H].
    + left. apply Rltb_spec in H. apply Rltb_true. lra.
    + right. apply andb_true_iff in H. destruct H as [Ha Hb].
      apply Rltb_spec in Ha. apply Rltb_spec in Hb.
      apply andb_true_iff. split; apply Rltb_true.
      * lra.
      * unfold adaptiveSpectralThresholdOf in *. cbv zeta in *. lra.
  - right. apply andb_true_iff in H. destruct H as [H Hc].
    apply andb_true_iff in H. destruct H as [Ha Hb].
    apply Rltb_spec in Hb. apply Rltb_spec in Hc.
    apply andb_true_iff. split; [apply andb_true_iff; split |].
    + apply (amplitudeSpikeOf_monotone s1 s2 fa Hs1 Hs Ha).
    + apply Rltb_true. lra.
    + apply Rltb_true. lra.
Qed.

Lemma shouldProcessClick_undetected (st : State) (t : R) (c : jsnum) :
  fst (shouldProcessClick st t false c) = false.
Proof. reflexivity. Qed.

Lemma required_confidence_antitone (s1 s2 x : R) :
  0 <= x -> 0 < s1 -> s1 <= s2 ->
  0.5 / Rpower s2 0.8 + x * 0.3 / Rpower s2 0.8
  <= 0.5 / Rpower s1 0.8 + x * 0.3 / Rpower s1 0.8.
Proof.
  intros Hx Hs1 Hs.
  pose proof (Rpower_pos s1 0.8) as H1. pose proof (Rpower_pos s2 0.8) as H2.
  assert (Hpow : Rpower s1 0.8 <= Rpower s2 0.8)
    by (apply Rle_Rpower_l; [lra | split; assumption]).
  assert (Hinv : / Rpower s2 0.8 <= / Rpower s1 0.8)
    by (apply Rinv_le_contravar; assumption).
  assert (0 < / Rpower s2 0.8) by (apply Rinv_0_lt_compat; exact H2).
  unfold Rdiv. nra.
Qed.

(** X22.  Raising the sensitivity never loses a click.  On the same
    frame, a decision taken at one sensitivity is taken at every higher
    one, and when a tick at the lower sensitivity reports a click, the
    tick at the higher sensitivity from the same state, if it returns,
    reports it too. *)
Theorem higher_sensitivity_keeps_the_click (st st1 st2 : State) (env : Env)
    (timeData freqData : list R) (s1 s2 : R) (r1 r2 : DetectionResult) :
  0 < s1 -> s1 <= s2 ->
  detectMouthClick (atSensitivity st s1) env timeData freqData
  = Some (Returned (r1, st1)) ->
  detectMouthClick (atSensitivity st s2) env timeData freqData
  = Some (Returned (r2, st2)) ->
  isClick r1 = true -> isClick r2 = true.
Proof.
  intros Hs1 Hs H1 H2 Hclick.
  destruct (detectMouthClick_inside _ _ _ _ _ _ H1 Hclick) as [Hen Hfit].
  destruct (detectMouthClick_returned _ _ _ _ _ _ Hen H1)
    as (s & skew & ratio0 & threshold0 & _ & _ & Ek & _).
  cbn [atSensitivity processingEnabled analyser params withParams
       frequencySkew withSensitivity] in Hen, Hfit, Ek.
  destruct (detectMouthClick_enabled (atSensitivity st s1) env timeData
              freqData s1 skew Hen Hfit eq_refl Hs1 Ek)
    as (ratio & threshold & Er & Et & _ & _ & E1).
  destruct (detectMouthClick_enabled (atSensitivity st s2) env timeData
              freqData s2 skew Hen Hfit eq_refl ltac:(lra) Ek)
    as (ratio' & threshold' & Er' & Et' & _ & _ & E2).
  cbv zeta in Er, Et, E1, Er', Et', E2.
  cbn [atSensitivity loudnessState analyser withParams] in Er, Et, E1, Er',
    Et', E2.
  rewrite Er in Er'. injection Er' as <-.
  rewrite Et in Et'. injection Et' as <-.
  rewrite E1 in H1. rewrite E2 in H2. clear E1 E2.
  pose proof (analyseFrame_measured (analyser st)
                (fst (updateDynamicLoudness (loudnessState st)
                        (map Fin timeData)))
                ratio threshold timeData freqData) as Hm.
  revert H1 H2 Hm.
  generalize (updateDynamicLoudness (loudnessState st) (map Fin timeData)).
  intros tracked.
  generalize (analyseFrame (analyser st) (fst tracked) ratio threshold
                timeData freqData).
  intros analysed H1 H2 Hm.
  set (l1 := shouldProcessClick _ (now env) (isClickDetectedOf s1 _ _) _)
    in H1.
  set (l2 := shouldProcessClick _ (now env) (isClickDetectedOf s2 _ _) _)
    in H2.
  assert (Hfirst : fst l1 = true).
  { destruct (fst l1); [reflexivity |].
    injection H1 as Hres _. rewrite <- Hres in Hclick. discriminate. }
  assert (Hsecond : fst l2 = true).
  { unfold l1 in Hfirst. unfold l2.
    destruct (isClickDetectedOf s1 skew (fst analysed)) eqn:Ed;
      [| rewrite shouldProcessClick_undetected in Hfirst; discriminate].
    rewrite (isClickDetectedOf_monotone s1 s2 skew _ Hm Hs1 Hs Ed).
    pose proof (shouldProcessClick_admitted_confidence
                  (withAnalyser
                     (withLoudnessState (atSensitivity st s1) (snd tracked))
                     (snd analysed))
                  (now env) (adjustedConfidenceOf s1 skew (fst analysed)) s1
                  true eq_refl Hs1 Hfirst) as [Hheld Hconf].
    cbv zeta in Hheld, Hconf.
    pose proof (shouldProcessClick_cases
                  (withAnalyser
                     (withLoudnessState (atSensitivity st s1) (snd tracked))
                     (snd analysed))
                  (now env) true
                  (Fin (adjustedConfidenceOf s1 skew (fst analysed))))
      as Hcases.
    cbv zeta in Hcases.
    destruct Hcases as [[Hno _] | (_ & _ & _ & Hgap & Hsup)];
      [rewrite Hfirst in Hno; discriminate |].
    cbn [limiter withAnalyser withLoudnessState withParams atSensitivity]
      in Hheld, Hconf, Hgap, Hsup.
    rewrite (shouldProcessClick_admits
               (withAnalyser
                  (withLoudnessState (atSensitivity st s2) (snd tracked))
                  (snd analysed))
               (now env)
               (adjustedConfidenceOf s2 skew (fst analysed)) s2);
      [reflexivity | reflexivity | lra | exact Hsup | exact Hheld
       | exact Hgap |].
    cbn [limiter withAnalyser withLoudnessState withParams atSensitivity].
    pose proof (adjustedConfidenceOf_monotone s1 s2 skew _ Hm Hs1 Hs)
      as [_ Hadj].
    assert (Hx : 0 <= INR (length (recent (now env)
                                     (clickHistory (limiter st))))
                      / INR (maxClicksPerSecond (limiter st))).
    { unfold Rdiv. apply Rle_mult_inv_pos; [apply pos_INR |].
      apply lt_0_INR. lia. }
    pose proof (required_confidence_antitone s1 s2 _ Hx Hs1 Hs).
    lra. }
  rewrite Hsecond in H2.
  destruct (handleMouthClickDetected (snd l2) _ _ _ _); [| discriminate].
  injection H2 as <- _. reflexivity.
Qed.

Lemma default_widening_accepted (s : R) :
  ~ wideningRejected (withSensitivity defaultParams (Fin s)).
Proof.
  unfold wideningRejected, wideningDuration.
  cbn [withSensitivity defaultParams clickWidening mode].
  change (String.eqb "click" "smack") with false.
  jseval. discriminate.
Qed.

Lemma higher_sensitivity_keeps_the_click_witness :
  exists r1 st1 r2 st2,
    detectMouthClick (atSensitivity (initialState 48000 true) 1.0)
      (mkEnv 1000 1 None None) (repeat 0 frequencyBinCount)
      (repeat 1 frequencyBinCount)
    = Some (Returned (r1, st1))
    /\ isClick r1 = true
    /\ detectMouthClick (atSensitivity (initialState 48000 true) 1.5)
         (mkEnv 1000 1 None None) (repeat 0 frequencyBinCount)
         (repeat 1 frequencyBinCount)
       = Some (Returned (r2, st2))
    /\ isClick r2 = true.
Proof.
  destruct (quiet_tick_with_flux (atSensitivity (initialState 48000 true) 1.0)
              (mkEnv 1000 1 None None) 0 1 initialState_quiet)
    as (r1 & st1 & E1 & Hclick & _);
    [ lra | reflexivity | cbn; lia | cbn; lra | cbn; lra | reflexivity | ].
  destruct (detectMouthClick_total
              (atSensitivity (initialState 48000 true) 1.5)
              (mkEnv 1000 1 None None) (repeat 0 frequencyBinCount)
              (repeat 1 frequencyBinCount) 1.5 0.0)
    as (r2 & st2 & E2);
    [ reflexivity
    | exact (quietAnalyser_frameFits _ 0 1
               (proj1 (proj2 (proj2 initialState_quiet))))
    | reflexivity | lra | reflexivity
    | exact (default_widening_accepted 1.5)
    | reflexivity | ].
  exists r1, st1, r2, st2.
  split; [exact E1 |]. split; [exact Hclick |]. split; [exact E2 |].
  exact (higher_sensitivity_keeps_the_click (initialState 48000 true) st1 st2
           (mkEnv 1000 1 None None) (repeat 0 frequencyBinCount)
           (repeat 1 frequencyBinCount) 1.0 1.5 r1 r2
           ltac:(lra) ltac:(lra) E1 E2 Hclick).
Defined.

(** X23.  The rate limiter asks for more confidence the fuller its
    window is: with [held] clicks of the last second, the confidence an
    event must reach is [(0.5 + 0.3 * held / maxClicksPerSecond) /
    sensitivity ^ 0.8], which grows with [held]; at the default
    sensitivity and the default maximum of 8 it runs from 0.5 for an
    empty window to 0.7625 for a window with one free place. *)
Theorem required_confidence_grows_with_load (s : R) (held1 held2 maxClicks
    : nat) :
  0 < s -> (0 < maxClicks)%nat -> (held1 <= held2)%nat ->
  exists a b : R,
    requiredConfidence (Fin s) held1 maxClicks = Fin a
    /\ requiredConfidence (Fin s) held2 maxClicks = Fin b
    /\ a <= b
    /\ a = (0.5 + 0.3 * INR held1 / INR maxClicks) / Rpower s 0.8
    /\ requiredConfidence (Fin 1.0) 0 8 = Fin 0.5
    /\ requiredConfidence (Fin 1.0) 7 8 = Fin 0.7625.
Proof.
  intros Hs Hmax Hle.
  rewrite !(requiredConfidence_finite s _ _ Hs Hmax).
  assert (H1 : 0 < 1.0) by lra.
  rewrite !(requiredConfidence_finite 1.0 _ 8 H1) by lia.
  do 2 eexists. split; [reflexivity |]. split; [reflexivity |].
  pose proof (Rpower_pos s 0.8) as Hp.
  assert (Hm : 0 < INR maxClicks) by (apply lt_0_INR; exact Hmax).
  assert (Hh : INR held1 <= INR held2) by (apply le_INR; exact Hle).
  assert (Hi : 0 < / Rpower s 0.8) by (apply Rinv_0_lt_compat; exact Hp).
  assert (Him : 0 < / INR maxClicks) by (apply Rinv_0_lt_compat; exact Hm).
  split.
  - unfold Rdiv.
    assert (INR held1 * / INR maxClicks <= INR held2 * / INR maxClicks)
      by nra.
    nra.
  - split; [unfold Rdiv; lra |].
    rewrite Rpower_default_sensitivity.
    split; f_equal; cbn [INR]; lra.
Qed.

Lemma required_confidence_grows_with_load_witness :
  exists a b : R,
    requiredConfidence (Fin 1.0) 2 8 = Fin a
    /\ requiredConfidence (Fin 1.0) 5 8 = Fin b
    /\ a <= b.
Proof.
  destruct (required_confidence_grows_with_load 1.0 2 5 8)
    as (a & b & Ea & Eb & Hab & _); [lra | lia | lia |].
  exists a, b. repeat split; assumption.
Defined.


(** ** Band edges and the frequency scale *)

Lemma INR_to_nat (z : Z) : (0 <= z)%Z -> INR (Z.to_nat z) = IZR z.
Proof.
  intros H. rewrite INR_IZR_INZ. rewrite Z2Nat.id by exact H. reflexivity.
Qed.

Lemma floor_quotient_bounds (n d : Z) :
  (0 < d)%Z -> (0 <= n)%Z ->
  (0 <= n / d)%Z
  /\ IZR n - IZR d < IZR (n / d) * IZR d <= IZR n.
Proof.
  intros Hd Hn.
  pose proof (Z.div_pos n d Hn Hd) as Hq.
  pose proof (Z.mul_div_le n d Hd) as Hle.
  pose proof (Z.mul_succ_div_gt n d Hd) as Hgt.
  split; [exact Hq |].
  rewrite <- mult_IZR, <- minus_IZR.
  split; [apply IZR_lt | apply IZR_le]; lia.
Qed.

(** X24.  The band energies and the spectral shape use two frequency
    scales.  [calculateSpectralCentroid] places bin [i] of a full spectrum
    at [i * sampleRate / (2 * binCount)], and [detectFormantStructure]
    finds its 500 Hz and 3000 Hz edges on that scale; the bin cache of
    [calculateBandEnergy] places a band edge of [hz] at bin
    [floor(hz * binCount / sampleRate)], which on that scale is the
    frequency [hz / 2] (to within one bin).  So the band labelled
    2000-5000 Hz sums the bins that the centroid places at 1000-2500 Hz. *)
Theorem band_edges_sit_at_half_their_label (a : Analyser)
    (freqData : list R) (hz : Z) :
  (0 < sampleRate a)%Z -> (0 <= hz)%Z ->
  length freqData = frequencyBinCount ->
  let binWidth := IZR (sampleRate a) / (2 * INR frequencyBinCount) in
  let bandBin := Z.to_nat (binOf a hz) in
  let formantBin :=
    Z.to_nat (hz * Z.of_nat (length freqData) * 2 / sampleRate a)%Z in
  IZR hz / 2 - binWidth < binFrequency a freqData bandBin <= IZR hz / 2
  /\ IZR hz - binWidth < binFrequency a freqData formantBin <= IZR hz.
Proof.
  intros Hr Hhz Hlen binWidth bandBin formantBin.
  assert (Hs : 0 < IZR (sampleRate a)) by (apply IZR_lt; exact Hr).
  assert (HN : INR frequencyBinCount = 4096)
    by (unfold frequencyBinCount; rewrite INR_IZR_INZ; reflexivity).
  unfold binFrequency, binWidth, bandBin, formantBin, binOf.
  rewrite Hlen.
  destruct (floor_quotient_bounds (hz * Z.of_nat frequencyBinCount)
              (sampleRate a) Hr ltac:(unfold frequencyBinCount; lia))
    as [Hq1 Hb1].
  destruct (floor_quotient_bounds (hz * Z.of_nat frequencyBinCount * 2)
              (sampleRate a) Hr ltac:(unfold frequencyBinCount; lia))
    as [Hq2 Hb2].
  rewrite !INR_to_nat by assumption.
  rewrite !mult_IZR in Hb1. rewrite !mult_IZR in Hb2.
  change (IZR (Z.of_nat frequencyBinCount)) with 4096 in Hb1, Hb2.
  rewrite HN.
  set (q1 := IZR (hz * Z.of_nat frequencyBinCount / sampleRate a)) in *.
  set (q2 := IZR (hz * Z.of_nat frequencyBinCount * 2 / sampleRate a)) in *.
  split; split.
  - apply div_strictly_above; [lra |]. 
    replace ((IZR hz / 2 - IZR (sampleRate a) / (2 * 4096)) * (2 * 4096))
      with (IZR hz * 4096 - IZR (sampleRate a)) by (field; lra).
    lra.
  - apply div_below; [lra |]. lra.
  - apply div_strictly_above; [lra |].
    replace ((IZR hz - IZR (sampleRate a) / (2 * 4096)) * (2 * 4096))
      with (IZR hz * 4096 * 2 - IZR (sampleRate a)) by (field; lra).
    lra.
  - apply div_below; [lra |]. lra.
Qed.

Lemma band_edges_sit_at_half_their_label_witness :
  let a := analyser (initialState 48000 true) in
  let freqData := repeat (-30) frequencyBinCount in
  let binWidth := IZR (sampleRate a) / (2 * INR frequencyBinCount) in
  IZR 2000 / 2 - binWidth
  < binFrequency a freqData (Z.to_nat (binOf a 2000)) <= IZR 2000 / 2.
Proof.
  intros a freqData binWidth.
  apply (band_edges_sit_at_half_their_label a freqData 2000).
  - cbn. lia.
  - lia.
  - apply repeat_length.
Defined.


(** ** The stored tunables *)

Lemma loadSettings_params (inst : Instance) (data : Storage) (t : R) :
  params (core (loadSettings inst data t))
  = loadParameters (params (core inst)) data.
Proof.
  unfold loadSettings. cbv zeta.
  destruct (storedDebugEnabled data) as [[|] |]; reflexivity.
Qed.

Lemma loadParameters_widening (p : DetectionParameters) (data : Storage) :
  clickWidening (loadParameters p data)
  = match storedClickWidening data with
    | Some v => if truthy v then v else clickWidening p
    | None => clickWidening p
    end.
Proof.
  unfold loadParameters. cbv zeta.
  destruct (storedMode data) as [m |]; [destruct (String.eqb m "") |];
    (destruct (storedSensitivity data) as [s |]; [destruct (truthy s) |]);
    destruct (storedFrequencySkew data);
    (destruct (storedClickWidening data) as [w |]; [destruct (truthy w) |]);
    destruct (storedReductionAmount data); reflexivity.
Qed.

Lemma loadParameters_mode (p : DetectionParameters) (data : Storage) :
  mode (loadParameters p data)
  = match storedMode data with
    | Some m => if String.eqb m "" then mode p else m
    | None => mode p
    end.
Proof.
  unfold loadParameters. cbv zeta.
  destruct (storedMode data) as [m |]; [destruct (String.eqb m "") |];
    (destruct (storedSensitivity data) as [s |]; [destruct (truthy s) |]);
    destruct (storedFrequencySkew data);
    (destruct (storedClickWidening data) as [w |]; [destruct (truthy w) |]);
    destruct (storedReductionAmount data); reflexivity.
Qed.

Lemma loadParameters_skew (p : DetectionParameters) (data : Storage) :
  frequencySkew (loadParameters p data)
  = match storedFrequencySkew data with
    | Some v => v
    | None => frequencySkew p
    end.
Proof.
  unfold loadParameters. cbv zeta.
  destruct (storedMode data) as [m |]; [destruct (String.eqb m "") |];
    (destruct (storedSensitivity data) as [s |]; [destruct (truthy s) |]);
    destruct (storedFrequencySkew data);
    (destruct (storedClickWidening data) as [w |]; [destruct (truthy w) |]);
    destruct (storedReductionAmount data); reflexivity.
Qed.

(** X25.  The adjustments of 'smack' mode do not survive a reload.  The
    mode message raises the widening to at least 8 ms and lowers the
    skew, but stores neither; the constructor assigns the stored mode
    without them.  With 'smack' stored next to a widening below 8 ms, a
    new instance runs in 'smack' mode with the stored widening and skew,
    while the instance that received the message runs with a widening of
    at least 8 ms. *)
Theorem stored_smack_mode_loads_without_adjustments (inst : Instance)
    (data : Storage) (t w k : R) :
  storedMode data = Some "smack"%string ->
  storedClickWidening data = Some (Fin w) -> 0 < w < 8 ->
  storedFrequencySkew data = Some (Fin k) ->
  let loaded := params (core (loadSettings inst data t)) in
  mode loaded = "smack"%string
  /\ clickWidening loaded = Fin w
  /\ frequencySkew loaded = Fin k
  /\ wideningDuration loaded = Fin (w / 1000 * 1.5)
  /\ forall p w', clickWidening p = Fin w' ->
       exists w'', clickWidening (onMessage p (updateMode "smack")) = Fin w''
                   /\ 8 <= w''.
Proof.
  intros Hm Hw Hr Hk loaded. unfold loaded.
  rewrite loadSettings_params.
  assert (Emode : mode (loadParameters (params (core inst)) data)
                  = "smack"%string)
    by (rewrite loadParameters_mode, Hm; reflexivity).
  assert (Ewid : clickWidening (loadParameters (params (core inst)) data)
                 = Fin w).
  { rewrite loadParameters_widening, Hw. cbn [truthy].
    rewrite (Reqb_false w 0) by lra. reflexivity. }
  split; [exact Emode |]. split; [exact Ewid |].
  split; [rewrite loadParameters_skew, Hk; reflexivity |].
  split.
  - rewrite (wideningDuration_finite _ w Ewid), Emode. reflexivity.
  - intros p w' Ep. cbn [onMessage]. rewrite setMode_smack.
    cbn [withFrequencySkew withClickWidening clickWidening].
    rewrite Ep, Math_max_finite.
    eexists. split; [reflexivity | apply Rmax_r].
Qed.

Lemma stored_smack_mode_loads_without_adjustments_witness :
  let data :=
    mkStorage None None None None (Some "smack"%string) None
      (Some (Fin 0)) (Some (Fin 5)) None in
  let loaded :=
    params (core (loadSettings (newInstance 48000 "example.org") data 0)) in
  mode loaded = "smack"%string
  /\ clickWidening loaded = Fin 5
  /\ frequencySkew loaded = Fin 0.
Proof.
  intros data loaded.
  destruct (stored_smack_mode_loads_without_adjustments
              (newInstance 48000 "example.org") data 0 5 0)
    as (H1 & H2 & H3 & _); try reflexivity; [lra |].
  repeat split; assumption.
Defined.

(** X26.  Where a rejected click widening can come from.  The widening
    setter clamps every number into [1, 20], so a message can only store
    a rejected widening as NaN; the constructor assigns every stored
    widening that is truthy, so any stored negative widening is loaded
    and rejected, while a stored 0 or NaN is skipped and the default
    kept. *)
Theorem rejected_widening_origins (p : DetectionParameters)
    (inst : Instance) (data : Storage) (t : R) :
  wideningRejected (setClickWidening p NaN)
  /\ (forall v, v <> NaN -> ~ wideningRejected (setClickWidening p v))
  /\ (forall w, storedClickWidening data = Some (Fin w) -> w < 0 ->
        wideningRejected (params (core (loadSettings inst data t))))
  /\ (forall v, storedClickWidening data = Some v -> truthy v = false ->
        clickWidening (params (core (loadSettings inst data t)))
        = clickWidening (params (core inst))).
Proof.
  split; [| split; [| split]].
  - unfold wideningRejected, wideningDuration, setClickWidening.
    cbn [withClickWidening clickWidening mode]. rewrite clamp_NaN.
    reflexivity.
  - intros v Hv Hrej.
    destruct (setters_clamp p v Hv) as (_ & _ & (c & E & Hc) & _).
    rewrite E in Hrej. unfold wideningRejected in Hrej.
    rewrite (wideningDuration_finite (withClickWidening p (Fin c)) c eq_refl)
      in Hrej.
    cbn [isFinite negb orb JS.le] in Hrej.
    rewrite Rleb_false in Hrej; [discriminate |].
    destruct (String.eqb _ _); lra.
  - intros w Hw Hneg. unfold wideningRejected.
    rewrite loadSettings_params.
    assert (Ewid : clickWidening (loadParameters (params (core inst)) data)
                   = Fin w).
    { rewrite loadParameters_widening, Hw. cbn [truthy].
      rewrite (Reqb_false w 0) by lra. reflexivity. }
    rewrite (wideningDuration_finite _ w Ewid).
    cbn [isFinite negb orb JS.le]. apply Rleb_true.
    destruct (String.eqb _ _); lra.
  - intros v Hv Hfalsy. rewrite loadSettings_params.
    rewrite loadParameters_widening, Hv, Hfalsy. reflexivity.
Qed.


(** ** The earlier detector *)

Lemma quotient_value (x y c : R) : y <> 0 -> x = c * y -> x / y = c.
Proof. intros Hy ->. field. exact Hy. Qed.

Lemma freqConfidenceOf_value (spectralChange frequencyRatio : bool) :
  ClickRemover.freqConfidenceOf (spectralChange, frequencyRatio)
  = ((if spectralChange then 0.4 else 0)
     + (if frequencyRatio then 1.5 else 0)) / 1.9.
Proof.
  unfold ClickRemover.freqConfidenceOf, ClickRemover.Weights.spectralChange,
    ClickRemover.Weights.frequencyRatio.
  cbn [fst snd].
  apply quotient_value; [lra |].
  destruct spectralChange, frequencyRatio; lra.
Qed.

Lemma dynamicConfidenceOf_value (m : R) (sudden peaks range : bool) :
  m <> 0 ->
  ClickRemover.dynamicConfidenceOf m (sudden, peaks, range)
  = ((if sudden then 1.8 else 0) + (if peaks then 1.2 else 0)
     + (if range then 1.0 else 0)) / 4.
Proof.
  intros Hm. unfold ClickRemover.dynamicConfidenceOf.
  apply quotient_value; [lra |].
  destruct sudden, peaks, range; lra.
Qed.

Lemma inModel_multiplier (r : ClickRemover.Remover) (freqData : list R) :
  ClickRemover.inModel r freqData = true ->
  ClickRemover.sensitivityMultiplier r <> 0.
Proof.
  unfold ClickRemover.inModel. intros H.
  repeat (apply andb_true_iff in H; destruct H as [H ?]).
  match goal with
  | Hm : negb (Reqb _ 0) = true |- _ =>
      intros E; rewrite (Reqb_true _ _ E) in Hm; discriminate
  end.
Qed.

(** X27.  The decision of the earlier detector [ClickRemover.detectClick]
    reduces to a rule on its five methods: a frame is a click exactly
    when the mid-to-low ratio is above 1.2, or a sudden change is detected
    together with a peak density or a dynamic range.  The low-to-high
    ratio never changes the decision, and the sensitivity multiplier
    enters through the thresholds of the dynamic methods only, since it
    cancels in the weighted share; both confidences lie in [0, 1]. *)
Theorem legacy_decision_rule (r r' : ClickRemover.Remover) (currentTime : R)
    (freqData : list R) (result : ClickRemover.ClickResult) :
  ClickRemover.processingEnabled r = true ->
  ClickRemover.detectClick r currentTime freqData = Some (result, r') ->
  exists (seen : ClickRemover.ClickDetails)
         (spectralChange frequencyRatio sudden peaks range : bool),
    ClickRemover.details result = Some seen
    /\ ClickRemover.frequencyMethods (ClickRemover.lowToHighRatio seen)
         (ClickRemover.midToLowRatio seen)
       = (spectralChange, frequencyRatio)
    /\ ClickRemover.dynamicMethods (ClickRemover.sensitivityMultiplier r)
         (ClickRemover.averageOf (ClickRemover.dynamicHistory r'))
         (ClickRemover.dynamicRatio seen)
         (ClickRemover.spectrumDynamics (ClickRemover.previousSpectrum r)
            freqData)
       = (sudden, peaks, range)
    /\ ClickRemover.isClick result
       = (frequencyRatio || sudden && (peaks || range))%bool
    /\ ClickRemover.freqConfidence result
       = ((if spectralChange then 0.4 else 0)
          + (if frequencyRatio then 1.5 else 0)) / 1.9
    /\ ClickRemover.dynamicConfidence result
       = ((if sudden then 1.8 else 0) + (if peaks then 1.2 else 0)
          + (if range then 1.0 else 0)) / 4
    /\ 0 <= ClickRemover.freqConfidence result <= 1
    /\ 0 <= ClickRemover.dynamicConfidence result <= 1
    /\ ClickRemover.clickCount r'
       = if ClickRemover.isClick result
         then S (ClickRemover.clickCount r) else ClickRemover.clickCount r.
Proof.
  intros Hen H. unfold ClickRemover.detectClick in H.
  rewrite Hen in H. cbn [negb] in H.
  destruct (ClickRemover.inModel r freqData) eqn:Hin; cbn [negb] in H;
    [| discriminate].
  pose proof (inModel_multiplier r freqData Hin) as Hm.
  cbv zeta in H.
  set (low := ClickRemover.calculateBandEnergy r freqData
                (bandMin ClickRemover.FreqBands.low)
                (bandMax ClickRemover.FreqBands.low)) in H.
  set (mid := ClickRemover.calculateBandEnergy r freqData
                (bandMin ClickRemover.FreqBands.mid)
                (bandMax ClickRemover.FreqBands.mid)) in H.
  set (high := ClickRemover.calculateBandEnergy r freqData
                 (bandMin ClickRemover.FreqBands.high)
                 (bandMax ClickRemover.FreqBands.high)) in H.
  set (l2h := low / ClickRemover.orElse high 0.000001) in H.
  set (m2l := mid / ClickRemover.orElse low 0.000001) in H.
  set (d := ClickRemover.spectrumDynamics (ClickRemover.previousSpectrum r)
              freqData) in H.
  set (history := ClickRemover.pushChange (ClickRemover.dynamicHistory r)
                    (ClickRemover.totalChange d)) in H.
  set (ratio := ClickRemover.suddenChange d
                / ClickRemover.orElse (ClickRemover.averageOf history)
                    0.000001) in H.
  assert (Ed0 : ClickRemover.spectrumDynamics
                  (ClickRemover.previousSpectrum r) freqData = d)
    by reflexivity.
  clearbody low mid high. clearbody l2h m2l. clearbody d.
  clearbody history. clearbody ratio.
  destruct (ClickRemover.frequencyMethods l2h m2l)
    as [spectralChange frequencyRatio] eqn:Ef.
  destruct (ClickRemover.dynamicMethods
              (ClickRemover.sensitivityMultiplier r)
              (ClickRemover.averageOf history) ratio d)
    as [[sudden peaks] range] eqn:Ed.
  rewrite freqConfidenceOf_value in H.
  rewrite (dynamicConfidenceOf_value _ sudden peaks range Hm) in H.
  unfold ClickRemover.Thresholds.confidenceThreshold in H.
  remember (Rleb 0.6
              (((if spectralChange then 0.4 else 0)
                + (if frequencyRatio then 1.5 else 0)) / 1.9)
            || Rleb 0.6
                 (((if sudden then 1.8 else 0) + (if peaks then 1.2 else 0)
                   + (if range then 1.0 else 0)) / 4))%bool
    as click eqn:Eclick.
  injection H as <- <-.
  exists {| ClickRemover.lowToHighRatio := l2h;
            ClickRemover.midToLowRatio := m2l;
            ClickRemover.dynamicRatio := ratio;
            ClickRemover.reportedSuddenChange := ClickRemover.suddenChange d;
            ClickRemover.reportedPeakCount := ClickRemover.peakCount d |},
    spectralChange, frequencyRatio, sudden, peaks, range.
  cbn [ClickRemover.details ClickRemover.lowToHighRatio
       ClickRemover.midToLowRatio ClickRemover.dynamicRatio
       ClickRemover.isClick
       ClickRemover.freqConfidence ClickRemover.dynamicConfidence].
  replace (ClickRemover.dynamicHistory
             (if click
              then ClickRemover.handleClickDetected
                     (ClickRemover.withSpectrum r freqData history)
                     currentTime
              else ClickRemover.withSpectrum r freqData history))
    with history by (destruct click; reflexivity).
  rewrite Ed0.
  split; [reflexivity |]. split; [exact Ef |]. split; [exact Ed |].
  split.
  { rewrite Eclick.
    destruct spectralChange, frequencyRatio, sudden, peaks, range;
      cbn [orb andb]; rdecide; reflexivity. }
  split; [reflexivity |]. split; [reflexivity |].
  split; [destruct spectralChange, frequencyRatio; lra |].
  split; [destruct sudden, peaks, range; lra |].
  destruct click; reflexivity.
Qed.

Lemma detectClick_returns (r : ClickRemover.Remover) (currentTime : R)
    (freqData : list R) :
  ClickRemover.processingEnabled r = true ->
  ClickRemover.inModel r freqData = true ->
  exists result r',
    ClickRemover.detectClick r currentTime freqData = Some (result, r').
Proof.
  intros Hen Hin. unfold ClickRemover.detectClick.
  rewrite Hen, Hin. cbn [negb]. eexists. eexists. reflexivity.
Qed.

Lemma initialRemover_inModel (c : R) :
  ClickRemover.inModel (ClickRemover.initialRemover 48000 true)
    (repeat c frequencyBinCount) = true.
Proof.
  unfold ClickRemover.inModel.
  cbn [ClickRemover.initialRemover ClickRemover.previousSpectrum
       ClickRemover.sensitivityMultiplier ClickRemover.sampleRate].
  rewrite !repeat_length. rewrite (Reqb_false 1.0 0) by lra.
  reflexivity.
Qed.

Lemma legacy_decision_rule_witness :
  exists (result : ClickRemover.ClickResult)
         (spectralChange frequencyRatio sudden peaks range : bool),
    ClickRemover.isClick result
    = (frequencyRatio || sudden && (peaks || range))%bool
    /\ ClickRemover.freqConfidence result
       = ((if spectralChange then 0.4 else 0)
          + (if frequencyRatio then 1.5 else 0)) / 1.9.
Proof.
  destruct (detectClick_returns (ClickRemover.initialRemover 48000 true) 1
              (repeat (-30) frequencyBinCount) eq_refl
              (initialRemover_inModel (-30)))
    as (result & r' & E).
  destruct (legacy_decision_rule (ClickRemover.initialRemover 48000 true) r'
              1 (repeat (-30) frequencyBinCount) result eq_refl E)
    as (seen & a & b & c & d & e & _ & _ & _ & Hclick & Hfreq & _).
  exists result, a, b, c, d, e. split; assumption.
Defined.

(** X28.  The history of total changes of the earlier detector never
    shrinks to the five entries that its length check suggests: each call
    appends one entry and removes at most one, so the ten entries of the
    constructor stay ten, and the average change is taken over the last
    ten frames. *)
Theorem legacy_history_keeps_its_length (r r' : ClickRemover.Remover)
    (currentTime : R) (freqData : list R)
    (result : ClickRemover.ClickResult) :
  ClickRemover.processingEnabled r = true ->
  ClickRemover.detectClick r currentTime freqData = Some (result, r') ->
  (5 <= length (ClickRemover.dynamicHistory r))%nat ->
  length (ClickRemover.dynamicHistory r')
  = length (ClickRemover.dynamicHistory r)
  /\ (exists newest,
        ClickRemover.dynamicHistory r'
        = tl (ClickRemover.dynamicHistory r) ++ [newest])
  /\ forall rate enabled,
       length (ClickRemover.dynamicHistory
                 (ClickRemover.initialRemover rate enabled)) = 10%nat.
Proof.
  intros Hen H Hlen. unfold ClickRemover.detectClick in H.
  rewrite Hen in H. cbn [negb] in H.
  destruct (ClickRemover.inModel r freqData); cbn [negb] in H;
    [| discriminate].
  cbv zeta in H.
  set (d := ClickRemover.spectrumDynamics (ClickRemover.previousSpectrum r)
              freqData) in H.
  set (history := ClickRemover.pushChange (ClickRemover.dynamicHistory r)
                    (ClickRemover.totalChange d)) in H.
  assert (Ehist : history
                  = tl (ClickRemover.dynamicHistory r)
                    ++ [ClickRemover.totalChange d]).
  { unfold history, ClickRemover.pushChange. cbv zeta.
    rewrite length_app. cbn [length].
    replace (5 <? length (ClickRemover.dynamicHistory r) + 1)%nat with true
      by (symmetry; apply Nat.ltb_lt; lia).
    destruct (ClickRemover.dynamicHistory r); [cbn in Hlen; lia |].
    reflexivity. }
  clearbody history. clearbody d.
  match type of H with
  | Some (_, if ?c then _ else _) = _ => destruct c
  end; injection H as _ <-;
    cbn [ClickRemover.dynamicHistory ClickRemover.handleClickDetected
         ClickRemover.withSpectrum];
    rewrite Ehist;
    (split; [| split; [eexists; reflexivity | intros; reflexivity]]);
    rewrite length_app; cbn [length];
    destruct (ClickRemover.dynamicHistory r);
    cbn [tl length] in *; lia.
Qed.

Lemma legacy_history_keeps_its_length_witness :
  exists r',
    length (ClickRemover.dynamicHistory r') = 10%nat.
Proof.
  destruct (detectClick_returns (ClickRemover.initialRemover 48000 true) 1
              (repeat (-30) frequencyBinCount) eq_refl
              (initialRemover_inModel (-30)))
    as (result & r' & E).
  exists r'.
  destruct (legacy_history_keeps_its_length
              (ClickRemover.initialRemover 48000 true) r' 1
              (repeat (-30) frequencyBinCount) result eq_refl E)
    as [Hlen _]; [cbn; lia |].
  rewrite Hlen. reflexivity.
Defined.


(** ** A lone impulse *)

Lemma nth_repeat_zero (n i : nat) : nth i (repeat 0 n) 0 = 0.
Proof. apply nth_all_zero, Forall_repeat_zero. Qed.

Lemma impulseFrame_length (position : nat) (v : R) :
  (position < frequencyBinCount)%nat ->
  length (impulseFrame position v) = frequencyBinCount.
Proof.
  intros H. unfold impulseFrame.
  rewrite length_app, repeat_length. cbn [length]. rewrite repeat_length.
  lia.
Qed.

Lemma nth_impulseFrame (position : nat) (v : R) (i : nat) :
  nth i (impulseFrame position v) 0
  = if (i =? position)%nat then v else 0.
Proof.
  unfold impulseFrame.
  destruct (Nat.lt_ge_cases i position) as [Hlt | Hge].
  - rewrite app_nth1 by (rewrite repeat_length; exact Hlt).
    rewrite nth_repeat_zero.
    replace (i =? position)%nat with false
      by (symmetry; apply Nat.eqb_neq; lia).
    reflexivity.
  - rewrite app_nth2 by (rewrite repeat_length; exact Hge).
    rewrite repeat_length.
    destruct (i - position)%nat as [| d] eqn:E.
    + replace (i =? position)%nat with true
        by (symmetry; apply Nat.eqb_eq; lia).
      reflexivity.
    + replace (i =? position)%nat with false
        by (symmetry; apply Nat.eqb_neq; lia).
      cbn [nth]. apply nth_repeat_zero.
Qed.

(** The analysis window of such a frame: its last 1024 samples. *)
Lemma analysisWindowOf_impulse (position : nat) (v : R) :
  (position < frequencyBinCount)%nat ->
  let window := analysisWindowOf (impulseFrame position v) in
  length window = 1024%nat
  /\ forall i, nth i window 0
               = if (3072 + i =? position)%nat then v else 0.
Proof.
  intros H. cbv zeta. unfold analysisWindowOf. cbv zeta.
  rewrite (impulseFrame_length position v H).
  change (frequencyBinCount - Nat.min 1024 frequencyBinCount)%nat
    with 3072%nat.
  split.
  - rewrite length_skipn, (impulseFrame_length position v H). reflexivity.
  - intros i. rewrite nth_skipn. apply nth_impulseFrame.
Qed.

(** A sum whose terms vanish away from one index. *)
Lemma sumOver_single (f : nat -> R) (q : nat) (n : nat) :
  forall start : nat,
    (forall i, i <> q -> f i = 0) ->
    sumOver (seq start n) f
    = if ((start <=? q) && (q <? start + n))%nat then f q else 0.
Proof.
  induction n as [| n IH]; intros start H.
  - cbn [seq]. replace ((start <=? q) && (q <? start + 0))%nat with false.
    + reflexivity.
    + symmetry. apply andb_false_iff.
      destruct (Nat.le_gt_cases start q);
        [right; apply Nat.ltb_ge; lia | left; apply Nat.leb_gt; lia].
  - cbn [seq]. rewrite sumOver_cons, (IH (S start) H).
    destruct (Nat.eq_dec start q) as [-> | Hne].
    + replace ((S q <=? q) && (q <? S q + n))%nat with false
        by (symmetry; apply andb_false_iff; left; apply Nat.leb_gt; lia).
      replace ((q <=? q) && (q <? q + S n))%nat with true
        by (symmetry; apply andb_true_iff; split;
            [apply Nat.leb_le | apply Nat.ltb_lt]; lia).
      lra.
    + rewrite (H start Hne).
      replace ((start <=? q) && (q <? start + S n))%nat
        with ((S start <=? q) && (q <? S start + n))%nat.
      * lra.
      * destruct (Nat.le_gt_cases (S start) q) as [Hle | Hgt].
        -- replace (S start <=? q)%nat with true
             by (symmetry; apply Nat.leb_le; lia).
           replace (start <=? q)%nat with true
             by (symmetry; apply Nat.leb_le; lia).
           replace (S start + n)%nat with (start + S n)%nat by lia.
           reflexivity.
        -- replace (S start <=? q)%nat with false
             by (symmetry; apply Nat.leb_gt; lia).
           replace (start <=? q)%nat with false
             by (symmetry; apply Nat.leb_gt; lia).
           reflexivity.
Qed.

(** A running maximum whose terms vanish away from one index. *)
Lemma running_max_single (g : nat -> R) (q : nat) (n : nat) :
  forall (start : nat) (acc : R),
    (forall i, i <> q -> g i = 0) -> 0 <= g q ->
    acc = 0 \/ acc = g q ->
    fold_left (fun m i => Rmax m (g i)) (seq start n) acc
    = if ((start <=? q) && (q <? start + n))%nat then g q else acc.
Proof.
  induction n as [| n IH]; intros start acc H Hq Hacc.
  - cbn [seq fold_left].
    replace ((start <=? q) && (q <? start + 0))%nat with false.
    + reflexivity.
    + symmetry. apply andb_false_iff.
      destruct (Nat.le_gt_cases start q);
        [right; apply Nat.ltb_ge; lia | left; apply Nat.leb_gt; lia].
  - cbn [seq fold_left].
    destruct (Nat.eq_dec start q) as [-> | Hne].
    + assert (E : Rmax acc (g q) = g q)
        by (apply Rmax_right; destruct Hacc; lra).
      rewrite E, (IH (S q) (g q) H Hq (or_intror eq_refl)).
      replace ((q <=? q) && (q <? q + S n))%nat with true
        by (symmetry; apply andb_true_iff; split;
            [apply Nat.leb_le | apply Nat.ltb_lt]; lia).
      destruct ((S q <=? q) && (q <? S q + n))%nat; reflexivity.
    + assert (E : Rmax acc (g start) = acc)
        by (rewrite (H start Hne); apply Rmax_left; destruct Hacc; lra).
      rewrite E, (IH (S start) acc H Hq Hacc).
      destruct (Nat.le_gt_cases (S start) q) as [Hle | Hgt].
      * replace (S start <=? q)%nat with true
          by (symmetry; apply Nat.leb_le; lia).
        replace (start <=? q)%nat with true
          by (symmetry; apply Nat.leb_le; lia).
        replace (S start + n)%nat with (start + S n)%nat by lia.
        reflexivity.
      * replace (S start <=? q)%nat with false
          by (symmetry; apply Nat.leb_gt; lia).
        replace (start <=? q)%nat with false
          by (symmetry; apply Nat.leb_gt; lia).
        reflexivity.
Qed.

(** The Levinson-Durbin recursion on a window without correlation between
    different samples: every reflection coefficient is zero, so the
    coefficients past the leading one stay zero. *)
Lemma nth_setNth_cases (i j : nat) (v d : R) (l : list R) :
  nth j (setNth i v l) d = v \/ nth j (setNth i v l) d = nth j l d.
Proof.
  destruct (Nat.eq_dec i j) as [<- | Hne];
    [| right; apply nth_setNth_other; exact Hne].
  revert l. induction i as [| i IH]; intros [| x l]; cbn [setNth nth];
    auto.
Qed.

Lemma coefficient_update_keeps_tail (i : nat) (indices : list nat) :
  forall a : list R,
    Forall (fun j => (1 <= j)%nat) indices ->
    (forall j, (1 <= j)%nat -> nth j a 0 = 0) ->
    forall j, (1 <= j)%nat ->
      nth j (fold_left
               (fun a j => setNth j (nth j a 0 - 0 * nth (i - j) a 0) a)
               indices a) 0 = 0.
Proof.
  induction indices as [| k l IH]; intros a Hk Ha j Hj; cbn [fold_left].
  - apply Ha. exact Hj.
  - apply Forall_cons_iff in Hk. destruct Hk as [Hk Hl].
    apply IH; [exact Hl | | exact Hj].
    intros j' Hj'.
    destruct (nth_setNth_cases k j' (nth k a 0 - 0 * nth (i - k) a 0) 0 a)
      as [E | E]; rewrite E; [rewrite (Ha k Hk); lra | apply Ha; exact Hj'].
Qed.

Lemma levinsonDurbin_uncorrelated (steps : nat) :
  forall (i : nat) (r a : list R) (e : R),
    (1 <= i)%nat ->
    (forall k, (1 <= k)%nat -> nth k r 0 = 0) ->
    (forall j, (1 <= j)%nat -> nth j a 0 = 0) ->
    forall j, (1 <= j)%nat ->
      nth j (fst (levinsonDurbin steps i r a e)) 0 = 0.
Proof.
  induction steps as [| steps IH]; intros i r a e Hi Hr Ha j Hj.
  - cbn [levinsonDurbin fst]. apply Ha. exact Hj.
  - cbn [levinsonDurbin]. cbv zeta.
    destruct (Rltb (Rabs e) 1e-10); [cbn [fst]; apply Ha; exact Hj |].
    assert (Hl : (nth i r 0
                  - sumOver (seq 1 (i - 1))
                      (fun j => nth j a 0 * nth (i - j) r 0)) / e = 0).
    { rewrite (Hr i Hi).
      rewrite (sumOver_ext _ _ (fun _ => 0)).
      - rewrite sumOver_constant. unfold Rdiv. lra.
      - intros k Hk. apply in_seq in Hk. rewrite (Ha k) by lia. lra. }
    rewrite Hl.
    destruct (Rleb 1.0 (Rabs 0)); [cbn [fst]; apply Ha; exact Hj |].
    apply IH; [lia | exact Hr | | exact Hj].
    intros j' Hj'.
    destruct (nth_setNth_cases i j' 0 0
                (fold_left
                   (fun a j => setNth j (nth j a 0 - 0 * nth (i - j) a 0) a)
                   (seq 1 (i - 1)) a)) as [E | E]; rewrite E;
      [reflexivity |].
    apply coefficient_update_keeps_tail;
      [apply seq_from_one | exact Ha | exact Hj'].
Qed.

(** On a window that is zero but for one sample the autocorrelation at
    every lag but zero vanishes, and the model predicts nothing: from the
    order on, the prediction error is the window itself. *)
Lemma computeLPCCoefficients_lone_sample (signal : list R) (q : nat)
    (v : R) (order : nat) :
  (forall i, nth i signal 0 = if (i =? q)%nat then v else 0) ->
  forall j, (1 <= j)%nat ->
    nth j (coefficients (computeLPCCoefficients signal order)) 0 = 0.
Proof.
  intros Hs j Hj.
  destruct signal as [| x rest].
  { destruct order as [| order].
    - rewrite computeLPCCoefficients_empty. cbn [coefficients].
      destruct j as [| [| j]]; [lia | reflexivity | reflexivity].
    - rewrite computeLPCCoefficients_short by (cbn [length]; lia).
      cbn [coefficients]. apply nth_repeat_zero. }
  rewrite computeLPCCoefficients_finite by discriminate.
  destruct (length (x :: rest) <? order * 2)%nat;
    [cbn [coefficients]; apply nth_repeat_zero |].
  cbv zeta.
  destruct (Rltb _ 1e-10); [cbn [coefficients]; apply nth_repeat_zero |].
  match goal with
  | |- context [levinsonDurbin order 1 ?r ?a ?e] =>
      pose proof (levinsonDurbin_uncorrelated order 1 r a e ltac:(lia)) as H
  end.
  destruct (levinsonDurbin order 1 _ _ _) as [a e].
  cbn [fst coefficients] in *. apply H; [| | exact Hj].
  - intros k Hk.
    destruct (Nat.lt_ge_cases k (order + 1)) as [Hlt | Hge];
      [| apply nth_overflow; rewrite length_map, length_seq; exact Hge].
    rewrite nth_map_seq by exact Hlt. cbn [Nat.add].
    unfold laggedProducts.
    rewrite sumOver_zero; [unfold Rdiv; lra |].
    intros i. rewrite (Hs i), (Hs (i + k)%nat).
    destruct (i =? q)%nat eqn:E1; [| lra].
    apply Nat.eqb_eq in E1.
    replace (i + k =? q)%nat with false
      by (symmetry; apply Nat.eqb_neq; lia).
    lra.
  - intros k Hk. rewrite nth_setNth_other by lia. apply nth_repeat_zero.
Qed.

Lemma predictionError_lone_sample (signal : list R) (q : nat) (v : R)
    (order : nat) :
  (forall i, nth i signal 0 = if (i =? q)%nat then v else 0) ->
  forall i,
    nth i (computePredictionError signal
             (coefficients (computeLPCCoefficients signal order))) 0
    = if (i <? order)%nat then 0 else nth i signal 0.
Proof.
  intros Hs i.
  destruct (Nat.lt_ge_cases i (length signal)) as [Hi | Hi].
  - rewrite nth_computePredictionError by exact Hi.
    rewrite computeLPCCoefficients_length.
    replace (order + 1 - 1)%nat with order by lia.
    destruct (i <? order)%nat; [reflexivity |].
    rewrite (sumOver_ext _ _ (fun _ => 0)).
    + rewrite sumOver_constant. lra.
    + intros j Hj. apply in_seq in Hj.
      rewrite (computeLPCCoefficients_lone_sample signal q v order Hs j)
        by lia.
      lra.
  - rewrite (nth_overflow signal) by exact Hi.
    rewrite nth_overflow;
      [destruct (i <? order)%nat; reflexivity |].
    unfold computePredictionError. cbv zeta.
    rewrite length_map, length_seq. exact Hi.
Qed.

(** The residual of a frame with a lone sample: the detector sees the
    sample when it lies in the last 1008 samples of the frame, and nothing
    otherwise. *)
Lemma residual_of_impulse (position : nat) (v : R) :
  (position < frequencyBinCount)%nat ->
  let e := predictionErrorOf (impulseFrame position v) in
  errorRMSOf e = (if (3088 <=? position)%nat then sqrt (v * v / 1008) else 0)
  /\ errorPeakOf e = (if (3088 <=? position)%nat then Rabs v else 0).
Proof.
  intros Hp. cbv zeta. unfold predictionErrorOf. cbv zeta.
  destruct (analysisWindowOf_impulse position v Hp) as [Hlen Hw].
  cbv zeta in Hlen, Hw.
  set (window := analysisWindowOf (impulseFrame position v)) in *.
  assert (Hs : forall i,
             nth i window 0
             = if (i =? position - 3072)%nat
               then (if (3072 <=? position)%nat then v else 0) else 0).
  { intros i. rewrite Hw.
    destruct (3072 <=? position)%nat eqn:E.
    - apply Nat.leb_le in E.
      destruct (3072 + i =? position)%nat eqn:E1.
      + apply Nat.eqb_eq in E1.
        replace (i =? position - 3072)%nat with true
          by (symmetry; apply Nat.eqb_eq; lia).
        reflexivity.
      + apply Nat.eqb_neq in E1.
        replace (i =? position - 3072)%nat with false
          by (symmetry; apply Nat.eqb_neq; lia).
        reflexivity.
    - apply Nat.leb_gt in E.
      replace (3072 + i =? position)%nat with false
        by (symmetry; apply Nat.eqb_neq; lia).
      destruct (i =? position - 3072)%nat; reflexivity. }
  pose proof (predictionError_lone_sample window _ _ lpcOrder Hs) as He.
  set (e := computePredictionError window _) in *.
  assert (Hlength : length e = 1024%nat).
  { unfold e, computePredictionError. cbv zeta.
    rewrite length_map, length_seq. exact Hlen. }
  assert (Hoff : forall i, i <> (position - 3072)%nat -> nth i e 0 = 0).
  { intros i Hi. rewrite He, Hs.
    replace (i =? position - 3072)%nat with false
      by (symmetry; apply Nat.eqb_neq; exact Hi).
    destruct (i <? lpcOrder)%nat; reflexivity. }
  unfold errorRMSOf, errorPeakOf. rewrite Hlength.
  change (1024 - lpcOrder)%nat with 1008%nat.
  replace (INR 1024 - INR lpcOrder) with 1008
    by (rewrite <- minus_INR by (unfold lpcOrder; lia);
        change (1024 - lpcOrder)%nat with 1008%nat;
        rewrite INR_IZR_INZ; reflexivity).
  rewrite (sumOver_single _ (position - 3072) 1008 lpcOrder)
    by (intros i Hi; rewrite (Hoff i Hi); lra).
  rewrite (running_max_single (fun i => Rabs (nth i e 0))
             (position - 3072) 1008 lpcOrder 0)
    by (try (intros i Hi; rewrite (Hoff i Hi); apply Rabs_R0);
        try apply Rabs_pos; left; reflexivity).
  destruct (3088 <=? position)%nat eqn:E.
  - apply Nat.leb_le in E.
    replace ((lpcOrder <=? position - 3072)
             && (position - 3072 <? lpcOrder + 1008))%nat with true
      by (symmetry; apply andb_true_iff; unfold lpcOrder,
            frequencyBinCount in *; split;
          [apply Nat.leb_le | apply Nat.ltb_lt]; lia).
    rewrite He, Hs, Nat.eqb_refl.
    replace (position - 3072 <? lpcOrder)%nat with false
      by (symmetry; apply Nat.ltb_ge; unfold lpcOrder; lia).
    replace (3072 <=? position)%nat with true
      by (symmetry; apply Nat.leb_le; lia).
    split; reflexivity.
  - apply Nat.leb_gt in E.
    replace ((lpcOrder <=? position - 3072)
             && (position - 3072 <? lpcOrder + 1008))%nat with false
      by (symmetry; apply andb_false_iff; left; apply Nat.leb_gt;
          unfold lpcOrder; lia).
    unfold Rdiv. rewrite Rmult_0_l, sqrt_0. split; reflexivity.
Qed.

(** The loudness of such a frame, heard after silence. *)
Lemma sumFiniteSquares_zeros (n : nat) (acc : R) :
  fold_left (fun rms x => if isFinite x then (rms + x * x)%js else rms)
    (map Fin (repeat 0 n)) (Fin acc) = Fin acc.
Proof.
  induction n as [| n IH]; [reflexivity |].
  cbn [repeat map fold_left isFinite JS.add JS.mul].
  replace (acc + 0 * 0) with acc by lra. exact IH.
Qed.

Lemma sumFiniteSquares_impulse (position : nat) (v : R) :
  sumFiniteSquares (map Fin (impulseFrame position v)) = Fin (v * v).
Proof.
  unfold sumFiniteSquares, impulseFrame.
  rewrite map_app, fold_left_app, sumFiniteSquares_zeros.
  cbn [map fold_left isFinite JS.add JS.mul].
  replace (0 + v * v) with (v * v) by lra.
  apply sumFiniteSquares_zeros.
Qed.

Lemma log10_small : log10 (1 / 64) <= -1.5.
Proof.
  assert (H : log10 (1 / 64) + log10 (1 / 64) <= -3); [| lra].
  assert (E : log10 (1 / 64) + log10 (1 / 64) = log10 (1 / 4096)).
  { unfold log10. rewrite <- Rdiv_plus_distr, <- ln_mult by lra.
    f_equal. f_equal. lra. }
  rewrite E.
  replace (-3) with (- INR 3) by (cbn; lra).
  rewrite <- log10_inv_pow. apply log10_le; lra.
Qed.

Lemma loudnessOf_impulse (position : nat) (v : R) :
  (position < frequencyBinCount)%nat -> v <> 0 -> Rabs v <= 1 ->
  exists db : R,
    loudnessOf (map Fin (impulseFrame position v)) = Fin db
    /\ -200 <= db <= -30.
Proof.
  intros Hp Hv Hle. unfold loudnessOf. cbv zeta.
  rewrite sumFiniteSquares_impulse, length_map,
    (impulseFrame_length position v Hp).
  replace (INR frequencyBinCount) with 4096
    by (rewrite INR_IZR_INZ; reflexivity).
  cbn [JS.div]. rewrite (Reqb_false 4096 0) by lra.
  assert (Hsq : 0 < v * v <= 1).
  { unfold Rabs in Hle. destruct (Rcase_abs v); nra. }
  cbn [Math_sqrt]. rewrite (Rltb_false (v * v / 4096) 0) by lra.
  assert (Hr : 0 < sqrt (v * v / 4096) <= 1 / 64).
  { split; [apply sqrt_lt_R0; lra |].
    replace (1 / 64) with (sqrt ((1 / 64) * (1 / 64)))
      by (apply sqrt_square; lra).
    apply sqrt_le_1_alt. lra. }
  set (rms := sqrt (v * v / 4096)) in *.
  cbn [isFinite JS.gt JS.lt andb]. rewrite (Rltb_true 0 rms) by lra.
  rewrite Math_max_finite.
  assert (Hm : 1e-10 <= Rmax rms 1e-10 <= 1 / 64)
    by (split; [apply Rmax_r | apply Rmax_lub; lra]).
  cbn [Math_log10].
  rewrite (Rltb_false _ 0), (Reqb_false _ 0) by lra.
  cbn [JS.mul]. eexists. split; [reflexivity |].
  pose proof log10_floor. pose proof log10_small.
  assert (log10 1e-10 <= log10 (Rmax rms 1e-10)) by (apply log10_le; lra).
  assert (log10 (Rmax rms 1e-10) <= log10 (1 / 64))
    by (apply log10_le; lra).
  lra.
Qed.

Lemma sortAscending_one_sound (db : R) (n : nat) :
  fold_right insertSorted [Fin db] (repeat (Fin (-60)) n)
  = if Rltb db (-60) then Fin db :: repeat (Fin (-60)) n
    else repeat (Fin (-60)) n ++ [Fin db].
Proof.
  induction n as [| n IH]; [destruct (Rltb db (-60)); reflexivity |].
  cbn [repeat fold_right]. rewrite IH.
  rcases db (-60).
  - cbn [insertSorted]. rewrite sub_finite. cbn [JS.gt JS.lt].
    rewrite (Rltb_true 0 (-60 + - db)) by lra.
    destruct n as [| n]; [reflexivity |].
    cbn [repeat insertSorted]. rewrite sub_finite. cbn [JS.gt JS.lt].
    rewrite (Rltb_false 0 (-60 + - -60)) by lra. reflexivity.
  - destruct n as [| n].
    + cbn [repeat app insertSorted]. rewrite sub_finite.
      cbn [JS.gt JS.lt]. rewrite (Rltb_false 0 (-60 + - db)) by lra.
      reflexivity.
    + cbn [repeat app insertSorted]. rewrite sub_finite.
      cbn [JS.gt JS.lt].
      rewrite (Rltb_false 0 (-60 + - -60)) by lra. reflexivity.
Qed.

Lemma backgroundNoiseOf_one_sound (db : R) :
  backgroundNoiseOf (repeat (Fin (-60)) 29 ++ [Fin db]) = Fin (-60).
Proof.
  unfold backgroundNoiseOf, sortAscending. cbv zeta.
  rewrite fold_right_app. cbn [fold_right insertSorted].
  rewrite sortAscending_one_sound.
  destruct (Rltb db (-60)); reflexivity.
Qed.

Lemma updateDynamicLoudness_impulse (l : LoudnessState) (position : nat)
    (v : R) :
  quietLoudness l ->
  (position < frequencyBinCount)%nat -> v <> 0 -> Rabs v <= 1 ->
  exists db ratio threshold : R,
    updateDynamicLoudness l (map Fin (impulseFrame position v))
    = ({| loudnessDb := Fin db; snr := Fin ratio;
          infoAdaptiveThreshold := Fin threshold |},
       {| loudnessHistory := repeat (Fin (-60)) 29 ++ [Fin db];
          adaptiveThreshold := Fin threshold;
          backgroundNoiseLevel := Fin (-60);
          signalToNoiseRatio := Fin ratio |})
    /\ 0.1 <= ratio <= 30 /\ 0.21 < threshold < 0.44.
Proof.
  intros Hl Hp Hv Hle. unfold updateDynamicLoudness. cbv zeta.
  rewrite Hl.
  destruct (loudnessOf_impulse position v Hp Hv Hle) as (db & -> & Hdb).
  assert (Hpush : pushLoudness (repeat (Fin (-60)) 30) (Fin db)
                  = repeat (Fin (-60)) 29 ++ [Fin db]) by reflexivity.
  rewrite Hpush, backgroundNoiseOf_one_sound.
  assert (Hsnr : signalToNoiseOf (Fin db) (Fin (-60))
                 = Fin (Rmax 0.1 (Rmin 60 (db + - -60)))).
  { unfold signalToNoiseOf. cbv zeta. cbn [isFinite].
    rewrite sub_finite, Math_min_finite, Math_max_finite. reflexivity. }
  rewrite Hsnr.
  set (ratio := Rmax 0.1 (Rmin 60 (db + - -60))).
  assert (Hratio : 0.1 <= ratio <= 30).
  { split; [apply Rmax_l |].
    apply Rmax_lub; [lra |].
    eapply Rle_trans; [apply Rmin_r | lra]. }
  rewrite adaptiveThresholdOf_formula by lra.
  exists db, ratio. eexists. split; [reflexivity |]. split; [exact Hratio |].
  unfold Thresholds.confidenceThreshold.
  assert (Hg : 1.5 <= Rmax 1.0 (3.0 - ratio / 20) <= 2.995).
  { split; [eapply Rle_trans; [| apply Rmax_r]; lra |].
    apply Rmax_lub; lra. }
  split; [apply div_strictly_above; lra | apply div_strictly_below; lra].
Qed.

(** Such a frame has no periodicity: its autocorrelation vanishes at every
    lag but zero. *)
Lemma periodicity_of_impulse (position : nat) (v : R) :
  (maxOfList (skipn 10 (calculateAutocorrelation (impulseFrame position v)
                          50)) >? Fin 0.3)%js = false.
Proof.
  apply maxOfList_zeros. unfold calculateAutocorrelation.
  rewrite skipn_map, skipn_seq. apply Forall_map, Forall_forall.
  intros lag Hlag. apply in_seq in Hlag.
  destruct (lag <? _)%nat; [| reflexivity].
  rewrite sumOver_zero; [unfold Rdiv; lra |].
  intros i. rewrite !nth_impulseFrame.
  destruct (i =? position)%nat eqn:E1; [| lra].
  apply Nat.eqb_eq in E1.
  replace (i + lag =? position)%nat with false
    by (symmetry; apply Nat.eqb_neq; lia).
  lra.
Qed.

Lemma checkSpeechProtection_impulse (a : Analyser) (position : nat) (v : R)
    (freqData : list R) (e : BandEnergies) :
  detectFormantStructure a freqData <= 0.4 ->
  checkSpeechProtection a (impulseFrame position v) freqData e <= 0.3.
Proof.
  intros Hf. unfold checkSpeechProtection. cbv zeta.
  rewrite periodicity_of_impulse, (Rltb_false 0.4 _ Hf).
  cbn [fold_left]. rewrite (Rmax_left 0 0) by lra.
  destruct (Rltb _ _); [rewrite Rmax_right by lra | rewrite Rmax_left by lra];
    lra.
Qed.

Lemma detectFormantStructure_rate (a b : Analyser) (freqData : list R) :
  sampleRate a = sampleRate b ->
  detectFormantStructure a freqData = detectFormantStructure b freqData.
Proof.
  intros H. unfold detectFormantStructure. rewrite H. reflexivity.
Qed.

Lemma initFreqBinCache_rate (a : Analyser) :
  sampleRate (initFreqBinCache a) = sampleRate a.
Proof.
  unfold initFreqBinCache.
  destruct (freqBinCache a); [destruct (_ =? _)%Z |]; reflexivity.
Qed.

(** What the analysis of an audible impulse holds. *)
Lemma analyseFrame_impulse (a : Analyser) (info : LoudnessInfo)
    (ratio threshold : R) (position : nat) (v : R) (freqData : list R) :
  (3088 <= position < frequencyBinCount)%nat ->
  detectFormantStructure a freqData <= 0.4 ->
  let fa :=
    fst (analyseFrame a info ratio threshold (impulseFrame position v)
           freqData) in
  measured fa
  /\ residualPeak fa = Rabs v /\ Rabs v <= peakAmplitude fa
  /\ protection fa <= 0.3
  /\ signalToNoise fa = ratio /\ adaptive fa = threshold.
Proof.
  intros Hp Hf. cbv zeta.
  split; [apply analyseFrame_measured |].
  unfold analyseFrame. cbv zeta.
  cbn [fst residualPeak peakAmplitude protection signalToNoise adaptive].
  destruct (residual_of_impulse position v (proj2 Hp)) as [_ Hpeak].
  cbv zeta in Hpeak. rewrite Hpeak.
  replace (3088 <=? position)%nat with true
    by (symmetry; apply Nat.leb_le; apply Hp).
  split; [reflexivity |].
  split.
  - unfold maxAmplitudeOf, impulseFrame.
    rewrite fold_left_app. cbn [fold_left].
    eapply Rle_trans; [apply Rmax_r | apply running_max_from].
  - split; [| split; reflexivity].
    apply checkSpeechProtection_impulse.
    erewrite detectFormantStructure_rate; [exact Hf |].
    rewrite bandEnergiesOf_state.
    cbn [storeSpectrum withBuffers sampleRate].
    rewrite initFreqBinCache_rate. reflexivity.
Qed.

(** At the default sensitivity such an analysis decides a click. *)
Lemma decision_on_impulse (fa : FrameAnalysis) (peak : R) :
  measured fa ->
  residualPeak fa = peak -> peak <= peakAmplitude fa -> 0.108 <= peak ->
  0.1 <= signalToNoise fa -> adaptive fa < 0.44 -> protection fa <= 0.3 ->
  methodConfidence (lpcOutlier 1.0 fa) = 2.0
  /\ isClickDetectedOf 1.0 0.0 fa = true
  /\ 0.63 <= adjustedConfidenceOf 1.0 0.0 fa.
Proof.
  intros Hm Hpeak Hamp Hv Hsnr Had Hprot.
  assert (Hlpc : methodConfidence (lpcOutlier 1.0 fa) = 2.0).
  { cbn [lpcOutlier methodConfidence]. unfold lpcConfidenceOf. cbv zeta.
    rewrite Hpeak.
    assert (Ht : 0 < adaptiveErrorThreshold 1.0 (signalToNoise fa) <= 0.018).
    { unfold adaptiveErrorThreshold, Thresholds.lpcError. cbv zeta.
      rewrite Rpower_default_sensitivity.
      assert (1 <= Rmax 1.0 (signalToNoise fa / 10))
        by (eapply Rle_trans; [| apply Rmax_l]; lra).
      split; [apply div_strictly_above; lra | apply div_below; lra]. }
    rewrite (Rmin_left 2.0 (peak / _)) by (apply div_above; lra).
    apply Rmax_right, Rmin_l. }
  assert (Hspike : amplitudeSpikeOf 1.0 fa = true).
  { unfold amplitudeSpikeOf, amplitudeThresholdOf. cbv zeta.
    rewrite Rpower_default_sensitivity. apply Rltb_true.
    assert (1 <= Rmax 1.0 (signalToNoise fa / 20))
      by (eapply Rle_trans; [| apply Rmax_l]; lra).
    assert (0.1 / 1 / Rmax 1.0 (signalToNoise fa / 20) <= 0.1)
      by (apply div_below; lra).
    lra. }
  assert (Hfinal : 0.775 <= finalConfidenceOf 1.0 0.0 fa).
  { rewrite finalConfidenceOf_weighted_sum, Hlpc.
    assert (H5 : methodConfidence (amplitudeSpikeMethod 1.0 fa) = 1.5)
      by (cbn [amplitudeSpikeMethod methodConfidence]; rewrite Hspike;
          reflexivity).
    rewrite H5.
    pose proof (detectionMethods_range 1.0 fa Hm) as H.
    unfold detectionMethods in H.
    apply Forall_cons_iff in H. destruct H as [_ H].
    apply Forall_cons_iff in H. destruct H as [H2 H].
    apply Forall_cons_iff in H. destruct H as [H3 H].
    apply Forall_cons_iff in H. destruct H as [H4 _].
    lra. }
  assert (Hadj : 0.63 <= adjustedConfidenceOf 1.0 0.0 fa).
  { unfold adjustedConfidenceOf. cbv zeta.
    destruct Hm as (_ & _ & _ & _ & _ & _ & _ & Hp0 & _). nra. }
  split; [exact Hlpc |]. split; [| exact Hadj].
  unfold isClickDetectedOf. cbv zeta.
  assert (Hdyn : dynamicThresholdOf 1.0 fa < 0.44).
  { unfold dynamicThresholdOf. cbv zeta.
    eapply Rle_lt_trans; [apply Rmin_l | exact Had]. }
  rewrite (Rltb_true (dynamicThresholdOf 1.0 fa)) by lra. reflexivity.
Qed.

(** The repair of a click under the default configuration: the seven
    automation calls of the smooth ramp, and one more click counted. *)
Lemma handleMouthClickDetected_default_repair (st : State) (t : R)
    (c : jsnum) (fallback : option nat) :
  params st = defaultParams ->
  exists calls,
    handleMouthClickDetected st t c None fallback
    = Returned (withGain st calls (S (clickCount st)))
    /\ length calls = 7%nat.
Proof.
  intros Hp. unfold handleMouthClickDetected. cbv zeta. rewrite Hp.
  unfold wideningDuration. cbv zeta.
  cbn [clickWidening mode defaultParams String.eqb Ascii.eqb Bool.eqb].
  jseval. cbn [performCalls]. eexists. split; reflexivity.
Qed.

(** X29.  The LPC analyser reads only the last 1024 samples of a frame of
    4096 and ignores the first 16 residuals of that window.  For a frame
    that is silent but for one sample [v], the residual peak is [|v|] and
    the residual RMS is [sqrt (v^2 / 1008)] when the sample lies at index
    3088 or later; at an earlier index both are zero, and the LPC method
    reports confidence 0 and no detection at every sensitivity. *)
Theorem lpc_sees_the_last_1008_samples (a : Analyser) (info : LoudnessInfo)
    (ratio threshold : R) (position : nat) (v : R) (freqData : list R) :
  (position < frequencyBinCount)%nat ->
  let fa :=
    fst (analyseFrame a info ratio threshold (impulseFrame position v)
           freqData) in
  ((3088 <= position)%nat ->
   residualRMS fa = sqrt (v * v / 1008) /\ residualPeak fa = Rabs v)
  /\ ((position < 3088)%nat ->
      residualRMS fa = 0 /\ residualPeak fa = 0
      /\ forall s : R,
           methodConfidence (lpcOutlier s fa) = 0
           /\ methodDetected (lpcOutlier s fa) = false).
Proof.
  intros Hp. cbv zeta.
  destruct (residual_of_impulse position v Hp) as [Hrms Hpeak].
  cbv zeta in Hrms, Hpeak.
  assert (E1 : residualRMS
                 (fst (analyseFrame a info ratio threshold
                         (impulseFrame position v) freqData))
               = errorRMSOf (predictionErrorOf (impulseFrame position v)))
    by reflexivity.
  assert (E2 : residualPeak
                 (fst (analyseFrame a info ratio threshold
                         (impulseFrame position v) freqData))
               = errorPeakOf (predictionErrorOf (impulseFrame position v)))
    by reflexivity.
  rewrite Hrms in E1. rewrite Hpeak in E2.
  generalize dependent (fst (analyseFrame a info ratio threshold
                               (impulseFrame position v) freqData)).
  intros fa E1 E2. split.
  - intros H. apply Nat.leb_le in H. rewrite H in E1, E2.
    split; assumption.
  - intros H. apply Nat.leb_gt in H. rewrite H in E1, E2.
    split; [exact E1 |]. split; [exact E2 |]. intros s.
    destruct (isClickDetectedOf_without_residual s 0 fa E1 E2)
      as (H1 & H2 & _).
    split; assumption.
Qed.

Lemma lpc_sees_the_last_1008_samples_witness :
  let fa :=
    fst (analyseFrame (analyser (initialState 48000 true))
           (mkLoudness (Fin (-60)) (Fin 0.1) (Fin 0.35)) 0.1 0.35
           (impulseFrame 2000 1) (repeat 0 frequencyBinCount)) in
  residualRMS fa = 0 /\ residualPeak fa = 0.
Proof.
  cbv zeta.
  destruct (lpc_sees_the_last_1008_samples
              (analyser (initialState 48000 true))
              (mkLoudness (Fin (-60)) (Fin 0.1) (Fin 0.35)) 0.1 0.35
              2000 1 (repeat 0 frequencyBinCount)) as [_ H].
  - unfold frequencyBinCount. lia.
  - destruct H as (H1 & H2 & _); [lia |]. split; assumption.
Defined.

(** X30.  An enabled instance with the default configuration that has only
    heard silence, with a free rate limiter and an audio graph that takes
    the automation calls, repairs a lone impulse: a frame that is silent
    but for one sample of magnitude between 0.108 and 1 in its last 1008
    samples, under a spectrum without formant structure, is reported as a
    click with LPC confidence 2 and a confidence of at least 0.63; the
    click is counted and the seven calls of the gain ramp are scheduled. *)
Theorem lone_impulse_is_repaired (st : State) (env : Env) (position : nat)
    (v : R) (freqData : list R) :
  processingEnabled st = true -> params st = defaultParams ->
  quietLoudness (loudnessState st) ->
  limiterFree st (now env) -> gainFault env = None ->
  frameFits (analyser st) (impulseFrame position v) freqData = true ->
  (3088 <= position < frequencyBinCount)%nat ->
  0.108 <= Rabs v <= 1 ->
  detectFormantStructure (analyser st) freqData <= 0.4 ->
  exists r st',
    detectMouthClick st env (impulseFrame position v) freqData
    = Some (Returned (r, st'))
    /\ isClick r = true /\ lpcConfidence r = 2 /\ 0.63 <= confidence r
    /\ clickCount st' = S (clickCount st)
    /\ length (gainTimeline st') = (length (gainTimeline st) + 7)%nat.
Proof.
  intros Hen Hp Hl (Hhist & Hmax & Hsup & Hgap) Hfault Hfit Hpos Hv Hf.
  assert (Hv0 : v <> 0).
  { intros ->. rewrite Rabs_R0 in Hv. lra. }
  destruct (updateDynamicLoudness_impulse (loudnessState st) position v Hl
              (proj2 Hpos) Hv0 (proj2 Hv))
    as (db & ratio & threshold & EU & Hratio & Ht).
  unfold detectMouthClick. rewrite Hen, Hfit. cbn [negb]. cbv zeta.
  rewrite EU, Hp.
  cbn [fst snd snr adaptiveThreshold sensitivity frequencySkew
       defaultParams].
  rdecide. cbn [negb].
  destruct (analyseFrame_impulse (analyser st)
              (mkLoudness (Fin db) (Fin ratio) (Fin threshold)) ratio
              threshold position v freqData Hpos Hf)
    as (Hm & Hpeak & Hamp & Hprot & Hsnr & Hth).
  cbv zeta in Hm, Hpeak, Hamp, Hprot, Hsnr, Hth.
  generalize dependent
    (analyseFrame (analyser st)
       (mkLoudness (Fin db) (Fin ratio) (Fin threshold)) ratio threshold
       (impulseFrame position v) freqData).
  intros analysed Hm Hpeak Hamp Hprot Hsnr Hth.
  destruct (decision_on_impulse (fst analysed) (Rabs v) Hm Hpeak Hamp
              (proj1 Hv) ltac:(lra) ltac:(lra) Hprot)
    as (Hlpc & Hdet & Hconf).
  rewrite Hdet.
  rewrite (shouldProcessClick_admits _ (now env) _ 1.0);
    [ | cbn [params withAnalyser withLoudnessState]; rewrite Hp; reflexivity
      | lra
      | cbn [limiter withAnalyser withLoudnessState]; exact Hsup
      | cbn [limiter withAnalyser withLoudnessState]; rewrite Hhist;
        exact Hmax
      | cbn [limiter withAnalyser withLoudnessState]; exact Hgap
      | cbn [limiter withAnalyser withLoudnessState];
        rewrite Hhist, Rpower_default_sensitivity; cbn [recent filter length
          INR]; unfold Rdiv; rewrite Rmult_0_l; lra ].
  cbn [fst snd]. rewrite Hfault.
  match goal with
  | |- context [handleMouthClickDetected ?s ?t ?c None ?fb] =>
      destruct (handleMouthClickDetected_default_repair s t c fb Hp)
        as (calls & -> & Hcalls)
  end.
  eexists. eexists. split; [reflexivity |].
  cbn [isClick lpcConfidence confidence clickCount gainTimeline withGain
       withRateLimiter withLimiter withAnalyser withLoudnessState].
  split; [reflexivity |]. split; [rewrite Hlpc; lra |].
  split; [exact Hconf |]. split; [reflexivity |].
  rewrite length_app, Hcalls. reflexivity.
Qed.

Lemma lone_impulse_is_repaired_witness :
  exists r st',
    detectMouthClick (initialState 48000 true) (mkEnv 1000 0 None None)
      (impulseFrame 3500 1) (repeat 0 frequencyBinCount)
    = Some (Returned (r, st'))
    /\ isClick r = true /\ lpcConfidence r = 2 /\ 0.63 <= confidence r
    /\ clickCount st' = 1%nat
    /\ length (gainTimeline st') = 7%nat.
Proof.
  apply (lone_impulse_is_repaired (initialState 48000 true)
           (mkEnv 1000 0 None None) 3500 1 (repeat 0 frequencyBinCount)).
  - reflexivity.
  - reflexivity.
  - reflexivity.
  - unfold limiterFree. cbn [initialState limiter clickHistory
      maxClicksPerSecond clickSuppressionTime minClickInterval lastClickTime
      now].
    repeat split; try lia; lra.
  - reflexivity.
  - unfold frameFits.
    rewrite impulseFrame_length by (unfold frequencyBinCount; lia).
    cbn [initialState analyser previousSpectrum sampleRate bufferSize].
    rewrite !repeat_length, Nat.eqb_refl. reflexivity.
  - unfold frequencyBinCount. lia.
  - rewrite Rabs_R1. lra.
  - rewrite detectFormantStructure_flat by reflexivity. lra.
Defined.
